(* ===== verification/_CoqProject ===== *)
-Q . S2P
Prelude.v
Layout.v
State.v
Mem.v
Spinlock.v
Segments.v
Console.v
Kalloc.v
Vm.v
PageTable.v
AddressSpace.v
Unmap.v
KernelMap.v
CopyUvm.v
AllocUvm.v
VmProps.v
CString.v
Sched.v
Bytes.v
Sleeplock.v
Ready.v
Ports.v
Apic.v
Mp.v
Disk.v
Ide.v
IdeSpec.v
Boot.v
Bio.v
Lru.v
Bcache.v
BcacheSpec.v
BlockStore.v
Log.v
LogSpec.v
Crash.v
Transaction.v
Fs.v
Inode.v
Dinode.v
ConsoleDev.v
Kbd.v
Screen.v
Path.v
Dir.v
FsSpec.v
FileIO.v
Mkfs.v
MkfsSpec.v
MkfsImage.v
MkfsMain.v
Pipe.v
PipeSpec.v
File.v
Filewrite.v
Proc.v
Usermem.v
Exec.v
Sysproc.v
Sysfile.v
Syscall.v
Trap.v
ProcSpec.v
Fork.v
Asm.v
Startup.v
User.v
Ulib.v
Printf.v
Grep.v
Utils.v
Usertests.v
Umalloc.v
Sh.v
ShRun.v
ShParse.v
ShPrint.v
