(* ===== verification/Prelude.v ===== *)
(** * A verification of xv6 with the stack at the top of user space

    xv6 is a small Unix-like kernel for 32-bit x86 multiprocessors, in C and
    assembly, with a C library, a shell, user programs and the host program
    that builds its disk image.  This version places the user stack just below
    the kernel half of the address space and lets it grow on page faults.
    The library models the program in [src/xv6-lab2] by Rocq functions and
    proves its components correct.

    ** The program and its parts

    The boot sector (bootasm.S, bootmain.c) loads the kernel from the disk;
    entry.S turns on paging and calls [main] of main.c, which initializes the
    page allocator (kalloc.c), the kernel's page table (vm.c), the interrupt
    hardware (mp.c, lapic.c, ioapic.c, picirq.c), the console (console.c,
    kbd.c, uart.c), the disk driver (ide.c, or memide.c) and the process table
    (proc.c), and starts the other processors (entryother.S).  A process
    enters the kernel through the gates of trap.c and the stubs of vectors.S,
    trapasm.S and usys.S; [trap] and [syscall] call the system calls
    (sysproc.c, sysfile.c), which work on processes (proc.c, exec.c), address
    spaces (vm.c), open files and pipes (file.c, pipe.c).  A file operation goes down
    through inodes and directories (fs.c), the log (log.c) and the buffer
    cache (bio.c) to the disk.  Locks are spin locks (spinlock.c), which turn
    interrupts off, and sleep locks (sleeplock.c), built on [sleep] and
    [wakeup].

    ** How it is modelled

    A C function of the kernel is a Rocq function of the same name in the
    monad [K] of the file State: a computation on [kstate], the record of all
    global variables, with the outcomes of [Prelude.outcome]: [Ret] with a
    result, [Panic] with the message, [Spin] (a lock that another processor
    holds), [Sleep] (a process that is never resumed), [Undef] (undefined
    behaviour of C) and [NoFuel].  Structures are records with the fields of
    the headers, integers are [Z] with the wrap-around of their width written
    out ([u32], [s32], [u16], [u8]), pointers into static arrays are indices
    with [None] for NULL, and what [kalloc] hands out lives in a memory of
    words ([Mem]), so page tables, kernel stacks, trap frames and pipes are
    words at the addresses the code computes.  Disk blocks are lists of bytes.
    User programs are trees of system calls ([User]), the assembly is
    instruction lists run on small machines ([Asm], [Startup]), [mkfs] runs in
    the same monad over its image ([Mkfs]).

    Parameters stand for what is not in the repository: [KernelImage] for the
    addresses the linker assigns, [Env] for what the machine does while a
    process is switched out, [Device] for the answers of the hardware,
    [Host] for the files of the machine that runs [mkfs], [DiskDriver] for the
    driver that is linked (both drivers are instances), [PageAllocator] for the
    promise of kalloc.c to its clients (discharged in [Kalloc]).  Every theorem
    with hypotheses has a witness that instantiates them with a concrete
    state.

    ** The files

    Foundations: [Prelude] (the monad, its tactics, 32-bit integers), [Layout]
    (param.h, memlayout.h, mmu.h, fs.h and other constants), [State] (proc.h,
    file.h, buf.h, spinlock.h and the global variables), [Mem] and [Bytes]
    (memory, [memset], [memmove]; byte arrays), [CString] (string.c).

    Processors: [Spinlock] (spinlock.c; module [SMP] is the code for any number
    of processors as a step relation), [Sched] ([sched], [sleep], [wakeup]),
    [Sleeplock], [Ready] (code that runs uncontended), [Segments] (descriptors,
    [seginit], [tvinit]), [Ports] (I/O), [Apic], [Mp].

    Memory: [Kalloc]; [Vm] (every function of vm.c but [loaduvm], which is in
    [Exec]); [PageTable] (the two-level tables as a map, and who owns which
    page); [AddressSpace], [Unmap], [KernelMap], [CopyUvm], [AllocUvm] and
    [VmProps] with the theorems.

    Disk and files: [Disk] (the driver interface, memide.c), [Ide] and
    [IdeSpec]; [Bio] (bio.c) with [Lru], [Bcache], [BcacheSpec] and
    [BlockStore]; [Log] (log.c) with [LogSpec], [Crash] and [Transaction];
    [Fs], [Path] and [Dir] (fs.c) with [Inode], [Dinode], [FsSpec] and
    [FileIO]; [Pipe] with [PipeSpec]; [File] (file.c) with [Filewrite]; [Mkfs]
    (mkfs.c) with [MkfsSpec], [MkfsImage] and [MkfsMain].

    Console: [Console] and [ConsoleDev] (console.c), [Kbd], [Screen] (uart.c
    and the display).

    Processes and system calls: [Proc] (proc.c), [Usermem] and [Syscall]
    (syscall.c), [Exec], [Sysproc] (sysproc.c, shm.c), [Sysfile], [Trap];
    [ProcSpec] and [Fork] with the theorems on [allocproc] and [fork]; [Asm]
    (swtch.S, trapasm.S, vectors.pl, usys.S, initcode.S); [Boot] (bootmain.c)
    and [Startup] (main.c, entry.S, entryother.S, bootasm.S).

    User space: [User] (system calls, programs and their weakest
    preconditions), [Ulib], [Printf], [Umalloc], [Grep], [Utils] (one module
    per small program), [Usertests], [Sh] (sh.c) with [ShRun], [ShParse] and
    [ShPrint].

    ** What the theorems show

    - Crash safety: a transaction of log.c is atomic whatever prefix of its
      disk writes survives, and recovery may itself be interrupted
      ([Transaction]); [filewrite], chunk by chunk, leaves after a crash the
      file with a prefix of the bytes ([Filewrite]).
    - Files: the buffer cache with its recycling refines an array of blocks
      ([BlockStore]); [writei] splices bytes into a file, allocating blocks,
      and [readi] returns them ([FileIO]); [mkfs] builds an image with these
      files ([MkfsMain]); a pipe carries a stream of any length ([PipeSpec]);
      the IDE driver serves its queue in order ([IdeSpec]).
    - Memory: no page is lost or handed out twice ([Kalloc]); the kernel half
      is mapped as [kmap] says, [allocuvm], [freevm] and [copyuvm] do what
      their callers rely on, on the error paths as well ([VmProps],
      [CopyUvm]).
    - Processes: spin locks exclude ([Spinlock.SMP]); [fork] duplicates the
      caller ([Fork]), the child enters user mode with 0 in [eax], traps and
      context switches restore what they saved, system call stubs return the
      result ([Asm]); the tables of segments and gates mean what they should
      ([Segments]).
    - Start-up: the boot loader loads the ELF image ([Boot]), the other
      processors come up, each on its stack ([Startup]), the tables of the BIOS
      are read, and an unknown entry makes [mpinit] loop ([Mp]).
    - Devices: the screen shows the text ([Screen]), scan codes become
      characters ([Kbd]), the clock is read consistently ([Apic]).
    - User programs: the shell parses what it prints, never leaves its line and
      starts the right programs with the right descriptors ([ShPrint],
      [ShParse]); [malloc] and [free] keep the ring of free blocks ([Umalloc]);
      [grep] decides its language and filters lines ([Grep]); [wc] and [cat]
      work however reads are split ([Utils]); [atoi] inverts [printint]
      ([Printf]).

    ** Bounds and fuel

    Recursion that is not structural takes fuel, and running out of it is
    [NoFuel] (in programs [Hung]), which a theorem that claims a result
    excludes.  Loops over arrays, blocks and bytes have at least their trip
    count as fuel: [readi] and [writei] the number of blocks and one for each
    end, [filewrite] the number of chunks, [iappend] the number of bytes, the
    searches of the bitmap, of the inodes and of a directory their size, those
    of the buffer list NBUF.  A loop that waits for another process takes
    [env_turns] turns and a loop that polls a device [dev_turns]; theorems about
    them name an environment or a device for which the bound is enough.  The
    shell's parser takes a depth, and [ShParse] proves that a bound computed
    from the line is enough.  The loops of user programs that end with their
    input take [turns], with hypotheses that say how many are enough; [malloc]
    and [free] take a number of turns bounded by the length of the ring.

    ** Not modelled

    - The contention of several processes inside the file system: the
      theorems on files run with [ready], no lock held by others; module [SMP]
      covers the locks themselves, and [PipeSpec] and [IdeSpec] run a process
      that sleeps and is woken.
    - The loads of descriptor table registers ([lgdt], [lidt], [ltr], [lcr3])
      beyond the state that names what they load; [idtinit] and the boot-time
      port sequences have no further effect.
    - Timing, caches and the TLB; page faults of the kernel itself, which are
      [Undef].
    - usertests.c: the tests that use raw addresses or inline assembly ([mem],
      [sbrktest], [validatetest], [bsstest], [uio], [argptest]), and five short
      ones that make only calls the modelled tests make.  The modelled tests
      have definitions and no theorems.
    - uspinlock.c and shm_cnt.c, whose shared page the stubs of shm.c do not
      provide; null.c and test.c, which fault or recurse on purpose.
    - Messages that [mkfs] prints; build files and the scripts around QEMU. *)

From stdpp Require Export functions base numbers list gmap strings fin_maps sets.
From Stdlib Require Export ZArith Lia.

#[global] Open Scope Z_scope.

#[global] Arguments Z.add : simpl never.
#[global] Arguments Z.sub : simpl never.
#[global] Arguments Z.mul : simpl never.
#[global] Arguments Z.of_nat : simpl never.
#[global] Arguments Z.to_nat : simpl never.
#[global] Arguments Z.modulo : simpl never.
#[global] Arguments Z.div : simpl never.
#[global] Arguments Z.land : simpl never.
#[global] Arguments Z.lor : simpl never.
#[global] Arguments Z.ltb : simpl nomatch.
#[global] Arguments Z.leb : simpl nomatch.
#[global] Arguments Z.eqb : simpl nomatch.

(** ** Outcomes of a kernel operation

    A C function of the kernel is a function from the machine state to an
    [outcome].  Besides returning it can stop the machine ([panic]), wait for
    another CPU ([Spin]), give the CPU away inside [sched] ([Sleep]), or run
    into C undefined behaviour (a NULL dereference, an index outside an
    array).  [NoFuel] is the value of a loop whose bound was too small; the
    theorems that claim a result exclude it. *)
Inductive outcome (S A : Type) : Type :=
| Ret (a : A) (s : S)
| Panic (msg : string)
| Spin (s : S)
| Sleep (s : S)
| Undef
| NoFuel.

Arguments Ret {S A} a s.
Arguments Panic {S A} msg.
Arguments Spin {S A} s.
Arguments Sleep {S A} s.
Arguments Undef {S A}.
Arguments NoFuel {S A}.

Definition M (S A : Type) : Type := S → outcome S A.

Section monad.
Context {S : Type}.

#[global] Instance M_ret : MRet (M S) := λ A a s, Ret a s.

#[global] Instance M_bind : MBind (M S) := λ A B f m s,
  match m s with
  | Ret a s' => f a s'
  | Panic msg => Panic msg
  | Spin s' => Spin s'
  | Sleep s' => Sleep s'
  | Undef => Undef
  | NoFuel => NoFuel
  end.

Definition panic {A} (msg : string) : M S A := λ _, Panic msg.
Definition spin {A} : M S A := λ s, Spin s.
Definition undef {A} : M S A := λ _, Undef.
Definition nofuel {A} : M S A := λ _, NoFuel.
Definition gets {A} (f : S → A) : M S A := λ s, Ret (f s) s.
Definition modify (f : S → S) : M S unit := λ s, Ret tt (f s).

(** Dereference a pointer or an array slot that may not exist. *)
Definition deref {A} (f : S → option A) : M S A := λ s,
  match f s with Some a => Ret a s | None => Undef end.

Definition whenb (b : bool) (m : M S unit) : M S unit := if b then m else mret tt.

(** [for (i = lo; i < lo + n; i++) body(i)] *)
Fixpoint for_ (n : nat) (i : Z) (body : Z → M S unit) : M S unit :=
  match n with
  | O => mret tt
  | Datatypes.S n => body i;; for_ n (i + 1) body
  end.

(** The same loop with an early exit: [Some r] leaves it with [r]. *)
Fixpoint find_ {R} (n : nat) (i : Z) (body : Z → M S (option R)) : M S (option R) :=
  match n with
  | O => mret None
  | Datatypes.S n => r ← body i; match r with Some r => mret (Some r) | None => find_ n (i + 1) body end
  end.

(** Total correctness: from [P] the code returns, in a state satisfying [Q]. *)
Definition triple {A} (P : S → Prop) (m : M S A) (Q : A → S → Prop) : Prop :=
  ∀ s, P s → ∃ a s', m s = Ret a s' ∧ Q a s'.

Lemma bind_Ret {A B} (m : M S A) (f : A → M S B) s a s' :
  m s = Ret a s' → (m ≫= f) s = f a s'.
Proof. intros H. unfold mbind, M_bind. by rewrite H. Qed.

Lemma bind_Ret_eq {A B} (m : M S A) (f : A → M S B) s a s' r :
  m s = Ret a s' → f a s' = r → (m ≫= f) s = r.
Proof. intros H <-. by apply bind_Ret. Qed.

Lemma bind_ret {A B} (a : A) (f : A → M S B) s : (mret a ≫= f) s = f a s.
Proof. done. Qed.

Lemma bind_gets {A B} (g : S → A) (f : A → M S B) s : (gets g ≫= f) s = f (g s) s.
Proof. done. Qed.

Lemma bind_modify {B} (g : S → S) (f : unit → M S B) s : (modify g ≫= f) s = f tt (g s).
Proof. done. Qed.

Lemma bind_deref {A B} (g : S → option A) (f : A → M S B) s a :
  g s = Some a → (deref g ≫= f) s = f a s.
Proof. intros H. unfold mbind, M_bind, deref. by rewrite H. Qed.

Lemma bind_whenb {B} (b : bool) (m : M S unit) (f : unit → M S B) s :
  (whenb b m ≫= f) s = if b then (m ≫= f) s else f tt s.
Proof. by destruct b. Qed.

Lemma bind_bind {A B C} (m : M S A) (f : A → M S B) (g : B → M S C) s :
  ((m ≫= f) ≫= g) s = (m ≫= (λ a, f a ≫= g)) s.
Proof. unfold mbind, M_bind. by destruct (m s). Qed.

Lemma bind_inv {A B} (m : M S A) (f : A → M S B) s b s' :
  (m ≫= f) s = Ret b s' → ∃ a s1, m s = Ret a s1 ∧ f a s1 = Ret b s'.
Proof. unfold mbind, M_bind. destruct (m s) eqn:E; intros H; try done. eauto. Qed.

Lemma triple_bind {A B} (m : M S A) (f : A → M S B) P Q R :
  triple P m Q → (∀ a, triple (Q a) (f a) R) → triple P (m ≫= f) R.
Proof.
  intros Hm Hf s HP. destruct (Hm s HP) as (a & s1 & Hrun & HQ).
  destruct (Hf a s1 HQ) as (b & s2 & Hrun' & HR).
  exists b, s2. by rewrite (bind_Ret _ _ _ _ _ Hrun).
Qed.

Lemma triple_conseq {A} (m : M S A) (P P' : S → Prop) (Q Q' : A → S → Prop) :
  triple P m Q → (∀ s, P' s → P s) → (∀ a s, Q a s → Q' a s) → triple P' m Q'.
Proof. intros H HP HQ s Hs. destruct (H s (HP s Hs)) as (a & s1 & ? & ?). eauto 6. Qed.

Lemma for_inv (I : Z → S → Prop) (body : Z → M S unit) n lo :
  (∀ i, lo ≤ i < lo + Z.of_nat n → triple (I i) (body i) (λ _, I (i + 1))) →
  triple (I lo) (for_ n lo body) (λ _, I (lo + Z.of_nat n)).
Proof.
  revert lo. induction n as [|n IH]; intros lo Hb s HI; simpl.
  - exists tt, s. split; [done|]. by replace (lo + Z.of_nat 0) with lo by lia.
  - destruct (Hb lo ltac:(lia) s HI) as ([] & s1 & Hrun & HI1).
    destruct (IH (lo + 1) ltac:(intros; apply Hb; lia) s1 HI1) as ([] & s2 & Hrun2 & HI2).
    exists tt, s2. rewrite (bind_Ret _ _ _ _ _ Hrun). split; [done|].
    by replace (lo + Z.of_nat (Datatypes.S n)) with (lo + 1 + Z.of_nat n) by lia.
Qed.
End monad.

Arguments panic : simpl never.

(** ** Symbolic execution

    [mstep] runs the head statement of the goal's program when it is pure, a
    state access or an operation whose result is known from a hypothesis. *)
Create HintDb kernel.

Ltac mstep :=
  lazymatch goal with
  | |- context [ (mret _ ≫= _) _ ] => rewrite bind_ret
  | |- context [ (gets _ ≫= _) _ ] => rewrite bind_gets
  | |- context [ (modify _ ≫= _) _ ] => rewrite bind_modify
  | |- context [ ((_ ≫= _) ≫= _) _ ] => rewrite bind_bind
  | |- context [ (whenb _ _ ≫= _) _ ] => rewrite bind_whenb
  | |- context [ (deref _ ≫= _) _ ] => erewrite bind_deref by eassumption
  end.

Ltac msteps := repeat (mstep; cbn beta iota).

(** Run the next statement with a lemma [op s = Ret a s'] about it. *)
Ltac mrun H := erewrite (bind_Ret _ _ _ _ _ H); cbn beta iota.

(** Split a successful run [H : (m ;; k) s = Ret b s'] at its first statement. *)
Tactic Notation "minv" hyp(H) "as" simple_intropattern(x) simple_intropattern(s) simple_intropattern(E) :=
  apply bind_inv in H; destruct H as (x & s & E & H).

(** ** Machine integers *)

Definition two32 : Z := 4294967296.

(** The value of a C expression converted to [uint] (32 bits). *)
Definition u32 (x : Z) : Z := x mod two32.

(** The value of a [uint] converted to [int] (two's complement). *)
Definition s32 (x : Z) : Z := let y := u32 x in if y <? 2147483648 then y else y - two32.

Definition u16 (x : Z) : Z := x mod 65536.
Definition s16 (x : Z) : Z := let y := u16 x in if y <? 32768 then y else y - 65536.
Definition u8 (x : Z) : Z := x mod 256.

Definition is_u32 (x : Z) : Prop := 0 ≤ x < two32.

Lemma u32_range x : 0 ≤ u32 x < two32.
Proof. apply Z.mod_pos_bound. done. Qed.

Lemma u32_small x : 0 ≤ x < two32 → u32 x = x.
Proof. apply Z.mod_small. Qed.

Lemma u32_idemp x : u32 (u32 x) = u32 x.
Proof. apply u32_small, u32_range. Qed.

Lemma u32_add_l x k : u32 (u32 x + k) = u32 (x + k).
Proof. unfold u32. apply Zplus_mod_idemp_l. Qed.

Lemma s32_range x : -2147483648 ≤ s32 x < 2147483648.
Proof.
  unfold s32. pose proof (u32_range x) as H. unfold two32 in *.
  destruct (Z.ltb_spec (u32 x) 2147483648); lia.
Qed.

Lemma s32_u32 x : -2147483648 ≤ x < 2147483648 → s32 (u32 x) = x.
Proof.
  intros Hx. unfold s32. rewrite u32_idemp. unfold u32, two32.
  destruct (decide (0 ≤ x)).
  - rewrite Z.mod_small by lia. destruct (Z.ltb_spec x 2147483648); lia.
  - replace (x mod 4294967296) with (x + 4294967296).
    + destruct (Z.ltb_spec (x + 4294967296) 2147483648); lia.
    + symmetry. rewrite <-(Z_mod_plus_full x 1 4294967296). apply Z.mod_small. lia.
Qed.

Lemma u32_s32 x : u32 (s32 x) = u32 x.
Proof.
  unfold s32. destruct (_ <? _); [apply u32_idemp|].
  unfold u32 at 1. rewrite Zminus_mod, Z_mod_same_full, Z.sub_0_r.
  unfold u32. by rewrite !Z.mod_mod by done.
Qed.

(** ** Bit masks *)

Lemma land_high_mask x k : 0 ≤ k → Z.land x (- 2 ^ k) = x - x mod 2 ^ k.
Proof.
  intros Hk.
  replace (- 2 ^ k) with (Z.lnot (Z.ones k)).
  - rewrite <-Z.ldiff_land, Z.ldiff_ones_r by done.
    rewrite Z.shiftl_mul_pow2, Z.shiftr_div_pow2 by done.
    pose proof (Z.div_mod x (2 ^ k) ltac:(apply Z.pow_nonzero; lia)). lia.
  - rewrite Z.ones_equiv. unfold Z.lnot. lia.
Qed.

Lemma land_low_mask x k : 0 ≤ k → Z.land x (Z.ones k) = x mod 2 ^ k.
Proof. intros. by apply Z.land_ones. Qed.

(** A multiple of [2^k] and a number below [2^k] share no bit. *)
Lemma lor_disjoint_add a b k :
  0 ≤ k → a mod 2 ^ k = 0 → 0 ≤ b < 2 ^ k → Z.lor a b = a + b.
Proof.
  intros Hk Ha Hb. assert (Z.land a b = 0) as Hl.
  { apply Z.bits_inj'. intros n Hn. rewrite Z.land_spec, Z.bits_0.
    destruct (decide (n < k)) as [Hlt|Hge].
    - replace (Z.testbit a n) with false; [done|]. symmetry.
      rewrite <-(Z.mod_pow2_bits_low a k n) by lia. by rewrite Ha, Z.bits_0.
    - replace (Z.testbit b n) with false; [apply andb_false_r|]. symmetry.
      rewrite <-(Z.mod_small b (2 ^ k)) by lia. apply Z.mod_pow2_bits_high. lia. }
  symmetry. rewrite <-Z.lxor_lor by done. by apply Z.add_nocarry_lxor.
Qed.

(** ** Lists *)

Lemma list_insert_lookup_eq {A} (l : list A) (i : nat) (x y : A) :
  l !! i = Some y → <[i:=x]> l !! i = Some x.
Proof. intros H. apply list_lookup_insert_eq. by eapply lookup_lt_Some. Qed.

Lemma list_insert_lookup_iff {A} (l : list A) (i j : nat) (x : A) :
  (i < length l)%nat → <[i:=x]> l !! j = if decide (i = j) then Some x else l !! j.
Proof.
  intros Hi. case_decide as E; [subst; by apply list_lookup_insert_eq|].
  by apply list_lookup_insert_ne.
Qed.

Lemma list_alter_alter {A} (f g : A → A) (i : nat) (l : list A) :
  alter f i (alter g i l) = alter (f ∘ g) i l.
Proof.
  apply list_eq. intros j. rewrite !list_lookup_alter. case_decide; [|done].
  subst. rewrite decide_True by done. by destruct (l !! j).
Qed.

Lemma list_alter_comm {A} (f g : A → A) (i j : nat) (l : list A) :
  i ≠ j → alter f i (alter g j l) = alter g j (alter f i l).
Proof.
  intros Hij. apply list_eq. intros k. rewrite !list_lookup_alter.
  repeat case_decide; congruence.
Qed.

(** ** Text *)

(** The characters of a string literal, without the NUL. *)
Definition chars (s : string) : list Z :=
  (λ c, Z.of_N (Ascii.N_of_ascii c)) <$> String.list_ascii_of_string s.

(** A character constant, written as a string of one character. *)
Definition chr (s : string) : Z := default 0 (head (chars s)).

(** The C escape [\n]. *)
Definition nl : string := String (Ascii.ascii_of_nat 10) EmptyString.

(** The arguments of [printf] and [cprintf]: words and strings, NULL being [None]. *)
Inductive arg := AInt (z : Z) | AStr (s : option (list Z)).
