(* ===== verification/Layout.v ===== *)
(** Layout: the constants and address arithmetic of [types.h], [param.h],
    [memlayout.h], [mmu.h], [traps.h] and [fs.h], with the 32-bit wrap-around
    of [uint] written out, and the arithmetic facts the page-table code
    rests on. *)

From S2P Require Import Prelude.

(** ** param.h *)
Definition NPROC : Z := 64.
Definition KSTACKSIZE : Z := 4096.
Definition NCPU : Z := 8.
Definition NOFILE : Z := 16.
Definition NFILE : Z := 100.
Definition NINODE : Z := 50.
Definition NDEV : Z := 10.
Definition ROOTDEV : Z := 1.
Definition MAXARG : Z := 32.
Definition MAXOPBLOCKS : Z := 10.
Definition LOGSIZE : Z := MAXOPBLOCKS * 3.
Definition NBUF : Z := MAXOPBLOCKS * 3.
Definition FSSIZE : Z := 1000.

(** ** memlayout.h *)
Definition EXTMEM : Z := 0x100000.
Definition PHYSTOP : Z := 0xE000000.
Definition DEVSPACE : Z := 0xFE000000.
Definition KERNBASE : Z := 0x80000000.
Definition KERNLINK : Z := KERNBASE + EXTMEM.
Definition STACK_TOP : Z := KERNBASE - 4.

Definition V2P (a : Z) : Z := u32 (a - KERNBASE).
Definition P2V (a : Z) : Z := u32 (a + KERNBASE).

(** ** mmu.h: paging *)
Definition NPDENTRIES : Z := 1024.
Definition NPTENTRIES : Z := 1024.
Definition PGSIZE : Z := 4096.
Definition PGSHIFT : Z := 12.
Definition PTXSHIFT : Z := 12.
Definition PDXSHIFT : Z := 22.

Definition PDX (va : Z) : Z := Z.land (Z.shiftr (u32 va) PDXSHIFT) 0x3FF.
Definition PTX (va : Z) : Z := Z.land (Z.shiftr (u32 va) PTXSHIFT) 0x3FF.
Definition PGADDR (d t o : Z) : Z :=
  u32 (Z.lor (Z.lor (Z.shiftl d PDXSHIFT) (Z.shiftl t PTXSHIFT)) o).

Definition PGROUNDUP (sz : Z) : Z :=
  Z.land (u32 (sz + PGSIZE - 1)) (u32 (Z.lnot (PGSIZE - 1))).
Definition PGROUNDDOWN (a : Z) : Z := Z.land (u32 a) (u32 (Z.lnot (PGSIZE - 1))).

Definition PTE_P : Z := 0x001.
Definition PTE_W : Z := 0x002.
Definition PTE_U : Z := 0x004.
Definition PTE_PS : Z := 0x080.

Definition PTE_ADDR (pte : Z) : Z := Z.land (u32 pte) (u32 (Z.lnot 0xFFF)).
Definition PTE_FLAGS (pte : Z) : Z := Z.land (u32 pte) 0xFFF.

(** The test [pte & PTE_x] of a page-table entry. *)
Definition has_flag (pte flag : Z) : bool := negb (Z.land pte flag =? 0).

(** ** mmu.h: flags and segments *)
Definition FL_IF : Z := 0x200.
Definition SEG_KCODE : Z := 1.
Definition SEG_KDATA : Z := 2.
Definition SEG_UCODE : Z := 3.
Definition SEG_UDATA : Z := 4.
Definition SEG_TSS : Z := 5.
Definition NSEGS : Z := 6.
Definition DPL_USER : Z := 3.

(** ** traps.h *)
Definition T_PGFLT : Z := 14.
Definition T_SYSCALL : Z := 64.
Definition T_IRQ0 : Z := 32.
Definition IRQ_TIMER : Z := 0.
Definition IRQ_KBD : Z := 1.
Definition IRQ_COM1 : Z := 4.
Definition IRQ_IDE : Z := 14.
Definition IRQ_ERROR : Z := 19.
Definition IRQ_SPURIOUS : Z := 31.

(** ** fs.h, buf.h, stat.h, fcntl.h *)
Definition ROOTINO : Z := 1.
Definition BSIZE : Z := 512.
Definition NDIRECT : Z := 12.
Definition NINDIRECT : Z := BSIZE / 4.
Definition MAXFILE : Z := NDIRECT + NINDIRECT.
Definition sizeof_dinode : Z := 64.
Definition IPB : Z := BSIZE / sizeof_dinode.
Definition BPB : Z := BSIZE * 8.
Definition DIRSIZ : Z := 14.
Definition sizeof_dirent : Z := 16.
Definition B_VALID : Z := 0x2.
Definition B_DIRTY : Z := 0x4.
Definition T_DIR : Z := 1.
Definition T_FILE : Z := 2.
Definition T_DEV : Z := 3.
Definition O_RDONLY : Z := 0x000.
Definition O_WRONLY : Z := 0x001.
Definition O_RDWR : Z := 0x002.
Definition O_CREATE : Z := 0x200.

(** [struct stat] of stat.h *)
Record stat := MkStat { st_type : Z; st_dev : Z; st_ino : Z; st_nlink : Z; st_size : Z }.

(** ** The linked kernel image

    [kernel.ld] places the sections and provides the symbols [data] and
    [end]; the code only relies on their order and on [data] being page
    aligned (the [ALIGN(0x1000)] before it). *)
Class KernelImage := {
  k_data : Z;   (** [extern char data[]] *)
  k_end : Z;    (** [extern char end[]] *)
  k_trapret : Z;  (** [extern void trapret(void)] *)
  k_forkret : Z;  (** [extern void forkret(void)] *)
  k_cpus : Z;     (** [struct cpu cpus[NCPU]] *)
  k_vectors : Z → Z;  (** [extern uint vectors[]], the entry points of vectors.S *)
  k_data_aligned : k_data mod PGSIZE = 0;
  k_data_after_link : KERNLINK < k_data;
  k_end_after_data : k_data ≤ k_end;
  k_end_low : k_end < KERNBASE + PHYSTOP;
}.

(** Traps for which the processor pushes an error code. *)
Definition pushes_error (i : Z) : bool := (i =? 8) || ((10 <=? i) && (i <=? 14)) || (i =? 17).

(** The image recorded in the repository's [kernel.sym].  The code of
    [vectors.S] is contiguous: a push of 2 bytes where the processor pushes no
    error code, the push of the trap number, of 2 or 5 bytes, and a jump of 5. *)
Definition kernel_vector (i : Z) : Z :=
  foldr (λ j a, a + (if pushes_error (Z.of_nat j) then 0 else 2) + (if (j <? 128)%nat then 2 else 5) + 5)
    0x80106c5e (seq 0 (Z.to_nat i)).

Definition kernel_sym : KernelImage.
Proof.
  refine {| k_data := 0x80109000; k_end := 0x80116a74;
    k_trapret := 0x801065d1; k_forkret := 0x80104b05;
    k_cpus := 0x80113800; k_vectors := kernel_vector |}; done.
Defined.

(** ** Facts *)

Lemma land_page_mask x : is_u32 x → Z.land x (u32 (Z.lnot 4095)) = x - x mod 4096.
Proof.
  intros Hx. change (u32 (Z.lnot 4095)) with (Z.land (Z.ones 32) (- 2 ^ 12)).
  rewrite Z.land_assoc, (land_low_mask x 32), land_high_mask by done.
  change (2 ^ 12) with 4096. f_equal; [|f_equal]; by apply Z.mod_small.
Qed.

Lemma PGROUNDDOWN_spec a : is_u32 a → PGROUNDDOWN a = a - a mod 4096.
Proof.
  intros Ha. unfold PGROUNDDOWN, PGSIZE. change (4096 - 1) with 4095.
  by rewrite (u32_small a), land_page_mask.
Qed.

Lemma PGROUNDUP_spec a :
  0 ≤ a ≤ two32 - 4096 → PGROUNDUP a = (a + 4095) - (a + 4095) mod 4096.
Proof.
  unfold two32. intros Ha. unfold PGROUNDUP, PGSIZE. change (4096 - 1) with 4095.
  rewrite land_page_mask by apply u32_range.
  rewrite u32_small by (unfold two32; lia). by replace (a + 4096 - 1) with (a + 4095) by lia.
Qed.

(** Above [2^32 - PGSIZE] the sum in [PGROUNDUP] wraps and the result is 0. *)
Lemma PGROUNDUP_wraps a : two32 - 4096 < a < two32 → PGROUNDUP a = 0.
Proof.
  unfold two32. intros Ha. unfold PGROUNDUP, PGSIZE. change (4096 - 1) with 4095.
  rewrite land_page_mask by apply u32_range.
  assert (u32 (a + 4096 - 1) = a + 4095 - 4294967296) as ->.
  { unfold u32, two32. rewrite <-(Z_mod_plus_full _ (-1)), Z.mod_small; lia. }
  rewrite (Z.mod_small _ 4096); lia.
Qed.

Lemma PTE_ADDR_spec pte : PTE_ADDR pte = u32 pte - u32 pte mod 4096.
Proof. unfold PTE_ADDR. apply land_page_mask, u32_range. Qed.

Lemma PTE_FLAGS_spec pte : PTE_FLAGS pte = u32 pte mod 4096.
Proof. unfold PTE_FLAGS. change 4095 with (Z.ones 12). by rewrite land_low_mask. Qed.

Lemma PDX_spec va : PDX va = u32 va / 4194304.
Proof.
  unfold PDX, PDXSHIFT. change 0x3FF with (Z.ones 10).
  rewrite land_low_mask, Z.shiftr_div_pow2 by done.
  change (2 ^ 22) with 4194304. change (2 ^ 10) with 1024.
  apply Z.mod_small. pose proof (u32_range va) as H. unfold two32 in H.
  split; [apply Z.div_pos; lia|]. apply Z.div_lt_upper_bound; lia.
Qed.

Lemma PTX_spec va : PTX va = (u32 va / 4096) mod 1024.
Proof.
  unfold PTX, PTXSHIFT. change 0x3FF with (Z.ones 10).
  by rewrite land_low_mask, Z.shiftr_div_pow2.
Qed.

Lemma PDX_range va : 0 ≤ PDX va < 1024.
Proof.
  rewrite PDX_spec. pose proof (u32_range va) as H. unfold two32 in H.
  split; [apply Z.div_pos; lia|]. apply Z.div_lt_upper_bound; lia.
Qed.

Lemma PTX_range va : 0 ≤ PTX va < 1024.
Proof. rewrite PTX_spec. by apply Z.mod_pos_bound. Qed.

Lemma PGADDR_spec d t o :
  0 ≤ d < 1024 → 0 ≤ t < 1024 → 0 ≤ o < 4096 →
  PGADDR d t o = d * 4194304 + t * 4096 + o.
Proof.
  intros Hd Ht Ho. unfold PGADDR, PDXSHIFT, PTXSHIFT.
  rewrite !Z.shiftl_mul_pow2 by done. change (2 ^ 22) with 4194304. change (2 ^ 12) with 4096.
  rewrite (lor_disjoint_add _ (t * 4096) 22), (lor_disjoint_add _ o 12); try done.
  - apply u32_small. unfold two32. lia.
  - change (2 ^ 12) with 4096.
    replace (d * 4194304 + t * 4096) with ((d * 1024 + t) * 4096) by lia. apply Z_mod_mult.
  - change (2 ^ 22) with (1 * 4194304). rewrite Z.mul_1_l. apply Z_mod_mult.
  - change (2 ^ 22) with 4194304. lia.
Qed.

Lemma V2P_P2V a : is_u32 a → V2P (P2V a) = a.
Proof.
  intros Ha. unfold V2P, P2V, u32. rewrite Zminus_mod_idemp_l.
  replace (a + KERNBASE - KERNBASE) with a by lia. by apply Z.mod_small.
Qed.

Lemma P2V_V2P a : is_u32 a → P2V (V2P a) = a.
Proof.
  intros Ha. unfold V2P, P2V, u32. rewrite Zplus_mod_idemp_l.
  replace (a - KERNBASE + KERNBASE) with a by lia. by apply Z.mod_small.
Qed.

(** Two addresses with the same directory and table indices lie in the same page. *)
Lemma PDX_PTX_inj va vb :
  is_u32 va → is_u32 vb → PDX va = PDX vb → PTX va = PTX vb → va / 4096 = vb / 4096.
Proof.
  intros Ha Hb. rewrite !PDX_spec, !PTX_spec, !u32_small by done. intros Hd Ht.
  change 4194304 with (4096 * 1024) in Hd. rewrite <-!Z.div_div in Hd by lia.
  rewrite (Z.div_mod (va / 4096) 1024), (Z.div_mod (vb / 4096) 1024); lia.
Qed.
