(* ===== verification/State.v ===== *)
(** State: the kernel's data structures and global variables.

    Every C struct of the headers is a record with the source's fields; the
    global variables are the fields of [kstate].  Pointers into a static
    array ([struct proc*], [struct file*], [struct inode*], [struct buf*])
    are indices, NULL is [None]; memory handed out by [kalloc] lives in
    [k_mem], indexed by kernel virtual address. *)

From S2P Require Import Prelude Layout.

(** ** Locks and sleep channels *)

(** A sleep lock sits in a buffer or in an inode. *)
Inductive sleepref := SL_buf (i : nat) | SL_inode (i : nat).

#[global] Instance sleepref_eq_dec : EqDecision sleepref.
Proof. solve_decision. Defined.

(** The spin locks of the kernel; a pipe's lock is named by the pipe's page. *)
Inductive lockref :=
| L_kmem | L_ptable | L_ftable | L_icache | L_bcache | L_log | L_cons | L_ide
| L_ticks | L_shm | L_pipe (addr : Z) | L_sleep (r : sleepref).

#[global] Instance lockref_eq_dec : EqDecision lockref.
Proof. solve_decision. Defined.

Definition lockref_code (l : lockref) : nat + (Z + (nat + nat)) :=
  match l with
  | L_kmem => inl 0%nat | L_ptable => inl 1%nat | L_ftable => inl 2%nat
  | L_icache => inl 3%nat | L_bcache => inl 4%nat | L_log => inl 5%nat
  | L_cons => inl 6%nat | L_ide => inl 7%nat | L_ticks => inl 8%nat | L_shm => inl 9%nat
  | L_pipe a => inr (inl a)
  | L_sleep (SL_buf i) => inr (inr (inl i))
  | L_sleep (SL_inode i) => inr (inr (inr i))
  end.

Definition lockref_decode (c : nat + (Z + (nat + nat))) : option lockref :=
  match c with
  | inl 0%nat => Some L_kmem | inl 1%nat => Some L_ptable | inl 2%nat => Some L_ftable
  | inl 3%nat => Some L_icache | inl 4%nat => Some L_bcache | inl 5%nat => Some L_log
  | inl 6%nat => Some L_cons | inl 7%nat => Some L_ide | inl 8%nat => Some L_ticks
  | inl 9%nat => Some L_shm
  | inl _ => None
  | inr (inl a) => Some (L_pipe a)
  | inr (inr (inl i)) => Some (L_sleep (SL_buf i))
  | inr (inr (inr i)) => Some (L_sleep (SL_inode i))
  end.

#[global] Instance lockref_countable : Countable lockref.
Proof. apply (inj_countable lockref_code lockref_decode). by intros [| | | | | | | | | |a|[i|i]]. Defined.

(** The addresses processes sleep on. *)
Inductive chan :=
| Chan_proc (i : nat) | Chan_log | Chan_ticks | Chan_input | Chan_buf (i : nat)
| Chan_sleeplock (r : sleepref) | Chan_nread (addr : Z) | Chan_nwrite (addr : Z).

#[global] Instance chan_eq_dec : EqDecision chan.
Proof. solve_decision. Defined.

#[local] Set Primitive Projections.

(** [struct cpu] of proc.h, with the EFLAGS interrupt bit and CR3. *)
Record cpu := MkCpu {
  c_id : Z;  (** which CPU this is *)
  c_ncli : Z;  (** depth of pushcli nesting *)
  c_intena : bool;  (** were interrupts enabled before pushcli? *)
  c_if : bool;  (** FL_IF in EFLAGS *)
  c_proc : option nat;  (** the process running here *)
  c_cr3 : Z;  (** page-table base register *)
  c_esp0 : Z;  (** [ts.esp0] *)
  c_ss0 : Z;  (** [ts.ss0] *)
  c_iomb : Z;  (** [ts.iomb] *)
}.

Definition upd_c_id (f : Z → Z) (x : cpu) : cpu :=
  MkCpu (f (c_id x)) (c_ncli x) (c_intena x) (c_if x) (c_proc x) (c_cr3 x) (c_esp0 x) (c_ss0 x) (c_iomb x).
Definition upd_c_ncli (f : Z → Z) (x : cpu) : cpu :=
  MkCpu (c_id x) (f (c_ncli x)) (c_intena x) (c_if x) (c_proc x) (c_cr3 x) (c_esp0 x) (c_ss0 x) (c_iomb x).
Definition upd_c_intena (f : bool → bool) (x : cpu) : cpu :=
  MkCpu (c_id x) (c_ncli x) (f (c_intena x)) (c_if x) (c_proc x) (c_cr3 x) (c_esp0 x) (c_ss0 x) (c_iomb x).
Definition upd_c_if (f : bool → bool) (x : cpu) : cpu :=
  MkCpu (c_id x) (c_ncli x) (c_intena x) (f (c_if x)) (c_proc x) (c_cr3 x) (c_esp0 x) (c_ss0 x) (c_iomb x).
Definition upd_c_proc (f : option nat → option nat) (x : cpu) : cpu :=
  MkCpu (c_id x) (c_ncli x) (c_intena x) (c_if x) (f (c_proc x)) (c_cr3 x) (c_esp0 x) (c_ss0 x) (c_iomb x).
Definition upd_c_cr3 (f : Z → Z) (x : cpu) : cpu :=
  MkCpu (c_id x) (c_ncli x) (c_intena x) (c_if x) (c_proc x) (f (c_cr3 x)) (c_esp0 x) (c_ss0 x) (c_iomb x).
Definition upd_c_esp0 (f : Z → Z) (x : cpu) : cpu :=
  MkCpu (c_id x) (c_ncli x) (c_intena x) (c_if x) (c_proc x) (c_cr3 x) (f (c_esp0 x)) (c_ss0 x) (c_iomb x).
Definition upd_c_ss0 (f : Z → Z) (x : cpu) : cpu :=
  MkCpu (c_id x) (c_ncli x) (c_intena x) (c_if x) (c_proc x) (c_cr3 x) (c_esp0 x) (f (c_ss0 x)) (c_iomb x).
Definition upd_c_iomb (f : Z → Z) (x : cpu) : cpu :=
  MkCpu (c_id x) (c_ncli x) (c_intena x) (c_if x) (c_proc x) (c_cr3 x) (c_esp0 x) (c_ss0 x) (f (c_iomb x)).

(** The [kmem] struct of kalloc.c (its lock is [L_kmem]). *)
Record kmem := MkKmem {
  use_lock : bool;
  freelist : Z;  (** address of the first free page, 0 if none *)
}.

Definition upd_use_lock (f : bool → bool) (x : kmem) : kmem :=
  MkKmem (f (use_lock x)) (freelist x).
Definition upd_freelist (f : Z → Z) (x : kmem) : kmem :=
  MkKmem (use_lock x) (f (freelist x)).

(** [enum procstate] of proc.h. *)
Inductive procstate := UNUSED | EMBRYO | SLEEPING | RUNNABLE | RUNNING | ZOMBIE.

#[global] Instance procstate_eq_dec : EqDecision procstate.
Proof. solve_decision. Defined.

(** [struct proc] of proc.h. *)
Record proc := MkProc {
  p_sz : Z;  (** size of process memory (bytes) *)
  p_stacktop : Z;
  p_stackSize : Z;  (** stack size in pages *)
  p_pgdir : Z;  (** page directory, 0 if none *)
  p_kstack : Z;  (** kernel stack page, 0 if none *)
  p_state : procstate;
  p_pid : Z;
  p_parent : option nat;
  p_tf : Z;  (** address of the trap frame *)
  p_context : Z;  (** address of the saved context *)
  p_chan : option chan;  (** if non-zero, sleeping on chan *)
  p_killed : Z;
  p_ofile : list (option nat);  (** open files *)
  p_cwd : option nat;
  p_name : list Z;  (** 16 characters *)
}.

Definition upd_p_sz (f : Z → Z) (x : proc) : proc :=
  MkProc (f (p_sz x)) (p_stacktop x) (p_stackSize x) (p_pgdir x) (p_kstack x) (p_state x) (p_pid x) (p_parent x) (p_tf x) (p_context x) (p_chan x) (p_killed x) (p_ofile x) (p_cwd x) (p_name x).
Definition upd_p_stacktop (f : Z → Z) (x : proc) : proc :=
  MkProc (p_sz x) (f (p_stacktop x)) (p_stackSize x) (p_pgdir x) (p_kstack x) (p_state x) (p_pid x) (p_parent x) (p_tf x) (p_context x) (p_chan x) (p_killed x) (p_ofile x) (p_cwd x) (p_name x).
Definition upd_p_stackSize (f : Z → Z) (x : proc) : proc :=
  MkProc (p_sz x) (p_stacktop x) (f (p_stackSize x)) (p_pgdir x) (p_kstack x) (p_state x) (p_pid x) (p_parent x) (p_tf x) (p_context x) (p_chan x) (p_killed x) (p_ofile x) (p_cwd x) (p_name x).
Definition upd_p_pgdir (f : Z → Z) (x : proc) : proc :=
  MkProc (p_sz x) (p_stacktop x) (p_stackSize x) (f (p_pgdir x)) (p_kstack x) (p_state x) (p_pid x) (p_parent x) (p_tf x) (p_context x) (p_chan x) (p_killed x) (p_ofile x) (p_cwd x) (p_name x).
Definition upd_p_kstack (f : Z → Z) (x : proc) : proc :=
  MkProc (p_sz x) (p_stacktop x) (p_stackSize x) (p_pgdir x) (f (p_kstack x)) (p_state x) (p_pid x) (p_parent x) (p_tf x) (p_context x) (p_chan x) (p_killed x) (p_ofile x) (p_cwd x) (p_name x).
Definition upd_p_state (f : procstate → procstate) (x : proc) : proc :=
  MkProc (p_sz x) (p_stacktop x) (p_stackSize x) (p_pgdir x) (p_kstack x) (f (p_state x)) (p_pid x) (p_parent x) (p_tf x) (p_context x) (p_chan x) (p_killed x) (p_ofile x) (p_cwd x) (p_name x).
Definition upd_p_pid (f : Z → Z) (x : proc) : proc :=
  MkProc (p_sz x) (p_stacktop x) (p_stackSize x) (p_pgdir x) (p_kstack x) (p_state x) (f (p_pid x)) (p_parent x) (p_tf x) (p_context x) (p_chan x) (p_killed x) (p_ofile x) (p_cwd x) (p_name x).
Definition upd_p_parent (f : option nat → option nat) (x : proc) : proc :=
  MkProc (p_sz x) (p_stacktop x) (p_stackSize x) (p_pgdir x) (p_kstack x) (p_state x) (p_pid x) (f (p_parent x)) (p_tf x) (p_context x) (p_chan x) (p_killed x) (p_ofile x) (p_cwd x) (p_name x).
Definition upd_p_tf (f : Z → Z) (x : proc) : proc :=
  MkProc (p_sz x) (p_stacktop x) (p_stackSize x) (p_pgdir x) (p_kstack x) (p_state x) (p_pid x) (p_parent x) (f (p_tf x)) (p_context x) (p_chan x) (p_killed x) (p_ofile x) (p_cwd x) (p_name x).
Definition upd_p_context (f : Z → Z) (x : proc) : proc :=
  MkProc (p_sz x) (p_stacktop x) (p_stackSize x) (p_pgdir x) (p_kstack x) (p_state x) (p_pid x) (p_parent x) (p_tf x) (f (p_context x)) (p_chan x) (p_killed x) (p_ofile x) (p_cwd x) (p_name x).
Definition upd_p_chan (f : option chan → option chan) (x : proc) : proc :=
  MkProc (p_sz x) (p_stacktop x) (p_stackSize x) (p_pgdir x) (p_kstack x) (p_state x) (p_pid x) (p_parent x) (p_tf x) (p_context x) (f (p_chan x)) (p_killed x) (p_ofile x) (p_cwd x) (p_name x).
Definition upd_p_killed (f : Z → Z) (x : proc) : proc :=
  MkProc (p_sz x) (p_stacktop x) (p_stackSize x) (p_pgdir x) (p_kstack x) (p_state x) (p_pid x) (p_parent x) (p_tf x) (p_context x) (p_chan x) (f (p_killed x)) (p_ofile x) (p_cwd x) (p_name x).
Definition upd_p_ofile (f : list (option nat) → list (option nat)) (x : proc) : proc :=
  MkProc (p_sz x) (p_stacktop x) (p_stackSize x) (p_pgdir x) (p_kstack x) (p_state x) (p_pid x) (p_parent x) (p_tf x) (p_context x) (p_chan x) (p_killed x) (f (p_ofile x)) (p_cwd x) (p_name x).
Definition upd_p_cwd (f : option nat → option nat) (x : proc) : proc :=
  MkProc (p_sz x) (p_stacktop x) (p_stackSize x) (p_pgdir x) (p_kstack x) (p_state x) (p_pid x) (p_parent x) (p_tf x) (p_context x) (p_chan x) (p_killed x) (p_ofile x) (f (p_cwd x)) (p_name x).
Definition upd_p_name (f : list Z → list Z) (x : proc) : proc :=
  MkProc (p_sz x) (p_stacktop x) (p_stackSize x) (p_pgdir x) (p_kstack x) (p_state x) (p_pid x) (p_parent x) (p_tf x) (p_context x) (p_chan x) (p_killed x) (p_ofile x) (p_cwd x) (f (p_name x)).

(** [struct sleeplock] of sleeplock.h (its spin lock is an [L_sleep]). *)
Record sleeplock := MkSleeplock {
  sl_locked : bool;
  sl_pid : Z;  (** process holding the lock *)
}.

Definition upd_sl_locked (f : bool → bool) (x : sleeplock) : sleeplock :=
  MkSleeplock (f (sl_locked x)) (sl_pid x).
Definition upd_sl_pid (f : Z → Z) (x : sleeplock) : sleeplock :=
  MkSleeplock (sl_locked x) (f (sl_pid x)).

(** [struct buf] of buf.h; [b_prev] and [b_next] are buffer indices, [NBUF] standing for [bcache.head]. *)
Record buf := MkBuf {
  b_flags : Z;
  b_dev : Z;
  b_blockno : Z;
  b_lock : sleeplock;
  b_refcnt : Z;
  b_prev : nat;
  b_next : nat;
  b_qnext : option nat;  (** disk queue *)
  b_data : list Z;  (** BSIZE bytes *)
}.

Definition upd_b_flags (f : Z → Z) (x : buf) : buf :=
  MkBuf (f (b_flags x)) (b_dev x) (b_blockno x) (b_lock x) (b_refcnt x) (b_prev x) (b_next x) (b_qnext x) (b_data x).
Definition upd_b_dev (f : Z → Z) (x : buf) : buf :=
  MkBuf (b_flags x) (f (b_dev x)) (b_blockno x) (b_lock x) (b_refcnt x) (b_prev x) (b_next x) (b_qnext x) (b_data x).
Definition upd_b_blockno (f : Z → Z) (x : buf) : buf :=
  MkBuf (b_flags x) (b_dev x) (f (b_blockno x)) (b_lock x) (b_refcnt x) (b_prev x) (b_next x) (b_qnext x) (b_data x).
Definition upd_b_lock (f : sleeplock → sleeplock) (x : buf) : buf :=
  MkBuf (b_flags x) (b_dev x) (b_blockno x) (f (b_lock x)) (b_refcnt x) (b_prev x) (b_next x) (b_qnext x) (b_data x).
Definition upd_b_refcnt (f : Z → Z) (x : buf) : buf :=
  MkBuf (b_flags x) (b_dev x) (b_blockno x) (b_lock x) (f (b_refcnt x)) (b_prev x) (b_next x) (b_qnext x) (b_data x).
Definition upd_b_prev (f : nat → nat) (x : buf) : buf :=
  MkBuf (b_flags x) (b_dev x) (b_blockno x) (b_lock x) (b_refcnt x) (f (b_prev x)) (b_next x) (b_qnext x) (b_data x).
Definition upd_b_next (f : nat → nat) (x : buf) : buf :=
  MkBuf (b_flags x) (b_dev x) (b_blockno x) (b_lock x) (b_refcnt x) (b_prev x) (f (b_next x)) (b_qnext x) (b_data x).
Definition upd_b_qnext (f : option nat → option nat) (x : buf) : buf :=
  MkBuf (b_flags x) (b_dev x) (b_blockno x) (b_lock x) (b_refcnt x) (b_prev x) (b_next x) (f (b_qnext x)) (b_data x).
Definition upd_b_data (f : list Z → list Z) (x : buf) : buf :=
  MkBuf (b_flags x) (b_dev x) (b_blockno x) (b_lock x) (b_refcnt x) (b_prev x) (b_next x) (b_qnext x) (f (b_data x)).

(** [struct logheader] of log.c. *)
Record logheader := MkLogheader {
  lh_n : Z;
  lh_block : list Z;  (** LOGSIZE block numbers *)
}.

Definition upd_lh_n (f : Z → Z) (x : logheader) : logheader :=
  MkLogheader (f (lh_n x)) (lh_block x).
Definition upd_lh_block (f : list Z → list Z) (x : logheader) : logheader :=
  MkLogheader (lh_n x) (f (lh_block x)).

(** [struct log] of log.c. *)
Record log := MkLog {
  log_start : Z;
  log_size : Z;
  log_outstanding : Z;  (** how many FS system calls are executing *)
  log_committing : bool;  (** in commit(), please wait *)
  log_dev : Z;
  log_lh : logheader;
}.

Definition upd_log_start (f : Z → Z) (x : log) : log :=
  MkLog (f (log_start x)) (log_size x) (log_outstanding x) (log_committing x) (log_dev x) (log_lh x).
Definition upd_log_size (f : Z → Z) (x : log) : log :=
  MkLog (log_start x) (f (log_size x)) (log_outstanding x) (log_committing x) (log_dev x) (log_lh x).
Definition upd_log_outstanding (f : Z → Z) (x : log) : log :=
  MkLog (log_start x) (log_size x) (f (log_outstanding x)) (log_committing x) (log_dev x) (log_lh x).
Definition upd_log_committing (f : bool → bool) (x : log) : log :=
  MkLog (log_start x) (log_size x) (log_outstanding x) (f (log_committing x)) (log_dev x) (log_lh x).
Definition upd_log_dev (f : Z → Z) (x : log) : log :=
  MkLog (log_start x) (log_size x) (log_outstanding x) (log_committing x) (f (log_dev x)) (log_lh x).
Definition upd_log_lh (f : logheader → logheader) (x : log) : log :=
  MkLog (log_start x) (log_size x) (log_outstanding x) (log_committing x) (log_dev x) (f (log_lh x)).

(** [struct superblock] of fs.h. *)
Record superblock := MkSuperblock {
  sb_size : Z;
  sb_nblocks : Z;
  sb_ninodes : Z;
  sb_nlog : Z;
  sb_logstart : Z;
  sb_inodestart : Z;
  sb_bmapstart : Z;
}.

Definition upd_sb_size (f : Z → Z) (x : superblock) : superblock :=
  MkSuperblock (f (sb_size x)) (sb_nblocks x) (sb_ninodes x) (sb_nlog x) (sb_logstart x) (sb_inodestart x) (sb_bmapstart x).
Definition upd_sb_nblocks (f : Z → Z) (x : superblock) : superblock :=
  MkSuperblock (sb_size x) (f (sb_nblocks x)) (sb_ninodes x) (sb_nlog x) (sb_logstart x) (sb_inodestart x) (sb_bmapstart x).
Definition upd_sb_ninodes (f : Z → Z) (x : superblock) : superblock :=
  MkSuperblock (sb_size x) (sb_nblocks x) (f (sb_ninodes x)) (sb_nlog x) (sb_logstart x) (sb_inodestart x) (sb_bmapstart x).
Definition upd_sb_nlog (f : Z → Z) (x : superblock) : superblock :=
  MkSuperblock (sb_size x) (sb_nblocks x) (sb_ninodes x) (f (sb_nlog x)) (sb_logstart x) (sb_inodestart x) (sb_bmapstart x).
Definition upd_sb_logstart (f : Z → Z) (x : superblock) : superblock :=
  MkSuperblock (sb_size x) (sb_nblocks x) (sb_ninodes x) (sb_nlog x) (f (sb_logstart x)) (sb_inodestart x) (sb_bmapstart x).
Definition upd_sb_inodestart (f : Z → Z) (x : superblock) : superblock :=
  MkSuperblock (sb_size x) (sb_nblocks x) (sb_ninodes x) (sb_nlog x) (sb_logstart x) (f (sb_inodestart x)) (sb_bmapstart x).
Definition upd_sb_bmapstart (f : Z → Z) (x : superblock) : superblock :=
  MkSuperblock (sb_size x) (sb_nblocks x) (sb_ninodes x) (sb_nlog x) (sb_logstart x) (sb_inodestart x) (f (sb_bmapstart x)).

(** [struct inode] of file.h. *)
Record inode := MkInode {
  i_dev : Z;
  i_inum : Z;
  i_ref : Z;
  i_lock : sleeplock;
  i_valid : bool;
  i_type : Z;
  i_major : Z;
  i_minor : Z;
  i_nlink : Z;
  i_size : Z;
  i_addrs : list Z;  (** NDIRECT+1 block addresses *)
}.

Definition upd_i_dev (f : Z → Z) (x : inode) : inode :=
  MkInode (f (i_dev x)) (i_inum x) (i_ref x) (i_lock x) (i_valid x) (i_type x) (i_major x) (i_minor x) (i_nlink x) (i_size x) (i_addrs x).
Definition upd_i_inum (f : Z → Z) (x : inode) : inode :=
  MkInode (i_dev x) (f (i_inum x)) (i_ref x) (i_lock x) (i_valid x) (i_type x) (i_major x) (i_minor x) (i_nlink x) (i_size x) (i_addrs x).
Definition upd_i_ref (f : Z → Z) (x : inode) : inode :=
  MkInode (i_dev x) (i_inum x) (f (i_ref x)) (i_lock x) (i_valid x) (i_type x) (i_major x) (i_minor x) (i_nlink x) (i_size x) (i_addrs x).
Definition upd_i_lock (f : sleeplock → sleeplock) (x : inode) : inode :=
  MkInode (i_dev x) (i_inum x) (i_ref x) (f (i_lock x)) (i_valid x) (i_type x) (i_major x) (i_minor x) (i_nlink x) (i_size x) (i_addrs x).
Definition upd_i_valid (f : bool → bool) (x : inode) : inode :=
  MkInode (i_dev x) (i_inum x) (i_ref x) (i_lock x) (f (i_valid x)) (i_type x) (i_major x) (i_minor x) (i_nlink x) (i_size x) (i_addrs x).
Definition upd_i_type (f : Z → Z) (x : inode) : inode :=
  MkInode (i_dev x) (i_inum x) (i_ref x) (i_lock x) (i_valid x) (f (i_type x)) (i_major x) (i_minor x) (i_nlink x) (i_size x) (i_addrs x).
Definition upd_i_major (f : Z → Z) (x : inode) : inode :=
  MkInode (i_dev x) (i_inum x) (i_ref x) (i_lock x) (i_valid x) (i_type x) (f (i_major x)) (i_minor x) (i_nlink x) (i_size x) (i_addrs x).
Definition upd_i_minor (f : Z → Z) (x : inode) : inode :=
  MkInode (i_dev x) (i_inum x) (i_ref x) (i_lock x) (i_valid x) (i_type x) (i_major x) (f (i_minor x)) (i_nlink x) (i_size x) (i_addrs x).
Definition upd_i_nlink (f : Z → Z) (x : inode) : inode :=
  MkInode (i_dev x) (i_inum x) (i_ref x) (i_lock x) (i_valid x) (i_type x) (i_major x) (i_minor x) (f (i_nlink x)) (i_size x) (i_addrs x).
Definition upd_i_size (f : Z → Z) (x : inode) : inode :=
  MkInode (i_dev x) (i_inum x) (i_ref x) (i_lock x) (i_valid x) (i_type x) (i_major x) (i_minor x) (i_nlink x) (f (i_size x)) (i_addrs x).
Definition upd_i_addrs (f : list Z → list Z) (x : inode) : inode :=
  MkInode (i_dev x) (i_inum x) (i_ref x) (i_lock x) (i_valid x) (i_type x) (i_major x) (i_minor x) (i_nlink x) (i_size x) (f (i_addrs x)).

(** The anonymous enum of [struct file]. *)
Inductive fdtype := FD_NONE | FD_PIPE | FD_INODE.

#[global] Instance fdtype_eq_dec : EqDecision fdtype.
Proof. solve_decision. Defined.

(** [struct file] of file.h. *)
Record file := MkFile {
  f_type : fdtype;
  f_ref : Z;
  f_readable : bool;
  f_writable : bool;
  f_pipe : Z;  (** address of the pipe *)
  f_ip : option nat;
  f_off : Z;
}.

Definition upd_f_type (f : fdtype → fdtype) (x : file) : file :=
  MkFile (f (f_type x)) (f_ref x) (f_readable x) (f_writable x) (f_pipe x) (f_ip x) (f_off x).
Definition upd_f_ref (f : Z → Z) (x : file) : file :=
  MkFile (f_type x) (f (f_ref x)) (f_readable x) (f_writable x) (f_pipe x) (f_ip x) (f_off x).
Definition upd_f_readable (f : bool → bool) (x : file) : file :=
  MkFile (f_type x) (f_ref x) (f (f_readable x)) (f_writable x) (f_pipe x) (f_ip x) (f_off x).
Definition upd_f_writable (f : bool → bool) (x : file) : file :=
  MkFile (f_type x) (f_ref x) (f_readable x) (f (f_writable x)) (f_pipe x) (f_ip x) (f_off x).
Definition upd_f_pipe (f : Z → Z) (x : file) : file :=
  MkFile (f_type x) (f_ref x) (f_readable x) (f_writable x) (f (f_pipe x)) (f_ip x) (f_off x).
Definition upd_f_ip (f : option nat → option nat) (x : file) : file :=
  MkFile (f_type x) (f_ref x) (f_readable x) (f_writable x) (f_pipe x) (f (f_ip x)) (f_off x).
Definition upd_f_off (f : Z → Z) (x : file) : file :=
  MkFile (f_type x) (f_ref x) (f_readable x) (f_writable x) (f_pipe x) (f_ip x) (f (f_off x)).

(** A disk: its blocks, and the blocks written to it so far, oldest first. *)
Record disk := MkDisk {
  d_blocks : gmap Z (list Z);
  d_writes : list (Z * list Z);
}.

Definition upd_d_blocks (f : gmap Z (list Z) → gmap Z (list Z)) (x : disk) : disk :=
  MkDisk (f (d_blocks x)) (d_writes x).
Definition upd_d_writes (f : list (Z * list Z) → list (Z * list Z)) (x : disk) : disk :=
  MkDisk (d_blocks x) (f (d_writes x)).

(** The [input] struct of console.c. *)
Record input := MkInput {
  in_buf : list Z;  (** INPUT_BUF characters *)
  in_r : Z;  (** read index *)
  in_w : Z;  (** write index *)
  in_e : Z;  (** edit index *)
}.

Definition upd_in_buf (f : list Z → list Z) (x : input) : input :=
  MkInput (f (in_buf x)) (in_r x) (in_w x) (in_e x).
Definition upd_in_r (f : Z → Z) (x : input) : input :=
  MkInput (in_buf x) (f (in_r x)) (in_w x) (in_e x).
Definition upd_in_w (f : Z → Z) (x : input) : input :=
  MkInput (in_buf x) (in_r x) (f (in_w x)) (in_e x).
Definition upd_in_e (f : Z → Z) (x : input) : input :=
  MkInput (in_buf x) (in_r x) (in_w x) (f (in_e x)).

(** [struct shm_page] of shm.c. *)
Record shm_page := MkShmPage {
  shm_id : Z;
  shm_frame : Z;
  shm_refcnt : Z;
}.

Definition upd_shm_id (f : Z → Z) (x : shm_page) : shm_page :=
  MkShmPage (f (shm_id x)) (shm_frame x) (shm_refcnt x).
Definition upd_shm_frame (f : Z → Z) (x : shm_page) : shm_page :=
  MkShmPage (shm_id x) (f (shm_frame x)) (shm_refcnt x).
Definition upd_shm_refcnt (f : Z → Z) (x : shm_page) : shm_page :=
  MkShmPage (shm_id x) (shm_frame x) (f (shm_refcnt x)).

(** [struct segdesc] of mmu.h. *)
Record segdesc := MkSegdesc {
  lim_15_0 : Z;
  base_15_0 : Z;
  base_23_16 : Z;
  sd_type : Z;
  sd_s : Z;
  sd_dpl : Z;
  sd_p : Z;
  lim_19_16 : Z;
  sd_avl : Z;
  sd_rsv1 : Z;
  sd_db : Z;
  sd_g : Z;
  base_31_24 : Z;
}.


(** [struct gatedesc] of mmu.h. *)
Record gatedesc := MkGatedesc {
  off_15_0 : Z;
  gd_cs : Z;
  gd_args : Z;
  gd_rsv1 : Z;
  gd_type : Z;
  gd_s : Z;
  gd_dpl : Z;
  gd_p : Z;
  off_31_16 : Z;
}.


(** One access to a device, with the value that went over the bus: the [in]
    and [out] instructions, their string forms, and reads and writes of
    device registers mapped into memory. *)
Inductive io :=
| In (port v : Z) | Out (port v : Z)
| Ins (port : Z) (bytes : list Z) | Outs (port : Z) (bytes : list Z)
| Rd (addr v : Z) | Wr (addr v : Z).

(** The global variables of the kernel, as seen by the code running on one CPU. *)
Record kstate := MkK {
  k_cpu : cpu;  (** the current CPU *)
  k_locks : gmap lockref Z;  (** the locked spin locks, with the CPU that holds each *)
  k_mem : gmap Z Z;  (** memory, see [Mem] *)
  k_kmem : kmem;
  k_kpgdir : Z;
  k_procs : list proc;  (** [ptable.proc] *)
  k_nextpid : Z;
  k_initproc : option nat;
  k_ticks : Z;
  k_files : list file;  (** [ftable.file] *)
  k_sb : superblock;
  k_inodes : list inode;  (** [icache.inode] *)
  k_bufs : list buf;  (** [bcache.buf] *)
  k_bhead : nat * nat;  (** [bcache.head.prev], [bcache.head.next] *)
  k_idequeue : option nat;
  k_log : log;
  k_disk : disk;
  k_input : input;
  k_cons_locking : bool;  (** [cons.locking] *)
  k_console : list Z;  (** characters sent to the console, oldest first *)
  k_shm : list shm_page;  (** [shm_table.shm_pages] *)
  k_first : bool;  (** [first] of [forkret] *)
  k_havedisk1 : bool;  (** [havedisk1] of ide.c *)
  k_io : list io;  (** the I/O operations done so far, oldest first *)
  k_shift : Z;  (** [shift] of [kbdgetc] *)
  k_uart : bool;  (** [uart] of uart.c *)
  k_lapic : Z;  (** [lapic] of lapic.c *)
  k_ncpu : Z;
  k_apicids : list Z;  (** [cpus[i].apicid] *)
  k_started : list Z;  (** [cpus[i].started] *)
  k_ioapicid : Z;
  k_ioapic : Z;  (** [ioapic] of ioapic.c *)
  k_gdt : list segdesc;  (** [mycpu()->gdt] *)
  k_idt : list gatedesc;  (** [idt] of trap.c *)
}.

Definition upd_k_cpu (f : cpu → cpu) (x : kstate) : kstate :=
  MkK (f (k_cpu x)) (k_locks x) (k_mem x) (k_kmem x) (k_kpgdir x) (k_procs x) (k_nextpid x) (k_initproc x) (k_ticks x) (k_files x) (k_sb x) (k_inodes x) (k_bufs x) (k_bhead x) (k_idequeue x) (k_log x) (k_disk x) (k_input x) (k_cons_locking x) (k_console x) (k_shm x) (k_first x) (k_havedisk1 x) (k_io x) (k_shift x) (k_uart x) (k_lapic x) (k_ncpu x) (k_apicids x) (k_started x) (k_ioapicid x) (k_ioapic x) (k_gdt x) (k_idt x).
Definition upd_k_locks (f : gmap lockref Z → gmap lockref Z) (x : kstate) : kstate :=
  MkK (k_cpu x) (f (k_locks x)) (k_mem x) (k_kmem x) (k_kpgdir x) (k_procs x) (k_nextpid x) (k_initproc x) (k_ticks x) (k_files x) (k_sb x) (k_inodes x) (k_bufs x) (k_bhead x) (k_idequeue x) (k_log x) (k_disk x) (k_input x) (k_cons_locking x) (k_console x) (k_shm x) (k_first x) (k_havedisk1 x) (k_io x) (k_shift x) (k_uart x) (k_lapic x) (k_ncpu x) (k_apicids x) (k_started x) (k_ioapicid x) (k_ioapic x) (k_gdt x) (k_idt x).
Definition upd_k_mem (f : gmap Z Z → gmap Z Z) (x : kstate) : kstate :=
  MkK (k_cpu x) (k_locks x) (f (k_mem x)) (k_kmem x) (k_kpgdir x) (k_procs x) (k_nextpid x) (k_initproc x) (k_ticks x) (k_files x) (k_sb x) (k_inodes x) (k_bufs x) (k_bhead x) (k_idequeue x) (k_log x) (k_disk x) (k_input x) (k_cons_locking x) (k_console x) (k_shm x) (k_first x) (k_havedisk1 x) (k_io x) (k_shift x) (k_uart x) (k_lapic x) (k_ncpu x) (k_apicids x) (k_started x) (k_ioapicid x) (k_ioapic x) (k_gdt x) (k_idt x).
Definition upd_k_kmem (f : kmem → kmem) (x : kstate) : kstate :=
  MkK (k_cpu x) (k_locks x) (k_mem x) (f (k_kmem x)) (k_kpgdir x) (k_procs x) (k_nextpid x) (k_initproc x) (k_ticks x) (k_files x) (k_sb x) (k_inodes x) (k_bufs x) (k_bhead x) (k_idequeue x) (k_log x) (k_disk x) (k_input x) (k_cons_locking x) (k_console x) (k_shm x) (k_first x) (k_havedisk1 x) (k_io x) (k_shift x) (k_uart x) (k_lapic x) (k_ncpu x) (k_apicids x) (k_started x) (k_ioapicid x) (k_ioapic x) (k_gdt x) (k_idt x).
Definition upd_k_kpgdir (f : Z → Z) (x : kstate) : kstate :=
  MkK (k_cpu x) (k_locks x) (k_mem x) (k_kmem x) (f (k_kpgdir x)) (k_procs x) (k_nextpid x) (k_initproc x) (k_ticks x) (k_files x) (k_sb x) (k_inodes x) (k_bufs x) (k_bhead x) (k_idequeue x) (k_log x) (k_disk x) (k_input x) (k_cons_locking x) (k_console x) (k_shm x) (k_first x) (k_havedisk1 x) (k_io x) (k_shift x) (k_uart x) (k_lapic x) (k_ncpu x) (k_apicids x) (k_started x) (k_ioapicid x) (k_ioapic x) (k_gdt x) (k_idt x).
Definition upd_k_procs (f : list proc → list proc) (x : kstate) : kstate :=
  MkK (k_cpu x) (k_locks x) (k_mem x) (k_kmem x) (k_kpgdir x) (f (k_procs x)) (k_nextpid x) (k_initproc x) (k_ticks x) (k_files x) (k_sb x) (k_inodes x) (k_bufs x) (k_bhead x) (k_idequeue x) (k_log x) (k_disk x) (k_input x) (k_cons_locking x) (k_console x) (k_shm x) (k_first x) (k_havedisk1 x) (k_io x) (k_shift x) (k_uart x) (k_lapic x) (k_ncpu x) (k_apicids x) (k_started x) (k_ioapicid x) (k_ioapic x) (k_gdt x) (k_idt x).
Definition upd_k_nextpid (f : Z → Z) (x : kstate) : kstate :=
  MkK (k_cpu x) (k_locks x) (k_mem x) (k_kmem x) (k_kpgdir x) (k_procs x) (f (k_nextpid x)) (k_initproc x) (k_ticks x) (k_files x) (k_sb x) (k_inodes x) (k_bufs x) (k_bhead x) (k_idequeue x) (k_log x) (k_disk x) (k_input x) (k_cons_locking x) (k_console x) (k_shm x) (k_first x) (k_havedisk1 x) (k_io x) (k_shift x) (k_uart x) (k_lapic x) (k_ncpu x) (k_apicids x) (k_started x) (k_ioapicid x) (k_ioapic x) (k_gdt x) (k_idt x).
Definition upd_k_initproc (f : option nat → option nat) (x : kstate) : kstate :=
  MkK (k_cpu x) (k_locks x) (k_mem x) (k_kmem x) (k_kpgdir x) (k_procs x) (k_nextpid x) (f (k_initproc x)) (k_ticks x) (k_files x) (k_sb x) (k_inodes x) (k_bufs x) (k_bhead x) (k_idequeue x) (k_log x) (k_disk x) (k_input x) (k_cons_locking x) (k_console x) (k_shm x) (k_first x) (k_havedisk1 x) (k_io x) (k_shift x) (k_uart x) (k_lapic x) (k_ncpu x) (k_apicids x) (k_started x) (k_ioapicid x) (k_ioapic x) (k_gdt x) (k_idt x).
Definition upd_k_ticks (f : Z → Z) (x : kstate) : kstate :=
  MkK (k_cpu x) (k_locks x) (k_mem x) (k_kmem x) (k_kpgdir x) (k_procs x) (k_nextpid x) (k_initproc x) (f (k_ticks x)) (k_files x) (k_sb x) (k_inodes x) (k_bufs x) (k_bhead x) (k_idequeue x) (k_log x) (k_disk x) (k_input x) (k_cons_locking x) (k_console x) (k_shm x) (k_first x) (k_havedisk1 x) (k_io x) (k_shift x) (k_uart x) (k_lapic x) (k_ncpu x) (k_apicids x) (k_started x) (k_ioapicid x) (k_ioapic x) (k_gdt x) (k_idt x).
Definition upd_k_files (f : list file → list file) (x : kstate) : kstate :=
  MkK (k_cpu x) (k_locks x) (k_mem x) (k_kmem x) (k_kpgdir x) (k_procs x) (k_nextpid x) (k_initproc x) (k_ticks x) (f (k_files x)) (k_sb x) (k_inodes x) (k_bufs x) (k_bhead x) (k_idequeue x) (k_log x) (k_disk x) (k_input x) (k_cons_locking x) (k_console x) (k_shm x) (k_first x) (k_havedisk1 x) (k_io x) (k_shift x) (k_uart x) (k_lapic x) (k_ncpu x) (k_apicids x) (k_started x) (k_ioapicid x) (k_ioapic x) (k_gdt x) (k_idt x).
Definition upd_k_sb (f : superblock → superblock) (x : kstate) : kstate :=
  MkK (k_cpu x) (k_locks x) (k_mem x) (k_kmem x) (k_kpgdir x) (k_procs x) (k_nextpid x) (k_initproc x) (k_ticks x) (k_files x) (f (k_sb x)) (k_inodes x) (k_bufs x) (k_bhead x) (k_idequeue x) (k_log x) (k_disk x) (k_input x) (k_cons_locking x) (k_console x) (k_shm x) (k_first x) (k_havedisk1 x) (k_io x) (k_shift x) (k_uart x) (k_lapic x) (k_ncpu x) (k_apicids x) (k_started x) (k_ioapicid x) (k_ioapic x) (k_gdt x) (k_idt x).
Definition upd_k_inodes (f : list inode → list inode) (x : kstate) : kstate :=
  MkK (k_cpu x) (k_locks x) (k_mem x) (k_kmem x) (k_kpgdir x) (k_procs x) (k_nextpid x) (k_initproc x) (k_ticks x) (k_files x) (k_sb x) (f (k_inodes x)) (k_bufs x) (k_bhead x) (k_idequeue x) (k_log x) (k_disk x) (k_input x) (k_cons_locking x) (k_console x) (k_shm x) (k_first x) (k_havedisk1 x) (k_io x) (k_shift x) (k_uart x) (k_lapic x) (k_ncpu x) (k_apicids x) (k_started x) (k_ioapicid x) (k_ioapic x) (k_gdt x) (k_idt x).
Definition upd_k_bufs (f : list buf → list buf) (x : kstate) : kstate :=
  MkK (k_cpu x) (k_locks x) (k_mem x) (k_kmem x) (k_kpgdir x) (k_procs x) (k_nextpid x) (k_initproc x) (k_ticks x) (k_files x) (k_sb x) (k_inodes x) (f (k_bufs x)) (k_bhead x) (k_idequeue x) (k_log x) (k_disk x) (k_input x) (k_cons_locking x) (k_console x) (k_shm x) (k_first x) (k_havedisk1 x) (k_io x) (k_shift x) (k_uart x) (k_lapic x) (k_ncpu x) (k_apicids x) (k_started x) (k_ioapicid x) (k_ioapic x) (k_gdt x) (k_idt x).
Definition upd_k_bhead (f : nat * nat → nat * nat) (x : kstate) : kstate :=
  MkK (k_cpu x) (k_locks x) (k_mem x) (k_kmem x) (k_kpgdir x) (k_procs x) (k_nextpid x) (k_initproc x) (k_ticks x) (k_files x) (k_sb x) (k_inodes x) (k_bufs x) (f (k_bhead x)) (k_idequeue x) (k_log x) (k_disk x) (k_input x) (k_cons_locking x) (k_console x) (k_shm x) (k_first x) (k_havedisk1 x) (k_io x) (k_shift x) (k_uart x) (k_lapic x) (k_ncpu x) (k_apicids x) (k_started x) (k_ioapicid x) (k_ioapic x) (k_gdt x) (k_idt x).
Definition upd_k_idequeue (f : option nat → option nat) (x : kstate) : kstate :=
  MkK (k_cpu x) (k_locks x) (k_mem x) (k_kmem x) (k_kpgdir x) (k_procs x) (k_nextpid x) (k_initproc x) (k_ticks x) (k_files x) (k_sb x) (k_inodes x) (k_bufs x) (k_bhead x) (f (k_idequeue x)) (k_log x) (k_disk x) (k_input x) (k_cons_locking x) (k_console x) (k_shm x) (k_first x) (k_havedisk1 x) (k_io x) (k_shift x) (k_uart x) (k_lapic x) (k_ncpu x) (k_apicids x) (k_started x) (k_ioapicid x) (k_ioapic x) (k_gdt x) (k_idt x).
Definition upd_k_log (f : log → log) (x : kstate) : kstate :=
  MkK (k_cpu x) (k_locks x) (k_mem x) (k_kmem x) (k_kpgdir x) (k_procs x) (k_nextpid x) (k_initproc x) (k_ticks x) (k_files x) (k_sb x) (k_inodes x) (k_bufs x) (k_bhead x) (k_idequeue x) (f (k_log x)) (k_disk x) (k_input x) (k_cons_locking x) (k_console x) (k_shm x) (k_first x) (k_havedisk1 x) (k_io x) (k_shift x) (k_uart x) (k_lapic x) (k_ncpu x) (k_apicids x) (k_started x) (k_ioapicid x) (k_ioapic x) (k_gdt x) (k_idt x).
Definition upd_k_disk (f : disk → disk) (x : kstate) : kstate :=
  MkK (k_cpu x) (k_locks x) (k_mem x) (k_kmem x) (k_kpgdir x) (k_procs x) (k_nextpid x) (k_initproc x) (k_ticks x) (k_files x) (k_sb x) (k_inodes x) (k_bufs x) (k_bhead x) (k_idequeue x) (k_log x) (f (k_disk x)) (k_input x) (k_cons_locking x) (k_console x) (k_shm x) (k_first x) (k_havedisk1 x) (k_io x) (k_shift x) (k_uart x) (k_lapic x) (k_ncpu x) (k_apicids x) (k_started x) (k_ioapicid x) (k_ioapic x) (k_gdt x) (k_idt x).
Definition upd_k_input (f : input → input) (x : kstate) : kstate :=
  MkK (k_cpu x) (k_locks x) (k_mem x) (k_kmem x) (k_kpgdir x) (k_procs x) (k_nextpid x) (k_initproc x) (k_ticks x) (k_files x) (k_sb x) (k_inodes x) (k_bufs x) (k_bhead x) (k_idequeue x) (k_log x) (k_disk x) (f (k_input x)) (k_cons_locking x) (k_console x) (k_shm x) (k_first x) (k_havedisk1 x) (k_io x) (k_shift x) (k_uart x) (k_lapic x) (k_ncpu x) (k_apicids x) (k_started x) (k_ioapicid x) (k_ioapic x) (k_gdt x) (k_idt x).
Definition upd_k_cons_locking (f : bool → bool) (x : kstate) : kstate :=
  MkK (k_cpu x) (k_locks x) (k_mem x) (k_kmem x) (k_kpgdir x) (k_procs x) (k_nextpid x) (k_initproc x) (k_ticks x) (k_files x) (k_sb x) (k_inodes x) (k_bufs x) (k_bhead x) (k_idequeue x) (k_log x) (k_disk x) (k_input x) (f (k_cons_locking x)) (k_console x) (k_shm x) (k_first x) (k_havedisk1 x) (k_io x) (k_shift x) (k_uart x) (k_lapic x) (k_ncpu x) (k_apicids x) (k_started x) (k_ioapicid x) (k_ioapic x) (k_gdt x) (k_idt x).
Definition upd_k_console (f : list Z → list Z) (x : kstate) : kstate :=
  MkK (k_cpu x) (k_locks x) (k_mem x) (k_kmem x) (k_kpgdir x) (k_procs x) (k_nextpid x) (k_initproc x) (k_ticks x) (k_files x) (k_sb x) (k_inodes x) (k_bufs x) (k_bhead x) (k_idequeue x) (k_log x) (k_disk x) (k_input x) (k_cons_locking x) (f (k_console x)) (k_shm x) (k_first x) (k_havedisk1 x) (k_io x) (k_shift x) (k_uart x) (k_lapic x) (k_ncpu x) (k_apicids x) (k_started x) (k_ioapicid x) (k_ioapic x) (k_gdt x) (k_idt x).
Definition upd_k_shm (f : list shm_page → list shm_page) (x : kstate) : kstate :=
  MkK (k_cpu x) (k_locks x) (k_mem x) (k_kmem x) (k_kpgdir x) (k_procs x) (k_nextpid x) (k_initproc x) (k_ticks x) (k_files x) (k_sb x) (k_inodes x) (k_bufs x) (k_bhead x) (k_idequeue x) (k_log x) (k_disk x) (k_input x) (k_cons_locking x) (k_console x) (f (k_shm x)) (k_first x) (k_havedisk1 x) (k_io x) (k_shift x) (k_uart x) (k_lapic x) (k_ncpu x) (k_apicids x) (k_started x) (k_ioapicid x) (k_ioapic x) (k_gdt x) (k_idt x).
Definition upd_k_first (f : bool → bool) (x : kstate) : kstate :=
  MkK (k_cpu x) (k_locks x) (k_mem x) (k_kmem x) (k_kpgdir x) (k_procs x) (k_nextpid x) (k_initproc x) (k_ticks x) (k_files x) (k_sb x) (k_inodes x) (k_bufs x) (k_bhead x) (k_idequeue x) (k_log x) (k_disk x) (k_input x) (k_cons_locking x) (k_console x) (k_shm x) (f (k_first x)) (k_havedisk1 x) (k_io x) (k_shift x) (k_uart x) (k_lapic x) (k_ncpu x) (k_apicids x) (k_started x) (k_ioapicid x) (k_ioapic x) (k_gdt x) (k_idt x).
Definition upd_k_havedisk1 (f : bool → bool) (x : kstate) : kstate :=
  MkK (k_cpu x) (k_locks x) (k_mem x) (k_kmem x) (k_kpgdir x) (k_procs x) (k_nextpid x) (k_initproc x) (k_ticks x) (k_files x) (k_sb x) (k_inodes x) (k_bufs x) (k_bhead x) (k_idequeue x) (k_log x) (k_disk x) (k_input x) (k_cons_locking x) (k_console x) (k_shm x) (k_first x) (f (k_havedisk1 x)) (k_io x) (k_shift x) (k_uart x) (k_lapic x) (k_ncpu x) (k_apicids x) (k_started x) (k_ioapicid x) (k_ioapic x) (k_gdt x) (k_idt x).
Definition upd_k_io (f : list io → list io) (x : kstate) : kstate :=
  MkK (k_cpu x) (k_locks x) (k_mem x) (k_kmem x) (k_kpgdir x) (k_procs x) (k_nextpid x) (k_initproc x) (k_ticks x) (k_files x) (k_sb x) (k_inodes x) (k_bufs x) (k_bhead x) (k_idequeue x) (k_log x) (k_disk x) (k_input x) (k_cons_locking x) (k_console x) (k_shm x) (k_first x) (k_havedisk1 x) (f (k_io x)) (k_shift x) (k_uart x) (k_lapic x) (k_ncpu x) (k_apicids x) (k_started x) (k_ioapicid x) (k_ioapic x) (k_gdt x) (k_idt x).
Definition upd_k_shift (f : Z → Z) (x : kstate) : kstate :=
  MkK (k_cpu x) (k_locks x) (k_mem x) (k_kmem x) (k_kpgdir x) (k_procs x) (k_nextpid x) (k_initproc x) (k_ticks x) (k_files x) (k_sb x) (k_inodes x) (k_bufs x) (k_bhead x) (k_idequeue x) (k_log x) (k_disk x) (k_input x) (k_cons_locking x) (k_console x) (k_shm x) (k_first x) (k_havedisk1 x) (k_io x) (f (k_shift x)) (k_uart x) (k_lapic x) (k_ncpu x) (k_apicids x) (k_started x) (k_ioapicid x) (k_ioapic x) (k_gdt x) (k_idt x).
Definition upd_k_uart (f : bool → bool) (x : kstate) : kstate :=
  MkK (k_cpu x) (k_locks x) (k_mem x) (k_kmem x) (k_kpgdir x) (k_procs x) (k_nextpid x) (k_initproc x) (k_ticks x) (k_files x) (k_sb x) (k_inodes x) (k_bufs x) (k_bhead x) (k_idequeue x) (k_log x) (k_disk x) (k_input x) (k_cons_locking x) (k_console x) (k_shm x) (k_first x) (k_havedisk1 x) (k_io x) (k_shift x) (f (k_uart x)) (k_lapic x) (k_ncpu x) (k_apicids x) (k_started x) (k_ioapicid x) (k_ioapic x) (k_gdt x) (k_idt x).
Definition upd_k_lapic (f : Z → Z) (x : kstate) : kstate :=
  MkK (k_cpu x) (k_locks x) (k_mem x) (k_kmem x) (k_kpgdir x) (k_procs x) (k_nextpid x) (k_initproc x) (k_ticks x) (k_files x) (k_sb x) (k_inodes x) (k_bufs x) (k_bhead x) (k_idequeue x) (k_log x) (k_disk x) (k_input x) (k_cons_locking x) (k_console x) (k_shm x) (k_first x) (k_havedisk1 x) (k_io x) (k_shift x) (k_uart x) (f (k_lapic x)) (k_ncpu x) (k_apicids x) (k_started x) (k_ioapicid x) (k_ioapic x) (k_gdt x) (k_idt x).
Definition upd_k_ncpu (f : Z → Z) (x : kstate) : kstate :=
  MkK (k_cpu x) (k_locks x) (k_mem x) (k_kmem x) (k_kpgdir x) (k_procs x) (k_nextpid x) (k_initproc x) (k_ticks x) (k_files x) (k_sb x) (k_inodes x) (k_bufs x) (k_bhead x) (k_idequeue x) (k_log x) (k_disk x) (k_input x) (k_cons_locking x) (k_console x) (k_shm x) (k_first x) (k_havedisk1 x) (k_io x) (k_shift x) (k_uart x) (k_lapic x) (f (k_ncpu x)) (k_apicids x) (k_started x) (k_ioapicid x) (k_ioapic x) (k_gdt x) (k_idt x).
Definition upd_k_apicids (f : list Z → list Z) (x : kstate) : kstate :=
  MkK (k_cpu x) (k_locks x) (k_mem x) (k_kmem x) (k_kpgdir x) (k_procs x) (k_nextpid x) (k_initproc x) (k_ticks x) (k_files x) (k_sb x) (k_inodes x) (k_bufs x) (k_bhead x) (k_idequeue x) (k_log x) (k_disk x) (k_input x) (k_cons_locking x) (k_console x) (k_shm x) (k_first x) (k_havedisk1 x) (k_io x) (k_shift x) (k_uart x) (k_lapic x) (k_ncpu x) (f (k_apicids x)) (k_started x) (k_ioapicid x) (k_ioapic x) (k_gdt x) (k_idt x).
Definition upd_k_started (f : list Z → list Z) (x : kstate) : kstate :=
  MkK (k_cpu x) (k_locks x) (k_mem x) (k_kmem x) (k_kpgdir x) (k_procs x) (k_nextpid x) (k_initproc x) (k_ticks x) (k_files x) (k_sb x) (k_inodes x) (k_bufs x) (k_bhead x) (k_idequeue x) (k_log x) (k_disk x) (k_input x) (k_cons_locking x) (k_console x) (k_shm x) (k_first x) (k_havedisk1 x) (k_io x) (k_shift x) (k_uart x) (k_lapic x) (k_ncpu x) (k_apicids x) (f (k_started x)) (k_ioapicid x) (k_ioapic x) (k_gdt x) (k_idt x).
Definition upd_k_ioapicid (f : Z → Z) (x : kstate) : kstate :=
  MkK (k_cpu x) (k_locks x) (k_mem x) (k_kmem x) (k_kpgdir x) (k_procs x) (k_nextpid x) (k_initproc x) (k_ticks x) (k_files x) (k_sb x) (k_inodes x) (k_bufs x) (k_bhead x) (k_idequeue x) (k_log x) (k_disk x) (k_input x) (k_cons_locking x) (k_console x) (k_shm x) (k_first x) (k_havedisk1 x) (k_io x) (k_shift x) (k_uart x) (k_lapic x) (k_ncpu x) (k_apicids x) (k_started x) (f (k_ioapicid x)) (k_ioapic x) (k_gdt x) (k_idt x).
Definition upd_k_ioapic (f : Z → Z) (x : kstate) : kstate :=
  MkK (k_cpu x) (k_locks x) (k_mem x) (k_kmem x) (k_kpgdir x) (k_procs x) (k_nextpid x) (k_initproc x) (k_ticks x) (k_files x) (k_sb x) (k_inodes x) (k_bufs x) (k_bhead x) (k_idequeue x) (k_log x) (k_disk x) (k_input x) (k_cons_locking x) (k_console x) (k_shm x) (k_first x) (k_havedisk1 x) (k_io x) (k_shift x) (k_uart x) (k_lapic x) (k_ncpu x) (k_apicids x) (k_started x) (k_ioapicid x) (f (k_ioapic x)) (k_gdt x) (k_idt x).
Definition upd_k_gdt (f : list segdesc → list segdesc) (x : kstate) : kstate :=
  MkK (k_cpu x) (k_locks x) (k_mem x) (k_kmem x) (k_kpgdir x) (k_procs x) (k_nextpid x) (k_initproc x) (k_ticks x) (k_files x) (k_sb x) (k_inodes x) (k_bufs x) (k_bhead x) (k_idequeue x) (k_log x) (k_disk x) (k_input x) (k_cons_locking x) (k_console x) (k_shm x) (k_first x) (k_havedisk1 x) (k_io x) (k_shift x) (k_uart x) (k_lapic x) (k_ncpu x) (k_apicids x) (k_started x) (k_ioapicid x) (k_ioapic x) (f (k_gdt x)) (k_idt x).
Definition upd_k_idt (f : list gatedesc → list gatedesc) (x : kstate) : kstate :=
  MkK (k_cpu x) (k_locks x) (k_mem x) (k_kmem x) (k_kpgdir x) (k_procs x) (k_nextpid x) (k_initproc x) (k_ticks x) (k_files x) (k_sb x) (k_inodes x) (k_bufs x) (k_bhead x) (k_idequeue x) (k_log x) (k_disk x) (k_input x) (k_cons_locking x) (k_console x) (k_shm x) (k_first x) (k_havedisk1 x) (k_io x) (k_shift x) (k_uart x) (k_lapic x) (k_ncpu x) (k_apicids x) (k_started x) (k_ioapicid x) (k_ioapic x) (k_gdt x) (f (k_idt x)).

(** States are equal when all their fields are. *)
Lemma kstate_eq (x y : kstate) :
  k_cpu x = k_cpu y →
  k_locks x = k_locks y →
  k_mem x = k_mem y →
  k_kmem x = k_kmem y →
  k_kpgdir x = k_kpgdir y →
  k_procs x = k_procs y →
  k_nextpid x = k_nextpid y →
  k_initproc x = k_initproc y →
  k_ticks x = k_ticks y →
  k_files x = k_files y →
  k_sb x = k_sb y →
  k_inodes x = k_inodes y →
  k_bufs x = k_bufs y →
  k_bhead x = k_bhead y →
  k_idequeue x = k_idequeue y →
  k_log x = k_log y →
  k_disk x = k_disk y →
  k_input x = k_input y →
  k_cons_locking x = k_cons_locking y →
  k_console x = k_console y →
  k_shm x = k_shm y →
  k_first x = k_first y →
  k_havedisk1 x = k_havedisk1 y →
  k_io x = k_io y →
  k_shift x = k_shift y →
  k_uart x = k_uart y →
  k_lapic x = k_lapic y →
  k_ncpu x = k_ncpu y →
  k_apicids x = k_apicids y →
  k_started x = k_started y →
  k_ioapicid x = k_ioapicid y →
  k_ioapic x = k_ioapic y →
  k_gdt x = k_gdt y →
  k_idt x = k_idt y → x = y.
Proof. destruct x, y. simpl. intros. subst. done. Qed.

Abbreviation K := (M kstate).

(** The running process: [myproc()] after its [pushcli]/[popcli]. *)
Definition curproc (s : kstate) : option proc := c_proc (k_cpu s) ≫= λ i, k_procs s !! i.

(** A zero-initialised process slot. *)
Definition proc0 : proc :=
  MkProc 0 0 0 0 0 UNUSED 0 None 0 0 None 0 (replicate 16 None) None (replicate 16 0).

(** The zero-initialised global variables of a freshly loaded kernel, with
    interrupts off on CPU 0, blank memory and an empty disk. *)
Definition bss : kstate :=
  let sl := MkSleeplock false 0 in
  MkK (MkCpu 0 0 false false None 0 0 0 0) ∅ ∅ (MkKmem false 0) 0
    (replicate 64 proc0)
    1 None 0
    (replicate 100 (MkFile FD_NONE 0 false false 0 None 0))
    (MkSuperblock 0 0 0 0 0 0 0)
    (replicate 50 (MkInode 0 0 0 sl false 0 0 0 0 0 (replicate 13 0)))
    (replicate 30 (MkBuf 0 0 0 sl 0 0 0 None (replicate 512 0)))
    (0%nat, 0%nat) None
    (MkLog 0 0 0 false 0 (MkLogheader 0 (replicate 30 0)))
    (MkDisk ∅ [])
    (MkInput (replicate 128 0) 0 0 0) false []
    (replicate 64 (MkShmPage 0 0 0)) true false
    [] 0 false 0 0 (replicate 8 0) (replicate 8 0) 0 0
    (replicate 6 (MkSegdesc 0 0 0 0 0 0 0 0 0 0 0 0 0)) (replicate 256 (MkGatedesc 0 0 0 0 0 0 0 0 0)).
