(* ===== verification/Mem.v ===== *)
(** Mem: machine memory and the block operations of [string.c].

    Memory is a finite map from 4-aligned addresses to 32-bit words, words
    that were never written reading as 0.  Byte accesses select a byte of
    the little-endian word.  [memset] and [memmove] follow [string.c] and
    the [rep stos] loops of [x86.h]; the lemmas reduce them to one formula
    per byte and per word. *)

From S2P Require Import Prelude Layout.

Definition mem : Type := gmap Z Z.

Definition ld32 (m : gmap Z Z) (a : Z) : Z := u32 (default 0 (m !! a)).
Definition st32 (m : gmap Z Z) (a v : Z) : gmap Z Z := <[a := u32 v]> m.

(** The word holding the byte at [a], and the byte's position in it. *)
Definition word_of (a : Z) : Z := a - a mod 4.
Definition bit_of (a : Z) : Z := 8 * (a mod 4).

Definition ldb (m : gmap Z Z) (a : Z) : Z :=
  Z.land (Z.shiftr (ld32 m (word_of a)) (bit_of a)) 255.

Definition stb (m : gmap Z Z) (a v : Z) : gmap Z Z :=
  st32 m (word_of a)
    (Z.lor (Z.ldiff (ld32 m (word_of a)) (Z.shiftl 255 (bit_of a)))
           (Z.shiftl (u8 v) (bit_of a))).

(** ** x86.h: string instructions *)

Fixpoint stosb (m : gmap Z Z) (addr data : Z) (cnt : nat) : gmap Z Z :=
  match cnt with
  | O => m
  | S cnt => stosb (stb m addr data) (addr + 1) data cnt
  end.

Fixpoint stosl (m : gmap Z Z) (addr data : Z) (cnt : nat) : gmap Z Z :=
  match cnt with
  | O => m
  | S cnt => stosl (st32 m addr data) (addr + 4) data cnt
  end.

(** ** string.c: memset, memmove, memcmp *)

Definition memset (m : gmap Z Z) (dst c n : Z) : gmap Z Z :=
  if (Z.rem (s32 dst) 4 =? 0) && (n mod 4 =? 0) then
    let c := Z.land c 0xFF in
    stosl m dst (Z.lor (Z.lor (Z.lor (Z.shiftl c 24) (Z.shiftl c 16)) (Z.shiftl c 8)) c)
      (Z.to_nat (n / 4))
  else stosb m dst c (Z.to_nat n).

(** [while(n-- > 0) *d++ = *s++] *)
Fixpoint copy_up (m : gmap Z Z) (d s : Z) (n : nat) : gmap Z Z :=
  match n with
  | O => m
  | S n => copy_up (stb m d (ldb m s)) (d + 1) (s + 1) n
  end.

(** [while(n-- > 0) *--d = *--s] *)
Fixpoint copy_down (m : gmap Z Z) (d s : Z) (n : nat) : gmap Z Z :=
  match n with
  | O => m
  | S n => copy_down (stb m (d - 1) (ldb m (s - 1))) (d - 1) (s - 1) n
  end.

Definition memmove (m : gmap Z Z) (dst src n : Z) : gmap Z Z :=
  if (src <? dst) && (dst <? u32 (src + n))
  then copy_down m (dst + n) (src + n) (Z.to_nat n)
  else copy_up m dst src (Z.to_nat n).

Fixpoint memcmp_loop (m : gmap Z Z) (s1 s2 : Z) (n : nat) : Z :=
  match n with
  | O => 0
  | S n => if ldb m s1 =? ldb m s2 then memcmp_loop m (s1 + 1) (s2 + 1) n
           else ldb m s1 - ldb m s2
  end.

Definition memcmp (m : gmap Z Z) (v1 v2 n : Z) : Z := memcmp_loop m v1 v2 (Z.to_nat n).

(** The [n] bytes at [a], and storing a list of bytes there. *)
Fixpoint bytes_at (m : gmap Z Z) (a : Z) (n : nat) : list Z :=
  match n with
  | O => []
  | S n => ldb m a :: bytes_at m (a + 1) n
  end.

Fixpoint store_bytes (m : gmap Z Z) (a : Z) (bs : list Z) : gmap Z Z :=
  match bs with
  | [] => m
  | b :: bs => store_bytes (stb m a b) (a + 1) bs
  end.

(** ** Words *)

Lemma ld32_range m a : 0 ≤ ld32 m a < two32.
Proof. apply u32_range. Qed.

Lemma ld32_st32_eq m a v : ld32 (st32 m a v) a = u32 v.
Proof. unfold ld32, st32. rewrite lookup_insert_eq. apply u32_idemp. Qed.

Lemma ld32_st32_ne m a b v : a ≠ b → ld32 (st32 m a v) b = ld32 m b.
Proof. intros H. unfold ld32, st32. by rewrite lookup_insert_ne. Qed.

Lemma ld32_st32 m a b v : ld32 (st32 m a v) b = if decide (a = b) then u32 v else ld32 m b.
Proof. case_decide; [subst; apply ld32_st32_eq | by apply ld32_st32_ne]. Qed.

(** ** Bytes *)

Lemma ldb_testbit m a j :
  0 ≤ j → Z.testbit (ldb m a) j = (j <? 8) && Z.testbit (ld32 m (word_of a)) (j + bit_of a).
Proof.
  intros Hj. unfold ldb. rewrite Z.land_spec, Z.shiftr_spec by done.
  change 255 with (Z.ones 8). rewrite Z.testbit_ones_nonneg by lia. apply andb_comm.
Qed.

Lemma ldb_range m a : 0 ≤ ldb m a < 256.
Proof.
  unfold ldb. change 255 with (Z.ones 8). rewrite land_low_mask by done.
  by apply Z.mod_pos_bound.
Qed.

Lemma bit_of_range a : 0 ≤ bit_of a ≤ 24.
Proof. unfold bit_of. pose proof (Z.mod_pos_bound a 4 eq_refl). lia. Qed.

Lemma u32_testbit x j : 0 ≤ j → Z.testbit (u32 x) j = (j <? 32) && Z.testbit x j.
Proof.
  intros Hj. unfold u32, two32. change 4294967296 with (2 ^ 32).
  destruct (Z.ltb_spec j 32).
  - by rewrite Z.mod_pow2_bits_low.
  - by rewrite Z.mod_pow2_bits_high.
Qed.

Lemma stb_word_testbit m a v j :
  0 ≤ j →
  Z.testbit (ld32 (stb m a v) (word_of a)) j =
  if decide (bit_of a ≤ j < bit_of a + 8) then Z.testbit v (j - bit_of a)
  else Z.testbit (ld32 m (word_of a)) j.
Proof.
  intros Hj. unfold stb. rewrite ld32_st32_eq, u32_testbit by done.
  pose proof (bit_of_range a) as Hb.
  rewrite Z.lor_spec, Z.ldiff_spec, !Z.shiftl_spec by done.
  change 255 with (Z.ones 8). unfold u8. change 256 with (2 ^ 8).
  case_decide as Hr.
  - rewrite Z.testbit_ones_nonneg by lia. rewrite Z.mod_pow2_bits_low by lia.
    destruct (Z.ltb_spec (j - bit_of a) 8); [|lia]. destruct (Z.ltb_spec j 32); [|lia].
    simpl. by rewrite andb_false_r.
  - assert (Z.testbit (Z.ones 8) (j - bit_of a) = false) as ->.
    { destruct (decide (j < bit_of a)); [apply Z.testbit_neg_r; lia|].
      rewrite Z.testbit_ones_nonneg by lia. apply Z.ltb_ge. lia. }
    assert (Z.testbit (v mod 2 ^ 8) (j - bit_of a) = false) as ->.
    { destruct (decide (j < bit_of a)); [apply Z.testbit_neg_r; lia|].
      apply Z.mod_pow2_bits_high. lia. }
    rewrite orb_false_r, andb_true_r. unfold ld32. by rewrite u32_testbit, andb_assoc, andb_diag.
Qed.

Lemma ldb_stb_eq m a v : ldb (stb m a v) a = u8 v.
Proof.
  apply Z.bits_inj'. intros j Hj. rewrite ldb_testbit by done.
  pose proof (bit_of_range a). rewrite stb_word_testbit by lia.
  unfold u8. change 256 with (2 ^ 8). destruct (Z.ltb_spec j 8); simpl.
  - rewrite decide_True by lia. rewrite Z.mod_pow2_bits_low by lia. f_equal. lia.
  - by rewrite Z.mod_pow2_bits_high by lia.
Qed.

Lemma stb_word_ne m a v w : word_of a ≠ w → ld32 (stb m a v) w = ld32 m w.
Proof. intros H. unfold stb. by apply ld32_st32_ne. Qed.

Lemma ldb_stb_ne m a b v : a ≠ b → ldb (stb m a v) b = ldb m b.
Proof.
  intros Hne. destruct (decide (word_of a = word_of b)) as [Hw|Hw].
  - apply Z.bits_inj'. intros j Hj. rewrite !ldb_testbit by done.
    pose proof (bit_of_range b). rewrite <-Hw, stb_word_testbit by lia.
    destruct (Z.ltb_spec j 8); [|done]. simpl. rewrite decide_False; [done|].
    unfold bit_of, word_of in *. pose proof (Z.mod_pos_bound a 4 eq_refl).
    pose proof (Z.mod_pos_bound b 4 eq_refl). lia.
  - unfold ldb. by rewrite stb_word_ne.
Qed.

Lemma ldb_stb m a b v : ldb (stb m a v) b = if decide (a = b) then u8 v else ldb m b.
Proof. case_decide; [subst; apply ldb_stb_eq | by apply ldb_stb_ne]. Qed.

Lemma ldb_same_word m m' a : ld32 m (word_of a) = ld32 m' (word_of a) → ldb m a = ldb m' a.
Proof. unfold ldb. by intros ->. Qed.

Lemma word_of_aligned a i : a mod 4 = 0 → 0 ≤ i < 4 → word_of (a + i) = a ∧ bit_of (a + i) = 8 * i.
Proof.
  intros Ha Hi. unfold word_of, bit_of.
  assert ((a + i) mod 4 = i) as ->; [|lia].
  rewrite <-Zplus_mod_idemp_l, Ha. by apply Z.mod_small.
Qed.

(** A word equals another as soon as its four bytes do. *)
Lemma ld32_bytes m m' a b :
  a mod 4 = 0 → b mod 4 = 0 → (∀ i, 0 ≤ i < 4 → ldb m (a + i) = ldb m' (b + i)) →
  ld32 m a = ld32 m' b.
Proof.
  intros Ha Hb H. apply Z.bits_inj'. intros j Hj.
  destruct (decide (j < 32)) as [Hlt|].
  - assert (0 ≤ j / 8 < 4) as Hq by (split; [apply Z.div_pos | apply Z.div_lt_upper_bound]; lia).
    specialize (H (j / 8) Hq). apply (f_equal (λ x, Z.testbit x (j mod 8))) in H.
    pose proof (Z.mod_pos_bound j 8 eq_refl) as Hm.
    rewrite !ldb_testbit in H by lia.
    destruct (word_of_aligned a (j / 8) Ha Hq) as [W1 E1], (word_of_aligned b (j / 8) Hb Hq) as [W2 E2].
    rewrite W1, E1, W2, E2 in H. destruct (Z.ltb_spec (j mod 8) 8); [|lia]. simpl in H.
    replace (j mod 8 + 8 * (j / 8)) with j in H; [done|]. pose proof (Z.div_mod j 8). lia.
  - unfold ld32. rewrite !u32_testbit by done. destruct (Z.ltb_spec j 32); [lia|done].
Qed.

(** ** The block operations, byte by byte *)

Lemma ldb_copy_up m d s n x :
  (d ≤ s ∨ s + Z.of_nat n ≤ d) →
  ldb (copy_up m d s n) x =
  if decide (d ≤ x < d + Z.of_nat n) then ldb m (s + (x - d)) else ldb m x.
Proof.
  revert m d s. induction n as [|n IH]; intros m d s Hd.
  - simpl. rewrite decide_False by lia. done.
  - simpl copy_up. rewrite IH by lia. unfold u8.
    repeat case_decide; try lia.
    + rewrite ldb_stb_ne by lia. f_equal. lia.
    + assert (x = d) as -> by lia. rewrite ldb_stb_eq. unfold u8.
      rewrite Z.mod_small by apply ldb_range. f_equal. lia.
    + by rewrite ldb_stb_ne by lia.
Qed.

Lemma ldb_copy_down m d s n x :
  (s ≤ d ∨ d ≤ s - Z.of_nat n) →
  ldb (copy_down m d s n) x =
  if decide (d - Z.of_nat n ≤ x < d) then ldb m (s + (x - d)) else ldb m x.
Proof.
  revert m d s. induction n as [|n IH]; intros m d s Hd.
  - simpl. rewrite decide_False by lia. done.
  - simpl copy_down. rewrite IH by lia.
    repeat case_decide; try lia.
    + rewrite ldb_stb_ne by lia. f_equal. lia.
    + assert (x = d - 1) as -> by lia. rewrite ldb_stb_eq. unfold u8.
      rewrite Z.mod_small by apply ldb_range. f_equal. lia.
    + by rewrite ldb_stb_ne by lia.
Qed.

Lemma ldb_memmove m dst src n x :
  0 ≤ src → 0 ≤ n → src + n < two32 →
  ldb (memmove m dst src n) x =
  if decide (dst ≤ x < dst + n) then ldb m (src + (x - dst)) else ldb m x.
Proof.
  intros Hs Hn Hsn. unfold memmove. rewrite u32_small by lia.
  destruct (Z.ltb_spec src dst), (Z.ltb_spec dst (src + n)); simpl.
  - rewrite ldb_copy_down by lia. rewrite Z2Nat.id by done.
    repeat case_decide; try lia. f_equal; lia.
  - rewrite ldb_copy_up by lia. by rewrite Z2Nat.id by done.
  - rewrite ldb_copy_up by lia. by rewrite Z2Nat.id by done.
  - rewrite ldb_copy_up by lia. by rewrite Z2Nat.id by done.
Qed.

Lemma ldb_stosb m a c n x :
  ldb (stosb m a c n) x = if decide (a ≤ x < a + Z.of_nat n) then u8 c else ldb m x.
Proof.
  revert m a. induction n as [|n IH]; intros m a.
  - simpl. rewrite decide_False by lia. done.
  - simpl stosb. rewrite IH. rewrite ldb_stb. repeat case_decide; try lia; done.
Qed.

Lemma ld32_stosl m a c n x :
  a mod 4 = 0 → x mod 4 = 0 →
  ld32 (stosl m a c n) x = if decide (a ≤ x < a + 4 * Z.of_nat n) then u32 c else ld32 m x.
Proof.
  intros Ha Hx. revert m a Ha. induction n as [|n IH]; intros m a Ha.
  - simpl. rewrite decide_False by lia. done.
  - simpl stosl. rewrite IH by (rewrite Zplus_mod, Ha; done).
    rewrite ld32_st32. repeat case_decide; try lia; try done.
    exfalso. assert (x - a = 1 ∨ x - a = 2 ∨ x - a = 3) as Hc by lia.
    assert ((x - a) mod 4 = 0) as Hz by (rewrite Zminus_mod, Hx, Ha; done).
    destruct Hc as [Hc|[Hc|Hc]]; rewrite Hc in Hz; done.
Qed.

(** ** Aligned blocks, word by word *)

Lemma s32_rem4 x : 0 ≤ x < two32 → x mod 4 = 0 → Z.rem (s32 x) 4 = 0.
Proof.
  intros Hx H4. apply Z.rem_divide; [done|]. unfold s32. rewrite u32_small by done.
  apply Z.mod_divide in H4; [|done]. destruct (_ <? _); [done|].
  apply Z.divide_sub_r; [done|]. by exists 1073741824.
Qed.

Lemma memset_aligned m dst c n :
  0 ≤ dst < two32 → dst mod 4 = 0 → n mod 4 = 0 →
  memset m dst c n =
  stosl m dst (let c := Z.land c 0xFF in
               Z.lor (Z.lor (Z.lor (Z.shiftl c 24) (Z.shiftl c 16)) (Z.shiftl c 8)) c)
    (Z.to_nat (n / 4)).
Proof. intros Hd H4 Hn. unfold memset. by rewrite s32_rem4, Hn by done. Qed.

Lemma ld32_memset_zero m dst n x :
  0 ≤ dst < two32 → 0 ≤ n → dst mod 4 = 0 → n mod 4 = 0 → x mod 4 = 0 →
  ld32 (memset m dst 0 n) x = if decide (dst ≤ x < dst + n) then 0 else ld32 m x.
Proof.
  intros Hd Hn H4 Hn4 Hx. rewrite memset_aligned, ld32_stosl by done.
  rewrite Z2Nat.id by (by apply Z.div_pos). replace (4 * (n / 4)) with n; [done|].
  pose proof (Z.div_mod n 4). lia.
Qed.

Lemma ld32_memset_outside m dst c n x :
  0 ≤ dst < two32 → 0 ≤ n → dst mod 4 = 0 → n mod 4 = 0 → x mod 4 = 0 →
  ¬ (dst ≤ x < dst + n) → ld32 (memset m dst c n) x = ld32 m x.
Proof.
  intros Hd Hn H4 Hn4 Hx Hout. rewrite memset_aligned, ld32_stosl by done.
  rewrite Z2Nat.id by (by apply Z.div_pos). rewrite decide_False; [done|].
  pose proof (Z.div_mod n 4). lia.
Qed.

Lemma ld32_memmove m dst src n x :
  0 ≤ src → 0 ≤ n → src + n < two32 →
  dst mod 4 = 0 → src mod 4 = 0 → n mod 4 = 0 → x mod 4 = 0 →
  ld32 (memmove m dst src n) x =
  if decide (dst ≤ x < dst + n) then ld32 m (src + (x - dst)) else ld32 m x.
Proof.
  intros Hs Hn Hsn Hd4 Hs4 Hn4 Hx4. case_decide as Hr.
  - apply ld32_bytes; [done| |].
    { rewrite Zplus_mod, Zminus_mod, Hs4, Hx4, Hd4. done. }
    intros i Hi. rewrite ldb_memmove by done. rewrite decide_True; [f_equal; lia|].
    split; [lia|]. apply Z.mod_divide in Hd4, Hn4, Hx4; [|done..].
    destruct Hd4 as [? ->], Hn4 as [? ->], Hx4 as [? ->]. lia.
  - apply ld32_bytes; [done..|]. intros i Hi. rewrite ldb_memmove by done.
    rewrite decide_False; [done|]. intros Hc. apply Hr.
    apply Z.mod_divide in Hd4, Hn4, Hx4; [|done..].
    destruct Hd4 as [? ->], Hn4 as [? ->], Hx4 as [? ->]. lia.
Qed.

(** ** Lists of bytes in memory *)

Lemma length_bytes_at m a n : length (bytes_at m a n) = n.
Proof. revert a. induction n as [|n IH]; intros a; simpl; [done|]. by rewrite IH. Qed.

Lemma lookup_bytes_at m a n i :
  (i < n)%nat → bytes_at m a n !! i = Some (ldb m (a + Z.of_nat i)).
Proof.
  revert a i. induction n as [|n IH]; intros a i Hi; [lia|].
  destruct i as [|i]; simpl; [f_equal; f_equal; lia|].
  rewrite IH by lia. f_equal. f_equal. lia.
Qed.

Lemma ldb_store_bytes m a bs x :
  ldb (store_bytes m a bs) x =
  if decide (a ≤ x < a + Z.of_nat (length bs)) then u8 (nth (Z.to_nat (x - a)) bs 0) else ldb m x.
Proof.
  revert m a. induction bs as [|b bs IH]; intros m a; simpl store_bytes.
  - rewrite decide_False by (simpl; lia). done.
  - rewrite IH, ldb_stb. simpl length. repeat case_decide; try lia.
    + replace (Z.to_nat (x - a)) with (S (Z.to_nat (x - (a + 1)))) by lia. done.
    + subst. by rewrite Z.sub_diag.
Qed.
