(* ===== verification/Spinlock.v ===== *)
(** Spinlock: [spinlock.c].

    The first part is the code as one CPU runs it: [pushcli]/[popcli] nesting
    of interrupt disabling and [acquire]/[release]/[holding], with the panics
    of the source.  A lock held by another CPU makes [acquire] [Spin].  The
    [pcs] array of a lock only serves debugging and is left out;
    [getcallerpcs] is in [Proc], for [procdump].

    Module [SMP] is the same code for several CPUs, one memory access per
    step, so that the atomicity of [xchg] carries the proof of mutual
    exclusion. *)

From S2P Require Import Prelude Layout State.

(** ** Interrupt state (x86.h) *)

Definition readeflags : K Z := gets (λ s, if c_if (k_cpu s) then FL_IF else 0).
Definition cli : K unit := modify (upd_k_cpu (upd_c_if (λ _, false))).
Definition sti : K unit := modify (upd_k_cpu (upd_c_if (λ _, true))).

(** [mycpu()] of proc.c: the current CPU, which must not be preempted. *)
Definition mycpu : K cpu :=
  eflags ← readeflags;
  if negb (Z.land eflags FL_IF =? 0) then panic "mycpu called with interrupts enabled"
  else gets (λ s, k_cpu s).

Definition pushcli : K unit :=
  eflags ← readeflags;
  cli;;
  c ← mycpu;
  whenb (c_ncli c =? 0)
    (modify (upd_k_cpu (upd_c_intena (λ _, negb (Z.land eflags FL_IF =? 0)))));;
  modify (upd_k_cpu (upd_c_ncli (Z.add 1))).

Definition popcli : K unit :=
  eflags ← readeflags;
  if negb (Z.land eflags FL_IF =? 0) then panic "popcli - interruptible" else
  modify (upd_k_cpu (upd_c_ncli (λ n, n - 1)));;
  c ← mycpu;
  if c_ncli c <? 0 then panic "popcli" else
  whenb ((c_ncli c =? 0) && c_intena c) sti.

(** ** Locks *)

Definition initlock (l : lockref) : K unit := modify (upd_k_locks (delete l)).

Definition holding (l : lockref) : K bool :=
  o ← gets (λ s, k_locks s !! l);
  match o with
  | None => mret false
  | Some owner => c ← mycpu; mret (owner =? c_id c)
  end.

Definition acquire (l : lockref) : K unit :=
  pushcli;;
  h ← holding l;
  if (h : bool) then panic "acquire" else
  (* while(xchg(&lk->locked, 1) != 0) ; *)
  o ← gets (λ s, k_locks s !! l);
  match o with
  | Some _ => spin
  | None => c ← mycpu; modify (upd_k_locks <[l := c_id c]>)
  end.

Definition release (l : lockref) : K unit :=
  h ← holding l;
  if negb h then panic "release" else
  modify (upd_k_locks (delete l));;
  popcli.

(** [myproc()] of proc.c. *)
Definition myproc : K (option nat) :=
  pushcli;;
  c ← mycpu;
  let p := c_proc c in
  popcli;;
  mret p.

(** ** Exact effect of the operations *)

(** The CPU after [pushcli], and after the matching [popcli]. *)
Definition push (c : cpu) : cpu :=
  upd_c_ncli (Z.add 1)
    (upd_c_intena (λ i, if c_ncli c =? 0 then c_if c else i) (upd_c_if (λ _, false) c)).
Definition cpu_sync (c : cpu) : cpu :=
  upd_c_intena (λ i, if c_ncli c =? 0 then c_if c else i) c.

(** Interrupts are off inside a [pushcli] section. *)
Definition cpu_wf (c : cpu) : Prop := 0 ≤ c_ncli c ∧ (0 < c_ncli c → c_if c = false).

Definition locked (l : lockref) (s : kstate) : kstate :=
  upd_k_locks <[l := c_id (k_cpu s)]> (upd_k_cpu push s).

(** The state after a balanced critical section that left the rest alone. *)
Definition sync (s : kstate) : kstate := upd_k_cpu cpu_sync s.

Lemma cpu_sync_idemp c : cpu_sync (cpu_sync c) = cpu_sync c.
Proof. unfold cpu_sync, upd_c_intena. simpl. by destruct (c_ncli c =? 0). Qed.

Lemma cpu_sync_wf c : cpu_wf c → cpu_wf (cpu_sync c).
Proof. done. Qed.

Lemma push_wf c : cpu_wf c → cpu_wf (push c).
Proof. intros [H1 H2]. unfold cpu_wf, push. simpl. split; [lia|done]. Qed.

Lemma cpu_sync_push c : cpu_wf c → cpu_sync (push c) = push c.
Proof.
  intros [Hn _]. unfold cpu_sync, push, upd_c_intena. simpl.
  destruct (Z.eqb_spec (1 + c_ncli c) 0); [lia|done].
Qed.

Lemma mycpu_ok s : c_if (k_cpu s) = false → mycpu s = Ret (k_cpu s) s.
Proof. intros H. unfold mycpu, readeflags. msteps. by rewrite H. Qed.

Lemma pushcli_ok s : pushcli s = Ret tt (upd_k_cpu push s).
Proof.
  unfold pushcli, readeflags, cli. msteps. mrun (mycpu_ok (upd_k_cpu (upd_c_if (λ _, false)) s) eq_refl).
  msteps. simpl. unfold push, upd_k_cpu, upd_c_intena, upd_c_ncli, upd_c_if, modify. simpl.
  by destruct (c_ncli (k_cpu s) =? 0), (c_if (k_cpu s)).
Qed.

Lemma popcli_push s c :
  cpu_wf c → k_cpu s = push c → popcli s = Ret tt (upd_k_cpu (λ _, cpu_sync c) s).
Proof.
  intros [H1 H2] Hc. unfold popcli, readeflags. msteps. rewrite Hc. simpl.
  msteps. erewrite bind_Ret; [|apply mycpu_ok; simpl; by rewrite Hc]. simpl. rewrite Hc. simpl.
  replace (1 + c_ncli c - 1) with (c_ncli c) by lia.
  destruct (Z.ltb_spec (c_ncli c) 0); [lia|].
  unfold push, cpu_sync, upd_c_intena, upd_c_ncli, upd_c_if, sti, modify, whenb, upd_k_cpu. simpl.
  rewrite Hc. unfold push. simpl. replace (1 + c_ncli c - 1) with (c_ncli c) by lia.
  destruct (Z.eqb_spec (c_ncli c) 0); simpl.
  - destruct (c_if c) eqn:E; simpl; by rewrite ?Hc, ?E.
  - by rewrite H2 by lia.
Qed.

Lemma acquire_ok l s : k_locks s !! l = None → acquire l s = Ret tt (locked l s).
Proof.
  intros Hl. unfold acquire. mrun (pushcli_ok s).
  unfold holding. msteps. simpl. rewrite Hl. msteps. simpl. rewrite Hl. done.
Qed.

Lemma acquire_held l s :
  k_locks s !! l = Some (c_id (k_cpu s)) → acquire l s = Panic "acquire".
Proof.
  intros Hl. unfold acquire. mrun (pushcli_ok s).
  unfold holding. msteps. simpl. rewrite Hl. msteps. mrun (mycpu_ok (upd_k_cpu push s) eq_refl).
  msteps. simpl. by rewrite Z.eqb_refl.
Qed.

Lemma release_ok l s c :
  cpu_wf c → k_cpu s = push c → k_locks s !! l = Some (c_id c) →
  release l s = Ret tt (upd_k_locks (delete l) (upd_k_cpu (λ _, cpu_sync c) s)).
Proof.
  intros Hwf Hc Hl. unfold release, holding. msteps. rewrite Hl. msteps.
  erewrite bind_Ret; [|apply mycpu_ok; by rewrite Hc]. msteps. rewrite Hc. simpl.
  rewrite Z.eqb_refl. simpl. msteps.
  erewrite popcli_push; [|exact Hwf|exact Hc]. done.
Qed.

Lemma release_not_held l s :
  k_locks s !! l = None → release l s = Panic "release".
Proof. intros Hl. unfold release, holding. msteps. by rewrite Hl. Qed.

Lemma myproc_ok s : cpu_wf (k_cpu s) → myproc s = Ret (c_proc (k_cpu s)) (sync s).
Proof.
  intros Hwf. unfold myproc. mrun (pushcli_ok s). mrun (mycpu_ok (upd_k_cpu push s) eq_refl).
  erewrite bind_Ret; [|apply (popcli_push _ (k_cpu s)); done]. done.
Qed.

(** ** Several CPUs and one lock *)

Module SMP.
(** Where a CPU is in [acquire] or [release] of the lock. *)
Inductive pc :=
| Idle            (** outside the critical section *)
| AcqLocked       (** after [pushcli()]: [holding] reads [lock->locked] *)
| AcqCpu          (** [holding] reads [lock->cpu] *)
| AcqSpin         (** [while(xchg(&lk->locked, 1) != 0)] *)
| AcqRecord       (** [lk->cpu = mycpu()] *)
| Crit            (** [acquire] has returned *)
| RelLocked       (** [release]: [holding] reads [lock->locked] *)
| RelCpu          (** [holding] reads [lock->cpu] *)
| RelClear        (** [lk->cpu = 0] *)
| RelUnlock       (** [movl $0, lk->locked] *)
| RelPop          (** [popcli()] *)
| Dead.           (** a [panic] *)

(** [struct spinlock], and the program counter and CPU record of each CPU. *)
Record smp := MkSmp { lk_locked : bool; lk_cpu : option nat; threads : list (pc * cpu) }.

(** What CPU [i], running [c], does next; [None] leaves the lock word alone. *)
Definition next (i : nat) (s : smp) (p : pc) (c : cpu) : option (bool * option nat * pc * cpu) :=
  let same q := Some (lk_locked s, lk_cpu s, q, c) in
  match p with
  | Idle => Some (lk_locked s, lk_cpu s, AcqLocked, push c)
  | AcqLocked => same (if lk_locked s then AcqCpu else AcqSpin)
  | AcqCpu => same (if decide (lk_cpu s = Some i) then Dead else AcqSpin)
  | AcqSpin => (* xchg stores 1 and returns the old value in one step *)
      Some (true, lk_cpu s, if lk_locked s then AcqSpin else AcqRecord, c)
  | AcqRecord => Some (lk_locked s, Some i, Crit, c)
  | Crit => same RelLocked
  | RelLocked => same (if lk_locked s then RelCpu else Dead)
  | RelCpu => same (if decide (lk_cpu s = Some i) then RelClear else Dead)
  | RelClear => Some (lk_locked s, None, RelUnlock, c)
  | RelUnlock => Some (false, lk_cpu s, RelPop, c)
  | RelPop => Some (lk_locked s, lk_cpu s, Idle, upd_c_ncli (λ n, n - 1) (upd_c_if (λ _, (c_ncli c - 1 =? 0) && c_intena c) c))
  | Dead => None
  end.

Inductive step : smp → smp → Prop :=
| step_cpu i s p c l o p' c' :
    threads s !! i = Some (p, c) →
    next i s p c = Some (l, o, p', c') →
    step s (MkSmp l o (<[i := (p', c')]> (threads s))).

(** [initlock], all CPUs outside any critical section. *)
Definition init (s : smp) : Prop :=
  lk_locked s = false ∧ lk_cpu s = None ∧
  ∀ i p c, threads s !! i = Some (p, c) → p = Idle ∧ cpu_wf c.

(** The CPU owns the lock word / is recorded in [lk->cpu] / has interrupts off. *)
Definition owns (p : pc) : bool :=
  match p with AcqRecord | Crit | RelLocked | RelCpu | RelClear | RelUnlock => true | _ => false end.
Definition recorded (p : pc) : bool :=
  match p with Crit | RelLocked | RelCpu | RelClear => true | _ => false end.

Record inv (s : smp) : Prop := MkInv {
  inv_locked i p c : threads s !! i = Some (p, c) → owns p = true → lk_locked s = true;
  inv_owner : lk_locked s = true → ∃ i p c, threads s !! i = Some (p, c) ∧ owns p = true;
  inv_unique i j p q c d : threads s !! i = Some (p, c) → threads s !! j = Some (q, d) →
    owns p = true → owns q = true → i = j;
  inv_record i : lk_cpu s = Some i → ∃ p c, threads s !! i = Some (p, c) ∧ recorded p = true;
  inv_recorded i p c : threads s !! i = Some (p, c) → recorded p = true → lk_cpu s = Some i;
  inv_alive i p c : threads s !! i = Some (p, c) → p ≠ Dead;
  inv_cpu i p c : threads s !! i = Some (p, c) → cpu_wf c ∧ (p ≠ Idle → 0 < c_ncli c);
}.

Lemma recorded_owns p : recorded p = true → owns p = true.
Proof. by destruct p. Qed.

Lemma init_inv s : init s → inv s.
Proof.
  intros (Hl & Hc & Ht).
  split; intros; repeat match goal with
    | H : threads _ !! _ = Some _ |- _ => apply Ht in H as [-> ?]
    end; (done || congruence).
Qed.

(** Looking a thread up after one CPU has moved. *)
Lemma lookup_moved (l : list (pc * cpu)) i j x y z :
  l !! i = Some x → <[i := y]> l !! j = Some z → (i = j ∧ z = y) ∨ (i ≠ j ∧ l !! j = Some z).
Proof.
  intros Hi Hj. rewrite list_insert_lookup_iff in Hj by (by eapply lookup_lt_Some).
  case_decide; [left; split; congruence | by right].
Qed.

Lemma moved_here (l : list (pc * cpu)) i x y : l !! i = Some x → <[i := y]> l !! i = Some y.
Proof. apply list_insert_lookup_eq. Qed.

Lemma moved_there (l : list (pc * cpu)) i j x y :
  i ≠ j → l !! j = Some x → <[i := y]> l !! j = Some x.
Proof. intros. by rewrite list_lookup_insert_ne. Qed.

(** Case analysis on which CPU a fact of the new state is about. *)
Ltac moved Hi :=
  repeat match goal with
  | H : <[_ := _]> _ !! _ = Some _ |- _ =>
      eapply lookup_moved in H; [|exact Hi]; destruct H as [[? ?]|[? ?]]; simplify_eq
  end.

(** The moves of a CPU, by their effect on the ownership of the lock. *)
Inductive move (i : nat) (s : smp) (p : pc) (l : bool) (o : option nat) (p' : pc) : Prop :=
| mv_outside : owns p = false → owns p' = false → l = lk_locked s → o = lk_cpu s →
    move i s p l o p'
| mv_take : owns p = false → owns p' = true → recorded p' = false →
    lk_locked s = false → l = true → o = lk_cpu s → move i s p l o p'
| mv_record : owns p = true → recorded p = false → recorded p' = true →
    l = lk_locked s → o = Some i → move i s p l o p'
| mv_inside : recorded p = true → recorded p' = true → l = lk_locked s → o = lk_cpu s →
    move i s p l o p'
| mv_clear : recorded p = true → owns p' = true → recorded p' = false →
    l = lk_locked s → o = None → move i s p l o p'
| mv_drop : owns p = true → recorded p = false → owns p' = false →
    l = false → o = lk_cpu s → move i s p l o p'.

Lemma next_move i s p c l o p' c' :
  inv s → threads s !! i = Some (p, c) → next i s p c = Some (l, o, p', c') →
  move i s p l o p' ∧ p' ≠ Dead.
Proof.
  intros I Hi Hn.
  pose proof (inv_locked _ I i p c Hi) as Hlk. pose proof (inv_recorded _ I i p c Hi) as Hrec.
  assert (recorded p = false → lk_cpu s ≠ Some i) as Hnrec.
  { intros Hp Hs. destruct (inv_record _ I i Hs) as (q & d & Hq & Hr). simplify_eq. congruence. }
  destruct p; simpl in *; try (specialize (Hlk eq_refl)); try (specialize (Hrec eq_refl));
    try (specialize (Hnrec eq_refl)).
  all: try (rewrite decide_False in Hn by done); try (rewrite decide_True in Hn by done).
  all: destruct (lk_locked s) eqn:El; simplify_eq; split; try done.
  all: first [ apply mv_outside; (done || congruence) | apply mv_take; (done || congruence)
             | apply mv_record; (done || congruence) | apply mv_inside; (done || congruence)
             | apply mv_clear; (done || congruence) | apply mv_drop; (done || congruence) ].
Qed.

Lemma next_cpu i s p c l o p' c' :
  cpu_wf c → (p ≠ Idle → 0 < c_ncli c) → next i s p c = Some (l, o, p', c') →
  cpu_wf c' ∧ (p' ≠ Idle → 0 < c_ncli c').
Proof.
  intros Hwf Hn Hnext. pose proof (push_wf c Hwf) as Hpush. destruct Hwf as [Hw1 Hw2].
  unfold cpu_wf in *. destruct p; simpl in *; simplify_eq; simpl in *.
  all: try (split; [done|]; intros; lia).
  all: try (split; [done|]; intros; by apply Hn).
  split; [split|done].
  - specialize (Hn ltac:(done)). lia.
  - intros. destruct (Z.eqb_spec (c_ncli c - 1) 0); [lia|done].
Qed.

Lemma step_inv s s' : step s s' → inv s → inv s'.
Proof.
  intros [i s0 p c l o p' c' Hi Hn] I.
  destruct (next_move _ _ _ _ _ _ _ _ I Hi Hn) as [Hm Halive].
  pose proof (inv_cpu _ I i p c Hi) as [Hwf Hncli].
  pose proof (next_cpu _ _ _ _ _ _ _ _ Hwf Hncli Hn) as Hcpu.
  pose proof (inv_locked _ I i p c Hi) as Hlk.
  assert (∀ j q d, i ≠ j → threads s0 !! j = Some (q, d) → owns q = true →
            owns p = false ∧ lk_locked s0 = true) as Hoth.
  { intros j q d Hne Hj Hq. split; [|by eapply (inv_locked _ I)].
    apply not_true_is_false. intros Hp. by eapply Hne, (inv_unique _ I i j). }
  pose proof (recorded_owns p) as Hro. pose proof (recorded_owns p') as Hro'.
  split; simpl.
  - intros j q d Hj Hq. moved Hi; [destruct Hm; subst; (congruence || auto)|].
    edestruct Hoth; [done..|]. destruct Hm; subst; congruence.
  - intros Hl. destruct (owns p') eqn:Ep'.
    { exists i, p', c'. split; [by eapply moved_here|done]. }
    destruct (lk_locked s0) eqn:El; [|destruct Hm; congruence].
    destruct (inv_owner _ I El) as (j & q & d & Hj & Hq).
    exists j, q, d. split; [|done]. apply moved_there; [|done]. intros <-. simplify_eq.
    destruct Hm; try congruence. all: specialize (Hro' ltac:(assumption)); congruence.
  - intros j k q r d e Hj Hk Hq Hr. moved Hi; [done| | |by eapply (inv_unique _ I j k)].
    + exfalso. edestruct Hoth; [done..|]. destruct Hm; try congruence.
      all: specialize (Hro ltac:(assumption)); congruence.
    + exfalso. edestruct Hoth; [done..|]. destruct Hm; try congruence.
      all: specialize (Hro ltac:(assumption)); congruence.
  - intros j Ho. destruct (decide (i = j)) as [<-|Hne].
    + exists p', c'. split; [by eapply moved_here|]. destruct Hm; subst; try done.
      all: destruct (inv_record _ I i ltac:(done)) as (q & d & Hq & Hr); simplify_eq.
      all: specialize (Hro ltac:(assumption)); congruence.
    + destruct (inv_record _ I j) as (q & d & Hq & Hr); [destruct Hm; congruence|].
      exists q, d. split; [by apply moved_there|done].
  - intros j q d Hj Hq. moved Hi.
    + destruct Hm; subst; try congruence.
      all: first [by eapply (inv_recorded _ I) | specialize (Hro' ltac:(assumption)); congruence].
    + destruct (Hoth j q d) as [Hp _]; [done..|by apply recorded_owns|].
      rewrite <-(inv_recorded _ I j q d) by done.
      destruct Hm; subst; try congruence. specialize (Hro ltac:(assumption)). congruence.
  - intros j q d Hj. moved Hi; [done|by eapply (inv_alive _ I)].
  - intros j q d Hj. moved Hi; [done|by eapply (inv_cpu _ I)].
Qed.

Lemma reachable_inv s s' : init s → rtc step s s' → inv s'.
Proof.
  intros Hi Hr. apply init_inv in Hi. induction Hr; [done|]. eauto using step_inv.
Qed.


(** Two CPUs contend: CPU 0 takes the lock while CPU 1 is about to spin. *)
Definition cpu0 : cpu := MkCpu 0 0 false true None 0 0 0 0.
Definition two_cpus : smp := MkSmp false None [(Idle, cpu0); (Idle, cpu0)].
Definition contended : smp := MkSmp true (Some 0%nat) [(Crit, push cpu0); (AcqSpin, push cpu0)].

(** Run the CPUs of a schedule one step each. *)
Fixpoint run (s : smp) (sched : list nat) : option smp :=
  match sched with
  | [] => Some s
  | i :: sched =>
      match threads s !! i with
      | None => None
      | Some (p, c) =>
          match next i s p c with
          | None => None
          | Some (l, o, p', c') => run (MkSmp l o (<[i := (p', c')]> (threads s))) sched
          end
      end
  end.

Lemma run_reachable sched s s' : run s sched = Some s' → rtc step s s'.
Proof.
  revert s. induction sched as [|i sched IH]; intros s Hr; simpl in Hr; [by simplify_eq|].
  destruct (threads s !! i) as [[p c]|] eqn:Hi; [|done].
  destruct (next i s p c) as [[[[l o] p'] c']|] eqn:Hn; [|done].
  eapply rtc_l; [by econstructor|]. by apply IH.
Qed.

End SMP.
