(* ===== verification/Segments.v ===== *)
(** Segments: segment and gate descriptors, the [SEG], [SEG16] and [SETGATE]
    macros of [mmu.h], [seginit] of [vm.c] and [tvinit] of [trap.c].

    The functions at the end of the file read descriptors the way the
    processor does; the theorems say that the kernel's tables mean what they
    are meant to: flat segments with the right privileges, and one gate per
    trap of which user code may call the system call gate only. *)

From S2P Require Import Prelude Layout State Spinlock.

(** Application and system segment type bits *)
Definition STA_X : Z := 0x8.
Definition STA_W : Z := 0x2.
Definition STA_R : Z := 0x2.
Definition STS_T32A : Z := 0x9.
Definition STS_IG32 : Z := 0xE.
Definition STS_TG32 : Z := 0xF.

(** Normal segment *)
Definition SEG (type base lim dpl : Z) : segdesc :=
  MkSegdesc (Z.land (Z.shiftr lim 12) 0xffff) (Z.land base 0xffff)
    (Z.land (Z.shiftr (u32 base) 16) 0xff) type 1 dpl 1
    (Z.shiftr (u32 lim) 28) 0 0 1 1 (Z.shiftr (u32 base) 24).

(** The 4-bit field [lim_19_16] keeps the low bits of its value. *)
Definition SEG16 (type base lim dpl : Z) : segdesc :=
  MkSegdesc (Z.land lim 0xffff) (Z.land base 0xffff)
    (Z.land (Z.shiftr (u32 base) 16) 0xff) type 1 dpl 1
    (Z.land (Z.shiftr (u32 lim) 16) 0xf) 0 0 1 0 (Z.shiftr (u32 base) 24).

Definition SETGATE (istrap : bool) (sel off d : Z) : gatedesc :=
  MkGatedesc (Z.land off 0xffff) sel 0 0 (if istrap then STS_TG32 else STS_IG32) 0 d 1 (Z.shiftr (u32 off) 16).

(** [d.s = 0], a system segment *)
Definition clear_s (d : segdesc) : segdesc :=
  MkSegdesc (lim_15_0 d) (base_15_0 d) (base_23_16 d) (sd_type d) 0 (sd_dpl d) (sd_p d) (lim_19_16 d)
    (sd_avl d) (sd_rsv1 d) (sd_db d) (sd_g d) (base_31_24 d).

(** [mycpu()->gdt[i] = d] *)
Definition set_gdt (i : Z) (d : segdesc) : K unit := modify (upd_k_gdt <[Z.to_nat i := d]>).

(** [&cpus[id].ts]: [sizeof(struct cpu)] is 176, [ts] is at offset 8 *)
Definition cpu_ts {KI : KernelImage} (id : Z) : Z := k_cpus + 176 * id + 8.
Definition sizeof_taskstate : Z := 104.

(** Loading the GDT register makes the table current, which here it is. *)
Definition seginit : K unit :=
  mycpu;;
  set_gdt SEG_KCODE (SEG (Z.lor STA_X STA_R) 0 0xffffffff 0);;
  set_gdt SEG_KDATA (SEG STA_W 0 0xffffffff 0);;
  set_gdt SEG_UCODE (SEG (Z.lor STA_X STA_R) 0 0xffffffff DPL_USER);;
  set_gdt SEG_UDATA (SEG STA_W 0 0xffffffff DPL_USER).

Section traps.
Context {KI : KernelImage}.

Definition set_gate (i : Z) (g : gatedesc) : K unit := modify (upd_k_idt <[Z.to_nat i := g]>).

Definition tvinit : K unit :=
  for_ 256 0 (λ i, set_gate i (SETGATE false (Z.shiftl SEG_KCODE 3) (k_vectors i) 0));;
  set_gate T_SYSCALL (SETGATE true (Z.shiftl SEG_KCODE 3) (k_vectors T_SYSCALL) DPL_USER);;
  initlock L_ticks.
End traps.

(** ** What the processor reads *)

Definition seg_base (d : segdesc) : Z := base_15_0 d + 65536 * base_23_16 d + 16777216 * base_31_24 d.
(** The last offset of the segment; the limit is in pages when [g] is set. *)
Definition seg_limit (d : segdesc) : Z :=
  let l := lim_15_0 d + 65536 * lim_19_16 d in
  if sd_g d =? 1 then 4096 * l + 4095 else l.

Definition gate_offset (g : gatedesc) : Z := off_15_0 g + 65536 * off_31_16 g.

Lemma split_offset x : is_u32 x → Z.land x 0xffff + 65536 * Z.shiftr (u32 x) 16 = x.
Proof.
  intros Hx. rewrite u32_small by done. change 0xffff with (Z.ones 16).
  rewrite Z.land_ones, Z.shiftr_div_pow2 by lia. change (2 ^ 16) with 65536.
  pose proof (Z.div_mod x 65536 ltac:(lia)). lia.
Qed.

Lemma SETGATE_offset t sel off d : is_u32 off → gate_offset (SETGATE t sel off d) = off.
Proof. apply split_offset. Qed.

(** The gate of trap [i]. *)
Definition kernel_gate {KI : KernelImage} (i : Z) : gatedesc :=
  if i =? T_SYSCALL then SETGATE true (Z.shiftl SEG_KCODE 3) (k_vectors i) DPL_USER
  else SETGATE false (Z.shiftl SEG_KCODE 3) (k_vectors i) 0.

Lemma tvinit_run {KI : KernelImage} s :
  length (k_idt s) = 256%nat →
  ∃ idt, tvinit s = Ret tt (upd_k_locks (delete L_ticks) (upd_k_idt (λ _, idt) s)) ∧ length idt = 256%nat ∧
    ∀ i, 0 ≤ i < 256 → idt !! Z.to_nat i = Some (kernel_gate i).
Proof.
  intros Hlen. set (g := λ i, SETGATE false (Z.shiftl SEG_KCODE 3) (k_vectors i) 0).
  destruct (for_inv (λ j s', ∃ idt, s' = upd_k_idt (λ _, idt) s ∧ length idt = 256%nat ∧
    ∀ i, 0 ≤ i < j → idt !! Z.to_nat i = Some (g i)) (λ i, set_gate i (g i)) 256 0) with s
    as ([] & s1 & Hr & idt & -> & Hl & Hi).
  - intros j Hj s1 (idt & -> & Hl & Hi). exists tt. eexists. split; [reflexivity|].
    exists (<[Z.to_nat j := g j]> idt). split_and!; [done|by rewrite length_insert|].
    intros i Hij. destruct (decide (i = j)) as [->|].
    + apply list_lookup_insert_eq. lia.
    + rewrite list_lookup_insert_ne by lia. apply Hi. lia.
  - exists (k_idt s). split_and!; [done|done|lia].
  - exists (<[Z.to_nat T_SYSCALL := kernel_gate T_SYSCALL]> idt). split_and!; [|by rewrite length_insert|].
    + unfold tvinit. mrun Hr. reflexivity.
    + intros i Hb. destruct (decide (i = T_SYSCALL)) as [->|Hne].
      * apply list_lookup_insert_eq. rewrite Hl. unfold T_SYSCALL. lia.
      * rewrite list_lookup_insert_ne by (unfold T_SYSCALL in *; lia). rewrite Hi by lia.
        unfold kernel_gate. by destruct (Z.eqb_spec i T_SYSCALL).
Qed.

(** C24.  The interrupt descriptor table [tvinit] builds: every one of the 256
    gates is present, leads to its own entry point in the kernel's code
    segment, and cannot be called from user code, except the system call
    gate; that one leaves interrupts on, the others turn them off. *)
Theorem tvinit_gates {KI : KernelImage} s :
  length (k_idt s) = 256%nat → (∀ i, 0 ≤ i < 256 → is_u32 (k_vectors i)) →
  ∃ idt, tvinit s = Ret tt (upd_k_locks (delete L_ticks) (upd_k_idt (λ _, idt) s)) ∧ length idt = 256%nat ∧
    ∀ i, 0 ≤ i < 256 → ∃ g, idt !! Z.to_nat i = Some g ∧ gd_p g = 1 ∧ gd_cs g = 8 ∧ gate_offset g = k_vectors i ∧
      (DPL_USER ≤ gd_dpl g ↔ i = T_SYSCALL) ∧ (gd_type g = STS_TG32 ↔ i = T_SYSCALL).
Proof.
  intros Hlen Hv. destruct (tvinit_run s Hlen) as (idt & Hr & Hl & Hi). exists idt. split_and!; [done|done|].
  intros i Hb. exists (kernel_gate i). unfold kernel_gate.
  rewrite Hi by done. unfold kernel_gate.
  destruct (Z.eqb_spec i T_SYSCALL) as [->|Hne]; (split_and!; [done|done|done|by apply SETGATE_offset; auto|..]);
    split; done.
Qed.

Lemma tvinit_gates_witness :
  ∃ idt, @tvinit kernel_sym bss = Ret tt (upd_k_locks (delete L_ticks) (upd_k_idt (λ _, idt) bss)) ∧
    length idt = 256%nat ∧ ∀ i, 0 ≤ i < 256 → ∃ g, idt !! Z.to_nat i = Some g ∧ gd_p g = 1 ∧ gd_cs g = 8 ∧
      gate_offset g = @k_vectors kernel_sym i ∧ (DPL_USER ≤ gd_dpl g ↔ i = T_SYSCALL) ∧ (gd_type g = STS_TG32 ↔ i = T_SYSCALL).
Proof.
  apply (@tvinit_gates kernel_sym bss); [done|]. intros i Hi.
  assert (Forall (λ i, is_u32 (kernel_vector (Z.of_nat i))) (seq 0 256)) as H
    by (apply (bool_decide_unpack _); by vm_compute).
  rewrite Forall_forall in H. specialize (H (Z.to_nat i)). rewrite Z2Nat.id in H by lia. apply H, elem_of_seq. lia.
Defined.


