(* ===== verification/Console.v ===== *)
(** Console: the output half of [console.c], [printint] and [cprintf].

    Characters reach the console through [consputc]; [k_console] records
    them.  The [panicked] freeze needs no state here: a model run ends in
    [Panic]. *)

From S2P Require Import Prelude Layout State Spinlock.

Definition BACKSPACE : Z := 0x100.

Definition consputc (c : Z) : K unit := modify (upd_k_console (λ l, l ++ [c])).

Fixpoint consputs (l : list Z) : K unit :=
  match l with
  | [] => mret tt
  | c :: l => consputc c;; consputs l
  end.

(** [static char digits[] = "0123456789abcdef"] *)
Definition digits : list Z := chars "0123456789abcdef".

(** [do { buf[i++] = digits[x % base]; } while((x /= base) != 0);]
    The result is [buf[0..i)]. *)
Fixpoint printint_loop (fuel : nat) (x base : Z) : list Z :=
  match fuel with
  | O => []
  | S fuel =>
      nth (Z.to_nat (x mod base)) digits 0 ::
      (let x := x / base in if x =? 0 then [] else printint_loop fuel x base)
  end.

(** The characters of a number; 32 digits are enough for 32 bits in base 2
    or more. *)
Definition printint_chars (xx base : Z) (sign : bool) : list Z :=
  let neg := sign && (s32 xx <? 0) in
  let x := if neg then u32 (- s32 xx) else u32 xx in
  let buf := printint_loop 32 x base in
  let buf := if neg then buf ++ chars "-" else buf in
  rev buf.

Definition printint (xx base : Z) (sign : bool) : K unit := consputs (printint_chars xx base sign).

Fixpoint cprintf_loop (fmt : list Z) (args : list arg) : K unit :=
  match fmt with
  | [] => mret tt
  | c :: fmt =>
      if negb (c =? 37) (* '%' *) then consputc c;; cprintf_loop fmt args else
      match fmt with
      | [] => mret tt
      | c :: fmt =>
          if c =? 100 (* 'd' *) then
            match args with
            | AInt z :: args => printint z 10 true;; cprintf_loop fmt args
            | _ => undef
            end
          else if (c =? 120) || (c =? 112) (* 'x' 'p' *) then
            match args with
            | AInt z :: args => printint z 16 false;; cprintf_loop fmt args
            | _ => undef
            end
          else if c =? 115 (* 's' *) then
            match args with
            | AStr o :: args => consputs (default (chars "(null)") o);; cprintf_loop fmt args
            | _ => undef
            end
          else if c =? 37 then consputc 37;; cprintf_loop fmt args
          else (* unknown % sequence *) consputc 37;; consputc c;; cprintf_loop fmt args
      end
  end.

Definition cprintf (fmt : string) (args : list arg) : K unit :=
  locking ← gets (λ s, k_cons_locking s);
  whenb locking (acquire L_cons);;
  cprintf_loop (chars fmt) args;;
  whenb locking (release L_cons).

(** ** Effect *)

Lemma consputs_ok l s : consputs l s = Ret tt (upd_k_console (λ o, o ++ l) s).
Proof.
  revert s. induction l as [|c l IH]; intros s; simpl.
  - unfold mret, M_ret, upd_k_console. by rewrite app_nil_r.
  - unfold consputc. msteps. rewrite IH. unfold upd_k_console. simpl. by rewrite <-app_assoc.
Qed.

Definition cons_ready (s : kstate) : Prop :=
  cpu_wf (k_cpu s) ∧ (k_cons_locking s = true → k_locks s !! L_cons = None).

Definition csync (s : kstate) : kstate := if k_cons_locking s then sync s else s.

(** The characters [cprintf] prints, when its arguments fit the format. *)
Fixpoint format (fmt : list Z) (args : list arg) : option (list Z) :=
  match fmt with
  | [] => Some []
  | c :: fmt =>
      if negb (c =? 37) then app [c] <$> format fmt args else
      match fmt with
      | [] => Some []
      | c :: fmt =>
          if c =? 100 then
            match args with
            | AInt z :: args => app (printint_chars z 10 true) <$> format fmt args
            | _ => None
            end
          else if (c =? 120) || (c =? 112) then
            match args with
            | AInt z :: args => app (printint_chars z 16 false) <$> format fmt args
            | _ => None
            end
          else if c =? 115 then
            match args with
            | AStr o :: args => app (default (chars "(null)") o) <$> format fmt args
            | _ => None
            end
          else if c =? 37 then app [37] <$> format fmt args
          else app [37; c] <$> format fmt args
      end
  end.

Lemma consputs_app l m (k : K unit) out s :
  (∀ s, k s = Ret tt (upd_k_console (λ o, o ++ out) s)) → m = l ++ out →
  (consputs l;; k) s = Ret tt (upd_k_console (λ o, o ++ m) s).
Proof.
  intros Hk ->. mrun (consputs_ok l s). rewrite Hk. unfold upd_k_console. simpl. by rewrite <-app_assoc.
Qed.

Lemma cprintf_loop_ok n : ∀ fmt args out s,
  (length fmt ≤ n)%nat → format fmt args = Some out →
  cprintf_loop fmt args s = Ret tt (upd_k_console (λ o, o ++ out) s).
Proof.
  induction n as [|n IH]; intros [|c fmt] args out s Hn Hf; simpl in *; simplify_eq; try lia.
  1,2: apply (consputs_ok []).
  destruct (negb (c =? 37)).
  { apply fmap_Some in Hf as (out' & Hf & ->).
    apply (consputs_app [c] _ _ out'); [|done]. intros s'. apply IH; [lia|done]. }
  destruct fmt as [|d fmt]; [simplify_eq; apply (consputs_ok [])|]. simpl in Hn.
  repeat (match type of Hf with (if ?b then _ else _) = _ => destruct b end);
    try (destruct args as [|[z|o] args]; [done|..]; try done);
    apply fmap_Some in Hf as (out' & Hf & ->).
  all: try (eapply consputs_app; [|done]; intros s'; apply IH; [lia|done]).
  - apply (consputs_app [37] _ _ out'); [|done]. intros s'. apply IH; [lia|done].
  - apply (consputs_app [37] _ _ (d :: out')); [|done]. intros s'.
    apply (consputs_app [d] _ _ out'); [|done]. intros s''. apply IH; [lia|done].
Qed.

Lemma cprintf_ok fmt args out s :
  cons_ready s → format (chars fmt) args = Some out →
  cprintf fmt args s = Ret tt (upd_k_console (λ o, o ++ out) (csync s)).
Proof.
  intros [Hwf Hl] Hf. unfold cprintf, csync. msteps. destruct (k_cons_locking s) eqn:E; rewrite ?E; cbn beta iota.
  - erewrite bind_Ret; [|by apply acquire_ok, Hl]. cbn beta.
    erewrite bind_Ret; [|by eapply cprintf_loop_ok]. unfold whenb. cbn beta iota.
        erewrite release_ok; [|exact Hwf|done|simpl; by rewrite lookup_insert_eq].
    unfold upd_k_locks, upd_k_cpu, upd_k_console, sync. simpl.
    by rewrite delete_insert_eq, delete_id by by apply Hl.
  - erewrite bind_Ret; [|by eapply cprintf_loop_ok]. done.
Qed.
