(* ===== verification/Kalloc.v ===== *)
(** Kalloc: the physical page allocator of [kalloc.c].

    The free list is threaded through the free pages themselves: the first
    word of a free page is the address of the next one.  [free_pages]
    relates that memory to an abstract list of pages; the operations are the
    stack operations on it.  [PageAllocator] is what the rest of the kernel
    relies on. *)

From S2P Require Import Prelude Layout State Mem Spinlock Console.

Section kalloc.
Context {KI : KernelImage}.

(** ** Code *)

Definition kfree (v : Z) : K unit :=
  if negb (v mod PGSIZE =? 0) || (v <? k_end) || (PHYSTOP <=? V2P v) then panic "kfree" else
  (* Fill with junk to catch dangling refs. *)
  modify (upd_k_mem (λ m, memset m v 1 PGSIZE));;
  ul ← gets (λ s, use_lock (k_kmem s));
  whenb ul (acquire L_kmem);;
  fl ← gets (λ s, freelist (k_kmem s));
  modify (upd_k_mem (λ m, st32 m v fl));;
  modify (upd_k_kmem (upd_freelist (λ _, v)));;
  ul ← gets (λ s, use_lock (k_kmem s));
  whenb ul (release L_kmem).

Definition kalloc : K Z :=
  ul ← gets (λ s, use_lock (k_kmem s));
  whenb ul (acquire L_kmem);;
  r ← gets (λ s, freelist (k_kmem s));
  whenb (negb (r =? 0))
    (nx ← gets (λ s, ld32 (k_mem s) r); modify (upd_k_kmem (upd_freelist (λ _, nx))));;
  ul ← gets (λ s, use_lock (k_kmem s));
  whenb ul (release L_kmem);;
  mret r.

(** [for(; p + PGSIZE <= vend; p += PGSIZE) kfree(p);] *)
Fixpoint freerange_loop (fuel : nat) (p vend : Z) : K unit :=
  if u32 (p + PGSIZE) <=? vend then
    match fuel with
    | O => nofuel
    | S fuel => kfree p;; freerange_loop fuel (u32 (p + PGSIZE)) vend
    end
  else mret tt.

Definition freerange (vstart vend : Z) : K unit :=
  let p := PGROUNDUP vstart in
  freerange_loop (Z.to_nat ((vend - p) / PGSIZE)) p vend.

Definition kinit1 (vstart vend : Z) : K unit :=
  initlock L_kmem;;
  modify (upd_k_kmem (upd_use_lock (λ _, false)));;
  freerange vstart vend.

Definition kinit2 (vstart vend : Z) : K unit :=
  freerange vstart vend;;
  modify (upd_k_kmem (upd_use_lock (λ _, true))).

(** ** Abstraction *)

(** A page [kfree] accepts. *)
Definition page_ok (v : Z) : Prop :=
  is_u32 v ∧ v mod PGSIZE = 0 ∧ k_end ≤ v ∧ V2P v < PHYSTOP.

(** The chain of [next] pointers starting at [r] visits exactly [l]. *)
Fixpoint flist (m : gmap Z Z) (r : Z) (l : list Z) : Prop :=
  match l with
  | [] => r = 0
  | p :: l => r = p ∧ flist m (ld32 m p) l
  end.

(** The allocator's state represents the free pages [l]. *)
Definition free_pages (s : kstate) (l : list Z) : Prop :=
  flist (k_mem s) (freelist (k_kmem s)) l ∧ NoDup l ∧ Forall page_ok l.

(** The allocator can be entered: its lock is free if locks are in use. *)
Definition kmem_ready (s : kstate) : Prop :=
  cpu_wf (k_cpu s) ∧ (use_lock (k_kmem s) = true → k_locks s !! L_kmem = None).

(** The effect of the critical section on everything but [kmem]. *)
Definition ksync (s : kstate) : kstate := if use_lock (k_kmem s) then sync s else s.

Definition freed (v : Z) (s : kstate) : kstate :=
  upd_k_mem (λ m, st32 (memset m v 1 PGSIZE) v (freelist (k_kmem s)))
    (upd_k_kmem (upd_freelist (λ _, v)) (ksync s)).

Definition alloced (s : kstate) : kstate :=
  if freelist (k_kmem s) =? 0 then ksync s
  else upd_k_kmem (upd_freelist (λ r, ld32 (k_mem s) r)) (ksync s).

(** ** Exact runs *)

Lemma page_ok_range v : page_ok v → KERNBASE + EXTMEM < v ∧ v + PGSIZE ≤ KERNBASE + PHYSTOP.
Proof.
  intros (Hu & Ha & He & Hp). pose proof k_data_after_link. pose proof k_end_after_data.
  unfold V2P, is_u32, two32, KERNLINK, KERNBASE, EXTMEM, PHYSTOP, PGSIZE in *.
  rewrite u32_small in Hp by (unfold two32; lia).
  split; [lia|]. apply Z.mod_divide in Ha; [|done]. destruct Ha as [k ->]. lia.
Qed.

Lemma page_ok_nonzero v : page_ok v → v ≠ 0.
Proof. intros Hv%page_ok_range. unfold KERNBASE, EXTMEM in Hv. lia. Qed.

Lemma page_ok_check v :
  page_ok v → negb (v mod PGSIZE =? 0) || (v <? k_end) || (PHYSTOP <=? V2P v) = false.
Proof.
  intros (_ & Ha & He & Hp). rewrite Ha. simpl.
  destruct (Z.ltb_spec v k_end); [lia|]. simpl. apply Z.leb_gt. lia.
Qed.

Lemma release_kmem s s0 :
  cpu_wf (k_cpu s0) → k_cpu s = push (k_cpu s0) →
  k_locks s0 !! L_kmem = None → k_locks s = <[L_kmem := c_id (k_cpu s0)]> (k_locks s0) →
  release L_kmem s = Ret tt (upd_k_locks (λ _, k_locks s0) (upd_k_cpu (λ _, cpu_sync (k_cpu s0)) s)).
Proof.
  intros Hwf Hc Hfree Hl. erewrite release_ok; [|exact Hwf|done|by rewrite Hl, lookup_insert_eq].
  unfold upd_k_locks, upd_k_cpu. simpl. by rewrite Hl, delete_insert_eq, delete_id.
Qed.

Lemma kfree_run v s : page_ok v → kmem_ready s → kfree v s = Ret tt (freed v s).
Proof.
  intros Hv [Hwf Hl]. unfold kfree. rewrite (page_ok_check v Hv). msteps. simpl.
  unfold freed, ksync. destruct (use_lock (k_kmem s)) eqn:Hu; [|cbn beta iota; by msteps].
  erewrite bind_Ret; [|by apply acquire_ok, Hl]. cbn beta. msteps. simpl. rewrite ?Hu. simpl.
  unfold whenb. by erewrite (release_kmem _ s); [|done| |apply Hl|].
Qed.

Lemma kalloc_run s : kmem_ready s → kalloc s = Ret (freelist (k_kmem s)) (alloced s).
Proof.
  intros [Hwf Hl]. unfold kalloc. msteps. unfold alloced, ksync.
  destruct (use_lock (k_kmem s)) eqn:Hu.
  - erewrite bind_Ret; [|by apply acquire_ok, Hl]. cbn beta. msteps. simpl.
    destruct (freelist (k_kmem s) =? 0) eqn:Hf; simpl; msteps; simpl; rewrite ?Hu.
    all: by erewrite bind_Ret; [|eapply (release_kmem _ s); [done|done|apply Hl; done|done]].
  - destruct (freelist (k_kmem s) =? 0) eqn:Hf; simpl; msteps; simpl; rewrite ?Hu; done.
Qed.

(** ** Pages do not overlap *)

Definition in_page (p a : Z) : Prop := p ≤ a < p + PGSIZE.

Lemma in_page_eq p q a : p mod PGSIZE = 0 → q mod PGSIZE = 0 → in_page p a → in_page q a → p = q.
Proof.
  intros Hp Hq. apply Z.mod_divide in Hp, Hq; [|done..].
  destruct Hp as [i ->], Hq as [j ->]. unfold in_page, PGSIZE. nia.
Qed.

Lemma page_ok_in v : page_ok v → in_page v v.
Proof. unfold in_page, PGSIZE. lia. Qed.

Lemma page_ok_align v : page_ok v → v mod PGSIZE = 0 ∧ v mod 4 = 0.
Proof.
  intros (_ & Ha & _). split; [done|]. unfold PGSIZE in Ha.
  apply Z.mod_divide in Ha; [|done]. destruct Ha as [k ->].
  replace (k * 4096) with (k * 1024 * 4) by lia. apply Z_mod_mult.
Qed.

Lemma page_ok_u32 v : page_ok v → 0 ≤ v < two32.
Proof. by intros [? _]. Qed.

(** Freeing [v] only writes in [v]. *)
Lemma freed_mem v s a :
  page_ok v → a mod 4 = 0 → ¬ in_page v a → ld32 (k_mem (freed v s)) a = ld32 (k_mem s) a.
Proof.
  intros Hv Ha Hout. pose proof (page_ok_align v Hv) as [_ H4].
  assert (k_mem (ksync s) = k_mem s) as Hk by (unfold ksync; by destruct (use_lock _)).
  unfold freed. simpl. rewrite Hk, ld32_st32_ne.
  - apply ld32_memset_outside; try done. by apply page_ok_u32.
  - intros ->. apply Hout. by apply page_ok_in.
Qed.

Lemma freed_link v s : ld32 (k_mem (freed v s)) v = u32 (freelist (k_kmem s)).
Proof. unfold freed. simpl. apply ld32_st32_eq. Qed.

Lemma flist_frame m m' r l :
  (∀ p, p ∈ l → ld32 m' p = ld32 m p) → flist m r l → flist m' r l.
Proof.
  revert r. induction l as [|p l IH]; intros r Hm; simpl; [done|].
  intros [-> Hl]. split; [done|]. rewrite Hm by set_solver. apply IH; [set_solver|done].
Qed.

Lemma flist_head_u32 m r l : flist m r l → Forall page_ok l → u32 r = r.
Proof.
  intros Hl Hp. destruct l as [|p l]; simpl in Hl; [by subst|].
  destruct Hl as [-> _]. apply u32_small. inversion Hp. by apply page_ok_u32.
Qed.

Lemma free_pages_freed v s l :
  free_pages s l → page_ok v → v ∉ l → free_pages (freed v s) (v :: l).
Proof.
  intros (Hl & Hnd & Hok) Hv Hn. split; [|split; [by constructor|by constructor]].
  split; [done|]. rewrite freed_link.
  rewrite (flist_head_u32 _ _ _ Hl Hok). eapply flist_frame; [|done].
  intros p Hp. rewrite Forall_forall in Hok. pose proof (Hok p Hp) as Hpok.
  apply freed_mem; [done|by apply page_ok_align|].
  intros Hin. apply Hn. replace v with p; [done|].
  eapply in_page_eq; [by apply page_ok_align|by apply page_ok_align|by apply page_ok_in|done].
Qed.

Lemma free_pages_alloced s p l :
  free_pages s (p :: l) → freelist (k_kmem s) = p ∧ free_pages (alloced s) l.
Proof.
  intros ((Hp & Hl) & Hnd & Hok). split; [done|]. inversion Hnd. inversion Hok; subst.
  assert ((freelist (k_kmem s) =? 0) = false) as Hz.
  { apply Z.eqb_neq. by apply page_ok_nonzero. }
  unfold free_pages, alloced, ksync. rewrite Hz. by destruct (use_lock _).
Qed.

Lemma free_pages_empty s :
  free_pages s [] → freelist (k_kmem s) = 0 ∧ alloced s = ksync s.
Proof. intros (Hl & _). simpl in Hl. split; [done|]. unfold alloced. by rewrite Hl. Qed.

(** Writing to allocated memory leaves the free list alone. *)
Lemma free_pages_frame s s' l :
  (∀ p, p ∈ l → ld32 (k_mem s') p = ld32 (k_mem s) p) → k_kmem s' = k_kmem s →
  free_pages s l → free_pages s' l.
Proof.
  intros Hm Hk (Hl & Hnd & Hok). split; [|done]. rewrite Hk. by eapply flist_frame.
Qed.

Lemma kmem_ready_freed v s : kmem_ready s → kmem_ready (freed v s).
Proof. unfold kmem_ready, freed, ksync. destruct (use_lock (k_kmem s)) eqn:E; simpl; by rewrite ?E. Qed.

Lemma kmem_ready_alloced s : kmem_ready s → kmem_ready (alloced s).
Proof.
  unfold kmem_ready, alloced, ksync.
  destruct (use_lock (k_kmem s)) eqn:E, (freelist (k_kmem s) =? 0); simpl; by rewrite ?E.
Qed.

(** ** What the rest of the kernel relies on *)

(** Two states that differ only in memory contents, the allocator, the
    CPU's saved interrupt flag and the console output. *)
Definition erase (s : kstate) : kstate :=
  upd_k_console (λ _, []) (upd_k_mem (λ _, ∅) (upd_k_kmem (λ _, MkKmem false 0) (sync s))).
Definition same_kernel (s s' : kstate) : Prop := erase s = erase s'.

#[global] Instance same_kernel_equiv : Equivalence same_kernel.
Proof. unfold same_kernel. split; congruence. Qed.

Lemma sync_idemp s : sync (sync s) = sync s.
Proof. unfold sync, upd_k_cpu. simpl. by rewrite cpu_sync_idemp. Qed.

Lemma erase_ksync s : erase (ksync s) = erase s.
Proof.
  unfold erase, ksync. destruct (use_lock (k_kmem s)); [|done]. by rewrite sync_idemp.
Qed.

Lemma same_kernel_freed v s : same_kernel s (freed v s).
Proof. unfold same_kernel. rewrite <-(erase_ksync s). done. Qed.

Lemma same_kernel_alloced s : same_kernel s (alloced s).
Proof. unfold same_kernel. rewrite <-(erase_ksync s). unfold alloced. by destruct (_ =? 0). Qed.

Lemma same_kernel_mem m s : same_kernel s (upd_k_mem m s).
Proof. done. Qed.

Lemma same_kernel_sync s : same_kernel s (sync s).
Proof. unfold same_kernel, erase. by rewrite sync_idemp. Qed.

(** What such states agree on. *)
Lemma same_kernel_inv s s' :
  same_kernel s s' →
  cpu_sync (k_cpu s) = cpu_sync (k_cpu s') ∧ k_locks s = k_locks s' ∧ k_procs s = k_procs s' ∧
  k_cons_locking s = k_cons_locking s'.
Proof.
  intros Hs. unfold same_kernel in Hs. split; [apply (f_equal k_cpu Hs)|]. split; [apply (f_equal k_locks Hs)|].
  split; [apply (f_equal k_procs Hs)|apply (f_equal k_cons_locking Hs)].
Qed.

Lemma cpu_sync_inv c c' : cpu_sync c = cpu_sync c' → c_proc c = c_proc c' ∧ (cpu_wf c ↔ cpu_wf c').
Proof.
  intros H. split; [apply (f_equal c_proc H)|]. unfold cpu_wf.
  pose proof (f_equal c_ncli H) as En. pose proof (f_equal c_if H) as Ei. simpl in *. by rewrite En, Ei.
Qed.

Lemma same_kernel_curproc s s' :
  same_kernel s s' → curproc s = curproc s' ∧ c_proc (k_cpu s) = c_proc (k_cpu s') ∧
  (cpu_wf (k_cpu s) ↔ cpu_wf (k_cpu s')).
Proof.
  intros (Hc & _ & Hp & _)%same_kernel_inv. apply cpu_sync_inv in Hc as [Hc Hw].
  unfold curproc. by rewrite Hc, Hp.
Qed.

#[global] Instance cons_ready_proper : Proper (same_kernel ==> iff) cons_ready.
Proof.
  intros s s' (Hc & Hl & _ & Hk)%same_kernel_inv. apply cpu_sync_inv in Hc as [_ Hw].
  unfold cons_ready. by rewrite Hw, Hl, Hk.
Qed.

(** [pages s l]: the allocator is usable and its free pages are [l]. *)
Class PageAllocator (pages : kstate → list Z → Prop) : Prop := {
  pa_pages s l : pages s l → NoDup l ∧ Forall page_ok l;
  pa_alloc s p l : pages s (p :: l) →
    ∃ s', kalloc s = Ret p s' ∧ pages s' l ∧ k_mem s' = k_mem s ∧ same_kernel s s';
  pa_alloc_none s : pages s [] →
    ∃ s', kalloc s = Ret 0 s' ∧ pages s' [] ∧ k_mem s' = k_mem s ∧ same_kernel s s';
  pa_free s v l : pages s l → page_ok v → v ∉ l →
    ∃ s', kfree v s = Ret tt s' ∧ pages s' (v :: l) ∧ same_kernel s s' ∧
          ∀ a, a mod 4 = 0 → ¬ in_page v a → ld32 (k_mem s') a = ld32 (k_mem s) a;
  pa_write s m l : pages s l →
    (∀ p a, p ∈ l → in_page p a → a mod 4 = 0 → ld32 m a = ld32 (k_mem s) a) →
    pages (upd_k_mem (λ _, m) s) l;
  pa_frame s s' l : pages s l → k_mem s' = k_mem s → k_kmem s' = k_kmem s →
    cpu_sync (k_cpu s) = cpu_sync (k_cpu s') → k_locks s = k_locks s' → pages s' l;
}.

Lemma pages_frame `{PageAllocator pages} s s' l :
  pages s l → k_mem s' = k_mem s → k_kmem s' = k_kmem s → same_kernel s s' → pages s' l.
Proof. intros Hp Hm Hk (? & ? & _)%same_kernel_inv. by apply (pa_frame s). Qed.

Definition allocator (s : kstate) (l : list Z) : Prop := kmem_ready s ∧ free_pages s l.

#[global] Instance kalloc_allocator : PageAllocator allocator.
Proof.
  split.
  - intros s l [_ (_ & ? & ?)]. done.
  - intros s p l [Hr Hf]. destruct (free_pages_alloced s p l Hf) as [Hp Hf'].
    exists (alloced s). rewrite kalloc_run, Hp by done.
    split; [done|]. split; [split; [by apply kmem_ready_alloced|done]|].
    split; [|apply same_kernel_alloced].
    unfold alloced, ksync. by destruct (_ =? 0), (use_lock _).
  - intros s [Hr Hf]. destruct (free_pages_empty s Hf) as [Hp Ha].
    exists (alloced s). rewrite kalloc_run, Hp by done. split; [done|].
    split; [split; [by apply kmem_ready_alloced|]|].
    + rewrite Ha. unfold ksync, free_pages in *. by destruct (use_lock _).
    + split; [|apply same_kernel_alloced]. rewrite Ha. unfold ksync. by destruct (use_lock _).
  - intros s v l [Hr Hf] Hv Hn. exists (freed v s). rewrite kfree_run by done.
    split; [done|]. split; [split; [by apply kmem_ready_freed|by apply free_pages_freed]|].
    split; [apply same_kernel_freed|]. intros. by apply freed_mem.
  - intros s m l [Hr Hf] Hm. split; [done|]. pose proof Hf as (_ & _ & Hok).
    rewrite Forall_forall in Hok.
    apply (free_pages_frame s); [|done|exact Hf]. intros p Hp. apply (Hm p); [done|..].
    + by apply page_ok_in, Hok.
    + by apply page_ok_align, Hok.
  - intros s s' l [[Hwf Hl] Hf] Hm Hk Hc Hlk. apply cpu_sync_inv in Hc as [_ Hw].
    split; [split|].
    + by apply Hw.
    + by rewrite Hk, <-Hlk.
    + apply (free_pages_frame s); [|done|done]. intros p _. by rewrite Hm.
Qed.

(** ** Clients of the allocator *)

(** What a kernel that owns the pages [o] may do: allocate, free a page it
    owns, write to a page it owns. *)
Inductive astep : kstate * list Z → kstate * list Z → Prop :=
| astep_alloc s s' p o : kalloc s = Ret p s' → p ≠ 0 → astep (s, o) (s', p :: o)
| astep_fail s s' o : kalloc s = Ret 0 s' → astep (s, o) (s', o)
| astep_free s s' v o1 o2 : kfree v s = Ret tt s' → astep (s, o1 ++ v :: o2) (s', o1 ++ o2)
| astep_write s a w p o : p ∈ o → in_page p a → a mod 4 = 0 →
    astep (s, o) (upd_k_mem (λ m, st32 m a w) s, o).

(** The pages [l] free at the start are at all times either free or owned. *)
Definition conserved (l : list Z) (c : kstate * list Z) : Prop :=
  ∃ l', allocator c.1 l' ∧ l' ++ c.2 ≡ₚ l.

Lemma conserved_nodup l c : NoDup l → conserved l c → NoDup c.2 ∧ ∀ p, p ∈ c.2 → p ∈ l.
Proof.
  intros Hnd (l' & _ & Hp). rewrite <-Hp in Hnd. apply NoDup_app in Hnd as (_ & _ & ?).
  split; [done|]. intros p Hin. rewrite <-Hp. set_solver.
Qed.

Lemma astep_conserved l c c' :
  NoDup l → Forall page_ok l → astep c c' → conserved l c → conserved l c'.
Proof.
  intros Hnd Hok Hs (l' & Ha & Hp). rewrite Forall_forall in Hok.
  assert (NoDup (l' ++ c.2)) as Hnd' by by rewrite Hp.
  destruct Hs as [s s' p o Hrun Hp0|s s' o Hrun|s s' v o1 o2 Hrun|s a w p o Hin Hpg Ha4]; simpl in *.
  - destruct l' as [|q l'].
    + edestruct pa_alloc_none as (s1 & Hrun' & _); [exact Ha|]. congruence.
    + edestruct pa_alloc as (s1 & Hrun' & Ha' & _); [exact Ha|]. rewrite Hrun in Hrun'. simplify_eq.
      exists l'. split; [done|]. rewrite <-Hp. simpl. by rewrite Permutation_middle.
  - destruct l' as [|q l'].
    + edestruct pa_alloc_none as (s1 & Hrun' & Ha' & _); [exact Ha|]. rewrite Hrun in Hrun'. simplify_eq. exists []. by split.
    + edestruct pa_alloc as (s1 & Hrun' & Ha' & _); [exact Ha|]. rewrite Hrun in Hrun'. simplify_eq.
      exfalso. apply (page_ok_nonzero 0); [|done]. apply Hok. rewrite <-Hp. set_solver.
  - assert (v ∈ l) as Hv by (rewrite <-Hp; set_solver).
    assert (v ∉ l') as Hnv. { apply NoDup_app in Hnd' as (_ & Hd & _). intros H. apply (Hd v H). set_solver. }
    edestruct pa_free as (s1 & Hrun' & Ha' & _); [exact Ha|by apply Hok|exact Hnv|]. rewrite Hrun in Hrun'. simplify_eq.
    exists (v :: l'). split; [done|]. rewrite <-Hp. simpl. rewrite (app_assoc _ o1).
    by rewrite (Permutation_middle (l' ++ o1) o2 v), <-app_assoc.
  - exists l'. split; [|done]. apply pa_write; [done|].
    intros q b Hq Hb _. apply ld32_st32_ne. intros ->.
    assert (p = q) as ->.
    { apply (in_page_eq p q b); [..|done|done]; apply page_ok_align, Hok; rewrite <-Hp; set_solver. }
    apply NoDup_app in Hnd' as (_ & Hd & _). by apply (Hd q).
Qed.

(** C17.  Pages are conserved: however a kernel allocates, frees pages it
    owns and writes to them, a page is never handed out twice, never leaks,
    freeing an owned page never panics, and [kalloc] always returns: a page
    nobody owns, or 0 exactly when every page is owned. *)
Theorem page_conservation s l c :
  allocator s l → rtc astep (s, []) c →
  NoDup c.2 ∧ (∀ v, v ∈ c.2 → ∃ s', kfree v c.1 = Ret tt s') ∧
  ∃ p s', kalloc c.1 = Ret p s' ∧ (p = 0 ↔ c.2 ≡ₚ l) ∧ (p ≠ 0 → p ∈ l ∧ p ∉ c.2).
Proof.
  intros Ha Hr. destruct (pa_pages s l Ha) as [Hnd Hok].
  assert (conserved l c) as Hc.
  { remember (s, []) as c0. assert (conserved l c0) as H0.
    { subst. exists l. split; [done|]. simpl. by rewrite app_nil_r. }
    clear Heqc0. induction Hr; eauto using astep_conserved. }
  destruct (conserved_nodup l c Hnd Hc) as [Ho Hol]. destruct Hc as (l' & Ha' & Hp).
  rewrite Forall_forall in Hok. assert (NoDup (l' ++ c.2)) as Hd by by rewrite Hp.
  apply NoDup_app in Hd as (_ & Hd & _). split; [done|]. split.
  - intros v Hv. edestruct pa_free as (s' & Hs' & _); [exact Ha'|by apply Hok, Hol|set_solver|eauto].
  - destruct l' as [|q l'].
    + edestruct pa_alloc_none as (s' & Hs' & _); [exact Ha'|]. exists 0, s'. done.
    + edestruct pa_alloc as (s' & Hs' & _); [exact Ha'|]. exists q, s'.
      assert (q ∈ l) as Hq by (rewrite <-Hp; set_solver).
      split; [done|]. split; [|set_solver]. split.
      * intros ->. by destruct (page_ok_nonzero 0 (Hok 0 Hq)).
      * intros Hp'. exfalso. rewrite <-Hp' in Hq. apply (Hd q); set_solver.
Qed.

(** ** Initialization *)

(** The [n] pages starting at [p]. *)
Definition page_run (p : Z) (n : nat) : list Z := (λ i, p + PGSIZE * Z.of_nat i) <$> seq 0 n.

Lemma page_run_S p n : page_run p (S n) = p :: page_run (p + PGSIZE) n.
Proof.
  unfold page_run. simpl. f_equal; [lia|]. rewrite <-fmap_S_seq, <-list_fmap_compose.
  apply list_fmap_ext. intros i x _. simpl. lia.
Qed.

Lemma elem_of_page_run p n v :
  v ∈ page_run p n ↔ ∃ i, v = p + PGSIZE * i ∧ 0 ≤ i < Z.of_nat n.
Proof.
  unfold page_run. rewrite list_elem_of_fmap. split.
  - intros (i & -> & Hi%elem_of_seq). exists (Z.of_nat i). lia.
  - intros (i & -> & Hi). exists (Z.to_nat i). rewrite elem_of_seq. split; [|lia]. rewrite Z2Nat.id by lia. done.
Qed.

Lemma freerange_loop_ok n : ∀ fuel p vend s l,
  (n ≤ fuel)%nat → vend ≤ KERNBASE + PHYSTOP →
  allocator s l → Forall page_ok (page_run p n) → (∀ v, v ∈ page_run p n → v ∉ l) →
  0 ≤ p → p + PGSIZE * Z.of_nat n ≤ vend < p + PGSIZE * Z.of_nat n + PGSIZE →
  ∃ s', freerange_loop fuel p vend s = Ret tt s' ∧ same_kernel s s' ∧
        allocator s' (rev (page_run p n) ++ l).
Proof.
  induction n as [|n IH]; intros fuel p vend s l Hf Hv Ha Hok Hd Hp Hr.
  all: unfold KERNBASE, PHYSTOP, PGSIZE in *.
  - destruct fuel; simpl; unfold PGSIZE; rewrite u32_small by (unfold two32; lia);
      (destruct (Z.leb_spec (p + 4096) vend); [lia|]); by exists s.
  - rewrite page_run_S in *. inversion Hok as [|? ? Hpok Hok']; subst.
    destruct fuel as [|fuel]; [lia|]. simpl. unfold PGSIZE.
    rewrite u32_small by (unfold two32; lia). destruct (Z.leb_spec (p + 4096) vend); [|lia].
    edestruct pa_free as (s1 & Hrun & Ha1 & Hk1 & _); [exact Ha|done|set_solver|].
    rewrite (bind_Ret _ _ _ _ _ Hrun).
    destruct (IH fuel (p + 4096) vend s1 (p :: l)) as (s2 & Hrun2 & Hk2 & Ha2); try done; try lia.
    { intros v Hin [->|Hl]%elem_of_cons; [|by apply (Hd v); [right|]].
      apply elem_of_page_run in Hin as (i & Hi & ?). unfold PGSIZE in Hi. lia. }
    exists s2. split; [done|]. split; [by etrans|]. unfold PGSIZE in *. simpl.
    by rewrite <-app_assoc.
Qed.

Lemma PGROUNDUP_bounds a :
  0 ≤ a ≤ two32 - 4096 → ∃ k, PGROUNDUP a = PGSIZE * k ∧ a ≤ PGSIZE * k < a + PGSIZE.
Proof.
  intros Ha. rewrite PGROUNDUP_spec by done. exists ((a + 4095) / 4096). unfold PGSIZE.
  pose proof (Z.div_mod (a + 4095) 4096 ltac:(done)).
  pose proof (Z.mod_pos_bound (a + 4095) 4096 eq_refl). lia.
Qed.

Lemma page_ok_intro k :
  k_end ≤ PGSIZE * k → PGSIZE * k < KERNBASE + PHYSTOP → page_ok (PGSIZE * k).
Proof.
  pose proof k_data_after_link. pose proof k_end_after_data. unfold KERNLINK, EXTMEM in *.
  unfold page_ok, is_u32, V2P, two32, KERNBASE, PHYSTOP, PGSIZE in *. intros.
  rewrite Z.mul_comm, Z_mod_mult, u32_small by (unfold two32; lia). lia.
Qed.

Lemma freerange_ok vstart vend s l :
  k_end ≤ vstart → vstart ≤ vend → vend mod PGSIZE = 0 → vend ≤ KERNBASE + PHYSTOP →
  allocator s l → (∀ v, v ∈ l → v < vstart) →
  ∃ s' l', freerange vstart vend s = Ret tt s' ∧ same_kernel s s' ∧ allocator s' (l' ++ l) ∧
    ∀ v, v ∈ l' ↔ page_ok v ∧ vstart ≤ v < vend.
Proof.
  intros He Hse Hm Hv Ha Hl. pose proof k_data_after_link. pose proof k_end_after_data.
  destruct (PGROUNDUP_bounds vstart) as (k & Hk & Hkr).
  { unfold KERNLINK, KERNBASE, EXTMEM, PHYSTOP, two32 in *. lia. }
  apply Z.mod_divide in Hm; [|done]. destruct Hm as [e ->].
  unfold freerange. rewrite Hk. set (n := Z.to_nat ((e * PGSIZE - PGSIZE * k) / PGSIZE)).
  assert (Z.of_nat n = e - k) as Hn.
  { unfold n. replace (e * PGSIZE - PGSIZE * k) with ((e - k) * PGSIZE) by lia.
    rewrite Z.div_mul by done. unfold PGSIZE in *. lia. }
  assert (∀ v, v ∈ page_run (PGSIZE * k) n ↔ page_ok v ∧ vstart ≤ v < e * PGSIZE) as Hrun.
  { intros v. rewrite elem_of_page_run, Hn. split.
    - intros (i & -> & Hi). replace (PGSIZE * k + PGSIZE * i) with (PGSIZE * (k + i)) by lia.
      unfold PGSIZE in *. split; [apply page_ok_intro; unfold PGSIZE; lia|lia].
    - intros [(_ & Hal & _) Hb]. apply Z.mod_divide in Hal; [|done]. destruct Hal as [j ->].
      exists (j - k). unfold PGSIZE in *. lia. }
  destruct (freerange_loop_ok n n (PGSIZE * k) (e * PGSIZE) s l) as (s' & Hr & Hsk & Ha');
    [lia|done|done| | | | |].
  - apply Forall_forall. intros v Hin. by apply Hrun.
  - intros v Hin%Hrun Hin'%Hl. lia.
  - unfold KERNLINK, KERNBASE, EXTMEM in *. lia.
  - unfold PGSIZE in *. lia.
  - exists s', (rev (page_run (PGSIZE * k) n)). split; [done|]. split; [done|]. split; [done|].
    intros v. rewrite <-Hrun. rewrite !list_elem_of_In. by rewrite <-in_rev.
Qed.

(** C18.  Boot: [kinit1(end, P2V(4MB))] followed by [kinit2(P2V(4MB),
    P2V(PHYSTOP))] returns, and leaves on the free list exactly the pages
    that [kfree] accepts, each once, with locking enabled. *)
Theorem kinit_frees_all s :
  freelist (k_kmem s) = 0 → cpu_wf (k_cpu s) → k_end ≤ P2V 0x400000 →
  ∃ s' l, (kinit1 k_end (P2V 0x400000);; kinit2 (P2V 0x400000) (P2V PHYSTOP)) s = Ret tt s' ∧
    use_lock (k_kmem s') = true ∧ allocator s' l ∧ ∀ v, v ∈ l ↔ page_ok v.
Proof.
  intros Hf Hwf He. unfold kinit1, kinit2, initlock. msteps.
  change (P2V 0x400000) with 0x80400000 in *. change (P2V PHYSTOP) with (KERNBASE + PHYSTOP).
  set (s1 := upd_k_kmem _ _).
  destruct (freerange_ok k_end 0x80400000 s1 []) as (s2 & l1 & Hr1 & Hk1 & Ha1 & Hin1); try done.
  { split; [done|]. split; [done|]. by split; [constructor|]. }
  { set_solver. }
  mrun Hr1. rewrite app_nil_r in Ha1.
  destruct (freerange_ok 0x80400000 (KERNBASE + PHYSTOP) s2 l1) as (s3 & l2 & Hr2 & Hk2 & Ha2 & Hin2);
    try done.
  { intros v Hv. apply Hin1 in Hv as [_ ?]. lia. }
  mrun Hr2. eexists _, _. split; [done|]. split; [done|].
  assert (k_locks s3 !! L_kmem = None) as Hlock.
  { assert (same_kernel s1 s3) as Hk by (by etrans). apply (f_equal k_locks) in Hk. simpl in Hk.
    rewrite <-Hk. apply lookup_delete_eq. }
  split; [split; [split; [apply Ha2|done]|apply Ha2]|].
  intros v. rewrite elem_of_app, Hin1, Hin2.
  split; [tauto|]. intros Hv. pose proof (page_ok_range v Hv) as Hr.
  destruct Hv as (Hu & Hal & Hke & Hp).
  destruct (decide (v < 0x80400000)); [right|left]; (split; [done|]); unfold PGSIZE in *; lia.
Qed.
End kalloc.

(** ** Witnesses *)

(** A machine with one free page. *)
Definition one_free : kstate := upd_k_kmem (λ _, MkKmem false 0x80200000) bss.

Lemma page_ok_kernel_sym v :
  is_u32 v → v mod 4096 = 0 → 0x80116a74 ≤ v → V2P v < PHYSTOP → @page_ok kernel_sym v.
Proof. intros Hu Ha He Hp. exact (conj Hu (conj Ha (conj He Hp))). Qed.

Lemma one_free_allocator : @allocator kernel_sym one_free [0x80200000].
Proof.
  split; [split; [split|]; done|]. split; [done|]. split; [by apply NoDup_singleton|].
  constructor; [|constructor]. by apply page_ok_kernel_sym.
Qed.

Lemma page_conservation_witness :
  let c := (@alloced one_free, [0x80200000]) in
  NoDup c.2 ∧ (∀ v, v ∈ c.2 → ∃ s', @kfree kernel_sym v c.1 = Ret tt s') ∧
  ∃ p s', kalloc c.1 = Ret p s' ∧ (p = 0 ↔ c.2 ≡ₚ [0x80200000]) ∧ (p ≠ 0 → p ∈ [0x80200000] ∧ p ∉ c.2).
Proof.
  refine (@page_conservation kernel_sym one_free [0x80200000] (alloced one_free, [0x80200000]) one_free_allocator _).
  apply rtc_once, (astep_alloc one_free (alloced one_free) 0x80200000 []); [|done]. by apply kalloc_run.
Defined.

Lemma kinit_frees_all_witness :
  ∃ s' l, (@kinit1 kernel_sym 0x80116a74 (P2V 0x400000);; @kinit2 kernel_sym (P2V 0x400000) (P2V PHYSTOP)) bss = Ret tt s' ∧
    use_lock (k_kmem s') = true ∧ @allocator kernel_sym s' l ∧ ∀ v, v ∈ l ↔ @page_ok kernel_sym v.
Proof. by apply (@kinit_frees_all kernel_sym bss). Defined.
