(* ===== verification/Vm.v ===== *)
(** Vm: the page-table code of [vm.c].

    Page directories and page tables are words of [k_mem]; the functions
    read and write them exactly where the C code does.  [NULL] is 0. *)

From S2P Require Import Prelude Layout State Mem Spinlock Segments Console Kalloc.

Section vm.
Context {KI : KernelImage}.

(** ** Walking and mapping *)

Definition walkpgdir (pgdir va : Z) (alloc : bool) : K Z :=
  let pde := pgdir + 4 * PDX va in
  e ← gets (λ s, ld32 (k_mem s) pde);
  if has_flag e PTE_P then
    let pgtab := P2V (PTE_ADDR e) in
    mret (pgtab + 4 * PTX va)
  else if negb alloc then mret 0
  else
    pgtab ← kalloc;
    if pgtab =? 0 then mret 0 else
    (* Make sure all those PTE_P bits are zero. *)
    modify (upd_k_mem (λ m, memset m pgtab 0 PGSIZE));;
    modify (upd_k_mem (λ m, st32 m pde (Z.lor (Z.lor (Z.lor (V2P pgtab) PTE_P) PTE_W) PTE_U)));;
    mret (pgtab + 4 * PTX va).

(** The [for(;;)] of [mappages]. *)
Fixpoint mappages_loop (fuel : nat) (pgdir a last pa perm : Z) : K Z :=
  match fuel with
  | O => nofuel
  | S fuel =>
      pte ← walkpgdir pgdir a true;
      if pte =? 0 then mret (-1) else
      e ← gets (λ s, ld32 (k_mem s) pte);
      if has_flag e PTE_P then panic "remap" else
      modify (upd_k_mem (λ m, st32 m pte (Z.lor (Z.lor pa perm) PTE_P)));;
      if a =? last then mret 0
      else mappages_loop fuel pgdir (u32 (a + PGSIZE)) last (u32 (pa + PGSIZE)) perm
  end.

Definition mappages (pgdir va size pa perm : Z) : K Z :=
  let a := PGROUNDDOWN va in
  let last := PGROUNDDOWN (u32 (u32 va + size - 1)) in
  mappages_loop (S (Z.to_nat (u32 (last - a) / PGSIZE))) pgdir a last pa perm.

(** ** Freeing *)

(** [for(; a < oldsz; a += PGSIZE)] of [deallocuvm]. *)
Fixpoint deallocuvm_loop (fuel : nat) (pgdir a oldsz : Z) : K unit :=
  if a <? oldsz then
    match fuel with
    | O => nofuel
    | S fuel =>
        pte ← walkpgdir pgdir a false;
        if pte =? 0 then
          let a := u32 (PGADDR (PDX a + 1) 0 0 - PGSIZE) in
          deallocuvm_loop fuel pgdir (u32 (a + PGSIZE)) oldsz
        else
          e ← gets (λ s, ld32 (k_mem s) pte);
          whenb (has_flag e PTE_P)
            (let pa := PTE_ADDR e in
             if pa =? 0 then panic "kfree" else
             let v := P2V pa in
             kfree v;;
             modify (upd_k_mem (λ m, st32 m pte 0)));;
          deallocuvm_loop fuel pgdir (u32 (a + PGSIZE)) oldsz
    end
  else mret tt.

Definition deallocuvm (pgdir oldsz newsz : Z) : K Z :=
  if oldsz <=? newsz then mret oldsz else
  let a := PGROUNDUP newsz in
  deallocuvm_loop (S (Z.to_nat ((oldsz - a) / PGSIZE))) pgdir a oldsz;;
  mret newsz.

Definition freevm (pgdir : Z) : K unit :=
  if pgdir =? 0 then panic "freevm: no pgdir" else
  deallocuvm pgdir KERNBASE 0;;
  for_ (Z.to_nat NPDENTRIES) 0 (λ i,
    e ← gets (λ s, ld32 (k_mem s) (pgdir + 4 * i));
    whenb (has_flag e PTE_P) (kfree (P2V (PTE_ADDR e))));;
  kfree pgdir.

(** ** Kernel mappings *)

(** [struct kmap]: virt, phys_start, phys_end, perm *)
Definition kmap : list (Z * Z * Z * Z) :=
  [ (KERNBASE, 0, EXTMEM, PTE_W);                        (* I/O space *)
    (KERNLINK, V2P KERNLINK, V2P k_data, 0);             (* kern text+rodata *)
    (k_data, V2P k_data, PHYSTOP, PTE_W);                (* kern data+memory *)
    (DEVSPACE, DEVSPACE, 0, PTE_W) ].                    (* more devices *)

(** [for(k = kmap; k < &kmap[NELEM(kmap)]; k++)] *)
Fixpoint setupkvm_loop (pgdir : Z) (ks : list (Z * Z * Z * Z)) : K Z :=
  match ks with
  | [] => mret pgdir
  | (virt, phys_start, phys_end, perm) :: ks =>
      r ← mappages pgdir virt (u32 (phys_end - phys_start)) phys_start perm;
      if r <? 0 then freevm pgdir;; mret 0
      else setupkvm_loop pgdir ks
  end.

Definition setupkvm : K Z :=
  pgdir ← kalloc;
  if pgdir =? 0 then mret 0 else
  modify (upd_k_mem (λ m, memset m pgdir 0 PGSIZE));;
  if DEVSPACE <? P2V PHYSTOP then panic "PHYSTOP too high" else
  setupkvm_loop pgdir kmap.

Definition switchkvm : K unit :=
  modify (λ s, upd_k_cpu (upd_c_cr3 (λ _, V2P (k_kpgdir s))) s).

Definition kvmalloc : K unit :=
  p ← setupkvm;
  modify (upd_k_kpgdir (λ _, p));;
  switchkvm.

(** Loading the task register makes the TSS current, which here it is. *)
Definition switchuvm (p : option nat) : K unit :=
  match p with
  | None => panic "switchuvm: no process"
  | Some i =>
      pr ← deref (λ s, k_procs s !! i);
      if p_kstack pr =? 0 then panic "switchuvm: no kstack" else
      if p_pgdir pr =? 0 then panic "switchuvm: no pgdir" else
      pushcli;;
      c ← mycpu;
      set_gdt SEG_TSS (SEG16 STS_T32A (cpu_ts (c_id c)) (sizeof_taskstate - 1) 0);;
      modify (upd_k_gdt (alter clear_s (Z.to_nat SEG_TSS)));;
      modify (upd_k_cpu (upd_c_ss0 (λ _, Z.shiftl SEG_KDATA 3)));;
      modify (upd_k_cpu (upd_c_esp0 (λ _, u32 (p_kstack pr + KSTACKSIZE))));;
      modify (upd_k_cpu (upd_c_iomb (λ _, 0xFFFF)));;
      modify (upd_k_cpu (upd_c_cr3 (λ _, V2P (p_pgdir pr))));;
      popcli
  end.

(** ** User memory *)

Definition inituvm (pgdir : Z) (init : list Z) : K unit :=
  if PGSIZE <=? Z.of_nat (length init) then panic "inituvm: more than a page" else
  mem ← kalloc;
  modify (upd_k_mem (λ m, memset m mem 0 PGSIZE));;
  mappages pgdir 0 PGSIZE (V2P mem) (Z.lor PTE_W PTE_U);;
  modify (upd_k_mem (λ m, store_bytes m mem init)).

(** [for(; a < newsz; a += PGSIZE)] of [allocuvm]. *)
Fixpoint allocuvm_loop (fuel : nat) (pgdir a oldsz newsz : Z) : K Z :=
  if a <? newsz then
    match fuel with
    | O => nofuel
    | S fuel =>
        mem ← kalloc;
        if mem =? 0 then
          cprintf ("allocuvm out of memory" +:+ nl) [];;
          p ← myproc;
          match p with
          | None => undef
          | Some i =>
              pr ← deref (λ s, k_procs s !! i);
              cprintf ("Stack Size: %d" +:+ nl) [AInt (p_stackSize pr)];;
              deallocuvm pgdir newsz oldsz;;
              mret 0
          end
        else
        modify (upd_k_mem (λ m, memset m mem 0 PGSIZE));;
        r ← mappages pgdir a PGSIZE (V2P mem) (Z.lor PTE_W PTE_U);
        if r <? 0 then
          cprintf ("allocuvm out of memory (2)" +:+ nl) [];;
          deallocuvm pgdir newsz oldsz;;
          kfree mem;;
          mret 0
        else allocuvm_loop fuel pgdir (u32 (a + PGSIZE)) oldsz newsz
    end
  else mret newsz.

Definition allocuvm (pgdir oldsz newsz : Z) : K Z :=
  if KERNBASE <=? newsz then mret 0 else
  if newsz <? oldsz then mret oldsz else
  let a := PGROUNDUP oldsz in
  allocuvm_loop (S (Z.to_nat ((newsz - a) / PGSIZE))) pgdir a oldsz newsz.

Definition clearpteu (pgdir uva : Z) : K unit :=
  pte ← walkpgdir pgdir uva false;
  if pte =? 0 then panic "clearpteu" else
  modify (upd_k_mem (λ m, st32 m pte (Z.land (ld32 m pte) (u32 (Z.lnot PTE_U))))).

(** Copy one page of the parent into the child: the body of both loops of
    [copyuvm].  [i] is where the parent's entry is looked up, [va] where
    the copy is mapped; the result is false on the jumps to [bad]. *)
Definition copypage (pgdir d i va : Z) : K bool :=
  pte ← walkpgdir pgdir i false;
  if pte =? 0 then panic "copyuvm: pte should exist" else
  e ← gets (λ s, ld32 (k_mem s) pte);
  if negb (has_flag e PTE_P) then panic "copyuvm: page not present" else
  let pa := PTE_ADDR e in
  let flags := PTE_FLAGS e in
  mem ← kalloc;
  if mem =? 0 then mret false else
  modify (upd_k_mem (λ m, memmove m mem (P2V pa) PGSIZE));;
  r ← mappages d va PGSIZE (V2P mem) flags;
  mret (negb (r <? 0)).

(** [for(i = 0; i < sz; i += PGSIZE)] *)
Fixpoint copyuvm_low (fuel : nat) (pgdir d i sz : Z) : K bool :=
  if i <? sz then
    match fuel with
    | O => nofuel
    | S fuel =>
        ok ← copypage pgdir d i i;
        if (ok : bool) then copyuvm_low fuel pgdir d (u32 (i + PGSIZE)) sz else mret false
    end
  else mret true.

(** [for(i = STACK_TOP; i > STACK_TOP - myproc()->stackSize * PGSIZE; i -= PGSIZE)] *)
Fixpoint copyuvm_stack (fuel : nat) (pgdir d i : Z) : K bool :=
  p ← myproc;
  match p with
  | None => undef
  | Some n =>
      pr ← deref (λ s, k_procs s !! n);
      if u32 (STACK_TOP - p_stackSize pr * PGSIZE) <? i then
        match fuel with
        | O => nofuel
        | S fuel =>
            ok ← copypage pgdir d i (PGROUNDDOWN i);
            if (ok : bool) then copyuvm_stack fuel pgdir d (u32 (i - PGSIZE)) else mret false
        end
      else mret true
  end.

Definition copyuvm (pgdir sz : Z) : K Z :=
  d ← setupkvm;
  if d =? 0 then mret 0 else
  ok ← copyuvm_low (S (Z.to_nat (sz / PGSIZE))) pgdir d 0 sz;
  n ← gets (λ s, match curproc s with Some pr => Z.to_nat (p_stackSize pr) | None => O end);
  ok ← (if (ok : bool) then copyuvm_stack n pgdir d STACK_TOP else mret false);
  if (ok : bool) then mret d
  else freevm d;; mret 0.

(** A NULL page-table entry is dereferenced by the first test. *)
Definition uva2ka (pgdir uva : Z) : K Z :=
  pte ← walkpgdir pgdir uva false;
  if pte =? 0 then undef else
  e ← gets (λ s, ld32 (k_mem s) pte);
  if negb (has_flag e PTE_P) then mret 0 else
  if negb (has_flag e PTE_U) then mret 0 else
  mret (P2V (PTE_ADDR e)).

(** [while(len > 0)] of [copyout]; [buf] holds the bytes still to copy. *)
Fixpoint copyout_loop (fuel : nat) (pgdir va : Z) (buf : list Z) : K Z :=
  if 0 <? Z.of_nat (length buf) then
    match fuel with
    | O => nofuel
    | S fuel =>
        let va0 := PGROUNDDOWN va in
        pa0 ← uva2ka pgdir va0;
        if pa0 =? 0 then mret (-1) else
        let n := PGSIZE - (va - va0) in
        let n := if Z.of_nat (length buf) <? n then Z.of_nat (length buf) else n in
        modify (upd_k_mem (λ m, store_bytes m (pa0 + (va - va0)) (take (Z.to_nat n) buf)));;
        copyout_loop fuel pgdir (u32 (va0 + PGSIZE)) (drop (Z.to_nat n) buf)
    end
  else mret 0.

Definition copyout (pgdir va : Z) (p : list Z) : K Z :=
  copyout_loop (S (length p)) pgdir va p.
End vm.
