(* ===== verification/PageTable.v ===== *)
(** PageTable: the two-level tables [vm.c] keeps in memory, seen as a map
    from directory and table indices to entries, with the ownership
    invariant that ties them to the page allocator. *)

From S2P Require Import Prelude Layout State Mem Spinlock Kalloc.

(** ** Entries *)

Definition pres (e : Z) : bool := has_flag e PTE_P.
Definition frame_of (e : Z) : Z := P2V (PTE_ADDR e).

Lemma has_flag_lor a b f : has_flag (Z.lor a b) f = has_flag a f || has_flag b f.
Proof.
  unfold has_flag. rewrite Z.land_lor_distr_l.
  destruct (Z.eqb_spec (Z.land a f) 0) as [Ea|Ea], (Z.eqb_spec (Z.land b f) 0) as [Eb|Eb]; simpl.
  - by rewrite Ea, Eb.
  - rewrite Ea, Z.lor_0_l. by apply negb_true_iff, Z.eqb_neq.
  - rewrite Eb, Z.lor_0_r. by apply negb_true_iff, Z.eqb_neq.
  - destruct (Z.eqb_spec (Z.lor (Z.land a f) (Z.land b f)) 0) as [E|E]; [|done].
    by apply Z.lor_eq_0_iff in E as [? ?].
Qed.

Lemma has_flag_aligned pa f : pa mod 4096 = 0 → 0 ≤ f < 4096 → has_flag pa f = false.
Proof.
  intros Hpa Hf. unfold has_flag. apply negb_false_iff, Z.eqb_eq.
  apply Z.bits_inj'. intros n Hn. rewrite Z.land_spec, Z.bits_0.
  destruct (decide (n < 12)).
  - rewrite <-(Z.mod_pow2_bits_low pa 12 n) by lia. change (2 ^ 12) with 4096. by rewrite Hpa, Z.bits_0.
  - rewrite <-(Z.mod_small f (2 ^ 12)) by (change (2 ^ 12) with 4096; lia).
    rewrite (Z.mod_pow2_bits_high f) by lia. apply andb_false_r.
Qed.

(** An entry made of a page address and flags gives both back. *)
Lemma pte_make pa f :
  is_u32 pa → pa mod 4096 = 0 → 0 ≤ f < 4096 →
  let e := Z.lor pa f in
  is_u32 e ∧ PTE_ADDR e = pa ∧ PTE_FLAGS e = f ∧ ∀ g, 0 ≤ g < 4096 → has_flag e g = has_flag f g.
Proof.
  intros Hu Hm Hf. simpl.
  assert (Z.lor pa f = pa + f) as El by (by apply (lor_disjoint_add pa f 12)).
  assert (is_u32 (pa + f)) as Hu'.
  { unfold is_u32, two32 in *. apply Z.mod_divide in Hm; [|done]. destruct Hm as [k ->]. lia. }
  assert ((pa + f) mod 4096 = f) as Hmf.
  { rewrite <-Zplus_mod_idemp_l, Hm, Z.add_0_l. by apply Z.mod_small. }
  split; [by rewrite El|]. split; [|split].
  - rewrite PTE_ADDR_spec, El, u32_small, Hmf by done. lia.
  - by rewrite PTE_FLAGS_spec, El, u32_small, Hmf by done.
  - intros g Hg. by rewrite has_flag_lor, (has_flag_aligned pa g Hm Hg).
Qed.

Lemma lor_flag_range f g : 0 ≤ f < 4096 → 0 ≤ g < 4096 → 0 ≤ Z.lor f g < 4096.
Proof.
  intros Hf Hg. split; [apply Z.lor_nonneg; lia|].
  assert (Z.lor f g = (Z.lor f g) mod 2 ^ 12) as ->; [|by apply Z.mod_pos_bound].
  apply Z.bits_inj'. intros n Hn. rewrite Z.lor_spec. destruct (decide (n < 12)).
  - by rewrite Z.mod_pow2_bits_low, Z.lor_spec by lia.
  - rewrite Z.mod_pow2_bits_high by lia.
    rewrite <-(Z.mod_small f (2 ^ 12)), <-(Z.mod_small g (2 ^ 12)) by (change (2 ^ 12) with 4096; lia).
    by rewrite !Z.mod_pow2_bits_high by lia.
Qed.

Section pagetable.
Context {KI : KernelImage}.

Lemma V2P_page p : page_ok p → is_u32 (V2P p) ∧ V2P p mod 4096 = 0 ∧ P2V (V2P p) = p.
Proof.
  intros Hp. pose proof (page_ok_range p Hp) as Hr. pose proof (page_ok_align p Hp) as [Ha _].
  split; [apply u32_range|]. split; [|apply P2V_V2P; by apply page_ok_u32].
  unfold V2P, KERNBASE, EXTMEM, PHYSTOP, PGSIZE in *. rewrite u32_small by (unfold two32; lia).
  rewrite Zminus_mod, Ha. done.
Qed.

(** ** The tables as a map *)

Definition pde (m : gmap Z Z) (pgdir i : Z) : Z := ld32 m (pgdir + 4 * i).
Definition tab (m : gmap Z Z) (pgdir i : Z) : Z := frame_of (pde m pgdir i).
(** Entry [j] of table [i]; a table that does not exist maps nothing. *)
Definition pte (m : gmap Z Z) (pgdir i j : Z) : Z :=
  if pres (pde m pgdir i) then ld32 m (tab m pgdir i + 4 * j) else 0.

Definition idx (i : Z) : Prop := 0 ≤ i < 1024.

(** The pages an address space owns: its directory, its tables and the
    frames of its user half. *)
Definition is_tab (m : gmap Z Z) (pgdir p : Z) : Prop :=
  ∃ k, idx k ∧ pres (pde m pgdir k) = true ∧ p = tab m pgdir k.
Definition is_frame (m : gmap Z Z) (pgdir p : Z) : Prop :=
  ∃ i j, idx i ∧ i < 512 ∧ idx j ∧ pres (pte m pgdir i j) = true ∧ p = frame_of (pte m pgdir i j).
Definition owned (m : gmap Z Z) (pgdir p : Z) : Prop :=
  p = pgdir ∨ is_tab m pgdir p ∨ is_frame m pgdir p.

Lemma owned_ext m m' pgdir p :
  (∀ i, idx i → pde m' pgdir i = pde m pgdir i) →
  (∀ i j, idx i → idx j → pte m' pgdir i j = pte m pgdir i j) → owned m' pgdir p ↔ owned m pgdir p.
Proof.
  intros E1 E2. unfold owned. f_equiv. f_equiv.
  - unfold is_tab, tab. split; intros (k & Hk & Hp & ->); exists k; rewrite E1 in * by done; done.
  - split; intros (i & j & Hi & H5 & Hj & Hp & ->); exists i, j; rewrite E2 in * by done; done.
Qed.

(** The address space at [pgdir] owns its directory, its tables and the
    frames of its user half; they are distinct from each other and from the
    free pages [l]. *)
Record as_wf (m : gmap Z Z) (pgdir : Z) (l : list Z) : Prop := MkAsWf {
  wf_dir : page_ok pgdir ∧ pgdir ∉ l;
  wf_tab i : idx i → pres (pde m pgdir i) = true →
    page_ok (tab m pgdir i) ∧ (tab m pgdir i ∉ l) ∧ tab m pgdir i ≠ pgdir;
  wf_tab_inj i j : idx i → idx j → pres (pde m pgdir i) = true → pres (pde m pgdir j) = true →
    tab m pgdir i = tab m pgdir j → i = j;
  wf_frame i j : idx i → i < 512 → idx j → pres (pte m pgdir i j) = true →
    page_ok (frame_of (pte m pgdir i j)) ∧ (frame_of (pte m pgdir i j) ∉ l) ∧
    frame_of (pte m pgdir i j) ≠ pgdir ∧
    ∀ k, idx k → pres (pde m pgdir k) = true → frame_of (pte m pgdir i j) ≠ tab m pgdir k;
  wf_frame_inj i j i' j' : idx i → i < 512 → idx j → idx i' → i' < 512 → idx j' →
    pres (pte m pgdir i j) = true → pres (pte m pgdir i' j') = true →
    frame_of (pte m pgdir i j) = frame_of (pte m pgdir i' j') → i = i' ∧ j = j';
}.

Lemma idx_in_page p j : idx j → in_page p (p + 4 * j).
Proof. unfold idx, in_page, PGSIZE. lia. Qed.

Lemma idx_aligned p j : page_ok p → (p + 4 * j) mod 4 = 0.
Proof.
  intros Hp. pose proof (page_ok_align p Hp) as [_ H4].
  rewrite Z.mul_comm, Z_mod_plus_full. done.
Qed.

Lemma pages_disjoint p q a : page_ok p → page_ok q → p ≠ q → in_page p a → ¬ in_page q a.
Proof. intros Hp Hq Hne Ha Hb. apply Hne. eapply in_page_eq; eauto; by apply page_ok_align. Qed.

#[global] Instance in_page_dec p a : Decision (in_page p a).
Proof. unfold in_page. apply _. Defined.

Lemma ld32_zero_page m p a :
  page_ok p → a mod 4 = 0 → ld32 (memset m p 0 PGSIZE) a = if decide (in_page p a) then 0 else ld32 m a.
Proof.
  intros Hp Ha. rewrite ld32_memset_zero;
    [done|by apply page_ok_u32|done|by apply page_ok_align|done|done].
Qed.

(** Memory that agrees on the directory and on the tables. *)
Lemma pde_unchanged m m' pgdir i :
  page_ok pgdir → idx i → (∀ a, a mod 4 = 0 → in_page pgdir a → ld32 m' a = ld32 m a) →
  pde m' pgdir i = pde m pgdir i.
Proof. intros Hp Hi Hm. apply Hm; [by apply idx_aligned|by apply idx_in_page]. Qed.

(** Entries survive any write outside the directory and the tables. *)
Lemma tables_unchanged m m' pgdir l :
  as_wf m pgdir l →
  (∀ a, a mod 4 = 0 → in_page pgdir a → ld32 m' a = ld32 m a) →
  (∀ i a, idx i → pres (pde m pgdir i) = true → a mod 4 = 0 → in_page (tab m pgdir i) a →
    ld32 m' a = ld32 m a) →
  (∀ i, idx i → pde m' pgdir i = pde m pgdir i) ∧
  (∀ i j, idx i → idx j → pte m' pgdir i j = pte m pgdir i j).
Proof.
  intros Hwf Hd Ht. destruct (wf_dir _ _ _ Hwf) as [Hdir _].
  assert (∀ i, idx i → pde m' pgdir i = pde m pgdir i) as Hpde.
  { intros i Hi. by apply pde_unchanged. }
  split; [done|]. intros i j Hi Hj. unfold pte, tab. rewrite (Hpde i Hi).
  destruct (pres (pde m pgdir i)) eqn:E; [|done].
  destruct (wf_tab _ _ _ Hwf i Hi E) as (Hok & _).
  apply (Ht i); [done|done|by apply idx_aligned|by apply idx_in_page].
Qed.

Lemma as_wf_ext m m' pgdir l l' :
  as_wf m pgdir l → (∀ p, p ∈ l' → p ∈ l) →
  (∀ i, idx i → pde m' pgdir i = pde m pgdir i) →
  (∀ i j, idx i → idx j → pte m' pgdir i j = pte m pgdir i j) →
  as_wf m' pgdir l'.
Proof.
  intros [Hd Ht Hti Hf Hfi] Hl Hpde Hpte.
  assert (∀ i, idx i → tab m' pgdir i = tab m pgdir i) as Htab.
  { intros i Hi. unfold tab. by rewrite Hpde. }
  split.
  - destruct Hd. split; [done|]. by intros ?%Hl.
  - intros i Hi. rewrite Hpde, Htab by done. intros Hp. destruct (Ht i Hi Hp) as (?&?&?).
    split; [done|]. split; [by intros ?%Hl|done].
  - intros i j Hi Hj. rewrite !Hpde, !Htab by done. auto.
  - intros i j Hi Hu Hj. rewrite Hpte by done. intros Hp.
    destruct (Hf i j Hi Hu Hj Hp) as (?&?&?&Hk). split; [done|]. split; [by intros ?%Hl|]. split; [done|].
    intros k Hk'. rewrite Hpde, Htab by done. by apply Hk.
  - intros i j i' j' ??????. rewrite !Hpte by done. by apply Hfi.
Qed.

(** ** Installing a table *)

Section add_table.
Context (m : gmap Z Z) (pgdir p i : Z) (l : list Z).
Context (Hwf : as_wf m pgdir (p :: l)) (Hp : page_ok p) (Hpl : p ∉ l).
Context (Hi : idx i) (Habs : pres (pde m pgdir i) = false).

(** What [walkpgdir] does with the page [p] it allocated. *)
Definition add_table : gmap Z Z :=
  st32 (memset m p 0 PGSIZE) (pgdir + 4 * i)
    (Z.lor (Z.lor (Z.lor (V2P p) PTE_P) PTE_W) PTE_U).

Lemma add_table_entry :
  u32 (Z.lor (Z.lor (Z.lor (V2P p) PTE_P) PTE_W) PTE_U) = Z.lor (V2P p) 7 ∧
  pres (Z.lor (V2P p) 7) = true ∧ frame_of (Z.lor (V2P p) 7) = p.
Proof.
  destruct (V2P_page p Hp) as (Hu & Ha & Hb).
  destruct (pte_make (V2P p) 7 Hu Ha) as (He & Haddr & _ & Hf); [lia|].
  rewrite <-!Z.lor_assoc. change (Z.lor PTE_P (Z.lor PTE_W PTE_U)) with 7.
  split; [by apply u32_small|]. unfold pres, frame_of. rewrite Hf, Haddr by (unfold PTE_P; lia). done.
Qed.

Lemma add_table_outside a :
  a mod 4 = 0 → ¬ in_page p a → a ≠ pgdir + 4 * i → ld32 add_table a = ld32 m a.
Proof.
  intros Ha Hout Hne. unfold add_table. rewrite ld32_st32_ne by done.
  by rewrite ld32_zero_page, decide_False.
Qed.

Lemma add_table_pde k :
  idx k → pde add_table pgdir k = if decide (k = i) then Z.lor (V2P p) 7 else pde m pgdir k.
Proof using Hwf Hp Hi.
  intros Hk. destruct (wf_dir _ _ _ Hwf) as [Hd Hn]. apply not_elem_of_cons in Hn as [Hn _]. case_decide as E.
  - subst. unfold pde, add_table. rewrite ld32_st32_eq. apply add_table_entry.
  - apply add_table_outside; [by apply idx_aligned| |lia].
    apply (pages_disjoint pgdir); [done|done|done|by apply idx_in_page].
Qed.

Lemma add_table_tab k :
  idx k → tab add_table pgdir k = if decide (k = i) then p else tab m pgdir k.
Proof.
  intros Hk. unfold tab. rewrite add_table_pde by done. case_decide; [|done]. apply add_table_entry.
Qed.

(** The new table is empty, so no mapping changes. *)
Lemma add_table_pte k j : idx k → idx j → pte add_table pgdir k j = pte m pgdir k j.
Proof.
  intros Hk Hj. destruct (wf_dir _ _ _ Hwf) as [Hd Hn].
  unfold pte. rewrite add_table_tab, add_table_pde by done. case_decide as E.
  - subst. rewrite Habs. destruct add_table_entry as (_ & -> & _).
    unfold add_table. rewrite ld32_st32_ne.
    + rewrite ld32_zero_page, decide_True; [done|by apply idx_in_page|done|by apply idx_aligned].
    + intros E. apply (pages_disjoint p pgdir (p + 4 * j)); [done|done|set_solver|by apply idx_in_page|].
      rewrite <-E. by apply idx_in_page.
  - destruct (pres (pde m pgdir k)) eqn:Ek; [|done].
    destruct (wf_tab _ _ _ Hwf k Hk Ek) as (Ht & Hnt & Htd).
    apply add_table_outside; [by apply idx_aligned| |].
    + apply (pages_disjoint (tab m pgdir k)); [done|done|set_solver|by apply idx_in_page].
    + intros E'. apply (pages_disjoint (tab m pgdir k) pgdir (tab m pgdir k + 4 * j));
        [done|done|done|by apply idx_in_page|]. rewrite E'. by apply idx_in_page.
Qed.

Lemma add_table_wf : as_wf add_table pgdir l.
Proof.
  destruct (wf_dir _ _ _ Hwf) as [Hd Hn]. split.
  - split; [done|set_solver].
  - intros k Hk. rewrite add_table_pde, add_table_tab by done. case_decide; intros Hpr.
    + split; [done|]. split; [done|]. set_solver.
    + destruct (wf_tab _ _ _ Hwf k Hk Hpr) as (? & ? & ?). set_solver.
  - intros k k' Hk Hk'. rewrite !add_table_pde, !add_table_tab by done.
    repeat case_decide; intros H1 H2 E; subst; try done.
    + destruct (wf_tab _ _ _ Hwf k' Hk' H2) as (_ & Hx & _). set_solver.
    + destruct (wf_tab _ _ _ Hwf k Hk H1) as (_ & Hx & _). set_solver.
    + by apply (wf_tab_inj _ _ _ Hwf).
  - intros k j Hk Hu Hj. rewrite add_table_pte by done. intros Hpr.
    destruct (wf_frame _ _ _ Hwf k j Hk Hu Hj Hpr) as (? & Hl & ? & Ht).
    split; [done|]. split; [set_solver|]. split; [done|].
    intros k' Hk'. rewrite add_table_pde, add_table_tab by done. case_decide; intros; [set_solver|auto].
  - intros k j k' j' ??????. rewrite !add_table_pte by done. by apply (wf_frame_inj _ _ _ Hwf).
Qed.
End add_table.

(** ** Writing an entry *)

Section set_pte.
Context (m : gmap Z Z) (pgdir i j e : Z) (l : list Z).
Context (Hwf : as_wf m pgdir l) (Hi : idx i) (Hj : idx j) (Hpr : pres (pde m pgdir i) = true).

Definition set_pte : gmap Z Z := st32 m (tab m pgdir i + 4 * j) e.

Lemma set_pte_pde k : idx k → pde set_pte pgdir k = pde m pgdir k.
Proof.
  intros Hk. destruct (wf_dir _ _ _ Hwf) as [Hd _].
  destruct (wf_tab _ _ _ Hwf i Hi Hpr) as (Ht & _ & Hne).
  unfold pde, set_pte. apply ld32_st32_ne. intros E.
  apply (pages_disjoint (tab m pgdir i) pgdir (tab m pgdir i + 4 * j));
    [done|done|done|by apply idx_in_page|]. rewrite E. by apply idx_in_page.
Qed.

Lemma set_pte_tab k : idx k → tab set_pte pgdir k = tab m pgdir k.
Proof. intros Hk. unfold tab. by rewrite set_pte_pde. Qed.

Lemma set_pte_pte k h :
  idx k → idx h →
  pte set_pte pgdir k h = if decide (k = i ∧ h = j) then u32 e else pte m pgdir k h.
Proof.
  intros Hk Hh. unfold pte. rewrite set_pte_tab, set_pte_pde by done.
  case_decide as E; [destruct E as [-> ->]; rewrite Hpr; apply ld32_st32_eq|].
  destruct (pres (pde m pgdir k)) eqn:Ek; [|done].
  unfold set_pte. apply ld32_st32_ne. intros E'.
  destruct (decide (k = i)) as [->|Hne]; [lia|].
  destruct (wf_tab _ _ _ Hwf i Hi Hpr) as (Ht & _). destruct (wf_tab _ _ _ Hwf k Hk Ek) as (Ht' & _).
  apply (pages_disjoint (tab m pgdir i) (tab m pgdir k) (tab m pgdir i + 4 * j));
    [done|done| |by apply idx_in_page|rewrite E'; by apply idx_in_page].
  intros E2. apply Hne. symmetry. by apply (wf_tab_inj _ _ _ Hwf).
Qed.

Lemma set_pte_outside a :
  a ≠ tab m pgdir i + 4 * j → ld32 set_pte a = ld32 m a.
Proof. intros Ha. unfold set_pte. by apply ld32_st32_ne. Qed.

(** Clearing an entry, or writing one of the kernel half. *)
Lemma set_pte_wf_old : pres (u32 e) = false ∨ 512 ≤ i → as_wf set_pte pgdir l.
Proof.
  intros Hold.
  assert (∀ k h, idx k → k < 512 → idx h → pres (pte set_pte pgdir k h) = true →
    pte set_pte pgdir k h = pte m pgdir k h) as Hsame.
  { intros k h Hk Hu Hh. rewrite set_pte_pte by done. case_decide as E; [|done].
    destruct E as [-> ->]. destruct Hold as [->|]; [done|lia]. }
  split.
  - apply Hwf.
  - intros k Hk. rewrite set_pte_pde, set_pte_tab by done. by apply Hwf.
  - intros k k' Hk Hk'. rewrite !set_pte_pde, !set_pte_tab by done. by apply Hwf.
  - intros k h Hk Hu Hh Hp. pose proof (Hsame k h Hk Hu Hh Hp) as E. rewrite E in Hp |- *.
    destruct (wf_frame _ _ _ Hwf k h Hk Hu Hh Hp) as (? & ? & ? & Ht).
    split; [done|]. split; [done|]. split; [done|].
    intros k' Hk'. rewrite set_pte_pde, set_pte_tab by done. by apply Ht.
  - intros k h k' h' ?????? Hp Hp'. pose proof Hp as Hq. pose proof Hp' as Hq'.
    rewrite Hsame in Hp, Hp' by done. rewrite !Hsame by done.
    by apply (wf_frame_inj _ _ _ Hwf).
Qed.
End set_pte.

(** Mapping a page the address space does not use yet. *)
Lemma set_pte_wf_new m pgdir i j e l :
  as_wf m pgdir (frame_of (u32 e) :: l) → idx i → idx j → pres (pde m pgdir i) = true →
  page_ok (frame_of (u32 e)) → frame_of (u32 e) ∉ l → as_wf (set_pte m pgdir i j e) pgdir l.
Proof.
  intros Hwf Hi Hj Hpr Hok Hnl. set (f := frame_of (u32 e)) in *.
  pose proof (set_pte_pte m pgdir i j e _ Hwf Hi Hj Hpr) as Hpte.
  pose proof (set_pte_pde m pgdir i j e _ Hwf Hi Hj Hpr) as Hpde.
  pose proof (set_pte_tab m pgdir i j e _ Hwf Hi Hj Hpr) as Htab.
  pose proof (wf_tab _ _ _ Hwf) as Ht. pose proof (wf_frame _ _ _ Hwf) as Hf.
  destruct (wf_dir _ _ _ Hwf) as [Hd Hdl]. apply not_elem_of_cons in Hdl as [Hdf Hdl]. split.
  - done.
  - intros k Hk. rewrite Hpde, Htab by done. intros Hp. destruct (Ht k Hk Hp) as (? & Hn & ?).
    by apply not_elem_of_cons in Hn as [? ?].
  - intros k k' Hk Hk'. rewrite !Hpde, !Htab by done. by apply Hwf.
  - intros k h Hk Hu Hh. rewrite Hpte by done. case_decide as E.
    + intros _. fold f. split; [done|]. split; [done|]. split; [done|].
      intros k' Hk'. rewrite Hpde, Htab by done. intros Hp. destruct (Ht k' Hk' Hp) as (_ & Hn & _).
      apply not_elem_of_cons in Hn as [? ?]. done.
    + intros Hp. destruct (Hf k h Hk Hu Hh Hp) as (? & Hn & ? & Hne). apply not_elem_of_cons in Hn as [? ?].
      split; [done|]. split; [done|]. split; [done|].
      intros k' Hk'. rewrite Hpde, Htab by done. by apply Hne.
  - assert (∀ k h, idx k → k < 512 → idx h → pres (pte m pgdir k h) = true → f ≠ frame_of (pte m pgdir k h)) as Hfr.
    { intros k h Hk Hu Hh Hp. destruct (Hf k h Hk Hu Hh Hp) as (_ & Hn & _).
      apply not_elem_of_cons in Hn as [? ?]. done. }
    intros k h k' h' ??????. rewrite !Hpte by done.
    case_decide as E1; case_decide as E2; fold f; intros Hp Hp' E.
    + lia.
    + by destruct (Hfr k' h').
    + by destruct (Hfr k h).
    + by apply (wf_frame_inj _ _ _ Hwf).
Qed.

(** Unmapping a user page makes its frame available. *)
Lemma set_pte_wf_free m pgdir i j l :
  as_wf m pgdir l → idx i → i < 512 → idx j → pres (pte m pgdir i j) = true →
  pres (pde m pgdir i) = true →
  as_wf (set_pte m pgdir i j 0) pgdir (frame_of (pte m pgdir i j) :: l).
Proof.
  intros Hwf Hi Hu Hj Hpf Hpr. set (f := frame_of (pte m pgdir i j)).
  destruct (wf_frame _ _ _ Hwf i j Hi Hu Hj Hpf) as (Hok & Hnl & Hnd & Hnt). fold f in Hok, Hnl, Hnd, Hnt.
  pose proof (set_pte_pte m pgdir i j 0 _ Hwf Hi Hj Hpr) as Hpte.
  pose proof (set_pte_pde m pgdir i j 0 _ Hwf Hi Hj Hpr) as Hpde.
  pose proof (set_pte_tab m pgdir i j 0 _ Hwf Hi Hj Hpr) as Htab.
  assert (as_wf (set_pte m pgdir i j 0) pgdir l) as [Hd Ht Hti Hf Hfi].
  { apply set_pte_wf_old; auto. }
  split; [| |done| |done].
  - destruct Hd. split; [done|]. rewrite not_elem_of_cons. auto.
  - intros k Hk Hp. destruct (Ht k Hk Hp) as (? & ? & ?). split; [done|].
    rewrite not_elem_of_cons. split; [|done]. split; [|done]. rewrite Htab by done. rewrite Hpde in Hp by done.
    intros E. by apply (Hnt k).
  - intros k h Hk Hku Hh Hp. destruct (Hf k h Hk Hku Hh Hp) as (? & ? & ? & ?). split; [done|].
    rewrite not_elem_of_cons. split; [|done]. split; [|done].
    rewrite Hpte in Hp |- * by done. case_decide as E; [done|]. intros E'. apply E.
    by apply (wf_frame_inj _ _ _ Hwf).
Qed.

(** Shrinking the list of pages to avoid. *)
Lemma as_wf_sub m pgdir l l' : as_wf m pgdir l → (∀ p, p ∈ l' → p ∈ l) → as_wf m pgdir l'.
Proof. intros Hwf Hl. by eapply as_wf_ext. Qed.
End pagetable.
