(* ===== verification/AddressSpace.v ===== *)
(** AddressSpace: what the operations of [vm.c] do to an address space,
    proved against the page-allocator interface of [Kalloc]. *)

From S2P Require Import Prelude Layout State Mem Spinlock Console Kalloc Vm PageTable.

Section address_space.
Context {KI : KernelImage} {pages : kstate → list Z → Prop} {PA : PageAllocator pages}.

(** Words outside the directory, the tables and the free pages [l]. *)
Definition others (m : gmap Z Z) (pgdir : Z) (l : list Z) (a : Z) : Prop :=
  a mod 4 = 0 ∧ ¬ in_page pgdir a ∧ (∀ p, p ∈ l → ¬ in_page p a) ∧
  ∀ k, idx k → pres (pde m pgdir k) = true → ¬ in_page (tab m pgdir k) a.

(** The address space took page-table pages from the free list, and
    nothing else of the kernel changed. *)
Record grows (pgdir : Z) (r : list Z) (s : kstate) (l : list Z) (s' : kstate) (l' : list Z) : Prop := MkGrows {
  g_pages : pages s' l';
  g_wf : as_wf (k_mem s') pgdir (r ++ l');
  g_kernel : same_kernel s s';
  g_sub p : p ∈ l' → p ∈ l;
  g_tab k : idx k → pres (pde (k_mem s') pgdir k) = true →
    (pres (pde (k_mem s) pgdir k) = true ∧ tab (k_mem s') pgdir k = tab (k_mem s) pgdir k) ∨
    tab (k_mem s') pgdir k ∈ l;
  g_keep k : idx k → pres (pde (k_mem s) pgdir k) = true →
    pres (pde (k_mem s') pgdir k) = true ∧ tab (k_mem s') pgdir k = tab (k_mem s) pgdir k;
  g_cons p : p ∈ l → p ∈ l' ∨ is_tab (k_mem s') pgdir p;
  g_mem a : others (k_mem s) pgdir l a → ld32 (k_mem s') a = ld32 (k_mem s) a;
}.

Definition same_ptes (pgdir : Z) (s s' : kstate) : Prop :=
  ∀ i j, idx i → idx j → pte (k_mem s') pgdir i j = pte (k_mem s) pgdir i j.

Lemma others_grows pgdir r s l s' l' a :
  grows pgdir r s l s' l' → others (k_mem s) pgdir l a → others (k_mem s') pgdir l' a.
Proof.
  intros G (Ha & Hd & Hl & Ht). split; [done|]. split; [done|]. split.
  - intros p Hp. by apply Hl, (g_sub _ _ _ _ _ _ G).
  - intros k Hk Hp. destruct (g_tab _ _ _ _ _ _ G k Hk Hp) as [[Hp' ->]|Hin]; [by apply Ht|by apply Hl].
Qed.

Lemma grows_trans pgdir r r' s l s1 l1 s2 l2 :
  grows pgdir r s l s1 l1 → grows pgdir r' s1 l1 s2 l2 → grows pgdir r' s l s2 l2.
Proof.
  intros G1 G2. split; [apply G2|apply G2|..].
  - etrans; [apply G1|apply G2].
  - intros p Hp. by apply (g_sub _ _ _ _ _ _ G1), (g_sub _ _ _ _ _ _ G2).
  - intros k Hk Hp. destruct (g_tab _ _ _ _ _ _ G2 k Hk Hp) as [[Hp' ->]|Hin].
    + by apply (g_tab _ _ _ _ _ _ G1).
    + right. by apply (g_sub _ _ _ _ _ _ G1).
  - intros k Hk Hp. destruct (g_keep _ _ _ _ _ _ G1 k Hk Hp) as [Hp1 <-]. by apply (g_keep _ _ _ _ _ _ G2).
  - intros p Hp. destruct (g_cons _ _ _ _ _ _ G1 p Hp) as [Hp1|(k & Hk & Hp1 & ->)].
    + by apply (g_cons _ _ _ _ _ _ G2).
    + right. destruct (g_keep _ _ _ _ _ _ G2 k Hk Hp1) as [? E]. exists k. by rewrite E.
  - intros a Ha. rewrite (g_mem _ _ _ _ _ _ G2) by by eapply others_grows.
    by apply (g_mem _ _ _ _ _ _ G1).
Qed.

Lemma grows_refl pgdir r s l s' :
  pages s' l → k_mem s' = k_mem s → same_kernel s s' → as_wf (k_mem s) pgdir (r ++ l) →
  grows pgdir r s l s' l.
Proof. intros Hp Hm Hk Hwf. split; rewrite ?Hm; auto. Qed.

(** Free pages and tables, taken together, stay the same. *)
Lemma grows_tabs pgdir r s l s' l' :
  grows pgdir r s l s' l' →
  ∀ p, (p ∈ l ∨ is_tab (k_mem s) pgdir p) ↔ (p ∈ l' ∨ is_tab (k_mem s') pgdir p).
Proof.
  intros G p. split.
  - intros [Hp|(k & Hk & Hp & ->)]; [apply (g_cons _ _ _ _ _ _ G p Hp)|].
    right. exists k. by destruct (g_keep _ _ _ _ _ _ G k Hk Hp) as [? ->].
  - intros [Hp|(k & Hk & Hp & ->)]; [left; by apply (g_sub _ _ _ _ _ _ G)|].
    destruct (g_tab _ _ _ _ _ _ G k Hk Hp) as [[Hp' ->]|?]; [right; by exists k|by left].
Qed.

Lemma as_wf_mid m pgdir r p l : as_wf m pgdir (r ++ p :: l) → as_wf m pgdir (p :: r ++ l).
Proof. intros Hwf. eapply as_wf_sub; [done|]. intros q. rewrite !elem_of_cons, !elem_of_app, elem_of_cons. tauto. Qed.

Lemma pte_nonzero m pgdir l i j :
  as_wf m pgdir l → idx i → idx j → pres (pde m pgdir i) = true → (tab m pgdir i + 4 * j =? 0) = false.
Proof.
  intros Hwf Hi Hj Hp. destruct (wf_tab _ _ _ Hwf i Hi Hp) as (Ht & _). apply Z.eqb_neq.
  apply page_ok_range in Ht. unfold idx, KERNBASE, EXTMEM in *. lia.
Qed.

Lemma PDX_idx va : idx (PDX va).
Proof. apply PDX_range. Qed.
Lemma PTX_idx va : idx (PTX va).
Proof. apply PTX_range. Qed.
Hint Resolve PDX_idx PTX_idx : kernel.

(** ** [walkpgdir] *)

Lemma walk_noalloc s pgdir va :
  walkpgdir pgdir va false s =
    Ret (if pres (pde (k_mem s) pgdir (PDX va)) then tab (k_mem s) pgdir (PDX va) + 4 * PTX va else 0) s.
Proof.
  unfold walkpgdir, tab, pde, pres, frame_of. msteps. by destruct (has_flag _ _).
Qed.

(** A new table taken from the free list. *)
Lemma grows_table pgdir r s p l s' i :
  NoDup (r ++ p :: l) → page_ok p → as_wf (k_mem s) pgdir (r ++ p :: l) →
  idx i → pres (pde (k_mem s) pgdir i) = false →
  pages s' l → k_mem s' = k_mem s → same_kernel s s' →
  grows pgdir r s (p :: l) (upd_k_mem (λ _, add_table (k_mem s) pgdir p i) s') l.
Proof.
  intros Hnd Hp Hwf Hi Habs Hpg Hm Hk.
  assert (p ∉ r ++ l) as Hpl. { rewrite <-Permutation_middle in Hnd. by apply NoDup_cons in Hnd as [? _]. }
  apply as_wf_mid in Hwf. pose proof (wf_dir _ _ _ Hwf) as [Hd Hdl].
  destruct (pa_pages s' l Hpg) as [_ Hok]. rewrite Forall_forall in Hok.
  split; simpl.
  - apply pa_write; [done|]. intros q a Hq Ha H4. rewrite Hm. apply add_table_outside; [done|done|..].
    + apply (pages_disjoint q); [by apply Hok|done| |done]. intros ->. set_solver.
    + intros ->. apply (pages_disjoint q pgdir (pgdir + 4 * i)); [by apply Hok|done| |done|by apply idx_in_page].
      intros ->. set_solver.
  - by apply add_table_wf.
  - etrans; [exact Hk|]. apply same_kernel_mem.
  - intros q Hq. by right.
  - intros k Hkk. rewrite (add_table_pde _ _ _ _ (r ++ l)), (add_table_tab _ _ _ _ (r ++ l)) by done.
    case_decide; [subst; intros _; right; by left|]. intros Hpr. by left.
  - intros k Hkk Hpr. rewrite (add_table_pde _ _ _ _ (r ++ l)), (add_table_tab _ _ _ _ (r ++ l)) by done.
    case_decide; [|done]. congruence.
  - intros q [->|Hq]%elem_of_cons; [|by left]. right. exists i.
    rewrite (add_table_pde _ _ _ _ (r ++ l)), (add_table_tab _ _ _ _ (r ++ l)), !decide_True by done.
    split; [done|]. split; [|done]. by apply add_table_entry.
  - intros a (H4 & Hnd' & Hfree & _). apply add_table_outside; [done|done|apply Hfree; by left|].
    intros ->. apply Hnd'. by apply idx_in_page.
Qed.

Lemma walk_alloc s pgdir va r l :
  pages s l → NoDup (r ++ l) → as_wf (k_mem s) pgdir (r ++ l) →
  ∃ a s' l', walkpgdir pgdir va true s = Ret a s' ∧ grows pgdir r s l s' l' ∧ same_ptes pgdir s s' ∧
    (if a =? 0 then l' = [] else
       pres (pde (k_mem s') pgdir (PDX va)) = true ∧ a = tab (k_mem s') pgdir (PDX va) + 4 * PTX va).
Proof.
  intros Hpg Hnd Hwf. unfold walkpgdir. msteps.
  fold (pde (k_mem s) pgdir (PDX va)). fold (pres (pde (k_mem s) pgdir (PDX va))).
  destruct (pres (pde (k_mem s) pgdir (PDX va))) eqn:Hp.
  { fold (frame_of (pde (k_mem s) pgdir (PDX va))). fold (tab (k_mem s) pgdir (PDX va)).
    eexists _, s, l. split; [done|]. split; [by apply grows_refl|]. split; [done|].
    rewrite (pte_nonzero _ _ (r ++ l)); auto with kernel. }
  cbn [negb]. destruct l as [|p l].
  - destruct (pa_alloc_none s Hpg) as (s1 & Hrun & Hpg1 & Hm1 & Hk1). mrun Hrun.
    exists 0, s1, []. split; [done|]. split; [by apply grows_refl|]. split; [|done].
    intros i j _ _. by rewrite Hm1.
  - destruct (pa_alloc s p l Hpg) as (s1 & Hrun & Hpg1 & Hm1 & Hk1). mrun Hrun.
    destruct (pa_pages s _ Hpg) as [_ Hok]. inversion Hok as [|? ? Hpok Hok']; subst.
    destruct (Z.eqb_spec p 0) as [E|_]; [by apply page_ok_nonzero in E|]. msteps.
    assert (p ∉ r ++ l) as Hpl. { rewrite <-Permutation_middle in Hnd. by apply NoDup_cons in Hnd as [? _]. }
    pose proof (grows_table pgdir r s p l s1 (PDX va) Hnd Hpok Hwf (PDX_idx va) Hp Hpg1 Hm1 Hk1) as G.
    apply as_wf_mid in Hwf.
    eexists _, (upd_k_mem (λ _, add_table (k_mem s) pgdir p (PDX va)) s1), l.
    split; [by rewrite <-Hm1|]. split; [exact G|]. split; [intros i j Hi Hj; simpl; apply (add_table_pte _ _ _ _ (r ++ l)); auto with kernel|].
    pose proof (add_table_pde (k_mem s) pgdir p (PDX va) _ Hwf Hpok (PDX_idx va) (PDX va) (PDX_idx va)) as Epde.
    pose proof (add_table_tab (k_mem s) pgdir p (PDX va) _ Hwf Hpok (PDX_idx va) (PDX va) (PDX_idx va)) as Etab.
    rewrite decide_True in Epde, Etab by done. simpl.
    destruct (Z.eqb_spec (p + 4 * PTX va) 0) as [E|_].
    + exfalso. pose proof (page_ok_range p Hpok). pose proof (PTX_range va). unfold KERNBASE, EXTMEM in *. lia.
    + rewrite Epde, Etab. split; [|done]. by apply add_table_entry.
Qed.

(** ** [mappages] *)

(** An entry written by [mappages]. *)
Definition mk_pte (pa perm : Z) : Z := Z.lor (Z.lor pa perm) PTE_P.

Lemma mk_pte_ok pa perm :
  is_u32 pa → pa mod 4096 = 0 → 0 ≤ perm < 4096 →
  u32 (mk_pte pa perm) = mk_pte pa perm ∧ pres (mk_pte pa perm) = true ∧
  PTE_ADDR (mk_pte pa perm) = pa ∧ PTE_FLAGS (mk_pte pa perm) = Z.lor perm PTE_P.
Proof.
  intros Hu Ha Hp. unfold mk_pte. rewrite <-Z.lor_assoc.
  destruct (pte_make pa (Z.lor perm PTE_P) Hu Ha) as (He & Haddr & Hfl & Hf).
  { apply lor_flag_range; [done|unfold PTE_P; lia]. }
  split; [by apply u32_small|]. split; [|done]. unfold pres. rewrite Hf, has_flag_lor by (unfold PTE_P; lia).
  apply orb_true_r.
Qed.

Lemma grows_set_pte pgdir r r' s l i j e :
  pages s l → as_wf (k_mem s) pgdir (r ++ l) → idx i → idx j → pres (pde (k_mem s) pgdir i) = true →
  as_wf (set_pte (k_mem s) pgdir i j e) pgdir (r' ++ l) →
  grows pgdir r' s l (upd_k_mem (λ _, set_pte (k_mem s) pgdir i j e) s) l.
Proof.
  intros Hpg Hwf Hi Hj Hp Hwf'. destruct (wf_tab _ _ _ Hwf i Hi Hp) as (Ht & Hn & _).
  destruct (pa_pages s l Hpg) as [_ Hok]. rewrite Forall_forall in Hok. split; simpl.
  - apply pa_write; [done|]. intros q a Hq Ha H4. apply set_pte_outside. intros ->.
    apply (pages_disjoint q (tab (k_mem s) pgdir i) (tab (k_mem s) pgdir i + 4 * j));
      [by apply Hok|done| |done|by apply idx_in_page]. intros ->. set_solver.
  - done.
  - apply same_kernel_mem.
  - done.
  - intros k Hk. rewrite (set_pte_pde _ _ _ _ _ _ Hwf), (set_pte_tab _ _ _ _ _ _ Hwf) by done. by left.
  - intros k Hk. by rewrite (set_pte_pde _ _ _ _ _ _ Hwf), (set_pte_tab _ _ _ _ _ _ Hwf).
  - intros p Hpl. by left.
  - intros a (_ & _ & _ & Ho). apply set_pte_outside. intros ->.
    apply (Ho i Hi Hp). by apply idx_in_page.
Qed.

(** One turn of the loop of [mappages]. *)
Lemma mappages_step n s pgdir a last pa perm r l :
  pages s l → NoDup (r ++ l) → as_wf (k_mem s) pgdir (r ++ l) →
  ∃ s' l', grows pgdir r s l s' l' ∧ same_ptes pgdir s s' ∧
    ((l' = [] ∧ mappages_loop (S n) pgdir a last pa perm s = Ret (-1) s') ∨
     pres (pde (k_mem s') pgdir (PDX a)) = true ∧
     mappages_loop (S n) pgdir a last pa perm s =
       if pres (pte (k_mem s) pgdir (PDX a) (PTX a)) then Panic "remap" else
       let s2 := upd_k_mem (λ _, set_pte (k_mem s') pgdir (PDX a) (PTX a) (mk_pte pa perm)) s' in
       if a =? last then Ret 0 s2
       else mappages_loop n pgdir (u32 (a + PGSIZE)) last (u32 (pa + PGSIZE)) perm s2).
Proof.
  intros Hpg Hnd Hwf. destruct (walk_alloc s pgdir a r l Hpg Hnd Hwf) as (x & s' & l' & Hrun & G & Hsame & Hx).
  exists s', l'. split; [done|]. split; [done|]. cbn [mappages_loop]. mrun Hrun.
  destruct (x =? 0); [by left|]. destruct Hx as [Hp ->]. right. split; [done|]. msteps.
  assert (ld32 (k_mem s') (tab (k_mem s') pgdir (PDX a) + 4 * PTX a) = pte (k_mem s) pgdir (PDX a) (PTX a)) as ->.
  { rewrite <-Hsame by auto with kernel. unfold pte. by rewrite Hp. }
  fold (pres (pte (k_mem s) pgdir (PDX a) (PTX a))). destruct (pres (pte (k_mem s) pgdir (PDX a) (PTX a))); [done|]. msteps.
  by destruct (a =? last).
Qed.

Lemma mappages_one pgdir va pa perm :
  is_u32 va → va mod PGSIZE = 0 → mappages pgdir va PGSIZE pa perm = mappages_loop 1 pgdir va va pa perm.
Proof.
  intros Hu Ha. unfold mappages, PGSIZE in *.
  assert (PGROUNDDOWN va = va) as -> by (rewrite PGROUNDDOWN_spec by done; lia).
  assert (va + 4095 < two32).
  { unfold is_u32, two32 in *. apply Z.mod_divide in Ha; [|done]. destruct Ha as [k ->]. lia. }
  assert (PGROUNDDOWN (u32 (u32 va + 4096 - 1)) = va) as ->.
  { unfold is_u32 in Hu. rewrite (u32_small va), u32_small by lia. rewrite PGROUNDDOWN_spec by (unfold is_u32; lia).
    replace (va + 4096 - 1) with (va + 4095) by lia.
    rewrite <-(Zplus_mod_idemp_l va 4095), Ha. rewrite Z.mod_small by lia. lia. }
  rewrite Z.sub_diag. done.
Qed.

(** Mapping one user page on a page nobody uses. *)
Lemma map_user_page s pgdir va f perm r l :
  pages s l → NoDup (f :: r ++ l) → as_wf (k_mem s) pgdir (f :: r ++ l) → page_ok f →
  is_u32 va → va mod PGSIZE = 0 → 0 ≤ perm < 4096 →
  pres (pte (k_mem s) pgdir (PDX va) (PTX va)) = false →
  ∃ s' l' rc, mappages pgdir va PGSIZE (V2P f) perm s = Ret rc s' ∧
    ((rc = -1 ∧ l' = [] ∧ grows pgdir (f :: r) s l s' l' ∧ same_ptes pgdir s s') ∨
     (rc = 0 ∧ grows pgdir r s l s' l' ∧ ∀ i j, idx i → idx j → pte (k_mem s') pgdir i j =
        if decide (i = PDX va ∧ j = PTX va) then mk_pte (V2P f) perm else pte (k_mem s) pgdir i j)).
Proof.
  intros Hpg Hnd Hwf Hf Hu Ha Hperm Hno. rewrite mappages_one by done.
  destruct (V2P_page f Hf) as (Hfu & Hfa & Hfv).
  destruct (mk_pte_ok (V2P f) perm Hfu Hfa Hperm) as (He & Hep & Hea & Hef).
  destruct (mappages_step 0 s pgdir va va (V2P f) perm (f :: r) l Hpg Hnd Hwf)
    as (s' & l' & G & Hsame & [[-> Hrun]|[Hp Hrun]]); rewrite Hrun.
  { exists s', [], (-1). split; [done|]. by left. }
  rewrite Hno, Z.eqb_refl. cbn zeta. eexists _, l', 0. split; [done|]. right. split; [done|].
  pose proof (g_wf _ _ _ _ _ _ G) as Hwf'.
  assert (frame_of (u32 (mk_pte (V2P f) perm)) = f) as Efr by (unfold frame_of; by rewrite He, Hea).
  assert (f ∉ r ++ l') as Hfr.
  { apply NoDup_cons in Hnd as [Hn _]. intros [?|Hin]%elem_of_app; apply Hn, elem_of_app; [by left|].
    right. by apply (g_sub _ _ _ _ _ _ G). }
  split.
  - eapply grows_trans; [exact G|]. eapply (grows_set_pte _ (f :: r)); auto with kernel; [apply G|].
    apply set_pte_wf_new; rewrite ?Efr; auto with kernel.
  - intros i j Hi Hj. simpl. rewrite (set_pte_pte _ _ _ _ _ _ Hwf') by auto with kernel.
    case_decide; [done|by apply Hsame].
Qed.
End address_space.
