(* ===== verification/Unmap.v ===== *)
(** Unmap: [deallocuvm] and [freevm] give back exactly the pages they
    should. *)

From S2P Require Import Prelude Layout State Mem Spinlock Console Kalloc Vm PageTable AddressSpace.

Section unmap.
Context {KI : KernelImage} {pages : kstate → list Z → Prop} {PA : PageAllocator pages}.

(** The address of the page entry [j] of table [i] maps. *)
Definition va_of (i j : Z) : Z := i * 4194304 + j * 4096.

Lemma PDX_PTX_va va : is_u32 va → va mod 4096 = 0 → va_of (PDX va) (PTX va) = va.
Proof.
  intros Hu Ha. unfold va_of. rewrite PDX_spec, PTX_spec, (u32_small va Hu).
  pose proof (Z.div_mod va 4096 ltac:(lia)). pose proof (Z.div_mod (va / 4096) 1024 ltac:(lia)).
  replace (va / 4194304) with (va / 4096 / 1024) by (rewrite Z.div_div by lia; done). lia.
Qed.

Lemma va_of_PDX i j : idx i → idx j → PDX (va_of i j) = i ∧ PTX (va_of i j) = j.
Proof.
  unfold idx, va_of. intros Hi Hj.
  assert (is_u32 (i * 4194304 + j * 4096)) as Hu by (unfold is_u32, two32; lia).
  rewrite PDX_spec, PTX_spec, (u32_small _ Hu). split.
  - rewrite Z.add_comm, Z.div_add by lia. rewrite Z.div_small by lia. lia.
  - replace (i * 4194304 + j * 4096) with ((i * 1024 + j) * 4096) by lia. rewrite Z.div_mul by lia.
    rewrite Z.add_comm, Z.mod_add by lia. apply Z.mod_small. lia.
Qed.

(** The user pages mapped in [\[lo, hi)] have been unmapped and freed. *)
Record unmapped (pgdir : Z) (r : list Z) (lo hi : Z) (s : kstate) (l : list Z) (s' : kstate) (l' : list Z) : Prop := MkUnmapped {
  u_pages : pages s' l';
  u_wf : as_wf (k_mem s') pgdir (r ++ l');
  u_kernel : same_kernel s s';
  u_pde i : idx i → pde (k_mem s') pgdir i = pde (k_mem s) pgdir i;
  u_pte i j : idx i → idx j → pte (k_mem s') pgdir i j =
    if decide (lo ≤ va_of i j < hi ∧ pres (pte (k_mem s) pgdir i j) = true) then 0 else pte (k_mem s) pgdir i j;
  u_free p : p ∈ l' ↔ p ∈ l ∨ ∃ i j, idx i ∧ idx j ∧ lo ≤ va_of i j < hi ∧
    pres (pte (k_mem s) pgdir i j) = true ∧ p = frame_of (pte (k_mem s) pgdir i j);
  u_mem a : others (k_mem s) pgdir l' a → ld32 (k_mem s') a = ld32 (k_mem s) a;
}.

Lemma unmapped_refl pgdir r lo hi s l :
  pages s l → as_wf (k_mem s) pgdir (r ++ l) →
  (∀ i j, idx i → idx j → lo ≤ va_of i j < hi → pres (pte (k_mem s) pgdir i j) = false) →
  unmapped pgdir r lo hi s l s l.
Proof.
  intros Hpg Hwf Hno. split; try done.
  - intros i j Hi Hj. case_decide as E; [|done]. destruct E as [E1 E2]. by rewrite Hno in E2.
  - intros p. split; [by left|]. intros [?|(i & j & Hi & Hj & Hr & Hp & _)]; [done|]. by rewrite Hno in Hp.
Qed.

Lemma unmapped_trans pgdir r lo mid hi s l s1 l1 s2 l2 :
  lo ≤ mid ≤ hi → unmapped pgdir r lo mid s l s1 l1 → unmapped pgdir r mid hi s1 l1 s2 l2 →
  unmapped pgdir r lo hi s l s2 l2.
Proof.
  intros Hm U1 U2.
  pose proof (u_pte _ _ _ _ _ _ _ _ U1) as E1. pose proof (u_pte _ _ _ _ _ _ _ _ U2) as E2.
  split; [apply U2|apply U2|etrans; [apply U1|apply U2]|..].
  - intros i Hi. by rewrite (u_pde _ _ _ _ _ _ _ _ U2), (u_pde _ _ _ _ _ _ _ _ U1).
  - intros i j Hi Hj. rewrite E2, E1 by done. destruct (pres (pte (k_mem s) pgdir i j)) eqn:Hp.
    + destruct (decide (lo ≤ va_of i j < mid ∧ true = true)) as [[? _]|Hn].
      * rewrite (decide_True (P := _ ∧ true = true)) by (split; [lia|done]). by case_decide.
      * rewrite Hp. assert (¬ (lo ≤ va_of i j < mid)) by tauto.
        by apply decide_ext; split; intros [? _]; (split; [lia|]).
    + rewrite (decide_False (P := lo ≤ _ < mid ∧ _)), Hp, !decide_False by (intros [_ ?]; done). done.
  - intros p. rewrite (u_free _ _ _ _ _ _ _ _ U2), (u_free _ _ _ _ _ _ _ _ U1). split.
    + intros [[?|(i & j & Hi & Hj & Hr & Hp & ->)]|(i & j & Hi & Hj & Hr & Hp & ->)].
      * by left.
      * right. exists i, j. repeat (split; [done || lia|]). done.
      * right. exists i, j. rewrite E1 in Hp |- * by done. rewrite decide_False in Hp |- * by lia.
        repeat (split; [done || lia|]). done.
    + intros [?|(i & j & Hi & Hj & Hr & Hp & ->)]; [by left; left|].
      destruct (decide (va_of i j < mid)).
      * left. right. exists i, j. repeat (split; [done || lia|]). done.
      * right. exists i, j. rewrite E1, decide_False by (done || lia). repeat (split; [done || lia|]). done.
  - intros a (H4 & Hd & Hl & Ht).
    rewrite (u_mem _ _ _ _ _ _ _ _ U2), (u_mem _ _ _ _ _ _ _ _ U1); [done|..].
    + split; [done|]. split; [done|]. split; [|done].
      intros p Hp. apply Hl. rewrite (u_free _ _ _ _ _ _ _ _ U2). by left.
    + split; [done|]. split; [done|]. split; [done|].
      intros k Hk. unfold tab. rewrite (u_pde _ _ _ _ _ _ _ _ U1) by done. by apply Ht.
Qed.

Lemma va_of_page a i j :
  is_u32 a → a mod 4096 = 0 → idx i → idx j → a ≤ va_of i j < a + 4096 ↔ i = PDX a ∧ j = PTX a.
Proof.
  intros Hu Ha Hi Hj. pose proof (PDX_PTX_va a Hu Ha) as E. split.
  - intros Hr. assert (va_of i j = a) as E'.
    { unfold va_of in *. apply Z.mod_divide in Ha; [|done]. destruct Ha as [k ->]. lia. }
    rewrite <-E'. destruct (va_of_PDX i j Hi Hj) as [-> ->]. done.
  - intros [-> ->]. lia.
Qed.

Lemma user_PDX a : is_u32 a → a < KERNBASE → PDX a < 512.
Proof.
  intros Hu Ha. rewrite PDX_spec, (u32_small a Hu). unfold KERNBASE, is_u32 in *.
  apply Z.div_lt_upper_bound; lia.
Qed.

(** [kfree] of a mapped page and clearing its entry. *)
Lemma unmap_page pgdir r s l a :
  pages s l → as_wf (k_mem s) pgdir (r ++ l) → is_u32 a → a mod 4096 = 0 → a < KERNBASE →
  let i := PDX a in let j := PTX a in let f := frame_of (pte (k_mem s) pgdir i j) in
  pres (pde (k_mem s) pgdir i) = true → pres (pte (k_mem s) pgdir i j) = true →
  ∃ s1, kfree f s = Ret tt s1 ∧
    unmapped pgdir r a (a + 4096) s l (upd_k_mem (λ m, st32 m (tab (k_mem s) pgdir i + 4 * j) 0) s1) (f :: l).
Proof.
  intros Hpg Hwf Hu Ha Hk i j f Hpd Hpt.
  assert (idx i) as Hi by apply PDX_idx. assert (idx j) as Hj by apply PTX_idx.
  assert (i < 512) as Hi5 by by apply user_PDX.
  destruct (wf_frame _ _ _ Hwf i j Hi Hi5 Hj Hpt) as (Hok & Hnl & Hnd & Hnt). fold f in Hok, Hnl, Hnd, Hnt.
  apply not_elem_of_app in Hnl as [Hnr Hnl].
  destruct (wf_dir _ _ _ Hwf) as [Hdir _].
  destruct (pa_free s f l Hpg Hok Hnl) as (s1 & Hrun & Hpg1 & Hk1 & Hm1).
  exists s1. split; [done|].
  destruct (tables_unchanged (k_mem s) (k_mem s1) pgdir (r ++ l)) as [Epde Epte]; [done|..].
  { intros x H4 Hx. apply Hm1; [done|]. by apply (pages_disjoint pgdir). }
  { intros k x Hkk Hp H4 Hx. apply Hm1; [done|]. destruct (wf_tab _ _ _ Hwf k Hkk Hp) as (? & _).
    apply (pages_disjoint (tab (k_mem s) pgdir k)); [done|done| |done]. intros E. by apply (Hnt k). }
  assert (as_wf (k_mem s1) pgdir (r ++ l)) as Hwf1 by (eapply as_wf_ext; done).
  assert (tab (k_mem s1) pgdir i = tab (k_mem s) pgdir i) as Etab by (unfold tab; by rewrite Epde).
  assert (pres (pde (k_mem s1) pgdir i) = true) as Hpd1 by by rewrite Epde.
  assert (pres (pte (k_mem s1) pgdir i j) = true) as Hpt1 by by rewrite Epte.
  pose proof (set_pte_wf_free _ _ _ _ _ Hwf1 Hi Hi5 Hj Hpt1 Hpd1) as Hwf2.
  rewrite Epte in Hwf2 by done. fold f in Hwf2.
  assert (as_wf (set_pte (k_mem s1) pgdir i j 0) pgdir (r ++ f :: l)) as Hwf2'.
  { eapply as_wf_sub; [exact Hwf2|]. intros q. rewrite elem_of_app, !elem_of_cons, elem_of_app. tauto. }
  rewrite <-Etab. change (upd_k_mem _ s1) with (upd_k_mem (λ _, set_pte (k_mem s1) pgdir i j 0) s1).
  split; simpl.
  - apply pa_write; [done|]. intros q x Hq Hx H4. apply set_pte_outside. rewrite Etab. intros ->.
    destruct (wf_tab _ _ _ Hwf i Hi Hpd) as (Ht & Hnt' & _).
    destruct (pa_pages s1 _ Hpg1) as [_ Hoks]. rewrite Forall_forall in Hoks.
    apply (pages_disjoint (tab (k_mem s) pgdir i) q (tab (k_mem s) pgdir i + 4 * j));
      [done|by apply Hoks| |by apply idx_in_page|done].
    intros <-. apply elem_of_cons in Hq as [E|Hq]; [by apply (Hnt i)|]. apply Hnt', elem_of_app. by right.
  - exact Hwf2'.
  - etrans; [exact Hk1|]. apply same_kernel_mem.
  - intros k Hkk. rewrite (set_pte_pde _ _ _ _ _ _ Hwf1) by done. by apply Epde.
  - intros k h Hkk Hh. rewrite (set_pte_pte _ _ _ _ _ _ Hwf1), Epte by done.
    pose proof (va_of_page a k h Hu Ha Hkk Hh) as Hv. case_decide as E1.
    + destruct E1 as [-> ->]. rewrite decide_True; [done|]. split; [by apply Hv|done].
    + rewrite decide_False; [done|]. intros [Hr _]. by apply E1, Hv.
  - intros q. rewrite elem_of_cons. split.
    + intros [->|?]; [|by left]. right. exists i, j. split; [done|]. split; [done|].
      split; [by apply va_of_page|done].
    + intros [?|(k & h & Hkk & Hh & Hr & _ & ->)]; [by right|]. left.
      apply va_of_page in Hr as [-> ->]; done.
  - intros x (H4 & Hx & Hl & Ht). rewrite set_pte_outside.
    + apply Hm1; [done|]. apply Hl. by left.
    + rewrite Etab. intros ->. apply (Ht i Hi Hpd). by apply idx_in_page.
Qed.

Lemma unmapped_range pgdir r lo hi lo' hi' s l s' l' :
  (∀ i j, idx i → idx j → lo ≤ va_of i j < hi ↔ lo' ≤ va_of i j < hi') →
  unmapped pgdir r lo hi s l s' l' → unmapped pgdir r lo' hi' s l s' l'.
Proof.
  intros Hr [? ? ? ? E F ?]. split; try done.
  - intros i j Hi Hj. rewrite E by done. apply decide_ext. by rewrite Hr.
  - intros p. rewrite F. f_equiv. split; intros (i & j & Hi & Hj & Hx & Hp & ->); exists i, j;
      (split; [done|]; split; [done|]; split; [by apply Hr|done]).
Qed.

(** Processing [\[a, mid)] and then the rest, when [mid] may be beyond the end. *)
Lemma unmapped_chain pgdir r a mid hi s l s1 l1 fuel :
  a < hi → a ≤ mid → mid mod 4096 = 0 →
  unmapped pgdir r a mid s l s1 l1 →
  (mid ≤ hi → ∃ s2 l2, deallocuvm_loop fuel pgdir mid hi s1 = Ret tt s2 ∧ unmapped pgdir r mid hi s1 l1 s2 l2) →
  (hi < mid → ∀ i j, idx i → idx j → a ≤ va_of i j < mid → pres (pte (k_mem s) pgdir i j) = true → va_of i j < hi) →
  ∃ s2 l2, deallocuvm_loop fuel pgdir mid hi s1 = Ret tt s2 ∧ unmapped pgdir r a hi s l s2 l2.
Proof.
  intros Ha Hmid H4 U Hrest Hend. destruct (decide (mid ≤ hi)) as [Hle|Hgt].
  - destruct (Hrest Hle) as (s2 & l2 & Hrun & U2). exists s2, l2. split; [done|].
    by eapply unmapped_trans; [|exact U|exact U2].
  - exists s1, l1. split.
    + destruct fuel; simpl; destruct (Z.ltb_spec mid hi); done || lia.
    + destruct U as [? ? ? ? E F ?]. split; try done.
      * intros i j Hi Hj. rewrite E by done. apply decide_ext. split; [|intros [??]; split; [lia|done]].
        intros [??]. split; [|done]. split; [lia|]. by eapply Hend; eauto; lia.
      * intros p. rewrite F. f_equiv. split; intros (i & j & Hi & Hj & Hx & Hp & ->); exists i, j;
          (split; [done|]; split; [done|]; split; [|done]); [|lia].
        split; [lia|]. by eapply Hend; eauto; lia.
Qed.

(** The jump [deallocuvm] makes over a missing table. *)
Lemma next_dir a :
  is_u32 a → a mod 4096 = 0 → a < KERNBASE →
  let next := (PDX a + 1) * 4194304 in
  a < next ≤ KERNBASE ∧ a + 4096 ≤ next ∧ next mod 4096 = 0 ∧
  u32 (u32 (PGADDR (PDX a + 1) 0 0 - PGSIZE) + PGSIZE) = next.
Proof.
  intros Hu H4 Hk. pose proof (user_PDX a Hu Hk) as H5. pose proof (PDX_idx a) as Hi.
  pose proof (PTX_idx a) as Hj. pose proof (PDX_PTX_va a Hu H4) as Hva. simpl.
  unfold va_of, idx, KERNBASE, PGSIZE in *. split; [lia|]. split; [lia|]. split.
  - replace (_ * 4194304) with ((PDX a + 1) * 1024 * 4096) by lia. apply Z_mod_mult.
  - rewrite PGADDR_spec by lia. rewrite (u32_small (_ - 4096)) by (unfold two32; lia).
    rewrite u32_small by (unfold two32; lia). lia.
Qed.

Lemma deallocuvm_loop_ok fuel pgdir r hi : ∀ s l a,
  pages s l → as_wf (k_mem s) pgdir (r ++ l) → 0 ≤ a → a mod 4096 = 0 → hi ≤ KERNBASE →
  hi - a ≤ 4096 * Z.of_nat fuel →
  ∃ s' l', deallocuvm_loop fuel pgdir a hi s = Ret tt s' ∧ unmapped pgdir r a hi s l s' l'.
Proof.
  induction fuel as [|fuel IH]; intros s l a Hpg Hwf H0 H4 Hhi Hfuel.
  { exists s, l. simpl. destruct (Z.ltb_spec a hi); [lia|]. split; [done|].
    apply unmapped_refl; [done|done|lia]. }
  cbn [deallocuvm_loop]. destruct (Z.ltb_spec a hi) as [Hlt|Hge].
  2: { exists s, l. split; [done|]. apply unmapped_refl; [done|done|lia]. }
  assert (is_u32 a) as Hu by (unfold is_u32, two32, KERNBASE in *; lia).
  pose proof (user_PDX a Hu ltac:(lia)) as H5. pose proof (PDX_idx a) as Hi. pose proof (PTX_idx a) as Hj.
  pose proof (PDX_PTX_va a Hu H4) as Hva. mrun (walk_noalloc s pgdir a).
  destruct (pres (pde (k_mem s) pgdir (PDX a))) eqn:Hpd.
  - rewrite (pte_nonzero _ _ _ _ _ Hwf) by auto. msteps.
    assert (u32 (a + PGSIZE) = a + 4096) as -> by (apply u32_small; unfold two32, KERNBASE, PGSIZE in *; lia).
    assert (ld32 (k_mem s) (tab (k_mem s) pgdir (PDX a) + 4 * PTX a) = pte (k_mem s) pgdir (PDX a) (PTX a)) as ->.
    { unfold pte. by rewrite Hpd. }
    assert ((a + 4096) mod 4096 = 0) as H4' by (by rewrite <-Zplus_mod_idemp_r, Z_mod_same_full, Z.add_0_r).
    fold (pres (pte (k_mem s) pgdir (PDX a) (PTX a))).
    destruct (pres (pte (k_mem s) pgdir (PDX a) (PTX a))) eqn:Hpt.
    + destruct (unmap_page pgdir r s l a Hpg Hwf Hu H4 ltac:(lia) Hpd Hpt) as (s1 & Hrun & U).
      destruct (wf_frame _ _ _ Hwf _ _ Hi H5 Hj Hpt) as (Hok & _).
      destruct (Z.eqb_spec (PTE_ADDR (pte (k_mem s) pgdir (PDX a) (PTX a))) 0) as [E|_].
      { exfalso. unfold frame_of in Hok. rewrite E in Hok. apply page_ok_range in Hok.
        vm_compute in Hok. by destruct Hok as [? _]. }
      fold (frame_of (pte (k_mem s) pgdir (PDX a) (PTX a))). rewrite bind_bind. mrun Hrun. msteps.
      eapply unmapped_chain; [lia|lia|done|exact U| |].
      * intros Hle. apply IH; [apply U|apply U|lia|done|done|lia].
      * intros _ i j Hii Hjj Hr _. apply va_of_page in Hr as [-> ->]; [lia|done..].
    + eapply (unmapped_chain _ _ a); [lia|lia|done| | |].
      * apply unmapped_refl; [done|done|]. intros i j Hii Hjj Hr. by apply va_of_page in Hr as [-> ->].
      * intros Hle. apply IH; [done|done|lia|done|done|lia].
      * intros _ i j Hii Hjj Hr _. apply va_of_page in Hr as [-> ->]; [lia|done..].
  - rewrite Z.eqb_refl.
    destruct (next_dir a Hu H4 ltac:(lia)) as (Hnext & Hstep & H4' & ->).
    assert (∀ i j, idx i → idx j → a ≤ va_of i j < (PDX a + 1) * 4194304 →
      pres (pte (k_mem s) pgdir i j) = false) as Hno.
    { intros i j Hii Hjj Hr. assert (i = PDX a) as ->; [|unfold pte; by rewrite Hpd].
      unfold va_of, idx in *. lia. }
    eapply (unmapped_chain _ _ a); [lia|lia|done|by apply unmapped_refl| |].
    + intros Hle. apply IH; [done|done|lia|done|done|lia].
    + intros _ i j Hii Hjj Hr Hp. by rewrite Hno in Hp.
Qed.

Lemma deallocuvm_run s l pgdir r oldsz newsz :
  pages s l → as_wf (k_mem s) pgdir (r ++ l) → 0 ≤ newsz < oldsz → oldsz ≤ KERNBASE →
  ∃ s' l', deallocuvm pgdir oldsz newsz s = Ret newsz s' ∧
    unmapped pgdir r (PGROUNDUP newsz) oldsz s l s' l'.
Proof.
  intros Hpg Hwf Hn Ho. unfold deallocuvm. destruct (Z.leb_spec oldsz newsz); [lia|].
  destruct (PGROUNDUP_bounds newsz) as (k & Ek & Hb); [unfold two32, KERNBASE, PGSIZE in *; lia|].
  assert (PGROUNDUP newsz mod 4096 = 0) as Ha by (rewrite Ek, Z.mul_comm; apply Z_mod_mult).
  destruct (deallocuvm_loop_ok (S (Z.to_nat ((oldsz - PGROUNDUP newsz) / PGSIZE))) pgdir r oldsz
    s l (PGROUNDUP newsz)) as (s' & l' & Hrun & U); [done|done|lia|done|done| |].
  { unfold PGSIZE in *. pose proof (Z.div_mod (oldsz - PGROUNDUP newsz) 4096 ltac:(lia)).
    pose proof (Z.mod_pos_bound (oldsz - PGROUNDUP newsz) 4096 ltac:(lia)).
    rewrite Nat2Z.inj_succ. destruct (decide (0 ≤ (oldsz - PGROUNDUP newsz) / 4096)).
    - rewrite Z2Nat.id by done. lia.
    - lia. }
  exists s', l'. mrun Hrun. done.
Qed.

(** ** [freevm] *)

(** The loop over the directory, from [i] on: the tables below [i] are free. *)
Definition tables_freed (pgdir : Z) (s1 : kstate) (l1 : list Z) (i : Z) (s : kstate) : Prop :=
  ∃ l, pages s l ∧ same_kernel s1 s ∧
    (∀ k, idx k → pde (k_mem s) pgdir k = pde (k_mem s1) pgdir k) ∧
    (∀ p, p ∈ l ↔ p ∈ l1 ∨ ∃ k, 0 ≤ k < i ∧ pres (pde (k_mem s1) pgdir k) = true ∧ p = tab (k_mem s1) pgdir k) ∧
    ∀ a, a mod 4 = 0 → (∀ p, p ∈ l → ¬ in_page p a) → ld32 (k_mem s) a = ld32 (k_mem s1) a.

Lemma freevm_loop_ok pgdir r s1 l1 :
  pages s1 l1 → as_wf (k_mem s1) pgdir (r ++ l1) →
  triple (tables_freed pgdir s1 l1 0)
    (for_ (Z.to_nat NPDENTRIES) 0 (λ i,
      e ← gets (λ s, ld32 (k_mem s) (pgdir + 4 * i));
      whenb (has_flag e PTE_P) (kfree (P2V (PTE_ADDR e)))))
    (λ _, tables_freed pgdir s1 l1 1024).
Proof.
  intros Hpg Hwf. change 1024 with (0 + Z.of_nat (Z.to_nat NPDENTRIES)).
  apply for_inv. intros i Hi s (l & Hp & Hk & Hpde & Hl & Hm).
  assert (idx i) as Hidx. { unfold idx, NPDENTRIES in *. lia. }
  msteps. fold (pde (k_mem s) pgdir i). rewrite Hpde by done. fold (pres (pde (k_mem s1) pgdir i)).
  destruct (pres (pde (k_mem s1) pgdir i)) eqn:Hpr; cbn [whenb].
  - fold (frame_of (pde (k_mem s1) pgdir i)). fold (tab (k_mem s1) pgdir i).
    destruct (wf_tab _ _ _ Hwf i Hidx Hpr) as (Hok & Hnl & Hnd).
    destruct (wf_dir _ _ _ Hwf) as [Hdir _].
    destruct (pa_free s (tab (k_mem s1) pgdir i) l Hp Hok) as (s' & Hrun & Hp' & Hk' & Hm').
    { rewrite Hl. intros [?|(k & Hkr & Hkp & E)]; [apply Hnl, elem_of_app; by right|].
      assert (i = k); [|lia]. apply (wf_tab_inj _ _ _ Hwf); auto. unfold idx in *. lia. }
    exists tt, s'. split; [done|]. exists (tab (k_mem s1) pgdir i :: l).
    split; [done|]. split; [by etrans|]. split; [|split].
    + intros k Hkk. rewrite <-Hpde by done. apply pde_unchanged; [done|done|].
      intros a H4 Ha. apply Hm'; [done|]. by apply (pages_disjoint pgdir).
    + intros p. rewrite elem_of_cons, Hl. split.
      * intros [->|[?|(k & Hkr & ?)]]; [right; exists i; split; [lia|done]|by left|right; exists k; split; [lia|done]].
      * intros [?|(k & Hkr & Hkp & ->)]; [by right; left|]. destruct (decide (k = i)) as [->|]; [by left|].
        right. right. exists k. split; [lia|done].
    + intros a H4 Ha. rewrite Hm'; [apply Hm; [done|]|done|apply Ha; by left]. intros p Hpl. apply Ha. by right.
  - exists tt, s. split; [done|]. exists l. repeat (split; [done|]). split; [|done].
    intros p. rewrite Hl. f_equiv. split; intros (k & Hkr & Hkp & ->); exists k; (split; [|done]); [lia|].
    destruct (decide (k = i)) as [->|]; [congruence|lia].
Qed.

Lemma freevm_run s l pgdir r :
  pages s l → as_wf (k_mem s) pgdir (r ++ l) →
  ∃ s' l', freevm pgdir s = Ret tt s' ∧ pages s' l' ∧ same_kernel s s' ∧
    (∀ p, p ∈ l' ↔ p ∈ l ∨ owned (k_mem s) pgdir p) ∧
    ∀ a, a mod 4 = 0 → (∀ p, p ∈ l' → ¬ in_page p a) → ld32 (k_mem s') a = ld32 (k_mem s) a.
Proof.
  intros Hpg Hwf. destruct (wf_dir _ _ _ Hwf) as [Hdir Hdl]. apply not_elem_of_app in Hdl as [_ Hdl].
  unfold freevm. destruct (Z.eqb_spec pgdir 0) as [E|_]; [by destruct (page_ok_nonzero pgdir)|].
  destruct (deallocuvm_run s l pgdir r KERNBASE 0) as (s1 & l1 & Hrun1 & U); [done|done|done|done|].
  mrun Hrun1. change (PGROUNDUP 0) with 0 in U.
  destruct (freevm_loop_ok pgdir r s1 l1) with (s := s1) as ([] & s2 & Hrun2 & (l2 & Hp2 & Hk2 & _ & Hl2 & Hm2));
    [apply U|apply U|..].
  { exists l1. split; [apply U|]. repeat (split; [done|]). split; [|done].
    intros p. split; [by left|]. intros [?|(k & ? & _)]; [done|lia]. }
  mrun Hrun2.
  assert (∀ k, idx k → tab (k_mem s1) pgdir k = tab (k_mem s) pgdir k) as Etab.
  { intros k Hk. unfold tab. by rewrite (u_pde _ _ _ _ _ _ _ _ U). }
  assert (∀ p, p ∈ l2 ↔ p ∈ l ∨ is_tab (k_mem s) pgdir p ∨ is_frame (k_mem s) pgdir p) as Hl.
  { intros p. rewrite Hl2, (u_free _ _ _ _ _ _ _ _ U). split.
    - intros [[?|(i & j & Hi & Hj & Hr & Hp)]|(k & Hk & Hp & ->)]; [by left| |].
      + right. right. exists i, j. unfold va_of, KERNBASE, idx in *. repeat (split; [lia|]). done.
      + rewrite (u_pde _ _ _ _ _ _ _ _ U) in Hp by done. right. left. exists k. by rewrite Etab.
    - intros [?|[(k & Hk & Hp & ->)|(i & j & Hi & H5 & Hj & Hp)]]; [by left; left| |].
      + right. exists k. by rewrite (u_pde _ _ _ _ _ _ _ _ U), Etab.
      + left. right. exists i, j. unfold va_of, KERNBASE, idx in *. repeat (split; [lia|]). done. }
  destruct (pa_free s2 pgdir l2 Hp2 Hdir) as (s3 & Hrun3 & Hp3 & Hk3 & Hm3).
  { rewrite Hl. intros [?|[(k & Hk & Hp & E)|(i & j & Hi & H5 & Hj & Hp & E)]]; [done| |].
    - by destruct (wf_tab _ _ _ Hwf k Hk Hp) as (_ & _ & ?).
    - by destruct (wf_frame _ _ _ Hwf i j Hi H5 Hj Hp) as (_ & _ & ? & _). }
  exists s3, (pgdir :: l2). split; [done|]. split; [done|]. split; [etrans; [apply U|by etrans]|]. split.
  - intros p. rewrite elem_of_cons, Hl. unfold owned. tauto.
  - intros a H4 Ha. rewrite Hm3, Hm2; [|done|intros p Hp; apply Ha; by right|done|apply Ha; by left].
    apply (u_mem _ _ _ _ _ _ _ _ U). split; [done|]. split; [apply Ha; by left|]. split.
    + intros p Hp. apply Ha. right. rewrite Hl2. by left.
    + intros k Hk Hp. apply Ha. right. rewrite Hl. right. left. by exists k.
Qed.
End unmap.
