(* ===== verification/KernelMap.v ===== *)
(** KernelMap: [setupkvm] builds the kernel half of an address space, or
    gives every page back. *)

From S2P Require Import Prelude Layout State Mem Spinlock Console Kalloc Vm PageTable AddressSpace Unmap.

Section kernel_map.
Context {KI : KernelImage} {pages : kstate → list Z → Prop} {PA : PageAllocator pages}.

Hint Resolve PDX_idx PTX_idx : kernel.

(** The entry for the page of [va]. *)
Definition entry (m : gmap Z Z) (pgdir va : Z) : Z := pte m pgdir (PDX va) (PTX va).

(** Page-aligned addresses. *)
Definition page_va (va : Z) : Prop := is_u32 va ∧ va mod PGSIZE = 0.

Lemma page_va_inj va vb : page_va va → page_va vb → PDX va = PDX vb → PTX va = PTX vb → va = vb.
Proof.
  intros [Hu Ha] [Hu' Ha'] E1 E2. rewrite <-(PDX_PTX_va va), <-(PDX_PTX_va vb) by done. by rewrite E1, E2.
Qed.

Lemma page_va_next va : page_va va → va + PGSIZE < two32 → page_va (va + PGSIZE).
Proof.
  intros [Hu Ha] Hlt. split; [unfold is_u32, PGSIZE in *; lia|].
  unfold PGSIZE in *. by rewrite <-Zplus_mod_idemp_r, Z_mod_same_full, Z.add_0_r.
Qed.

Lemma kernel_PDX va : is_u32 va → KERNBASE ≤ va → 512 ≤ PDX va.
Proof.
  intros Hu Hk. rewrite PDX_spec, (u32_small va Hu). unfold KERNBASE in Hk.
  apply Z.div_le_lower_bound; lia.
Qed.

Definition same_user (pgdir : Z) (s s' : kstate) : Prop :=
  ∀ i j, idx i → i < 512 → idx j → pte (k_mem s') pgdir i j = pte (k_mem s) pgdir i j.

(** One page of the kernel half, in the loop. *)
Lemma mappages_kernel_step n s pgdir a last pa perm r l :
  pages s l → NoDup (r ++ l) → as_wf (k_mem s) pgdir (r ++ l) →
  page_va a → KERNBASE ≤ a → page_va pa → 0 ≤ perm < 4096 → pres (entry (k_mem s) pgdir a) = false →
  ∃ s' l', grows (pages := pages) pgdir r s l s' l' ∧ same_user pgdir s s' ∧
    (mappages_loop (S n) pgdir a last pa perm s = Ret (-1) s' ∨
     mappages_loop (S n) pgdir a last pa perm s =
       (if a =? last then Ret 0 s'
        else mappages_loop n pgdir (u32 (a + PGSIZE)) last (u32 (pa + PGSIZE)) perm s') ∧
     ∀ vb, page_va vb → entry (k_mem s') pgdir vb =
       if decide (vb = a) then mk_pte pa perm else entry (k_mem s) pgdir vb).
Proof.
  intros Hpg Hnd Hwf Ha Hk Hpa Hperm Hno.
  destruct (mk_pte_ok pa perm) as (Eu & _); [apply Hpa|apply Hpa|done|].
  pose proof (kernel_PDX a (proj1 Ha) Hk) as H5.
  destruct (mappages_step n s pgdir a last pa perm r l Hpg Hnd Hwf) as (s1 & l1 & G & Hsame & [[_ Hrun]|[Hp Hrun]]).
  { exists s1, l1. split; [done|]. split; [|by left]. intros i j Hi _ Hj. by apply Hsame. }
  pose proof (set_pte_pte _ _ _ _ (mk_pte pa perm) _ (g_wf _ _ _ _ _ _ G) (PDX_idx a) (PTX_idx a) Hp) as Hpte.
  unfold entry in Hno. rewrite Hno in Hrun. cbn zeta iota in Hrun. eexists _, l1. split; [|split].
  3: { right. split; [exact Hrun|]. intros vb Hvb. unfold entry. simpl. rewrite Hpte, Eu by auto with kernel.
       rewrite Hsame by auto with kernel. apply decide_ext. split; [|by intros ->].
       intros [E1 E2]. by apply page_va_inj. }
  - eapply grows_trans; [exact G|]. eapply grows_set_pte; [apply G|apply G|auto with kernel..|done|].
    apply set_pte_wf_old; auto with kernel. apply G.
  - intros i j Hi Hi5 Hj. simpl. rewrite Hpte, decide_False by (done || lia). by apply Hsame.
Qed.

Lemma same_user_trans pgdir s s1 s2 : same_user pgdir s s1 → same_user pgdir s1 s2 → same_user pgdir s s2.
Proof. intros H1 H2 i j Hi H5 Hj. by rewrite H2, H1. Qed.

Lemma grows_nodup pgdir r s l s' l' :
  grows (pages := pages) pgdir r s l s' l' → NoDup (r ++ l) → NoDup (r ++ l').
Proof.
  intros G Hnd. apply NoDup_app in Hnd as (? & Hd & ?). apply NoDup_app. split; [done|]. split.
  - intros p Hp Hp'. apply (Hd p Hp). by apply (g_sub _ _ _ _ _ _ G).
  - apply (pa_pages s' l'). apply G.
Qed.

(** [n + 1] pages of the kernel half. *)
Lemma mappages_kernel pgdir r perm n : ∀ s l a pa,
  pages s l → NoDup (r ++ l) → as_wf (k_mem s) pgdir (r ++ l) →
  page_va a → KERNBASE ≤ a → a + PGSIZE * Z.of_nat n < two32 →
  page_va pa → pa + PGSIZE * Z.of_nat n < two32 → 0 ≤ perm < 4096 →
  (∀ vb, page_va vb → a ≤ vb → pres (entry (k_mem s) pgdir vb) = false) →
  let last := a + PGSIZE * Z.of_nat n in
  ∃ s' l' rc, mappages_loop (S n) pgdir a last pa perm s = Ret rc s' ∧
    grows (pages := pages) pgdir r s l s' l' ∧ same_user pgdir s s' ∧
    (rc = -1 ∨ rc = 0 ∧ ∀ vb, page_va vb → entry (k_mem s') pgdir vb =
       if decide (a ≤ vb ≤ last) then mk_pte (pa + (vb - a)) perm else entry (k_mem s) pgdir vb).
Proof.
  induction n as [|n IH]; intros s l a pa Hpg Hnd Hwf Ha Hk Hlast Hpa Hpl Hperm Hno; cbn zeta.
  - destruct (mappages_kernel_step 0 s pgdir a (a + PGSIZE * Z.of_nat 0) pa perm r l) as
      (s1 & l1 & G & Hu & [Hrun|[Hrun He]]); auto with lia; rewrite Hrun.
    { exists s1, l1, (-1). auto. }
    replace (a + PGSIZE * Z.of_nat 0) with a by lia. rewrite Z.eqb_refl. exists s1, l1, 0.
    split; [done|]. split; [done|]. split; [done|]. right. split; [done|]. intros vb Hvb. rewrite He by done.
    destruct (decide (vb = a)) as [->|Hne]; [rewrite decide_True by lia; f_equal; lia|].
    by rewrite decide_False by lia.
  - rewrite Nat2Z.inj_succ in *. unfold PGSIZE in Hlast, Hpl.
    destruct (mappages_kernel_step (S n) s pgdir a (a + PGSIZE * Z.succ (Z.of_nat n)) pa perm r l) as
      (s1 & l1 & G & Hu & [Hrun|[Hrun He]]); auto with lia; rewrite Hrun.
    { exists s1, l1, (-1). auto. }
    assert (page_va (a + PGSIZE)) as Ha' by (apply page_va_next; [done|unfold PGSIZE; lia]).
    assert (page_va (pa + PGSIZE)) as Hpa' by (apply page_va_next; [done|unfold PGSIZE; lia]).
    destruct (Z.eqb_spec a (a + PGSIZE * Z.succ (Z.of_nat n))); [unfold PGSIZE in *; lia|].
    rewrite (u32_small (a + PGSIZE)), (u32_small (pa + PGSIZE)) by (apply Ha' || apply Hpa').
    replace (a + PGSIZE * Z.succ (Z.of_nat n)) with (a + PGSIZE + PGSIZE * Z.of_nat n) by lia.
    destruct (IH s1 l1 (a + PGSIZE) (pa + PGSIZE)) as (s2 & l2 & rc & Hrun2 & G2 & Hu2 & Hrc).
    + apply G.
    + by eapply grows_nodup.
    + apply G.
    + done.
    + unfold PGSIZE; lia.
    + unfold PGSIZE; lia.
    + done.
    + unfold PGSIZE; lia.
    + done.
    + intros vb Hvb Hle. rewrite He, decide_False by (done || (unfold PGSIZE in *; lia)).
      apply Hno; [done|unfold PGSIZE in *; lia].
    + exists s2, l2, rc. split; [done|]. split; [by eapply grows_trans|].
      split; [by eapply same_user_trans|]. destruct Hrc as [->|[-> He2]]; [by left|].
      right. split; [done|]. intros vb Hvb. rewrite He2, He by done.
      destruct (decide (vb = a)) as [->|Hne].
      * rewrite decide_False, decide_True by (unfold PGSIZE; lia). f_equal. lia.
      * destruct (decide (a + PGSIZE ≤ vb ≤ a + PGSIZE + PGSIZE * Z.of_nat n)).
        -- rewrite decide_True by (unfold PGSIZE in *; lia). f_equal. lia.
        -- rewrite decide_False; [done|]. intros Hr. destruct Ha as [_ Ha], Hvb as [_ Hvb].
           unfold PGSIZE in *. apply Z.mod_divide in Ha, Hvb; [|done..].
           destruct Ha as [x ->], Hvb as [y ->]. lia.
Qed.

Lemma mappages_multi pgdir va n pa perm :
  page_va va → va + PGSIZE * Z.of_nat n < two32 →
  mappages pgdir va (PGSIZE * Z.of_nat (S n)) pa perm =
  mappages_loop (S n) pgdir va (va + PGSIZE * Z.of_nat n) pa perm.
Proof.
  intros [Hu Ha] Hn. unfold mappages, PGSIZE, is_u32 in *. rewrite Nat2Z.inj_succ.
  assert (PGROUNDDOWN va = va) as -> by (rewrite PGROUNDDOWN_spec by done; lia).
  assert (va + 4096 * Z.of_nat n + 4095 < two32) as Hb.
  { unfold two32 in *. apply Z.mod_divide in Ha; [|done]. destruct Ha as [k ->]. lia. }
  rewrite (u32_small va), (u32_small (va + 4096 * Z.succ (Z.of_nat n) - 1)) by lia.
  assert (PGROUNDDOWN (va + 4096 * Z.succ (Z.of_nat n) - 1) = va + 4096 * Z.of_nat n) as ->.
  { rewrite PGROUNDDOWN_spec by (unfold is_u32; lia).
    replace (va + 4096 * Z.succ (Z.of_nat n) - 1) with (va + 4095 + Z.of_nat n * 4096) by lia.
    rewrite Z_mod_plus_full, <-Zplus_mod_idemp_l, Ha, Z.mod_small by lia. lia. }
  rewrite u32_small by lia. do 3 f_equal.
  replace (va + 4096 * Z.of_nat n - va) with (Z.of_nat n * 4096) by lia.
  rewrite Z.div_mul by done. apply Nat2Z.id.
Qed.

(** An entry of [kmap] that maps whole pages of the kernel half. *)
Definition range_size (k : Z * Z * Z * Z) : Z := let '(_, ps, pe, _) := k in u32 (pe - ps).
Definition range_ok (k : Z * Z * Z * Z) : Prop :=
  let '(virt, ps, pe, perm) := k in
  page_va virt ∧ KERNBASE ≤ virt ∧ page_va ps ∧ 0 ≤ perm < 4096 ∧
  (∃ n, range_size k = PGSIZE * Z.of_nat (S n)) ∧
  virt + range_size k ≤ two32 ∧ ps + range_size k ≤ two32.

(** Ranges in increasing order, from [lo] on. *)
Fixpoint ranges_from (lo : Z) (ks : list (Z * Z * Z * Z)) : Prop :=
  match ks with
  | [] => True
  | k :: ks => lo ≤ k.1.1.1 ∧ range_ok k ∧ ranges_from (k.1.1.1 + range_size k) ks
  end.

Lemma kmap_ranges : ranges_from KERNBASE kmap.
Proof.
  pose proof k_data_aligned as Ha. pose proof k_data_after_link as Hl.
  pose proof k_end_after_data as He. pose proof k_end_low as Hlo.
  unfold kmap, ranges_from, range_ok, range_size, page_va, V2P, is_u32, KERNLINK in *. simpl.
  unfold PGSIZE, KERNBASE, EXTMEM, PHYSTOP, DEVSPACE, PTE_W, two32 in *.
  apply Z.mod_divide in Ha; [|done]. destruct Ha as [k Hk].
  rewrite !(u32_small (k_data - _)) by (unfold two32; lia).
  change (u32 (2147483648 + 1048576 - 2147483648)) with 1048576.
  change (u32 (1048576 - 0)) with 1048576. change (u32 (0 - 4261412864)) with 33554432.
  rewrite !(u32_small (k_data - _ - _)), !(u32_small (234881024 - _)) by (unfold two32; lia).
  assert (k_data mod 4096 = 0) as Hd by (rewrite Hk; apply Z_mod_mult).
  assert ((k_data - 2147483648) mod 4096 = 0) as Hd'.
  { rewrite Hk. replace (k * 4096 - 2147483648) with ((k - 524288) * 4096) by lia. apply Z_mod_mult. }
  repeat match goal with
  | |- _ ∧ _ => split
  | |- ∃ n, _ => idtac
  | |- _ => first [done | lia]
  end.
  - by exists 255%nat.
  - exists (Z.to_nat (k - 524288 - 256 - 1)). rewrite Nat2Z.inj_succ, Z2Nat.id by lia. lia.
  - exists (Z.to_nat (524288 + 57344 - k - 1)). rewrite Nat2Z.inj_succ, Z2Nat.id by lia. lia.
  - exists (Z.to_nat 8191). by rewrite Nat2Z.inj_succ, Z2Nat.id.
Qed.

(** The mappings [ks] asks for. *)
Definition maps_range (m : gmap Z Z) (pgdir : Z) (k : Z * Z * Z * Z) : Prop :=
  let '(virt, ps, pe, perm) := k in
  ∀ off, 0 ≤ off < range_size k → off mod PGSIZE = 0 → entry m pgdir (virt + off) = mk_pte (ps + off) perm.

(** The pages [l] went to the new address space [pgdir] or are still free. *)
Definition took (pgdir : Z) (s0 : kstate) (l0 : list Z) (s : kstate) (l : list Z) : Prop :=
  ∀ p, p ∈ l0 ↔ p ∈ l ∨ p = pgdir ∨ is_tab (k_mem s) pgdir p.

Definition no_user (pgdir : Z) (s : kstate) : Prop :=
  ∀ i j, idx i → i < 512 → idx j → pres (pte (k_mem s) pgdir i j) = false.

(** A state of [setupkvm] between two calls of [mappages]. *)
Record building (pgdir : Z) (r : list Z) (s0 : kstate) (l0 : list Z) (s : kstate) (l : list Z) : Prop := MkBuilding {
  bd_pages : pages s l;
  bd_nodup : NoDup (r ++ l);
  bd_wf : as_wf (k_mem s) pgdir (r ++ l);
  bd_kernel : same_kernel s0 s;
  bd_took : took pgdir s0 l0 s l;
  bd_user : no_user pgdir s;
  bd_mem a : a mod 4 = 0 → (∀ p, p ∈ l0 → ¬ in_page p a) → ld32 (k_mem s) a = ld32 (k_mem s0) a;
}.

Lemma building_grows pgdir r s0 l0 s l s' l' :
  building pgdir r s0 l0 s l → grows (pages := pages) pgdir r s l s' l' → same_user pgdir s s' →
  building pgdir r s0 l0 s' l'.
Proof.
  intros [? Hnd Hwf ? Ht Hu Hm] G Hs. split; [apply G|by eapply grows_nodup|apply G|etrans; [done|apply G]|..].
  - intros p. rewrite (Ht p). pose proof (grows_tabs _ _ _ _ _ _ G p). tauto.
  - intros i j Hi H5 Hj. rewrite Hs by done. by apply Hu.
  - intros a H4 Ha. rewrite (g_mem _ _ _ _ _ _ G); [by apply Hm|]. split; [done|]. split; [|split].
    + apply Ha, Ht. by right; left.
    + intros p Hp. apply Ha, Ht. by left.
    + intros k Hk Hp. apply Ha, Ht. right. right. by exists k.
Qed.

(** [setupkvm] failed: everything is as before, the free pages included. *)
Record given_back (s0 : kstate) (l0 : list Z) (s : kstate) (l : list Z) : Prop := MkGivenBack {
  gb_pages : pages s l;
  gb_kernel : same_kernel s0 s;
  gb_free p : p ∈ l ↔ p ∈ l0;
  gb_mem a : a mod 4 = 0 → (∀ p, p ∈ l0 → ¬ in_page p a) → ld32 (k_mem s) a = ld32 (k_mem s0) a;
}.

Lemma freevm_building pgdir r s0 l0 s l :
  building pgdir r s0 l0 s l → ∃ s' l', freevm pgdir s = Ret tt s' ∧ given_back s0 l0 s' l'.
Proof.
  intros [Hp _ Hwf Hk Ht Hu Hm].
  destruct (freevm_run s l pgdir r Hp Hwf) as (s' & l' & Hrun & Hp' & Hk' & Hl' & Hm').
  exists s', l'. split; [done|].
  assert (∀ p, p ∈ l' ↔ p ∈ l0) as Hl.
  { intros p. rewrite Hl', (Ht p). unfold owned. f_equiv. f_equiv. split; [|by left].
    intros [?|(i & j & Hi & H5 & Hj & Hpr & _)]; [done|]. by rewrite Hu in Hpr. }
  split; [done|by etrans|done|]. intros a H4 Ha. rewrite Hm'; [by apply Hm|done|].
  intros p Hpl. by apply Ha, Hl.
Qed.

Lemma setupkvm_loop_ok pgdir r s0 l0 ks : ∀ lo s l,
  building pgdir r s0 l0 s l → ranges_from lo ks →
  (∀ vb, page_va vb → lo ≤ vb → pres (entry (k_mem s) pgdir vb) = false) →
  ∃ s' l' rv, setupkvm_loop pgdir ks s = Ret rv s' ∧
    ((rv = pgdir ∧ building pgdir r s0 l0 s' l' ∧ Forall (maps_range (k_mem s') pgdir) ks ∧
      ∀ vb, page_va vb → vb < lo → entry (k_mem s') pgdir vb = entry (k_mem s) pgdir vb) ∨
     (rv = 0 ∧ given_back s0 l0 s' l')).
Proof.
  induction ks as [|[[[virt ps] pe] perm] ks IH]; intros lo s l Hb Hks Hno; cbn [setupkvm_loop].
  { exists s, l, pgdir. split; [done|]. left. auto. }
  destruct Hks as (Hlo & (Hv & Hvk & Hps & Hperm & (n & Hn) & Hve & Hpe) & Hks). simpl in *. rewrite Hn in *.
  rewrite Nat2Z.inj_succ in Hve, Hpe. unfold PGSIZE in Hve, Hpe.
  pose proof Hb as [Hp Hnd Hwf _ _ _ _].
  destruct (mappages_kernel pgdir r perm n s l virt ps) as (s1 & l1 & rc & Hrun & G & Hu & Hrc); auto.
  { unfold PGSIZE; lia. } { unfold PGSIZE; lia. } { intros vb Hvb ?. apply Hno; [done|lia]. }
  cbn zeta in Hrun, Hrc. rewrite <-mappages_multi in Hrun by (done || (unfold PGSIZE; lia)). mrun Hrun.
  pose proof (building_grows _ _ _ _ _ _ _ _ Hb G Hu) as Hb1.
  destruct Hrc as [->|[-> He]]; cbn [Z.ltb Z.compare].
  { destruct (freevm_building _ _ _ _ _ _ Hb1) as (s2 & l2 & Hrun2 & Hg). mrun Hrun2.
    exists s2, l2, 0. split; [done|]. by right. }
  destruct (IH (virt + PGSIZE * Z.of_nat (S n)) s1 l1) as (s2 & l2 & rv & Hrun2 & Hcase); [done|done| |].
  { intros vb Hvb Hle. unfold PGSIZE in *. rewrite He, decide_False by (done || lia). apply Hno; [done|lia]. }
  exists s2, l2, rv. split; [done|]. destruct Hcase as [(-> & Hb2 & Hm & Hold)|?]; [left|by right].
  split; [done|]. split; [done|]. split.
  - constructor; [|done]. intros off Hoff Ha. unfold range_size in Hoff. rewrite Hn in Hoff.
    rewrite Nat2Z.inj_succ in Hoff, Hold. unfold PGSIZE in *.
    assert (page_va (virt + off)) as Hva.
    { split; [unfold is_u32; destruct Hv as [[??] _]; lia|]. unfold PGSIZE.
      by rewrite <-Zplus_mod_idemp_r, Ha, Z.add_0_r; apply Hv. }
    assert (off ≤ 4096 * Z.of_nat n) by (apply Z.mod_divide in Ha as [x ->]; lia).
    rewrite Hold, He, decide_True by (done || lia). f_equal. lia.
  - intros vb Hvb Hlt. rewrite Hold, He, decide_False by (done || (unfold PGSIZE; lia)). done.
Qed.

(** A zeroed page is a directory that maps nothing. *)
Lemma zero_dir p r s0 l s :
  pages s0 (p :: l) → pages s l → k_mem s = k_mem s0 → same_kernel s0 s → NoDup (r ++ p :: l) →
  let s1 := upd_k_mem (λ m, memset m p 0 PGSIZE) s in
  building p r s0 (p :: l) s1 l ∧ ∀ va, pres (entry (k_mem s1) p va) = false.
Proof.
  intros Hp0 Hp Hm Hk Hnd. destruct (pa_pages s0 _ Hp0) as [_ Hok]. inversion Hok as [|? ? Hpok Hok']; subst.
  rewrite Forall_forall in Hok'. rewrite <-Permutation_middle in Hnd. apply NoDup_cons in Hnd as [Hn Hnd].
  assert (p ∉ l) as Hnl by (intros ?; apply Hn, elem_of_app; by right).
  set (m1 := memset (k_mem s) p 0 PGSIZE).
  assert (∀ i, idx i → pde m1 p i = 0) as Hz.
  { intros i Hi. unfold pde, m1. rewrite ld32_zero_page, decide_True; [done|by apply idx_in_page|done|by apply idx_aligned]. }
  assert (∀ i j, idx i → pte m1 p i j = 0) as Hz2.
  { intros i j Hi. unfold pte. by rewrite Hz. }
  cbn zeta. split.
  - split; simpl; fold m1.
    + change (upd_k_mem _ s) with (upd_k_mem (λ _, m1) s). apply pa_write; [done|]. intros q a Hq Ha H4.
      unfold m1. rewrite ld32_zero_page, decide_False; [done| |done|done].
      apply (pages_disjoint q); [by apply Hok'|done| |done]. by intros ->.
    + done.
    + split; [done|..]; try (intros i Hi; rewrite Hz by done; done).
      * intros i j Hi _. by rewrite Hz.
      * intros i j Hi _ Hj. by rewrite Hz2.
      * intros i j i' j' Hi ?????. by rewrite Hz2.
    + etrans; [exact Hk|]. apply same_kernel_mem.
    + intros q. rewrite elem_of_cons. simpl. fold m1. split; [intros [->|?]; [by right; left|by left]|].
      intros [?|[->|(k & Hkk & Hpr & _)]]; [by right|by left|]. by rewrite Hz in Hpr.
    + intros i j Hi _ Hj. simpl. fold m1. by rewrite Hz2.
    + intros a H4 Ha. unfold m1. rewrite ld32_zero_page, decide_False, Hm; [done|apply Ha; by left|done|done].
  - intros va. simpl. fold m1. unfold entry. by rewrite Hz2 by apply PDX_idx.
Qed.

Lemma setupkvm_run s l r :
  pages s l → NoDup (r ++ l) →
  ∃ s' l' d, setupkvm s = Ret d s' ∧
    ((page_ok d ∧ building d r s l s' l' ∧ Forall (maps_range (k_mem s') d) kmap) ∨
     (d = 0 ∧ given_back s l s' l')).
Proof.
  intros Hp Hnd. unfold setupkvm. destruct l as [|p l].
  - destruct (pa_alloc_none s Hp) as (s1 & Hrun & Hp1 & Hm1 & Hk1). mrun Hrun.
    exists s1, [], 0. split; [done|]. right. split; [done|]. split; [done|done|done|]. intros. by rewrite Hm1.
  - destruct (pa_alloc s p l Hp) as (s1 & Hrun & Hp1 & Hm1 & Hk1). mrun Hrun.
    destruct (pa_pages s _ Hp) as [_ Hok]. inversion Hok as [|? ? Hpok _]; subst.
    destruct (Z.eqb_spec p 0) as [E|_]; [by destruct (page_ok_nonzero p)|]. msteps.
    destruct (zero_dir p r s l s1 Hp Hp1 Hm1 Hk1 Hnd) as [Hb Hz].
    destruct (setupkvm_loop_ok p r s (p :: l) kmap KERNBASE _ l Hb kmap_ranges) as (s2 & l2 & rv & Hrun2 & Hc).
    { intros vb _ _. apply Hz. }
    change (DEVSPACE <? P2V PHYSTOP) with false. cbn iota. exists s2, l2, rv. split; [done|].
    destruct Hc as [(-> & ? & ? & _)|?]; [left|right]; auto.
Qed.

Lemma maps_range_ext m m' d k :
  range_ok k → (∀ vb, page_va vb → KERNBASE ≤ vb → entry m' d vb = entry m d vb) →
  maps_range m d k → maps_range m' d k.
Proof.
  destruct k as [[[virt ps] pe] perm]. intros (Hv & Hk & _ & _ & _ & Hve & _) He Hm off Hoff Ha.
  rewrite He; [by apply Hm| |lia]. destruct Hv as [[??] Hv]. split; [unfold is_u32; lia|].
  unfold PGSIZE in *. by rewrite <-Zplus_mod_idemp_r, Ha, Z.add_0_r.
Qed.

Lemma ranges_ok lo ks : ranges_from lo ks → Forall range_ok ks.
Proof. revert lo. induction ks as [|k ks IH]; intros lo; [done|]. intros (_ & ? & ?). constructor; eauto. Qed.
End kernel_map.
