(* ===== verification/CopyUvm.v ===== *)
(** CopyUvm: [copyuvm], the copy of an address space made by [fork]. *)

From S2P Require Import Prelude Layout State Mem Spinlock Console Kalloc Vm PageTable AddressSpace Unmap KernelMap.

Section copyuvm.
Context {KI : KernelImage} {pages : kstate → list Z → Prop} {PA : PageAllocator pages}.

Hint Resolve PDX_idx PTX_idx : kernel.

(** The contents of the page an entry maps. *)
Definition same_page (m m' : gmap Z Z) (e e' : Z) : Prop :=
  PTE_FLAGS e' = PTE_FLAGS e ∧
  ∀ k, idx k → ld32 m' (frame_of e' + 4 * k) = ld32 m (frame_of e + 4 * k).

(** The state of [copyuvm] when the pages [C] of the parent [pgdir], which
    owns [o], have been copied to the child [d]; [l0] were free at the
    start, and the pages [lk] are lost. *)
Record copied (pgdir d : Z) (o : list Z) (s0 : kstate) (l0 : list Z) (C : Z → Prop)
    (s : kstate) (l lk : list Z) : Prop := MkCopied {
  cp_pages : pages s l;
  cp_nodup : NoDup (lk ++ o ++ l);
  cp_wf : as_wf (k_mem s) d (lk ++ o ++ l);
  cp_same : same_kernel s0 s;
  cp_took p : p ∈ l0 ↔ p ∈ l ∨ p ∈ lk ∨ owned (k_mem s) d p;
  cp_kmap : Forall (maps_range (k_mem s) d) kmap;
  cp_user va : page_va va → va < KERNBASE → C va →
    pres (entry (k_mem s) d va) = true ∧
    same_page (k_mem s0) (k_mem s) (entry (k_mem s0) pgdir va) (entry (k_mem s) d va);
  cp_none va : page_va va → va < KERNBASE → ¬ C va → pres (entry (k_mem s) d va) = false;
  cp_mem a : a mod 4 = 0 → (∀ p, p ∈ l0 → ¬ in_page p a) → ld32 (k_mem s) a = ld32 (k_mem s0) a;
}.

(** The parent's pages, which the copy must not touch. *)
Record parent (pgdir : Z) (o : list Z) (s : kstate) (l : list Z) : Prop := MkParent {
  pr_pages : pages s l;
  pr_wf : as_wf (k_mem s) pgdir l;
  pr_nodup : NoDup (o ++ l);
  pr_own p : owned (k_mem s) pgdir p → p ∈ o;
}.

Lemma pte_va i j : idx i → idx j → i < 512 → page_va (va_of i j) ∧ va_of i j < KERNBASE.
Proof.
  intros Hi Hj H5. unfold page_va, idx, is_u32, two32, KERNBASE, va_of, PGSIZE in *.
  split; [split; [lia|]|lia].
  replace (i * 4194304 + j * 4096) with ((i * 1024 + j) * 4096) by lia. apply Z_mod_mult.
Qed.

(** Memory outside the initially free pages is as it was. *)
Lemma parent_unchanged pgdir o s0 l0 m :
  parent pgdir o s0 l0 →
  (∀ a, a mod 4 = 0 → (∀ p, p ∈ l0 → ¬ in_page p a) → ld32 m a = ld32 (k_mem s0) a) →
  (∀ i, idx i → pde m pgdir i = pde (k_mem s0) pgdir i) ∧
  (∀ i j, idx i → idx j → pte m pgdir i j = pte (k_mem s0) pgdir i j) ∧
  (∀ q a, owned (k_mem s0) pgdir q → page_ok q → a mod 4 = 0 → in_page q a → ld32 m a = ld32 (k_mem s0) a).
Proof.
  intros [Hp Hwf Hnd Ho] Hm. destruct (pa_pages s0 l0 Hp) as [_ Hok]. rewrite Forall_forall in Hok.
  assert (∀ q a, owned (k_mem s0) pgdir q → page_ok q → a mod 4 = 0 → in_page q a → ld32 m a = ld32 (k_mem s0) a) as Hq.
  { intros q a Hq Hqok H4 Ha. apply Hm; [done|]. intros p Hpl.
    apply (pages_disjoint q); [done|by apply Hok| |done]. intros ->.
    apply NoDup_app in Hnd as (_ & Hd & _). apply (Hd p); [by apply Ho|done]. }
  destruct (wf_dir _ _ _ Hwf) as [Hdir _].
  edestruct tables_unchanged as [E1 E2]; [exact Hwf|..|split; [exact E1|split; [exact E2|exact Hq]]].
  - intros a H4 Ha. by apply (Hq pgdir); [left|..].
  - intros i a Hi Hpr H4 Ha. destruct (wf_tab _ _ _ Hwf i Hi Hpr) as (? & _).
    apply (Hq (tab (k_mem s0) pgdir i)); [|done..]. right. left. by exists i.
Qed.

Lemma flags_pres e : pres e = true → is_u32 e → Z.lor (PTE_FLAGS e) PTE_P = PTE_FLAGS e ∧ 0 ≤ PTE_FLAGS e < 4096.
Proof.
  intros Hp Hu. rewrite PTE_FLAGS_spec, (u32_small e Hu). split; [|apply Z.mod_pos_bound; lia].
  unfold pres, has_flag, PTE_P in *. change 1 with (Z.ones 1) in Hp. rewrite Z.land_ones in Hp by lia.
  apply negb_true_iff, Z.eqb_neq in Hp. change (2 ^ 1) with 2 in Hp.
  apply Z.bits_inj'. intros n Hn. rewrite Z.lor_spec. destruct (decide (n = 0)) as [->|].
  - rewrite Z.bit0_odd, (Z.bit0_odd 1). change (Z.odd 1) with true. rewrite orb_true_r.
    rewrite Zmod_odd in Hp. replace (Z.odd (e mod 4096)) with (Z.odd e); [by destruct (Z.odd e)|].
    rewrite <-!Z.bit0_odd. symmetry. apply (Z.mod_pow2_bits_low e 12 0). lia.
  - replace (Z.testbit 1 n) with false; [by rewrite orb_false_r|].
    symmetry. change 1 with (2 ^ 0). apply Z.pow2_bits_false. lia.
Qed.

Lemma entry_u32 m pgdir va : is_u32 (entry m pgdir va).
Proof. unfold entry, pte. destruct (pres _); [apply ld32_range|done]. Qed.

Section steps.
Context (pgdir d : Z) (o : list Z) (s0 : kstate) (l0 : list Z).
Context (Hpar : parent pgdir o s0 l0).

Lemma copied_frame C s l lk s1 :
  copied pgdir d o s0 l0 C s l lk → k_mem s1 = k_mem s → same_kernel s s1 → pages s1 l →
  copied pgdir d o s0 l0 C s1 l lk.
Proof. intros [] Hm Hk Hp. split; rewrite ?Hm; auto. by etrans. Qed.

(** A page taken from the free list is lost until it is mapped. *)
Lemma copied_alloc C s f l s1 :
  copied pgdir d o s0 l0 C s (f :: l) [] → k_mem s1 = k_mem s → same_kernel s s1 → pages s1 l →
  copied pgdir d o s0 l0 C s1 l [f].
Proof.
  intros [? Hnd Hwf ? Ht ? ? ? ?] Hm Hk Hp. simpl in Hnd, Hwf. split; rewrite ?Hm; auto; simpl.
  - by rewrite Permutation_middle.
  - by apply as_wf_mid.
  - by etrans.
  - intros p. rewrite (Ht p), !elem_of_cons. tauto.
Qed.

(** The child's frames, its directory, its tables and the free pages are
    untouched by a write in a lost page. *)
Lemma copied_write C s f l m :
  copied pgdir d o s0 l0 C s l [f] → page_ok f →
  (∀ a, a mod 4 = 0 → ¬ in_page f a → ld32 m a = ld32 (k_mem s) a) →
  copied pgdir d o s0 l0 C (upd_k_mem (λ _, m) s) l [f].
Proof.
  intros [Hp Hnd Hwf Hk Ht Hkm Hu Hno Hm] Hf Hw. simpl in Hnd, Hwf.
  pose proof (pa_pages s l Hp) as [_ Hok]. rewrite Forall_forall in Hok.
  destruct (wf_dir _ _ _ Hwf) as [Hd Hdl]. apply not_elem_of_cons in Hdl as [Hdf _].
  destruct (tables_unchanged (k_mem s) m d _ Hwf) as [E1 E2].
  { intros a H4 Ha. apply Hw; [done|]. by apply (pages_disjoint d). }
  { intros i a Hi Hpr H4 Ha. destruct (wf_tab _ _ _ Hwf i Hi Hpr) as (? & Hn & _).
    apply not_elem_of_cons in Hn as [? _]. apply Hw; [done|]. by apply (pages_disjoint (tab (k_mem s) d i)). }
  assert (∀ va, entry m d va = entry (k_mem s) d va) as E.
  { intros va. apply E2; auto with kernel. }
  split; simpl; auto.
  - apply pa_write; [done|]. intros q a Hq Ha H4. apply Hw; [done|].
    apply (pages_disjoint q); [by apply Hok|done| |done]. intros ->.
    apply NoDup_cons in Hnd as [Hn _]. apply Hn, elem_of_app. by right.
  - by eapply as_wf_ext.
  - intros p. by rewrite (Ht p), (owned_ext (k_mem s) m).
  - eapply Forall_impl; [exact Hkm|]. intros [[[v ps] pe] perm] Hr off Hoff Ha. rewrite E. by apply Hr.
  - intros va Hva Hvk HC. rewrite E. destruct (Hu va Hva Hvk HC) as [Hpr [Hfl Hc]]. split; [done|].
    split; [done|]. intros k Hkk. rewrite <-Hc by done.
    destruct (wf_frame _ _ _ Hwf (PDX va) (PTX va)) as (Hfo & Hn & _); auto with kernel.
    { by apply user_PDX; [apply Hva|]. }
    apply not_elem_of_cons in Hn as [? _]. fold (entry (k_mem s) d va) in *.
    apply Hw; [by apply idx_aligned|]. apply (pages_disjoint (frame_of (entry (k_mem s) d va))); auto.
    by apply idx_in_page.
  - intros va Hva Hvk HC. rewrite E. by apply Hno.
  - intros a H4 Ha. rewrite Hw; [by apply Hm|done|]. apply Ha, (Ht f). right. left. by left.
Qed.

(** The words of a mapped user page are outside tables and free pages. *)
Lemma user_others r s l va k :
  pages s l → as_wf (k_mem s) d (r ++ l) → page_va va → va < KERNBASE → idx k →
  pres (entry (k_mem s) d va) = true → others (k_mem s) d l (frame_of (entry (k_mem s) d va) + 4 * k).
Proof.
  intros Hp Hwf Hva Hvk Hkk Hpr. pose proof (pa_pages s l Hp) as [_ Hok]. rewrite Forall_forall in Hok.
  destruct (wf_frame _ _ _ Hwf (PDX va) (PTX va)) as (Hfo & Hn & Hnd & Hnt); auto with kernel.
  { by apply user_PDX; [apply Hva|]. }
  fold (entry (k_mem s) d va) in *. pose proof (idx_in_page (frame_of (entry (k_mem s) d va)) k Hkk) as Hin.
  destruct (wf_dir _ _ _ Hwf) as [Hd _]. split; [by apply idx_aligned|]. split; [by apply (pages_disjoint _ d _ Hfo)|]. split.
  - intros p Hpl. apply (pages_disjoint _ p _ Hfo); [by apply Hok| |done]. intros <-. apply Hn, elem_of_app. by right.
  - intros i Hi Hpi. destruct (wf_tab _ _ _ Hwf i Hi Hpi) as (? & _).
    apply (pages_disjoint _ (tab (k_mem s) d i) _ Hfo); [done| |done]. by apply Hnt.
Qed.

Lemma reserved_others r s l p k :
  pages s l → NoDup (r ++ l) → as_wf (k_mem s) d (r ++ l) → p ∈ r → page_ok p → idx k →
  others (k_mem s) d l (p + 4 * k).
Proof.
  intros Hp Hnd Hwf Hpr Hpo Hk. pose proof (pa_pages s l Hp) as [_ Hok]. rewrite Forall_forall in Hok.
  pose proof (idx_in_page p k Hk) as Hin. destruct (wf_dir _ _ _ Hwf) as [Hd Hdl].
  assert (p ∈ r ++ l) as Hpl by (apply elem_of_app; by left).
  split; [by apply idx_aligned|]. split; [|split].
  - apply (pages_disjoint p); [done|done|by intros ->|done].
  - intros q Hq. apply (pages_disjoint p); [done|by apply Hok| |done]. intros ->.
    apply NoDup_app in Hnd as (_ & Hdj & _). by apply (Hdj q).
  - intros i Hi Hpi. destruct (wf_tab _ _ _ Hwf i Hi Hpi) as (? & Hn & _).
    apply (pages_disjoint p); [done|done| |done]. by intros ->.
Qed.

(** The child got tables, and possibly the frame [f] at [va]. *)
Lemma copied_grows C C' s l lk s' l' lk' :
  copied pgdir d o s0 l0 C s l lk →
  grows (pages := pages) d (lk' ++ o) s l s' l' → NoDup (lk' ++ o ++ l') →
  (∀ p, p ∈ lk ∨ is_frame (k_mem s) d p ↔ p ∈ lk' ∨ is_frame (k_mem s') d p) →
  (∀ vb, page_va vb → KERNBASE ≤ vb → entry (k_mem s') d vb = entry (k_mem s) d vb) →
  (∀ vb, page_va vb → vb < KERNBASE → C' vb →
    C vb ∧ entry (k_mem s') d vb = entry (k_mem s) d vb ∨
    pres (entry (k_mem s') d vb) = true ∧
    same_page (k_mem s0) (k_mem s') (entry (k_mem s0) pgdir vb) (entry (k_mem s') d vb)) →
  (∀ vb, page_va vb → vb < KERNBASE → ¬ C' vb → ¬ C vb ∧ entry (k_mem s') d vb = entry (k_mem s) d vb) →
  copied pgdir d o s0 l0 C' s' l' lk'.
Proof.
  intros [Hp Hnd Hwf Hk Ht Hkm Hu Hno Hm] G Hnd' Hfr Hke Hnew Hold.
  split; [apply G|done|rewrite app_assoc; apply G|etrans; [done|apply G]|..].
  - intros p. rewrite (Ht p). unfold owned. pose proof (grows_tabs _ _ _ _ _ _ G p). specialize (Hfr p). tauto.
  - rewrite Forall_forall in Hkm |- *. intros k Hkk.
    pose proof (ranges_ok _ _ kmap_ranges) as Hok. rewrite Forall_forall in Hok.
    apply (maps_range_ext (k_mem s)); auto.
  - intros va Hva Hvk HC. destruct (Hnew va Hva Hvk HC) as [[HC0 E]|?]; [|done]. rewrite E.
    destruct (Hu va Hva Hvk HC0) as [Hpr [Hfl Hc]]. split; [done|]. split; [done|].
    intros k Hkk. rewrite <-Hc by done. apply (g_mem _ _ _ _ _ _ G).
    apply (user_others (lk ++ o)); auto. by rewrite <-app_assoc.
  - intros va Hva Hvk HC. destruct (Hold va Hva Hvk HC) as [HC0 ->]. by apply Hno.
  - intros a H4 Ha. rewrite (g_mem _ _ _ _ _ _ G); [by apply Hm|]. split; [done|]. split; [|split].
    + apply Ha, Ht. right. right. by left.
    + intros p Hpl. apply Ha, Ht. by left.
    + intros k Hkk Hpr. apply Ha, Ht. right. right. right. left. by exists k.
Qed.

(** What [copypage] reads of the parent. *)
Lemma parent_entry m va :
  (∀ a, a mod 4 = 0 → (∀ p, p ∈ l0 → ¬ in_page p a) → ld32 m a = ld32 (k_mem s0) a) →
  page_va va → va < KERNBASE → let e := entry (k_mem s0) pgdir va in pres e = true →
  pres (pde m pgdir (PDX va)) = true ∧ (tab m pgdir (PDX va) + 4 * PTX va =? 0) = false ∧
  ld32 m (tab m pgdir (PDX va) + 4 * PTX va) = e ∧ page_ok (frame_of e) ∧
  ∀ k, idx k → ld32 m (frame_of e + 4 * k) = ld32 (k_mem s0) (frame_of e + 4 * k).
Proof.
  intros Hm Hva Hvk e Hpr. destruct (parent_unchanged pgdir o s0 l0 m Hpar Hm) as (E1 & E2 & Ec).
  pose proof (user_PDX va (proj1 Hva) Hvk) as H5. pose proof (pr_wf _ _ _ _ Hpar) as Hwf.
  assert (pres (pde (k_mem s0) pgdir (PDX va)) = true) as Hpd.
  { unfold e, entry, pte in Hpr. by destruct (pres (pde (k_mem s0) pgdir (PDX va))). }
  destruct (wf_frame _ _ _ Hwf (PDX va) (PTX va)) as (Hfo & _); auto with kernel.
  assert (tab m pgdir (PDX va) = tab (k_mem s0) pgdir (PDX va)) as Et.
  { unfold tab. by rewrite E1 by auto with kernel. }
  rewrite E1, Hpd by auto with kernel. split; [done|]. rewrite Et. split; [|split; [|split]].
  - apply (pte_nonzero _ _ l0); auto with kernel.
  - rewrite <-Et. unfold e, entry. rewrite <-E2 by auto with kernel. unfold pte.
    by rewrite E1, Hpd by auto with kernel.
  - exact Hfo.
  - intros k Hk. apply (Ec (frame_of e)); [|done|by apply idx_aligned|by apply idx_in_page].
    right. right. exists (PDX va), (PTX va). auto 6 with kernel.
Qed.

(** Mapping the copy [f] of the parent's page [va]. *)
Lemma copied_map C s l f va :
  let e := entry (k_mem s0) pgdir va in
  copied pgdir d o s0 l0 C s l [f] → page_ok f → page_va va → va < KERNBASE → ¬ C va → pres e = true →
  (∀ k, idx k → ld32 (k_mem s) (f + 4 * k) = ld32 (k_mem s0) (frame_of e + 4 * k)) →
  ∃ s' l' rc, mappages d va PGSIZE (V2P f) (PTE_FLAGS e) s = Ret rc s' ∧
    (rc = -1 ∧ copied pgdir d o s0 l0 C s' l' [f] ∨
     rc = 0 ∧ copied pgdir d o s0 l0 (λ x, C x ∨ x = va) s' l' []).
Proof.
  intros e Hcp Hf Hva Hvk HC Hpr Hcopy. pose proof Hcp as [Hp Hnd Hwf _ _ _ _ Hno _].
  destruct (flags_pres e Hpr (entry_u32 _ _ _)) as [Efl Hfl].
  destruct (V2P_page f Hf) as (Hfu & Hfa & Hfv).
  destruct (mk_pte_ok (V2P f) (PTE_FLAGS e) Hfu Hfa Hfl) as (_ & Hmp & Hma & Hmf).
  assert (frame_of (mk_pte (V2P f) (PTE_FLAGS e)) = f) as Hfr by (unfold frame_of; by rewrite Hma).
  pose proof (user_PDX va (proj1 Hva) Hvk) as H5.
  destruct (map_user_page s d va f (PTE_FLAGS e) o l Hp Hnd Hwf Hf (proj1 Hva) (proj2 Hva) Hfl
    (Hno va Hva Hvk HC)) as (s' & l' & rc & Hrun & Hc).
  exists s', l', rc. split; [done|]. destruct Hc as [(-> & -> & G & Hsame)|(-> & G & Hpte)]; [left|right];
    (split; [done|]).
  - eapply copied_grows; [exact Hcp|exact G| |..].
    + eapply (grows_nodup _ (f :: o)); [exact G|exact Hnd].
    + intros p. f_equiv. split; intros (i & j & Hi & ? & Hj & Hpi & ->); exists i, j.
      * by rewrite (Hsame i j Hi Hj).
      * by rewrite (Hsame i j Hi Hj) in Hpi |- *.
    + intros vb _ _. apply Hsame; auto with kernel.
    + intros vb _ _ HCb. left. split; [done|]. apply Hsame; auto with kernel.
    + intros vb _ _ HCb. split; [done|]. apply Hsame; auto with kernel.
  - assert (∀ vb, page_va vb → entry (k_mem s') d vb =
      if decide (vb = va) then mk_pte (V2P f) (PTE_FLAGS e) else entry (k_mem s) d vb) as He.
    { intros vb Hvb. unfold entry. rewrite Hpte by auto with kernel. apply decide_ext.
      split; [intros [??]; by apply page_va_inj|by intros ->]. }
    eapply copied_grows; [exact Hcp|exact G| |..].
    + eapply (grows_nodup _ o); [exact G|]. by apply NoDup_cons in Hnd as [_ ?].
    + intros p. rewrite list_elem_of_singleton. split.
      * intros [->|(i & j & Hi & Hu5 & Hj & Hpi & ->)]; right.
        -- exists (PDX va), (PTX va). rewrite Hpte, decide_True, Hfr by auto with kernel.
           repeat (split; [auto with kernel|]). done.
        -- exists i, j. rewrite Hpte by done. case_decide as E; [|done]. destruct E as [-> ->].
           pose proof (Hno va Hva Hvk HC) as Hx. unfold entry in Hx. congruence.
      * intros [Hin|(i & j & Hi & Hu5 & Hj & Hpi & ->)]; [by apply elem_of_nil in Hin|].
        rewrite Hpte in Hpi |- * by done. case_decide as E; [left; done|right]. by exists i, j.
    + intros vb Hvb Hkb. rewrite He, decide_False by (done || lia). done.
    + intros vb Hvb Hkb HCb. rewrite He by done. case_decide as E; [right|left].
      * subst vb. split; [done|]. split; [by rewrite Hmf|]. intros k Hkk. rewrite Hfr, <-Hcopy by done.
        apply (g_mem _ _ _ _ _ _ G). apply (reserved_others (f :: o)); [done|done|done|by left|done|done].
      * split; [|done]. by destruct HCb.
    + intros vb Hvb Hkb HCb. rewrite He by done. rewrite decide_False by tauto. tauto.
Qed.

Lemma copypage_ok C s l i va :
  copied pgdir d o s0 l0 C s l [] → page_va va → va < KERNBASE → ¬ C va →
  PDX i = PDX va → PTX i = PTX va → pres (entry (k_mem s0) pgdir va) = true →
  ∃ s' l' b, copypage pgdir d i va s = Ret b s' ∧
    if (b : bool) then copied pgdir d o s0 l0 (λ x, C x ∨ x = va) s' l' []
    else ∃ lk, (length lk ≤ 1)%nat ∧ copied pgdir d o s0 l0 C s' l' lk.
Proof.
  intros Hcp Hva Hvk HC Hi1 Hi2 Hpr. pose proof Hcp as [Hp _ _ _ _ _ _ _ Hm].
  unfold copypage. mrun (walk_noalloc s pgdir i). rewrite Hi1, Hi2.
  destruct (parent_entry (k_mem s) va Hm Hva Hvk Hpr) as (Hpd & Hnz & He & Hfo & Hsrc).
  rewrite Hpd, Hnz. msteps. rewrite He. set (e := entry (k_mem s0) pgdir va) in *.
  fold (pres e). rewrite Hpr. cbn [negb]. destruct l as [|f l].
  { destruct (pa_alloc_none s Hp) as (s1 & Hrun & Hp1 & Hm1 & Hk1). mrun Hrun.
    exists s1, [], false. split; [done|]. exists []. split; [simpl; lia|]. by eapply copied_frame. }
  destruct (pa_alloc s f l Hp) as (s1 & Hrun & Hp1 & Hm1 & Hk1). mrun Hrun.
  pose proof (pa_pages s _ Hp) as [_ Hok]. inversion Hok as [|? ? Hf _]; subst.
  destruct (Z.eqb_spec f 0) as [E|_]; [by destruct (page_ok_nonzero f)|]. msteps.
  fold (frame_of e). set (m2 := memmove (k_mem s1) f (frame_of e) PGSIZE).
  assert (∀ a, a mod 4 = 0 → ld32 m2 a =
    if decide (in_page f a) then ld32 (k_mem s) (frame_of e + (a - f)) else ld32 (k_mem s) a) as Hm2.
  { intros a H4. unfold m2. pose proof (page_ok_range _ Hfo) as Hr. unfold KERNBASE, PHYSTOP, EXTMEM, PGSIZE in Hr.
    rewrite Hm1, ld32_memmove; [done|..]; try done; try apply page_ok_align; auto; unfold PGSIZE, two32; lia. }
  pose proof (copied_alloc _ _ _ _ _ Hcp Hm1 Hk1 Hp1) as Hcp1.
  assert (copied pgdir d o s0 l0 C (upd_k_mem (λ _, m2) s1) l [f]) as Hcp2.
  { apply copied_write; [done|done|]. intros a H4 Ha. by rewrite Hm2, decide_False, Hm1. }
  destruct (copied_map C _ l f va Hcp2 Hf Hva Hvk HC Hpr) as (s3 & l3 & rc & Hrun3 & Hrc).
  { intros k Hk. simpl. rewrite Hm2, decide_True by (by apply idx_in_page || by apply idx_aligned).
    rewrite <-Hsrc by done. f_equal. lia. }
  fold e in Hrun3.
  change (upd_k_mem (λ m, memmove m f (frame_of e) PGSIZE) s1) with (upd_k_mem (λ _, m2) s1). mrun Hrun3. destruct Hrc as [[-> Hc]|[-> Hc]]; cbn [Z.ltb Z.compare negb].
  - exists s3, l3, false. split; [done|]. exists [f]. split; [simpl; lia|done].
  - by exists s3, l3, true.
Qed.

Lemma copied_ext C C' s l lk :
  (∀ va, page_va va → va < KERNBASE → C va ↔ C' va) →
  copied pgdir d o s0 l0 C s l lk → copied pgdir d o s0 l0 C' s l lk.
Proof.
  intros HC [? ? ? ? ? ? Hu Hno ?]. split; auto.
  - intros va Hva Hvk ?. apply Hu; [done|done|]. by apply HC.
  - intros va Hva Hvk ?. apply Hno; [done|done|]. by rewrite HC.
Qed.

(** A loop that stopped: complete, or out of memory. *)
Definition loop_done (C : Z → Prop) (run : outcome kstate bool) : Prop :=
  ∃ s' l' b, run = Ret b s' ∧
    if (b : bool) then copied pgdir d o s0 l0 C s' l' []
    else ∃ lk C', (length lk ≤ 1)%nat ∧ copied pgdir d o s0 l0 C' s' l' lk.

Lemma copyuvm_low_ok sz fuel : ∀ i s l,
  page_va i → 0 ≤ sz ≤ KERNBASE → sz - i ≤ PGSIZE * Z.of_nat fuel →
  (∀ va, page_va va → va < sz → pres (entry (k_mem s0) pgdir va) = true) →
  copied pgdir d o s0 l0 (λ va, va < i ∧ va < sz) s l [] →
  loop_done (λ va, va < sz) (copyuvm_low fuel pgdir d i sz s).
Proof.
  induction fuel as [|fuel IH]; intros i s l Hi Hsz Hfuel Hpr Hcp; cbn [copyuvm_low].
  - destruct (Z.ltb_spec i sz); [lia|]. exists s, l, true. split; [done|].
    eapply copied_ext; [|exact Hcp]. intros; cbn beta; lia.
  - destruct (Z.ltb_spec i sz).
    2: { exists s, l, true. split; [done|]. eapply copied_ext; [|exact Hcp]. intros; cbn beta; lia. }
    destruct (copypage_ok _ s l i i Hcp) as (s1 & l1 & b & Hrun & Hb); [done|lia|lia|done|done|by apply Hpr|].
    mrun Hrun. destruct b; [|destruct Hb as (lk & ? & ?); exists s1, l1, false; eauto].
    assert (page_va (i + PGSIZE)) as Hi' by (apply page_va_next; [done|unfold PGSIZE, KERNBASE, two32 in *; lia]).
    rewrite (u32_small (i + PGSIZE)) by apply Hi'. apply (IH _ _ l1); [done|done|unfold PGSIZE in *; lia|done|].
    eapply copied_ext; [|exact Hb]. intros va Hva _. destruct Hi as [_ Hi], Hva as [_ Hva].
    unfold PGSIZE in *. apply Z.mod_divide in Hi, Hva; [|done..]. destruct Hi as [x ->], Hva as [y ->]. cbn beta. lia.
Qed.

(** The pages [copyuvm] copies: below [sz], and [n] pages of stack. *)
Definition in_use (sz n va : Z) : Prop := va < sz ∨ KERNBASE - n * PGSIZE ≤ va.

Lemma stack_addr k :
  0 ≤ k → PGSIZE * (k + 1) ≤ KERNBASE →
  let i := STACK_TOP - k * PGSIZE in let va := KERNBASE - (k + 1) * PGSIZE in
  page_va va ∧ va < KERNBASE ∧ PGROUNDDOWN i = va ∧ PDX i = PDX va ∧ PTX i = PTX va.
Proof.
  intros Hk Hle. cbn zeta. unfold page_va, STACK_TOP, PGSIZE, KERNBASE, is_u32 in *.
  assert (is_u32 (2147483648 - 4 - k * 4096)) as Hi by (unfold is_u32, two32; lia).
  assert (is_u32 (2147483648 - (k + 1) * 4096)) as Hv by (unfold is_u32, two32; lia).
  assert ((2147483648 - (k + 1) * 4096) mod 4096 = 0) as Ha.
  { replace (2147483648 - (k + 1) * 4096) with ((524288 - (k + 1)) * 4096) by lia. apply Z_mod_mult. }
  replace (2147483648 - 4 - k * 4096) with (2147483648 - (k + 1) * 4096 + 4092) in * by lia.
  split; [split; [apply Hv|done]|]. split; [lia|]. rewrite PGROUNDDOWN_spec by done.
  rewrite <-(Zplus_mod_idemp_l (2147483648 - (k + 1) * 4096)), Ha. split; [rewrite Z.mod_small by lia; lia|].
  set (v := 2147483648 - (k + 1) * 4096) in *. clearbody v.
  rewrite !PDX_spec, !PTX_spec, !(u32_small (v + 4092)), !(u32_small v) by done.
  apply Z.mod_divide in Ha; [|done]. destruct Ha as [x ->].
  assert ((x * 4096 + 4092) / 4096 = x) as E1 by (rewrite Z.add_comm, Z.div_add by lia; rewrite Z.div_small by lia; lia).
  assert (x * 4096 / 4096 = x) as E2 by (by apply Z.div_mul).
  replace 4194304 with (4096 * 1024) by lia. rewrite <-!Z.div_div by lia. by rewrite E1, E2.
Qed.

Lemma copyuvm_stack_ok sz n pr fuel : ∀ k s l,
  cpu_wf (k_cpu s0) → curproc s0 = Some pr → p_stackSize pr = n →
  0 ≤ sz → sz + n * PGSIZE ≤ KERNBASE → n * PGSIZE < KERNBASE → 0 ≤ k → k + Z.of_nat fuel = n →
  (∀ va, page_va va → va < KERNBASE → in_use sz n va → pres (entry (k_mem s0) pgdir va) = true) →
  copied pgdir d o s0 l0 (in_use sz k) s l [] →
  loop_done (in_use sz n) (copyuvm_stack fuel pgdir d (STACK_TOP - k * PGSIZE) s).
Proof.
  induction fuel as [|fuel IH]; intros k s l Hwf Hcur Hn Hsz Hb Hb' Hk Hfuel Hpr Hcp; cbn [copyuvm_stack].
  all: pose proof (cp_same _ _ _ _ _ _ _ _ _ Hcp) as Hsk;
    destruct (same_kernel_curproc _ _ Hsk) as (Ec & Ep & Ew);
    mrun (myproc_ok s (proj1 Ew Hwf)); rewrite Hcur in Ec;
    unfold curproc in Ec; destruct (c_proc (k_cpu s)) as [j|]; [|done]; symmetry in Ec; simpl in Ec;
    rewrite (bind_deref _ _ (sync s) pr Ec); rewrite Hn;
    assert (copied pgdir d o s0 l0 (in_use sz k) (sync s) l []) as Hcp1 by
      (eapply copied_frame; [exact Hcp|done|apply same_kernel_sync|
        eapply pages_frame; [apply Hcp|done|done|apply same_kernel_sync]]);
    rewrite u32_small by (unfold STACK_TOP, PGSIZE, KERNBASE, two32 in *; lia).
  - assert (k = n) as -> by lia. rewrite Z.ltb_irrefl. exists (sync s), l, true. by split.
  - destruct (Z.ltb_spec (STACK_TOP - n * PGSIZE) (STACK_TOP - k * PGSIZE)) as [_|]; [|unfold PGSIZE in *; lia].
    destruct (stack_addr k Hk) as (Hva & Hvk & -> & H1 & H2); [unfold PGSIZE in *; lia|].
    destruct (copypage_ok _ (sync s) l (STACK_TOP - k * PGSIZE) _ Hcp1 Hva Hvk) as (s1 & l1 & b & Hrun & Hc); auto.
    { unfold in_use, PGSIZE in *. lia. }
    { apply Hpr; [done|done|]. unfold in_use, PGSIZE in *. lia. }
    mrun Hrun. destruct b; [|destruct Hc as (lk & ? & ?); exists s1, l1, false; eauto].
    assert (u32 (STACK_TOP - k * PGSIZE - PGSIZE) = STACK_TOP - (k + 1) * PGSIZE) as ->.
    { rewrite u32_small by (unfold STACK_TOP, PGSIZE, KERNBASE, two32 in *; lia). lia. }
    apply (IH (k + 1) s1 l1); auto with lia. eapply copied_ext; [|exact Hc].
    intros va [_ Ha] _. unfold in_use, KERNBASE, PGSIZE in *. apply Z.mod_divide in Ha; [|done].
    destruct Ha as [x ->]. lia.
Qed.
End steps.

Lemma building_copied pgdir d o s0 l0 s l :
  building (pages := pages) d o s0 l0 s l → Forall (maps_range (k_mem s) d) kmap →
  copied pgdir d o s0 l0 (λ va, va < 0 ∧ va < 0) s l [].
Proof.
  intros [Hp Hnd Hwf Hk Ht Hu Hm] Hkm. split; auto.
  - intros p. rewrite (Ht p), elem_of_nil. unfold owned. split; [tauto|].
    intros [?|[?|[?|[?|(i & j & Hi & H5 & Hj & Hpr & _)]]]]; [tauto..|]. by rewrite Hu in Hpr.
  - intros va [[??] _] Hvk [??]; lia.
  - intros va Hva Hvk _. apply Hu; auto with kernel. by apply user_PDX; [apply Hva|].
Qed.

(** What is left when the copy failed: the parent and the free pages,
    except for [lk]. *)
Record copy_failed (s0 : kstate) (l0 : list Z) (s : kstate) (l lk : list Z) : Prop := MkCopyFailed {
  cf_pages : pages s l;
  cf_same : same_kernel s0 s;
  cf_free p : p ∈ l0 ↔ p ∈ l ∨ p ∈ lk;
  cf_mem a : a mod 4 = 0 → (∀ p, p ∈ l0 → ¬ in_page p a) → ld32 (k_mem s) a = ld32 (k_mem s0) a;
}.

Lemma freevm_copied pgdir d o s0 l0 C s l lk :
  copied pgdir d o s0 l0 C s l lk → ∃ s' l', freevm d s = Ret tt s' ∧ copy_failed s0 l0 s' l' lk.
Proof.
  intros [Hp Hnd Hwf Hk Ht _ _ _ Hm].
  destruct (freevm_run s l d (lk ++ o)) as (s' & l' & Hrun & Hp' & Hk' & Hl' & Hm'); [done|by rewrite <-app_assoc|].
  exists s', l'. split; [done|].
  assert (∀ p, p ∈ l0 ↔ p ∈ l' ∨ p ∈ lk) as Hl by (intros p; rewrite (Ht p), (Hl' p); tauto).
  split; [done|by etrans|done|]. intros a H4 Ha. rewrite Hm'; [by apply Hm|done|].
  intros p Hpl. apply Ha, Hl. by left.
Qed.

Lemma copyuvm_run s l pgdir o sz pr :
  parent pgdir o s l → cpu_wf (k_cpu s) → curproc s = Some pr →
  0 ≤ sz → 0 ≤ p_stackSize pr → sz + p_stackSize pr * PGSIZE ≤ KERNBASE → p_stackSize pr * PGSIZE < KERNBASE →
  (∀ va, page_va va → va < KERNBASE → in_use sz (p_stackSize pr) va → pres (entry (k_mem s) pgdir va) = true) →
  ∃ s' l' d, copyuvm pgdir sz s = Ret d s' ∧
    ((page_ok d ∧ copied pgdir d o s l (in_use sz (p_stackSize pr)) s' l' []) ∨
     (d = 0 ∧ ∃ lk, (length lk ≤ 1)%nat ∧ copy_failed s l s' l' lk)).
Proof.
  intros Hpar Hwf Hcur Hsz Hn Hb Hb' Hpr. pose proof Hpar as [Hp _ Hnd _].
  unfold copyuvm. destruct (setupkvm_run s l o Hp Hnd) as (s1 & l1 & d & Hrun & [(Hd & Hbd & Hkm)|(-> & Hg)]); mrun Hrun.
  2: { destruct Hg as [? ? Hf ?]. exists s1, l1, 0. split; [done|]. right. split; [done|]. exists [].
       split; [simpl; lia|]. split; [done|done| |done]. intros p. rewrite (Hf p), elem_of_nil. tauto. }
  destruct (Z.eqb_spec d 0) as [->|_]; [by destruct (page_ok_nonzero 0)|].
  pose proof (building_copied pgdir d o s l s1 l1 Hbd Hkm) as Hcp0.
  edestruct (copyuvm_low_ok pgdir d o s l Hpar sz (S (Z.to_nat (sz / PGSIZE))) 0 s1 l1)
    as (s2 & l2 & b & Hrun2 & Hb2).
  { done. } { unfold PGSIZE in *; lia. }
  { rewrite Nat2Z.inj_succ, Z2Nat.id by (apply Z.div_pos; [done|unfold PGSIZE; lia]). unfold PGSIZE.
    pose proof (Z.div_mod sz 4096 ltac:(lia)). pose proof (Z.mod_pos_bound sz 4096 ltac:(lia)). lia. }
  { intros va Hva ?. apply Hpr; [done|unfold PGSIZE in *; lia|by left]. }
  { eapply copied_ext; [|exact Hcp0]. intros va [[??] _] _. cbn beta. lia. }
  mrun Hrun2. msteps. destruct b.
  2: { destruct Hb2 as (lk & C' & Hlk & Hc). msteps. destruct (freevm_copied _ _ _ _ _ _ _ _ _ Hc) as (s3 & l3 & Hrun3 & Hf).
       mrun Hrun3. exists s3, l3, 0. split; [done|]. right. eauto. }
  destruct (same_kernel_curproc _ _ (cp_same _ _ _ _ _ _ _ _ _ Hb2)) as (Ec & _ & _).
  rewrite <-Ec, Hcur.
  edestruct (copyuvm_stack_ok pgdir d o s l Hpar sz (p_stackSize pr) pr (Z.to_nat (p_stackSize pr)) 0 s2 l2)
    as (s3 & l3 & b & Hrun3 & Hb3); auto with lia.
  { eapply copied_ext; [|exact Hb2]. intros va _ ?. unfold in_use. lia. }
  replace (STACK_TOP - 0 * PGSIZE) with STACK_TOP in Hrun3 by done. mrun Hrun3. destruct b.
  - exists s3, l3, d. split; [done|]. by left.
  - destruct Hb3 as (lk & C' & Hlk & Hc). destruct (freevm_copied _ _ _ _ _ _ _ _ _ Hc) as (s4 & l4 & Hrun4 & Hf).
    mrun Hrun4. exists s4, l4, 0. split; [done|]. right. eauto.
Qed.
End copyuvm.

(** ** Properties *)


(** A process with one mapped page, and one free page. *)
Module CopyExample.
Definition pgdir : Z := 0x80200000.
Definition table : Z := 0x80201000.
Definition frame : Z := 0x80202000.
Definition free : Z := 0x80203000.
Definition mem : gmap Z Z := set_pte (add_table ∅ pgdir table 0) pgdir 0 0 (mk_pte (V2P frame) 6).
Definition pr : proc := upd_p_sz (λ _, 4096) (upd_p_pgdir (λ _, pgdir) proc0).
Definition state : kstate :=
  upd_k_mem (λ _, mem) (upd_k_kmem (λ _, MkKmem false free)
    (upd_k_procs (λ _, [pr]) (upd_k_cpu (upd_c_proc (λ _, Some 0%nat)) bss))).

#[local] Existing Instance kernel_sym.

Lemma pages_ok p : p ∈ [pgdir; table; frame; free] → page_ok p.
Proof. rewrite !elem_of_cons. intros [->|[->|[->|[->|?]]]]; [by apply page_ok_kernel_sym..|set_solver]. Qed.

Lemma empty_wf : as_wf ∅ pgdir [table; frame; free].
Proof.
  assert (∀ a, ld32 ∅ a = 0) as Hz by (intros a; unfold ld32; by rewrite lookup_empty).
  assert (∀ i, pde ∅ pgdir i = 0) as Hp by (intros i; apply Hz).
  assert (∀ i j, pte ∅ pgdir i j = 0) as Ht by (intros i j; unfold pte; by rewrite Hp).
  split; intros *; rewrite ?Hp, ?Ht; try done.
  split; [apply pages_ok; by left|]. by apply (bool_decide_unpack _).
Qed.

Lemma table_wf : as_wf (add_table ∅ pgdir table 0) pgdir [frame; free].
Proof. apply add_table_wf; [apply empty_wf|by apply page_ok_kernel_sym|by apply (bool_decide_unpack _)|done|done]. Qed.

Lemma table_pde k : idx k → pde (add_table ∅ pgdir table 0) pgdir k = if decide (k = 0) then Z.lor (V2P table) 7 else 0.
Proof.
  intros Hk. rewrite (add_table_pde _ _ _ _ [frame; free]); [done|apply empty_wf|by apply page_ok_kernel_sym|done|done].
Qed.

Lemma mem_wf : as_wf mem pgdir [free].
Proof.
  apply set_pte_wf_new; [apply table_wf|done|done|by rewrite table_pde|by apply page_ok_kernel_sym|
    by apply (bool_decide_unpack _)].
Qed.

Lemma mem_pde k : idx k → pde mem pgdir k = if decide (k = 0) then Z.lor (V2P table) 7 else 0.
Proof.
  intros Hk. unfold mem. rewrite (set_pte_pde _ _ _ _ _ _ table_wf) by first [by rewrite table_pde | done].
  by apply table_pde.
Qed.

Lemma mem_pte i j : idx i → idx j → pte mem pgdir i j =
  if decide (i = 0 ∧ j = 0) then mk_pte (V2P frame) 6 else 0.
Proof.
  intros Hi Hj. unfold mem. rewrite (set_pte_pte _ _ _ _ _ _ table_wf) by first [by rewrite table_pde | done].
  case_decide; [done|]. rewrite (add_table_pte _ _ _ _ [frame; free]);
    [|apply empty_wf|by apply page_ok_kernel_sym|by apply (bool_decide_unpack _)|done|done|done|done].
  unfold pte. replace (pde ∅ pgdir i) with 0; [done|]. unfold pde, ld32. by rewrite lookup_empty.
Qed.

Lemma state_parent : parent (pages := allocator) pgdir [pgdir; table; frame] state [free].
Proof.
  split.
  - split; [split; [split|]; done|]. split; [by split; vm_compute|]. split; [by apply NoDup_singleton|].
    constructor; [by apply page_ok_kernel_sym|constructor].
  - exact mem_wf.
  - by apply (bool_decide_unpack _).
  - intros p [->|[(k & Hk & Hp & ->)|(i & j & Hi & H5 & Hj & Hp & ->)]]; [by left|..]; change (k_mem state) with mem in *.
    + unfold tab. rewrite mem_pde in Hp |- * by exact Hk. case_decide; [right; by left|done].
    + rewrite mem_pte in Hp |- * by assumption. case_decide; [right; right; by left|done].
Qed.
End CopyExample.

