(* ===== verification/AllocUvm.v ===== *)
(** AllocUvm: [allocuvm] grows a process by zeroed pages, or leaves its
    mappings and every page as they were. *)

From S2P Require Import Prelude Layout State Mem Spinlock Console Kalloc Vm PageTable AddressSpace Unmap KernelMap CopyUvm.

Section allocuvm.
Context {KI : KernelImage} {pages : kstate → list Z → Prop} {PA : PageAllocator pages}.

Hint Resolve PDX_idx PTX_idx : kernel.

(** A page of zeroes taken from the free pages [l0] is mapped at [va]. *)
Definition fresh_page (l0 : list Z) (m : gmap Z Z) (pgdir va : Z) : Prop :=
  ∃ f, f ∈ l0 ∧ page_ok f ∧ entry m pgdir va = mk_pte (V2P f) (Z.lor PTE_W PTE_U) ∧
    ∀ k, idx k → ld32 m (f + 4 * k) = 0.

(** The state of [allocuvm] when the pages from [lo] to [hi] are mapped; the
    pages [lk] are in use by no one, [r] belong to others. *)
Record grown (pgdir : Z) (r : list Z) (s0 : kstate) (l0 : list Z) (lo hi : Z)
    (s : kstate) (l lk : list Z) : Prop := MkGrown {
  gr_pages : pages s l;
  gr_nodup : NoDup (lk ++ r ++ l);
  gr_wf : as_wf (k_mem s) pgdir (lk ++ r ++ l);
  gr_same : same_kernel s0 s;
  gr_sub p : p ∈ l ∨ p ∈ lk → p ∈ l0;
  gr_took p : p ∈ l0 ∨ owned (k_mem s0) pgdir p ↔ p ∈ l ∨ p ∈ lk ∨ owned (k_mem s) pgdir p;
  gr_new va : page_va va → lo ≤ va < hi → fresh_page l0 (k_mem s) pgdir va;
  gr_old va : page_va va → ¬ lo ≤ va < hi → entry (k_mem s) pgdir va = entry (k_mem s0) pgdir va;
  gr_pde i : idx i → pres (pde (k_mem s0) pgdir i) = true →
    pres (pde (k_mem s) pgdir i) = true ∧ tab (k_mem s) pgdir i = tab (k_mem s0) pgdir i;
  gr_tab i : idx i → pres (pde (k_mem s) pgdir i) = true →
    (pres (pde (k_mem s0) pgdir i) = true ∧ tab (k_mem s) pgdir i = tab (k_mem s0) pgdir i) ∨
    tab (k_mem s) pgdir i ∈ l0;
  gr_mem a : others (k_mem s0) pgdir l0 a → ld32 (k_mem s) a = ld32 (k_mem s0) a;
}.

Lemma grown_frame pgdir r s0 l0 lo hi s l lk s1 :
  grown pgdir r s0 l0 lo hi s l lk → k_mem s1 = k_mem s → same_kernel s s1 → pages s1 l →
  grown pgdir r s0 l0 lo hi s1 l lk.
Proof. intros [] Hm Hk Hp. split; rewrite ?Hm; auto. by etrans. Qed.

Lemma grown_alloc pgdir r s0 l0 lo hi s f l s1 :
  grown pgdir r s0 l0 lo hi s (f :: l) [] → k_mem s1 = k_mem s → same_kernel s s1 → pages s1 l →
  grown pgdir r s0 l0 lo hi s1 l [f].
Proof.
  intros [? Hnd Hwf ? Hsub Ht ? ? ? ? ?] Hm Hk Hp. simpl in Hnd, Hwf. split; rewrite ?Hm; auto; simpl.
  - by rewrite Permutation_middle.
  - by apply as_wf_mid.
  - by etrans.
  - intros p Hpl. apply Hsub. left. rewrite elem_of_cons. rewrite list_elem_of_singleton in Hpl. tauto.
  - intros p. rewrite (Ht p), !elem_of_cons. tauto.
Qed.

(** A frame that is mapped is not the lost page. *)
Lemma mapped_not_lost pgdir r s l f va :
  as_wf (k_mem s) pgdir ([f] ++ r ++ l) → page_va va → va < KERNBASE →
  pres (entry (k_mem s) pgdir va) = true → frame_of (entry (k_mem s) pgdir va) ≠ f.
Proof.
  intros Hwf Hva Hvk Hpr E. destruct (wf_frame _ _ _ Hwf (PDX va) (PTX va)) as (_ & Hn & _); auto with kernel.
  { by apply user_PDX; [apply Hva|]. }
  fold (entry (k_mem s) pgdir va) in Hn. rewrite E in Hn. apply Hn. by left.
Qed.

Lemma fresh_frame m pgdir va f :
  page_ok f → entry m pgdir va = mk_pte (V2P f) (Z.lor PTE_W PTE_U) →
  frame_of (entry m pgdir va) = f ∧ pres (entry m pgdir va) = true.
Proof.
  intros Hf E. destruct (V2P_page f Hf) as (Hfu & Hfa & Hfv).
  destruct (mk_pte_ok (V2P f) (Z.lor PTE_W PTE_U) Hfu Hfa ltac:(done)) as (_ & Hmp & Hma & _).
  rewrite E. split; [|done]. unfold frame_of. by rewrite Hma.
Qed.

(** Writing the lost page. *)
Lemma grown_write pgdir r s0 l0 lo hi s f l m :
  hi ≤ KERNBASE → grown pgdir r s0 l0 lo hi s l [f] → page_ok f →
  (∀ a, a mod 4 = 0 → ¬ in_page f a → ld32 m a = ld32 (k_mem s) a) →
  grown pgdir r s0 l0 lo hi (upd_k_mem (λ _, m) s) l [f].
Proof.
  intros Hhi [Hp Hnd Hwf Hk Hsub Ht Hnew Hold Hpde Htb Hm] Hf Hw.
  pose proof (pa_pages s l Hp) as [_ Hok]. rewrite Forall_forall in Hok.
  destruct (wf_dir _ _ _ Hwf) as [Hd Hdl]. apply not_elem_of_cons in Hdl as [Hdf _].
  destruct (tables_unchanged (k_mem s) m pgdir _ Hwf) as [E1 E2].
  { intros a H4 Ha. apply Hw; [done|]. by apply (pages_disjoint pgdir). }
  { intros i a Hi Hpr H4 Ha. destruct (wf_tab _ _ _ Hwf i Hi Hpr) as (? & Hn & _).
    apply not_elem_of_cons in Hn as [? _]. apply Hw; [done|]. by apply (pages_disjoint (tab (k_mem s) pgdir i)). }
  assert (∀ va, entry m pgdir va = entry (k_mem s) pgdir va) as E by (intros va; apply E2; auto with kernel).
  split; simpl; auto.
  - apply pa_write; [done|]. intros q a Hq Ha H4. apply Hw; [done|].
    apply (pages_disjoint q); [by apply Hok|done| |done]. intros ->.
    simpl in Hnd. apply NoDup_cons in Hnd as [Hn _]. apply Hn, elem_of_app. by right.
  - by eapply as_wf_ext.
  - intros p. by rewrite (Ht p), (owned_ext (k_mem s) m).
  - intros va Hva Hr. destruct (Hnew va Hva Hr) as (g & Hg & Hgo & Hge & Hz). exists g. rewrite E.
    split; [done|]. split; [done|]. split; [done|]. intros k Hkk. rewrite Hw; [by apply Hz|by apply idx_aligned|].
    destruct (fresh_frame _ _ _ _ Hgo Hge) as [Hfr Hpr].
    apply (pages_disjoint g); [done|done| |by apply idx_in_page]. rewrite <-Hfr.
    eapply mapped_not_lost; [exact Hwf|done|lia|done].
  - intros va Hva Hr. rewrite E. by apply Hold.
  - intros i Hi Hpr. unfold tab. rewrite E1 by done. by apply Hpde.
  - intros i Hi Hpr. unfold tab in *. rewrite E1 in Hpr |- * by done. by apply Htb.
  - intros a Ha. rewrite Hw; [by apply Hm|apply Ha|]. destruct Ha as (_ & _ & Hl & _). apply Hl, Hsub. right. by left.
Qed.

(** The address space took tables, and possibly mapped the lost page. *)
Lemma grown_grows pgdir r s0 l0 lo hi hi' s l lk s' l' lk' :
  hi ≤ KERNBASE → grown pgdir r s0 l0 lo hi s l lk →
  grows (pages := pages) pgdir (lk' ++ r) s l s' l' → NoDup (lk' ++ r ++ l') →
  (∀ p, p ∈ lk' → p ∈ lk) →
  (∀ p, p ∈ lk ∨ is_frame (k_mem s) pgdir p ↔ p ∈ lk' ∨ is_frame (k_mem s') pgdir p) →
  (∀ va, page_va va → lo ≤ va < hi' → lo ≤ va < hi ∧ entry (k_mem s') pgdir va = entry (k_mem s) pgdir va ∨
    fresh_page l0 (k_mem s') pgdir va) →
  (∀ va, page_va va → ¬ lo ≤ va < hi' → ¬ lo ≤ va < hi ∧ entry (k_mem s') pgdir va = entry (k_mem s) pgdir va) →
  grown pgdir r s0 l0 lo hi' s' l' lk'.
Proof.
  intros Hhi [Hp Hnd Hwf Hk Hsub Ht Hnew Hold Hpde Htb Hm] G Hnd' Hlk Hfr Hin Hout.
  split; [apply G|done|rewrite app_assoc; apply G|etrans; [done|apply G]|..].
  - intros p [Hpl|Hpl]; apply Hsub; [left; by apply (g_sub _ _ _ _ _ _ G)|right; by apply Hlk].
  - intros p. rewrite (Ht p). unfold owned. pose proof (grows_tabs _ _ _ _ _ _ G p). specialize (Hfr p). tauto.
  - intros va Hva Hr. destruct (Hin va Hva Hr) as [[Hr0 E]|?]; [|done].
    destruct (Hnew va Hva Hr0) as (g & Hg & Hgo & Hge & Hz). exists g. rewrite E. split; [done|]. split; [done|].
    split; [done|]. intros k Hkk. destruct (fresh_frame _ _ _ _ Hgo Hge) as [Hfg Hpr].
    rewrite (g_mem _ _ _ _ _ _ G); [by apply Hz|]. rewrite <-Hfg.
    apply (user_others pgdir (lk ++ r)); [done|by rewrite <-app_assoc|done|lia|done|done].
  - intros va Hva Hr. destruct (Hout va Hva Hr) as [Hr0 ->]. by apply Hold.
  - intros i Hi Hpr. destruct (Hpde i Hi Hpr) as [Hp1 <-]. by apply (g_keep _ _ _ _ _ _ G).
  - intros i Hi Hpr. destruct (g_tab _ _ _ _ _ _ G i Hi Hpr) as [[Hp1 ->]|Hin']; [by apply Htb|].
    right. apply Hsub. by left.
  - intros a Ha. rewrite (g_mem _ _ _ _ _ _ G); [by apply Hm|].
    destruct Ha as (H4 & Hd & Hl & Hta). split; [done|]. split; [done|]. split.
    + intros p Hpl. apply Hl, Hsub. by left.
    + intros k Hkk Hpr. destruct (Htb k Hkk Hpr) as [[? ->]|?]; [by apply Hta|by apply Hl].
Qed.

(** The lost page [f], full of zeroes, is mapped at [hi]. *)
Lemma grown_map pgdir r s0 l0 lo hi s l f :
  grown pgdir r s0 l0 lo hi s l [f] → page_ok f → page_va hi → hi < KERNBASE → lo ≤ hi →
  pres (entry (k_mem s0) pgdir hi) = false → (∀ k, idx k → ld32 (k_mem s) (f + 4 * k) = 0) →
  ∃ s' l' rc, mappages pgdir hi PGSIZE (V2P f) (Z.lor PTE_W PTE_U) s = Ret rc s' ∧
    (rc = -1 ∧ grown pgdir r s0 l0 lo hi s' l' [f] ∨
     rc = 0 ∧ grown pgdir r s0 l0 lo (hi + PGSIZE) s' l' []).
Proof.
  intros Hg Hf Hva Hvk Hlo Hno Hz. pose proof Hg as [Hp Hnd Hwf _ Hsub _ _ Hold _ _ _].
  destruct (V2P_page f Hf) as (Hfu & Hfa & Hfv).
  destruct (mk_pte_ok (V2P f) (Z.lor PTE_W PTE_U) Hfu Hfa ltac:(done)) as (_ & Hmp & Hma & Hmf).
  assert (frame_of (mk_pte (V2P f) (Z.lor PTE_W PTE_U)) = f) as Hfr by (unfold frame_of; by rewrite Hma).
  assert (pres (entry (k_mem s) pgdir hi) = false) as Hno' by (rewrite Hold; [done|done|lia]).
  pose proof (user_PDX hi (proj1 Hva) Hvk) as H5.
  destruct (map_user_page s pgdir hi f (Z.lor PTE_W PTE_U) r l Hp Hnd Hwf Hf (proj1 Hva) (proj2 Hva) ltac:(done) Hno')
    as (s' & l' & rc & Hrun & Hc).
  exists s', l', rc. split; [done|]. destruct Hc as [(-> & -> & G & Hsame)|(-> & G & Hpte)]; [left|right];
    (split; [done|]).
  - assert (∀ va, entry (k_mem s') pgdir va = entry (k_mem s) pgdir va) as E by (intros va; apply Hsame; auto with kernel).
    eapply (grown_grows _ _ _ _ _ hi); [lia|exact Hg|exact G| |done|..].
    + eapply (grows_nodup _ (f :: r)); [exact G|exact Hnd].
    + intros p. f_equiv. split; intros (i & j & Hi & ? & Hj & Hpi & ->); exists i, j.
      * by rewrite (Hsame i j Hi Hj).
      * by rewrite (Hsame i j Hi Hj) in Hpi |- *.
    + intros va Hv Hr. left. by rewrite E.
    + intros va Hv Hr. by rewrite E.
  - assert (∀ vb, page_va vb → entry (k_mem s') pgdir vb =
      if decide (vb = hi) then mk_pte (V2P f) (Z.lor PTE_W PTE_U) else entry (k_mem s) pgdir vb) as He.
    { intros vb Hvb. unfold entry. rewrite Hpte by auto with kernel. apply decide_ext.
      split; [intros [??]; by apply page_va_inj|by intros ->]. }
    assert (∀ vb, page_va vb → lo ≤ vb < hi + PGSIZE → vb ≠ hi → lo ≤ vb < hi) as Hpage.
    { intros vb [_ Hb] Hr Hne. destruct Hva as [_ Ha]. unfold PGSIZE in *.
      apply Z.mod_divide in Ha, Hb; [|done..]. destruct Ha as [x ->], Hb as [y ->]. lia. }
    eapply (grown_grows _ _ _ _ _ hi); [lia|exact Hg|exact G| |..].
    + eapply (grows_nodup _ r); [exact G|]. by apply NoDup_cons in Hnd as [_ ?].
    + by intros p ?%elem_of_nil.
    + intros p. rewrite list_elem_of_singleton. split.
      * intros [->|(i & j & Hi & Hu5 & Hj & Hpi & ->)]; right.
        -- exists (PDX hi), (PTX hi). rewrite Hpte, decide_True, Hfr by auto with kernel.
           repeat (split; [auto with kernel|]). done.
        -- exists i, j. rewrite Hpte by done. case_decide as E; [|done]. destruct E as [-> ->].
           unfold entry in Hno'. congruence.
      * intros [Hin|(i & j & Hi & Hu5 & Hj & Hpi & ->)]; [by apply elem_of_nil in Hin|].
        rewrite Hpte in Hpi |- * by done. case_decide as E; [left; done|right]. by exists i, j.
    + intros vb Hvb Hr. rewrite He by done. case_decide as E; [right|left; split; [by apply Hpage|done]].
      subst vb. exists f. split; [apply Hsub; right; by left|]. split; [done|].
      split; [rewrite He by done; by rewrite decide_True|]. intros k Hkk. rewrite <-(Hz k Hkk).
      apply (g_mem _ _ _ _ _ _ G). apply (reserved_others pgdir (f :: r)); [done|done|done|by left|done|done].
    + intros vb Hvb Hr. rewrite He by done. unfold PGSIZE in Hr. rewrite decide_False by lia. split; [lia|done].
Qed.


(** ** Giving up *)

(** The mapped pages of the user half and the pages in use are as at [s0]. *)
Record restored (pgdir : Z) (r : list Z) (s0 : kstate) (l0 : list Z) (s : kstate) (l lk : list Z) : Prop := MkRestored {
  rs_pages : pages s l;
  rs_nodup : NoDup (lk ++ r ++ l);
  rs_wf : as_wf (k_mem s) pgdir (lk ++ r ++ l);
  rs_same : same_kernel s0 s;
  rs_sub p : p ∈ l ∨ p ∈ lk → p ∈ l0;
  rs_took p : p ∈ l0 ∨ owned (k_mem s0) pgdir p ↔ p ∈ l ∨ p ∈ lk ∨ owned (k_mem s) pgdir p;
  rs_user va : page_va va → va < KERNBASE → pres (entry (k_mem s) pgdir va) = pres (entry (k_mem s0) pgdir va) ∧
    (pres (entry (k_mem s0) pgdir va) = true → entry (k_mem s) pgdir va = entry (k_mem s0) pgdir va);
  rs_mem a : others (k_mem s0) pgdir l0 a → ld32 (k_mem s) a = ld32 (k_mem s0) a;
}.

Lemma shrink_back pgdir r s0 l0 lo hi newsz oldsz s l lk :
  lo = PGROUNDUP oldsz → 0 ≤ oldsz < newsz → newsz < KERNBASE → lo ≤ hi ≤ newsz →
  (∀ va, page_va va → lo ≤ va < newsz → pres (entry (k_mem s0) pgdir va) = false) →
  grown pgdir r s0 l0 lo hi s l lk →
  ∃ s' l', deallocuvm pgdir newsz oldsz s = Ret oldsz s' ∧ restored pgdir r s0 l0 s' l' lk.
Proof.
  intros -> Ho Hk Hhi Hno [Hp Hnd Hwf Hsk Hsub Ht Hnew Hold Hpde Htb Hm].
  destruct (deallocuvm_run s l pgdir (lk ++ r) newsz oldsz) as (s' & l' & Hrun & U); [done|by rewrite <-app_assoc|lia|lia|].
  exists s', l'. split; [done|]. pose proof U as [Up Uwf Uk Upde Upte Uf Um].
  assert (∀ va, page_va va → va_of (PDX va) (PTX va) = va) as Eva by (intros va [??]; by apply PDX_PTX_va).
  assert (∀ i j, idx i → idx j → PGROUNDUP oldsz ≤ va_of i j < newsz → pres (pte (k_mem s) pgdir i j) = true →
    i < 512 ∧ frame_of (pte (k_mem s) pgdir i j) ∈ l0 ∧
    (frame_of (pte (k_mem s) pgdir i j) ∉ lk ++ r ++ l) ∧ page_ok (frame_of (pte (k_mem s) pgdir i j))) as Hfreed.
  { intros i j Hi Hj Hr Hpr. assert (i < 512) as H5 by (unfold va_of, KERNBASE, idx in *; lia).
    destruct (pte_va i j Hi Hj H5) as [Hva Hvk]. destruct (va_of_PDX i j Hi Hj) as [E1 E2].
    assert (entry (k_mem s) pgdir (va_of i j) = pte (k_mem s) pgdir i j) as Ee by (unfold entry; by rewrite E1, E2).
    destruct (decide (va_of i j < hi)) as [Hlt|Hge].
    - destruct (Hnew _ Hva ltac:(lia)) as (g & Hg & Hgo & Hge & _). destruct (fresh_frame _ _ _ _ Hgo Hge) as [Hfr _].
      rewrite Ee in Hfr. rewrite Hfr. split; [done|]. split; [done|]. split; [|done].
      destruct (wf_frame _ _ _ Hwf i j Hi H5 Hj Hpr) as (_ & Hn & _). by rewrite Hfr in Hn.
    - rewrite <-Ee, Hold, Hno in Hpr; [done|done|lia|done|lia]. }
  assert (∀ p, p ∈ l' → p ∈ l0) as Hl'.
  { intros p Hpl. apply Uf in Hpl as [?|(i & j & Hi & Hj & Hr & Hpr & ->)]; [apply Hsub; by left|]. by apply Hfreed. }
  split.
  - done.
  - apply NoDup_app in Hnd as (N1 & N2 & N3). apply NoDup_app in N3 as (N3 & N4 & N5).
    destruct (pa_pages s' l' Up) as [Nl' _].
    assert (∀ p, p ∈ l' → (p ∉ lk) ∧ (p ∉ r)) as Hdis.
    { intros p Hpl. apply Uf in Hpl as [Hpl|(i & j & Hi & Hj & Hr & Hpr & ->)].
      - split; intros Hin; [apply (N2 p Hin), elem_of_app; by right|by apply (N4 p Hin)].
      - destruct (Hfreed i j Hi Hj Hr Hpr) as (_ & _ & Hn & _). rewrite !not_elem_of_app in Hn. tauto. }
    apply NoDup_app. split; [done|]. split.
    + intros p Hpk [Hpr|Hpl]%elem_of_app; [apply (N2 p Hpk), elem_of_app; by left|by apply (proj1 (Hdis p Hpl))].
    + apply NoDup_app. split; [done|]. split; [|done]. intros p Hpr Hpl. by apply (proj2 (Hdis p Hpl)).
  - by rewrite app_assoc.
  - by etrans.
  - intros p [Hpl|Hpl]; [by apply Hl'|]. apply Hsub. by right.
  - intros p. rewrite (Ht p), (Uf p). unfold owned.
    assert (is_tab (k_mem s') pgdir p ↔ is_tab (k_mem s) pgdir p) as ->.
    { unfold is_tab, tab. split; intros (k & Hkk & Hpk & ->); exists k; rewrite Upde in * by done; done. }
    assert (is_frame (k_mem s) pgdir p ↔ is_frame (k_mem s') pgdir p ∨ ∃ i j, idx i ∧ idx j ∧
      PGROUNDUP oldsz ≤ va_of i j < newsz ∧ pres (pte (k_mem s) pgdir i j) = true ∧ p = frame_of (pte (k_mem s) pgdir i j)) as ->.
    { split.
      - intros (i & j & Hi & H5 & Hj & Hpr & ->).
        destruct (decide (PGROUNDUP oldsz ≤ va_of i j < newsz)) as [Hr|Hr]; [right; by exists i, j|].
        left. exists i, j. rewrite Upte, decide_False by tauto. done.
      - intros [(i & j & Hi & H5 & Hj & Hpr & ->)|(i & j & Hi & Hj & Hr & Hpr & ->)].
        + exists i, j. rewrite Upte in Hpr |- * by done. case_decide; [done|]. done.
        + exists i, j. destruct (Hfreed i j Hi Hj Hr Hpr) as (H5 & _). done. }
    tauto.
  - intros va Hva Hvk. unfold entry at 1 4. rewrite Upte by auto with kernel. rewrite (Eva va Hva).
    fold (entry (k_mem s) pgdir va). case_decide as E.
    + destruct E as [Hr _]. rewrite Hno by done. by split.
    + destruct (decide (PGROUNDUP oldsz ≤ va < newsz)) as [Hr|Hr].
      * rewrite Hno by done. split; [|done]. apply not_true_is_false. intros Hpr. by apply E.
      * rewrite Hold by (done || lia). done.
  - intros a Ha. rewrite Um; [by apply Hm|]. destruct Ha as (H4 & Hd & Hl & Hta). split; [done|]. split; [done|]. split.
    + intros p Hpl. apply Hl. by apply Hl'.
    + intros k Hkk Hpr. destruct (Htb k Hkk Hpr) as [[? ->]|?]; [by apply Hta|by apply Hl].
Qed.

(** [kfree] of the page that could not be mapped. *)
Lemma restored_free pgdir r s0 l0 s l f :
  restored pgdir r s0 l0 s l [f] → page_ok f →
  ∃ s', kfree f s = Ret tt s' ∧ restored pgdir r s0 l0 s' (f :: l) [].
Proof.
  intros [Hp Hnd Hwf Hk Hsub Ht Hu Hm] Hf. simpl in Hnd, Hwf.
  assert (f ∉ l) as Hfl by (apply NoDup_cons in Hnd as [Hn _]; intros ?; apply Hn, elem_of_app; by right).
  destruct (pa_free s f l Hp Hf Hfl) as (s' & Hrun & Hp' & Hk' & Hw). exists s'. split; [done|].
  destruct (wf_dir _ _ _ Hwf) as [Hd Hdl]. apply not_elem_of_cons in Hdl as [Hdf _].
  destruct (tables_unchanged (k_mem s) (k_mem s') pgdir _ Hwf) as [E1 E2].
  { intros a H4 Ha. apply Hw; [done|]. by apply (pages_disjoint pgdir). }
  { intros i a Hi Hpr H4 Ha. destruct (wf_tab _ _ _ Hwf i Hi Hpr) as (? & Hn & _).
    apply not_elem_of_cons in Hn as [? _]. apply Hw; [done|]. by apply (pages_disjoint (tab (k_mem s) pgdir i)). }
  assert (∀ va, entry (k_mem s') pgdir va = entry (k_mem s) pgdir va) as E by (intros va; apply E2; auto with kernel).
  split; simpl.
  - done.
  - by rewrite <-Permutation_middle.
  - eapply as_wf_ext; [exact Hwf| |done|done].
    intros p. rewrite !elem_of_cons, !elem_of_app, !elem_of_cons. tauto.
  - by etrans.
  - intros p [Hpl|Hpl]; [|by apply elem_of_nil in Hpl]. apply Hsub. rewrite list_elem_of_singleton.
    apply elem_of_cons in Hpl. tauto.
  - intros p. rewrite (Ht p), (owned_ext (k_mem s) (k_mem s')) by done. rewrite !elem_of_cons, elem_of_nil. tauto.
  - intros va Hva Hvk. rewrite E. by apply Hu.
  - intros a Ha. rewrite Hw; [by apply Hm|apply Ha|]. destruct Ha as (_ & _ & Hl & _). apply Hl, Hsub. right. by left.
Qed.

(** ** The loop *)

Lemma same_kernel_print out s : same_kernel s (upd_k_console (λ o, o ++ out) (csync s)).
Proof.
  unfold csync. destruct (k_cons_locking s); [|done]. etrans; [apply same_kernel_sync|done].
Qed.

Lemma grown_print pgdir r s0 l0 lo hi s l lk fmt args out :
  grown pgdir r s0 l0 lo hi s l lk → cons_ready s0 → format (chars fmt) args = Some out →
  ∃ s', cprintf fmt args s = Ret tt s' ∧ grown pgdir r s0 l0 lo hi s' l lk.
Proof.
  intros Hg Hc Hf. eexists. split; [apply cprintf_ok; [|exact Hf]|].
  - by rewrite <-(gr_same _ _ _ _ _ _ _ _ _ Hg).
  - eapply grown_frame; [exact Hg| |apply same_kernel_print|].
    + unfold csync. by destruct (k_cons_locking s).
    + eapply pages_frame; [apply Hg| | |apply same_kernel_print]; unfold csync; by destruct (k_cons_locking s).
Qed.

Lemma format_stack_size n : ∃ out, format (chars ("Stack Size: %d" +:+ nl)) [AInt n] = Some out.
Proof. eexists. reflexivity. Qed.

(** The result of the loop: all pages mapped, or everything as before. *)
Definition alloc_done pgdir r s0 l0 lo newsz (o : outcome kstate Z) : Prop :=
  ∃ s' l' rc, o = Ret rc s' ∧
    (rc = newsz ∧ grown pgdir r s0 l0 lo (Z.max lo newsz) s' l' [] ∨
     rc = 0 ∧ restored pgdir r s0 l0 s' l' []).

Section loop.
Context (pgdir : Z) (r : list Z) (s0 : kstate) (l0 : list Z) (oldsz newsz : Z) (pr : proc).
Context (Hcons : cons_ready s0) (Hcur : curproc s0 = Some pr) (Hold : 0 ≤ oldsz < newsz) (Hnew : newsz < KERNBASE).
Context (Hfree : ∀ va, page_va va → PGROUNDUP oldsz ≤ va < newsz → pres (entry (k_mem s0) pgdir va) = false).

Lemma out_of_memory a s l :
  PGROUNDUP oldsz ≤ a ≤ newsz → grown pgdir r s0 l0 (PGROUNDUP oldsz) a s l [] →
  alloc_done pgdir r s0 l0 (PGROUNDUP oldsz) newsz
    ((cprintf ("allocuvm out of memory" +:+ nl) [];;
      p ← myproc;
      match p with
      | None => undef
      | Some i =>
          pr ← deref (λ s, k_procs s !! i);
          cprintf ("Stack Size: %d" +:+ nl) [AInt (p_stackSize pr)];;
          deallocuvm pgdir newsz oldsz;;
          mret 0
      end) s).
Proof.
  intros Ha Hg. destruct (grown_print _ _ _ _ _ _ _ _ _ ("allocuvm out of memory" +:+ nl) [] _ Hg Hcons eq_refl) as (s1 & Hrun1 & Hg1). mrun Hrun1.
  destruct (same_kernel_curproc _ _ (gr_same _ _ _ _ _ _ _ _ _ Hg1)) as (Ec & _ & Ew).
  mrun (myproc_ok s1 (proj1 Ew (proj1 Hcons))).
  rewrite Hcur in Ec. unfold curproc in Ec. destruct (c_proc (k_cpu s1)) as [j|]; [|done]. symmetry in Ec.
  rewrite (bind_deref (λ s, k_procs s !! j) _ (sync s1) pr Ec).
  assert (grown pgdir r s0 l0 (PGROUNDUP oldsz) a (sync s1) l []) as Hg2.
  { eapply grown_frame; [exact Hg1|done|apply same_kernel_sync|].
    eapply pages_frame; [apply Hg1|done|done|apply same_kernel_sync]. }
  destruct (format_stack_size (p_stackSize pr)) as (out & Hout).
  destruct (grown_print _ _ _ _ _ _ _ _ _ _ _ _ Hg2 Hcons Hout) as (s3 & Hrun3 & Hg3). mrun Hrun3.
  edestruct shrink_back as (s4 & l4 & Hrun4 & Hr); [reflexivity|exact Hold|done|exact Ha|done|exact Hg3|].
  mrun Hrun4. exists s4, l4, 0. split; [done|]. by right.
Qed.

Lemma cannot_map a s l f :
  PGROUNDUP oldsz ≤ a ≤ newsz → page_ok f → grown pgdir r s0 l0 (PGROUNDUP oldsz) a s l [f] →
  alloc_done pgdir r s0 l0 (PGROUNDUP oldsz) newsz
    ((cprintf ("allocuvm out of memory (2)" +:+ nl) [];; deallocuvm pgdir newsz oldsz;; kfree f;; mret 0) s).
Proof.
  intros Ha Hf Hg. destruct (grown_print _ _ _ _ _ _ _ _ _ ("allocuvm out of memory (2)" +:+ nl) [] _ Hg Hcons eq_refl) as (s1 & Hrun1 & Hg1). mrun Hrun1.
  edestruct shrink_back as (s2 & l2 & Hrun2 & Hr); [reflexivity|exact Hold|done|exact Ha|done|exact Hg1|].
  mrun Hrun2. destruct (restored_free _ _ _ _ _ _ _ Hr Hf) as (s3 & Hrun3 & Hr3). mrun Hrun3.
  exists s3, (f :: l2), 0. split; [done|]. by right.
Qed.

Lemma grown_end a s l :
  page_va a → PGROUNDUP oldsz ≤ a → newsz ≤ a < newsz + PGSIZE →
  grown pgdir r s0 l0 (PGROUNDUP oldsz) a s l [] →
  grown pgdir r s0 l0 (PGROUNDUP oldsz) (Z.max (PGROUNDUP oldsz) newsz) s l [].
Proof.
  intros [_ Ha] Hlo Hr [? ? ? ? ? ? Hn Ho ? ? ?].
  assert (∀ va, page_va va → PGROUNDUP oldsz ≤ va < Z.max (PGROUNDUP oldsz) newsz ↔ PGROUNDUP oldsz ≤ va < a) as E.
  { intros va [_ Hv]. unfold PGSIZE in *. apply Z.mod_divide in Ha, Hv; [|done..].
    destruct Ha as [x ->], Hv as [y ->]. lia. }
  split; auto; intros va Hv; rewrite E by done; auto.
Qed.

Lemma allocuvm_loop_ok fuel : ∀ a s l,
  page_va a → PGROUNDUP oldsz ≤ a → a < newsz + PGSIZE → newsz - a < Z.of_nat fuel * PGSIZE →
  grown pgdir r s0 l0 (PGROUNDUP oldsz) a s l [] →
  alloc_done pgdir r s0 l0 (PGROUNDUP oldsz) newsz (allocuvm_loop fuel pgdir a oldsz newsz s).
Proof.
  induction fuel as [|fuel IH]; intros a s l Hva Hlo Hhi Hfuel Hg; cbn [allocuvm_loop];
    destruct (Z.ltb_spec a newsz) as [Hlt|Hge]; try (unfold PGSIZE in *; lia).
  1,3: exists s, l, newsz; split; [done|]; left; split; [done|]; by eapply grown_end.
  pose proof Hg as [Hp Hnd Hwf _ _ _ _ _ _ _ _].
  destruct l as [|f l].
  - destruct (pa_alloc_none s Hp) as (s1 & Hrun & Hp1 & Hm1 & Hk1). mrun Hrun.
    apply (out_of_memory a s1 []); [lia|]. by eapply grown_frame.
  - destruct (pa_alloc s f l Hp) as (s1 & Hrun & Hp1 & Hm1 & Hk1). mrun Hrun.
    destruct (pa_pages s _ Hp) as [_ Hok]. inversion Hok as [|? ? Hf _]; subst.
    destruct (Z.eqb_spec f 0) as [E|_]; [by apply page_ok_nonzero in E|]. msteps.
    pose proof (grown_alloc _ _ _ _ _ _ _ _ _ _ Hg Hm1 Hk1 Hp1) as Hg1.
    assert (a ≤ KERNBASE) as Hak by lia.
    pose proof (grown_write _ _ _ _ _ _ _ _ _ (memset (k_mem s1) f 0 PGSIZE) Hak Hg1 Hf) as Hg2.
    destruct (grown_map pgdir r s0 l0 (PGROUNDUP oldsz) a (upd_k_mem (λ _, memset (k_mem s1) f 0 PGSIZE) s1) l f)
      as (s3 & l3 & rc & Hrun3 & Hc); auto with lia.
    { apply Hg2. intros b H4 Hb. rewrite ld32_zero_page by done. by rewrite decide_False. }
    { intros k Hk. simpl. rewrite ld32_zero_page, decide_True; [done|by apply idx_in_page|done|by apply idx_aligned]. }
    change (upd_k_mem (λ m, memset m f 0 PGSIZE) s1) with (upd_k_mem (λ _, memset (k_mem s1) f 0 PGSIZE) s1).
    mrun Hrun3. destruct Hc as [[-> Hc]|[-> Hc]]; cbn [Z.ltb Z.compare].
    + apply (cannot_map a s3 l3 f); [lia|done|done].
    + destruct Hva as [[Hx Hx'] Hy]. rewrite u32_small by (unfold two32, KERNBASE, PGSIZE in *; lia).
      apply (IH _ s3 l3); [|unfold PGSIZE in *; lia..|done]. unfold PGSIZE in *. split.
      * unfold is_u32, KERNBASE, two32 in *. lia.
      * unfold PGSIZE. by rewrite Z.add_mod, Hy by done.
Qed.
End loop.

Lemma grown_refl pgdir r s l lo :
  pages s l → NoDup (r ++ l) → as_wf (k_mem s) pgdir (r ++ l) → grown pgdir r s l lo lo s l [].
Proof.
  intros Hp Hnd Hwf. split; simpl; try done; intros *.
  - by intros [?|?%elem_of_nil].
  - rewrite elem_of_nil. tauto.
  - lia.
  - by left.
Qed.

Lemma allocuvm_run s l pgdir r oldsz newsz pr :
  pages s l → NoDup (r ++ l) → as_wf (k_mem s) pgdir (r ++ l) → cons_ready s → curproc s = Some pr →
  0 ≤ oldsz ≤ newsz → newsz < KERNBASE →
  (∀ va, page_va va → PGROUNDUP oldsz ≤ va < newsz → pres (entry (k_mem s) pgdir va) = false) →
  alloc_done pgdir r s l (PGROUNDUP oldsz) newsz (allocuvm pgdir oldsz newsz s).
Proof.
  intros Hp Hnd Hwf Hc Hcur Ho Hk Hfree. unfold allocuvm.
  destruct (Z.leb_spec KERNBASE newsz); [lia|]. destruct (Z.ltb_spec newsz oldsz); [lia|].
  destruct (PGROUNDUP_bounds oldsz) as (k & Ek & Hb); [unfold two32, KERNBASE, PGSIZE in *; lia|].
  pose proof (grown_refl pgdir r s l (PGROUNDUP oldsz) Hp Hnd Hwf) as Hg.
  assert (page_va (PGROUNDUP oldsz)) as Hva.
  { split; [unfold is_u32, two32, KERNBASE, PGSIZE in *; lia|]. rewrite Ek. unfold PGSIZE. rewrite Z.mul_comm. apply Z_mod_mult. }
  cbn zeta. destruct (decide (oldsz = newsz)) as [->|Hne].
  - cbn [allocuvm_loop]. destruct (Z.ltb_spec (PGROUNDUP newsz) newsz); [lia|].
    exists s, l, newsz. split; [done|]. left. split; [done|]. by rewrite Z.max_l by lia.
  - eapply allocuvm_loop_ok; try done; [lia|unfold PGSIZE in *; lia|].
    unfold PGSIZE in *. pose proof (Z.div_mod (newsz - PGROUNDUP oldsz) 4096 ltac:(lia)).
    pose proof (Z.mod_pos_bound (newsz - PGROUNDUP oldsz) 4096 ltac:(lia)). lia.
Qed.
End allocuvm.
