(* ===== verification/VmProps.v ===== *)
(** VmProps: properties of address spaces, for the allocator of [kalloc.c]. *)

From S2P Require Import Prelude Layout State Mem Spinlock Console Kalloc Vm PageTable AddressSpace Unmap KernelMap CopyUvm AllocUvm.

(** C15.  [freevm] returns every page of an address space - the frames of the
    user half, the page tables and the directory - to the free list, and
    nothing else; memory outside the free pages and the kernel's variables are
    unchanged.  (The freed pages were distinct, so no page is freed twice.) *)
Theorem freevm_frees_all {KI : KernelImage} s l pgdir r :
  allocator s l → as_wf (k_mem s) pgdir (r ++ l) →
  ∃ s' l', freevm pgdir s = Ret tt s' ∧ allocator s' l' ∧ same_kernel s s' ∧ NoDup l' ∧
    (∀ p, p ∈ l' ↔ p ∈ l ∨ owned (k_mem s) pgdir p) ∧
    ∀ a, a mod 4 = 0 → (∀ p, p ∈ l' → ¬ in_page p a) → ld32 (k_mem s') a = ld32 (k_mem s) a.
Proof.
  intros Ha Hwf. destruct (freevm_run (pages := allocator) s l pgdir r Ha Hwf) as (s' & l' & Hrun & Ha' & Hk & Hl & Hm).
  exists s', l'. split; [done|]. split; [done|]. split; [done|]. split; [apply (pa_pages s' l' Ha')|]. done.
Qed.

Lemma freevm_frees_all_witness :
  ∃ s' l', @freevm kernel_sym CopyExample.pgdir CopyExample.state = Ret tt s' ∧
    @allocator kernel_sym s' l' ∧ same_kernel CopyExample.state s' ∧ NoDup l' ∧
    (∀ p, p ∈ l' ↔ p ∈ [CopyExample.free] ∨ owned (k_mem CopyExample.state) CopyExample.pgdir p) ∧
    ∀ a, a mod 4 = 0 → (∀ p, p ∈ l' → ¬ in_page p a) → ld32 (k_mem s') a = ld32 (k_mem CopyExample.state) a.
Proof.
  apply (@freevm_frees_all kernel_sym CopyExample.state [CopyExample.free] CopyExample.pgdir []).
  - apply CopyExample.state_parent.
  - apply CopyExample.mem_wf.
Defined.

(** C16.  [setupkvm] returns either a new directory that maps all the
    ranges of [kmap] (every page of every range, with its permissions) and no
    user page, built from pages that were free; or 0, with every page it took
    back on the free list.  The [freevm] on its error path succeeds. *)
Theorem setupkvm_maps_kernel {KI : KernelImage} s l r :
  allocator s l → NoDup (r ++ l) →
  ∃ s' l' d, setupkvm s = Ret d s' ∧
    ((page_ok d ∧ building (pages := allocator) d r s l s' l' ∧ Forall (maps_range (k_mem s') d) kmap) ∨
     (d = 0 ∧ given_back (pages := allocator) s l s' l')).
Proof. apply (setupkvm_run (pages := allocator)). Qed.

Lemma setupkvm_maps_kernel_witness :
  ∃ s' l' d, @setupkvm kernel_sym CopyExample.state = Ret d s' ∧
    ((@page_ok kernel_sym d ∧ @building kernel_sym (@allocator kernel_sym) d [] CopyExample.state [CopyExample.free] s' l' ∧
      Forall (maps_range (k_mem s') d) (@kmap kernel_sym)) ∨
     (d = 0 ∧ @given_back (@allocator kernel_sym) CopyExample.state [CopyExample.free] s' l')).
Proof.
  apply (@setupkvm_maps_kernel kernel_sym CopyExample.state [CopyExample.free] []).
  - apply CopyExample.state_parent.
  - apply NoDup_singleton.
Defined.

(** C14.  [allocuvm] of a range with no page mapped always returns.  Either it
    returns the new size with every page of the range mapped, writable
    by the user, to a distinct page of zeroes that was free, and every other
    entry as before; or it returns 0 with the pages present in the user half
    as before and no page lost, even when [mappages] failed half-way.  In both cases memory
    outside the address space's tables and the free pages is unchanged. *)
Theorem allocuvm_grows {KI : KernelImage} s l pgdir r oldsz newsz pr :
  allocator s l → NoDup (r ++ l) → as_wf (k_mem s) pgdir (r ++ l) → cons_ready s → curproc s = Some pr →
  0 ≤ oldsz ≤ newsz → newsz < KERNBASE →
  (∀ va, page_va va → PGROUNDUP oldsz ≤ va < newsz → pres (entry (k_mem s) pgdir va) = false) →
  ∃ s' l' rc, allocuvm pgdir oldsz newsz s = Ret rc s' ∧
    (rc = newsz ∧ grown (pages := allocator) pgdir r s l (PGROUNDUP oldsz) (Z.max (PGROUNDUP oldsz) newsz) s' l' [] ∨
     rc = 0 ∧ restored (pages := allocator) pgdir r s l s' l' []).
Proof. apply (allocuvm_run (pages := allocator)). Qed.

Lemma allocuvm_grows_witness :
  ∃ s' l' rc, @allocuvm kernel_sym CopyExample.pgdir 4096 12288 CopyExample.state = Ret rc s' ∧
    (rc = 12288 ∧ @grown kernel_sym (@allocator kernel_sym) CopyExample.pgdir [] CopyExample.state [CopyExample.free]
       (PGROUNDUP 4096) (Z.max (PGROUNDUP 4096) 12288) s' l' [] ∨
     rc = 0 ∧ @restored kernel_sym (@allocator kernel_sym) CopyExample.pgdir [] CopyExample.state [CopyExample.free] s' l' []).
Proof.
  apply (@allocuvm_grows kernel_sym CopyExample.state [CopyExample.free] CopyExample.pgdir [] 4096 12288 CopyExample.pr).
  - apply CopyExample.state_parent.
  - apply NoDup_singleton.
  - apply CopyExample.mem_wf.
  - split; [split; [done|discriminate]|done].
  - reflexivity.
  - lia.
  - reflexivity.
  - intros va [[H0 Hu] Ha] Hr. change (PGROUNDUP 4096) with 4096 in Hr. unfold entry. simpl.
    rewrite CopyExample.mem_pte by auto using PDX_idx, PTX_idx. rewrite decide_False; [done|].
    intros [E1 E2]. assert (va = 0) as E; [|lia]. rewrite <-(PDX_PTX_va va) by done. by rewrite E1, E2.
Defined.
