(* ===== verification/CString.v ===== *)
(** CString: the string functions of [string.c].

    A [char*] is the list of the bytes from the address to the end of the
    object it points into; reading past that end is [None].  A function that
    writes returns the new contents of its destination. *)

From S2P Require Import Prelude.

(** [while(n > 0 && *p && *p == *q) n--, p++, q++;] *)
Fixpoint strncmp (p q : list Z) (n : nat) {struct n} : option Z :=
  match n with
  | O => Some 0
  | S n =>
      match p, q with
      | a :: p, b :: q => if negb (a =? 0) && (a =? b) then strncmp p q n else Some (u8 a - u8 b)
      | _, _ => None
      end
  end.

(** The [n] bytes [strncpy] stores. *)
Fixpoint strncpy (t : list Z) (n : nat) {struct n} : option (list Z) :=
  match n with
  | O => Some []
  | S n =>
      match t with
      | [] => None
      | c :: t => if negb (c =? 0) then cons c <$> strncpy t n else Some (0 :: replicate n 0)
      end
  end.

(** [while(--n > 0 && ( *s++ = *t++) != 0); *s = 0;], for [n] at least 1. *)
Fixpoint safestrcpy_loop (s t : list Z) (n : nat) {struct n} : option (list Z) :=
  match n with
  | O => match s with [] => None | _ :: s => Some (0 :: s) end
  | S n =>
      match s, t with
      | _ :: s, c :: t =>
          if negb (c =? 0) then cons c <$> safestrcpy_loop s t n
          else match s with [] => None | _ :: s => Some (c :: 0 :: s) end
      | _, _ => None
      end
  end.

Definition safestrcpy (s t : list Z) (n : Z) : option (list Z) :=
  if n <=? 0 then Some s else safestrcpy_loop s t (Z.to_nat n - 1).

Fixpoint strlen (s : list Z) : option Z :=
  match s with
  | [] => None
  | c :: s => if c =? 0 then Some 0 else Z.add 1 <$> strlen s
  end.

(** ** What they compute *)

(** The string an array holds: the bytes before the first NUL. *)
Fixpoint cstr (l : list Z) : list Z :=
  match l with
  | [] => []
  | c :: l => if c =? 0 then [] else c :: cstr l
  end.

Definition terminated (l : list Z) : Prop := 0 ∈ l.

Lemma cstr_no_nul l : 0 ∉ cstr l.
Proof.
  induction l as [|c l IH]; simpl; [set_solver|]. destruct (Z.eqb_spec c 0); [set_solver|].
  rewrite not_elem_of_cons. auto.
Qed.

Lemma cstr_length l : (length (cstr l) ≤ length l)%nat.
Proof. induction l as [|c l IH]; simpl; [lia|]. destruct (c =? 0); simpl; lia. Qed.

Lemma cstr_terminated_length l : terminated l → (length (cstr l) < length l)%nat.
Proof.
  unfold terminated. induction l as [|c l IH]; intros Ht; [by apply elem_of_nil in Ht|]. simpl.
  destruct (Z.eqb_spec c 0); simpl; [lia|]. apply elem_of_cons in Ht as [Ht|Ht]; [by subst|].
  specialize (IH Ht). lia.
Qed.

Lemma strlen_cstr l : terminated l → strlen l = Some (Z.of_nat (length (cstr l))).
Proof.
  unfold terminated. induction l as [|c l IH]; simpl; [set_solver|].
  destruct (Z.eqb_spec c 0) as [->|Hc]; [done|].
  intros [?|Hin]%elem_of_cons; [congruence|]. rewrite (IH Hin). simpl. f_equal. lia.
Qed.

(** [strncmp] is 0 exactly when the strings agree up to [n] bytes. *)
Lemma strncmp_eq n : ∀ p q,
  Forall (λ c, 0 ≤ c < 256) p → Forall (λ c, 0 ≤ c < 256) q →
  (terminated p ∨ (n ≤ length p)%nat) → (terminated q ∨ (n ≤ length q)%nat) →
  ∃ r, strncmp p q n = Some r ∧ (r = 0 ↔ take n (cstr p) = take n (cstr q)).
Proof.
  unfold terminated. induction n as [|n IH]; intros p q Hp Hq Tp Tq; simpl.
  { exists 0. split; [done|]. by rewrite !take_0. }
  destruct p as [|a p], q as [|b q]; simpl in *.
  1,2: destruct Tp as [?%elem_of_nil|?]; done || lia.
  1: destruct Tq as [?%elem_of_nil|?]; done || lia.
  inversion Hp; inversion Hq; subst. cbn [cstr].
  destruct (Z.eqb_spec a 0) as [->|Ha]; simpl.
  - exists (u8 0 - u8 b). split; [done|]. unfold u8. rewrite !Z.mod_small by lia.
    destruct (Z.eqb_spec b 0) as [->|Hb]; [done|]. simpl. split; [lia|done].
  - destruct (Z.eqb_spec a b) as [->|Hab].
    + destruct (Z.eqb_spec b 0) as [?|Hb]; [done|].
      destruct (IH p q) as (r & Hr & Hiff); auto.
      * destruct Tp as [[?|?]%elem_of_cons|?]; [congruence|by left|right; lia].
      * destruct Tq as [[?|?]%elem_of_cons|?]; [congruence|by left|right; lia].
      * exists r. split; [done|]. rewrite Hiff. simpl. split; [congruence|by intros [= ?]].
    + exists (u8 a - u8 b). split; [done|]. unfold u8. rewrite !Z.mod_small by lia.
      destruct (Z.eqb_spec b 0) as [->|Hb]; simpl; (split; [lia|]); [done|]. intros [= ?]. congruence.
Qed.

(** [strncpy] stores the string cut at [n] bytes, padded with NULs. *)
Lemma strncpy_cstr n : ∀ t,
  (terminated t ∨ (n ≤ length t)%nat) →
  strncpy t n = Some (take n (cstr t) ++ replicate (n - length (cstr t)) 0).
Proof.
  unfold terminated. induction n as [|n IH]; intros t Ht; simpl; [done|].
  destruct t as [|c t]; simpl in *; [destruct Ht as [?%elem_of_nil|?]; [done|lia]|].
  destruct (Z.eqb_spec c 0) as [->|Hc]; simpl; [done|].
  rewrite IH; [done|]. destruct Ht as [[?|?]%elem_of_cons|?]; [congruence|by left|right; lia].
Qed.

(** [safestrcpy] always leaves a NUL-terminated prefix of the string. *)
Lemma safestrcpy_loop_cstr n : ∀ s t,
  terminated t → (n < length s)%nat → ∃ s', safestrcpy_loop s t n = Some s' ∧
    length s' = length s ∧ cstr s' = take n (cstr t) ∧ terminated s'.
Proof.
  unfold terminated. induction n as [|n IH]; intros s t Ht Hs; destruct s as [|x s]; simpl in *; try lia.
  - exists (0 :: s). split; [done|]. split; [done|]. split; [done|by left].
  - destruct t as [|c t]; [by apply elem_of_nil in Ht|]. simpl. destruct (Z.eqb_spec c 0) as [->|Hc]; simpl.
    + destruct s as [|y s]; simpl in *; [lia|]. eexists. split; [done|]. split; [done|]. split; [done|by left].
    + destruct (IH s t) as (s' & Hrun & Hl & Hc' & Ht'); [|lia|].
      { apply elem_of_cons in Ht as [?|?]; [congruence|done]. }
      rewrite Hrun. simpl. eexists. split; [done|]. simpl. rewrite Hl. split; [done|].
      destruct (Z.eqb_spec c 0); [done|]. split; [by rewrite Hc'|by right].
Qed.
