(* ===== verification/Sched.v ===== *)
(** Sched: giving the CPU away and being woken up, [sched], [yield],
    [sleep], [wakeup] of [proc.c].

    [swtch] leaves this kernel thread and comes back when some scheduler
    picks it again; what the machine does in between is the parameter
    [env_resume], and [None] stands for a process that never runs again.
    [sleep_ok] is [sleep] under the only lock the caller holds: the thread
    goes to sleep with [ptable.lock] instead of its own lock, and comes back
    with its own lock. *)

From S2P Require Import Prelude Layout State Spinlock.

(** The rest of the machine, seen from one kernel thread. *)
Class Env := {
  env_resume : kstate → option kstate;        (** from [swtch] into the scheduler until resumed *)
  env_run : nat → kstate → option kstate;     (** from [swtch] into a process until it calls [sched] *)
  env_turns : nat;                            (** how many wake-ups a waiting loop is followed for *)
}.

Section sched.
Context {ENV : Env}.

Definition swtch : K unit := λ s, match env_resume s with Some s' => Ret tt s' | None => Sleep s end.

(** Dereferencing a [struct proc*]. *)
Definition proc_at (p : option nat) : K proc := deref (λ s, p ≫= λ i, k_procs s !! i).
Definition set_proc (i : nat) (f : proc → proc) : K unit := modify (upd_k_procs (alter f i)).

Definition pinit : K unit := initlock L_ptable.

Definition sched : K unit :=
  p ← myproc;
  h ← holding L_ptable;
  if negb h then panic "sched ptable.lock" else
  c ← mycpu;
  if negb (c_ncli c =? 1) then panic "sched locks" else
  pr ← proc_at p;
  if bool_decide (p_state pr = RUNNING) then panic "sched running" else
  eflags ← readeflags;
  if negb (Z.land eflags FL_IF =? 0) then panic "sched interruptible" else
  c ← mycpu;
  let intena := c_intena c in
  swtch;;
  mycpu;;
  modify (upd_k_cpu (upd_c_intena (λ _, intena))).

Definition yield : K unit :=
  acquire L_ptable;;
  p ← myproc;
  match p with
  | None => undef
  | Some i => set_proc i (upd_p_state (λ _, RUNNABLE))
  end;;
  sched;;
  release L_ptable.

Definition sleep (ch : chan) (lk : option lockref) : K unit :=
  p ← myproc;
  match p with
  | None => panic "sleep"
  | Some i =>
      match lk with
      | None => panic "sleep without lk"
      | Some lk =>
          whenb (bool_decide (lk ≠ L_ptable)) (acquire L_ptable;; release lk);;
          set_proc i (upd_p_chan (λ _, Some ch));;
          set_proc i (upd_p_state (λ _, SLEEPING));;
          sched;;
          set_proc i (upd_p_chan (λ _, None));;
          whenb (bool_decide (lk ≠ L_ptable)) (release L_ptable;; acquire lk)
      end
  end.

(** What [wakeup1] does to one slot of the table. *)
Definition wake (ch : option chan) (p : proc) : proc :=
  if bool_decide (p_state p = SLEEPING) && bool_decide (p_chan p = ch)
  then upd_p_state (λ _, RUNNABLE) p else p.

Definition wakeup1 (ch : option chan) : K unit := modify (upd_k_procs (map (wake ch))).

Definition wakeup (ch : chan) : K unit :=
  acquire L_ptable;;
  wakeup1 (Some ch);;
  release L_ptable.

(** ** Effect *)

Lemma wakeup_ok ch s :
  cpu_wf (k_cpu s) → k_locks s !! L_ptable = None →
  wakeup ch s = Ret tt (upd_k_procs (map (wake (Some ch))) (sync s)).
Proof.
  intros Hwf Hl. unfold wakeup, wakeup1. erewrite bind_Ret; [|by apply acquire_ok]. cbn beta. msteps.
  erewrite release_ok; [|exact Hwf|done|simpl; by rewrite lookup_insert_eq].
  unfold upd_k_locks, upd_k_cpu, upd_k_procs, sync. simpl. by rewrite delete_insert_eq, delete_id.
Qed.

(** Inside a [pushcli] section [myproc] leaves the CPU as it is. *)
Lemma myproc_pushed s c :
  cpu_wf c → k_cpu s = push c → myproc s = Ret (c_proc c) s.
Proof.
  intros Hwf Hc. rewrite myproc_ok by (rewrite Hc; by apply push_wf). rewrite Hc. f_equal.
  apply kstate_eq; try reflexivity. simpl. rewrite Hc. by apply cpu_sync_push.
Qed.

Lemma holding_own l s c :
  k_cpu s = push c → k_locks s !! l = Some (c_id c) → holding l s = Ret true s.
Proof.
  intros Hc Hl. unfold holding. msteps. rewrite Hl. erewrite bind_Ret; [|apply mycpu_ok; by rewrite Hc].
  rewrite Hc. unfold mret, M_ret. simpl. by rewrite Z.eqb_refl.
Qed.

(** [sched], holding [ptable.lock] and nothing else: the thread stops, and
    runs again when the machine resumes it. *)
Lemma sched_ok s s' c i pr :
  cpu_wf c → c_ncli c = 0 → k_cpu s = push c → k_locks s !! L_ptable = Some (c_id c) →
  c_proc c = Some i → k_procs s !! i = Some pr → p_state pr ≠ RUNNING →
  env_resume s = Some s' → k_cpu s' = push c → sched s = Ret tt s'.
Proof.
  intros Hwf H0 Hc Hl Hi Hpr Hst Hres Hc'. unfold sched. mrun (myproc_pushed s c Hwf Hc).
  mrun (holding_own L_ptable s c Hc Hl). cbn [negb]. erewrite bind_Ret; [|apply mycpu_ok; by rewrite Hc].
  rewrite Hc. cbn [push c_ncli upd_c_ncli upd_c_intena upd_c_if]. rewrite H0. cbn beta iota.
  change (negb (1 + 0 =? 1)) with false. cbn beta iota.
  unfold proc_at. rewrite (bind_deref _ _ _ pr) by (by rewrite Hi). rewrite bool_decide_false by done.
  unfold readeflags. msteps. rewrite Hc.
  change (negb (Z.land (if c_if (push c) then FL_IF else 0) FL_IF =? 0)) with false. cbn beta iota.
  erewrite bind_Ret; [|apply mycpu_ok; by rewrite Hc]. cbn zeta.
  unfold swtch. unfold mbind at 1, M_bind at 1. rewrite Hres.
  erewrite bind_Ret; [|apply mycpu_ok; by rewrite Hc']. unfold modify. f_equal.
  apply kstate_eq; try reflexivity. simpl. by rewrite Hc', Hc.
Qed.

(** The machine when [sleep] calls [sched]: the process sleeps on [ch], and
    [ptable.lock] is held in place of the caller's lock. *)
Definition asleep (ch : chan) (lk : lockref) (i : nat) (c : cpu) (s : kstate) : kstate :=
  upd_k_procs (alter (upd_p_state (λ _, SLEEPING)) i) (upd_k_procs (alter (upd_p_chan (λ _, Some ch)) i)
    (upd_k_locks (delete lk) (upd_k_cpu (λ _, push c) (locked L_ptable s)))).

(** The machine when [sleep] returns, resumed in [s]. *)
Definition awake (lk : lockref) (i : nat) (c : cpu) (s : kstate) : kstate :=
  locked lk (upd_k_locks (delete L_ptable) (upd_k_cpu (λ _, cpu_sync c) (upd_k_procs (alter (upd_p_chan (λ _, None)) i) s))).

Lemma asleep_locks ch lk i c s :
  k_cpu s = push c → lk ≠ L_ptable → k_locks s = {[lk := c_id c]} → k_locks (asleep ch lk i c s) = {[L_ptable := c_id c]}.
Proof.
  intros Hc Hne Hl. simpl. rewrite Hl, Hc. apply map_eq. intros k. simpl.
  destruct (decide (k = lk)) as [->|]; [by rewrite lookup_delete_eq, lookup_singleton_ne|].
  rewrite lookup_delete_ne by done. destruct (decide (k = L_ptable)) as [->|].
  - by rewrite lookup_insert_eq, lookup_singleton_eq.
  - by rewrite lookup_insert_ne, !lookup_singleton_ne by done.
Qed.

Lemma sleep_ok ch lk s s' c i pr :
  cpu_wf c → c_ncli c = 0 → k_cpu s = push c → lk ≠ L_ptable → k_locks s = {[lk := c_id c]} →
  c_proc c = Some i → k_procs s !! i = Some pr →
  env_resume (asleep ch lk i c s) = Some s' → k_cpu s' = push c → k_locks s' = {[L_ptable := c_id c]} →
  sleep ch (Some lk) s = Ret tt (awake lk i c s').
Proof.
  intros Hwf H0 Hc Hne Hl Hi Hpr Hres Hc' Hl'. pose proof (asleep_locks ch lk i c s Hc Hne Hl) as Hl2.
  unfold sleep. mrun (myproc_pushed s c Hwf Hc). rewrite Hi. rewrite !bool_decide_true by done. cbn [whenb].
  rewrite !bind_bind. erewrite bind_Ret; [|apply acquire_ok; by rewrite Hl, lookup_singleton_ne]. cbn beta.
  erewrite bind_Ret; [|apply (release_ok _ _ (push c)); [by apply push_wf|simpl; by rewrite Hc|
    simpl; by rewrite Hl, lookup_insert_ne, lookup_singleton_eq]]. cbn beta.
  rewrite cpu_sync_push by done. unfold set_proc. msteps. fold (asleep ch lk i c s).
  erewrite bind_Ret; [|apply (sched_ok _ s' c i (upd_p_state (λ _, SLEEPING) (upd_p_chan (λ _, Some ch) pr))); try done;
    [rewrite Hl2; apply lookup_singleton_eq|simpl; by rewrite !list_lookup_alter_eq, Hpr]]. cbn beta. msteps.
  erewrite bind_Ret; [|apply (release_ok _ _ c); [done..|]; simpl; rewrite Hl'; apply lookup_singleton_eq].
  apply acquire_ok. simpl. by rewrite Hl', delete_singleton_eq, lookup_empty.
Qed.
End sched.
