(* ===== verification/Bytes.v ===== *)
(** Bytes: arrays of bytes that hold C structures.

    Disk blocks, directory entries and user buffers are lists of bytes;
    [splice] is [memmove] into the middle of such an array, [rd32]/[wr32]
    and [rd16]/[wr16] are accesses to little-endian fields. *)

From S2P Require Import Prelude.

Definition slice (l : list Z) (off n : nat) : list Z := take n (drop off l).
Definition splice (l : list Z) (off : nat) (bs : list Z) : list Z :=
  take off l ++ bs ++ drop (off + length bs) l.

Definition le16 (x : Z) : list Z := [u8 x; u8 (x / 256)].
Definition le32 (x : Z) : list Z := [u8 x; u8 (x / 256); u8 (x / 65536); u8 (x / 16777216)].

Definition of_le (bs : list Z) : Z := foldr (λ b acc, b + 256 * acc) 0 bs.

Definition rd16 (l : list Z) (off : nat) : Z := of_le (slice l off 2).
Definition rd32 (l : list Z) (off : nat) : Z := of_le (slice l off 4).
Definition wr16 (l : list Z) (off : nat) (x : Z) : list Z := splice l off (le16 x).
Definition wr32 (l : list Z) (off : nat) (x : Z) : list Z := splice l off (le32 x).

Definition bytes (l : list Z) : Prop := Forall (λ b, 0 ≤ b < 256) l.

Lemma u8_range x : 0 ≤ u8 x < 256.
Proof. apply Z.mod_pos_bound. lia. Qed.

Lemma bytes_le16 x : bytes (le16 x).
Proof. repeat constructor; apply u8_range. Qed.
Lemma bytes_le32 x : bytes (le32 x).
Proof. repeat constructor; apply u8_range. Qed.

Lemma of_le_le32 x : of_le (le32 x) = u32 x.
Proof.
  unfold of_le, le32, u8, u32, two32. simpl.
  replace 4294967296 with (256 * (256 * (256 * 256))) by lia.
  rewrite !Z.rem_mul_r by lia. replace 65536 with (256 * 256) by lia.
  replace 16777216 with (256 * (256 * 256)) by lia. rewrite <-!Z.div_div by lia. lia.
Qed.

Lemma of_le_le16 x : of_le (le16 x) = u16 x.
Proof.
  unfold of_le, le16, u8, u16. simpl. replace 65536 with (256 * 256) by lia.
  rewrite !Z.rem_mul_r by lia. lia.
Qed.

Lemma of_le_bound bs : bytes bs → 0 ≤ of_le bs < 256 ^ Z.of_nat (length bs).
Proof.
  induction 1 as [|b bs Hb _ IH]; simpl; [lia|]. unfold of_le in *. simpl.
  rewrite Nat2Z.inj_succ, Z.pow_succ_r by lia. lia.
Qed.

(** ** Slices and splices *)

Lemma length_splice l off bs :
  (off + length bs ≤ length l)%nat → length (splice l off bs) = length l.
Proof. intros H. unfold splice. rewrite !length_app, length_take, length_drop. lia. Qed.

Lemma splice_lookup l off bs i :
  (off + length bs ≤ length l)%nat →
  splice l off bs !! i = if decide (off ≤ i < off + length bs)%nat then bs !! (i - off)%nat else l !! i.
Proof.
  intros H. unfold splice. case_decide as Hd.
  - rewrite lookup_app_r by (rewrite length_take; lia). rewrite length_take.
    rewrite Nat.min_l, lookup_app_l by lia. done.
  - destruct (decide (i < off)%nat).
    + rewrite lookup_app_l by (rewrite length_take; lia). by apply lookup_take_lt.
    + rewrite lookup_app_r by (rewrite length_take; lia). rewrite length_take, Nat.min_l by lia.
      rewrite lookup_app_r, lookup_drop by lia. f_equal. lia.
Qed.

Lemma slice_lookup l off n i : slice l off n !! i = if decide (i < n)%nat then l !! (off + i)%nat else None.
Proof.
  unfold slice. case_decide.
  - by rewrite lookup_take_lt, lookup_drop.
  - apply lookup_ge_None. rewrite length_take. lia.
Qed.

Lemma slice_splice_eq l off bs :
  (off + length bs ≤ length l)%nat → slice (splice l off bs) off (length bs) = bs.
Proof.
  intros H. apply list_eq. intros i. rewrite slice_lookup. case_decide.
  - rewrite splice_lookup, decide_True by lia. f_equal. lia.
  - symmetry. apply lookup_ge_None. lia.
Qed.

Lemma slice_splice_ne l off bs off' n :
  (off + length bs ≤ length l)%nat → (off' + n ≤ off ∨ off + length bs ≤ off')%nat →
  slice (splice l off bs) off' n = slice l off' n.
Proof.
  intros H Hd. apply list_eq. intros i. rewrite !slice_lookup. case_decide; [|done].
  by rewrite splice_lookup, decide_False by lia.
Qed.

Lemma bytes_splice l off bs : bytes l → bytes bs → bytes (splice l off bs).
Proof. intros Hl Hb. unfold bytes, splice. rewrite !Forall_app. auto using Forall_take, Forall_drop. Qed.

Lemma bytes_slice l off n : bytes l → bytes (slice l off n).
Proof. intros Hl. by apply Forall_take, Forall_drop. Qed.

Lemma length_slice l off n : (off + n ≤ length l)%nat → length (slice l off n) = n.
Proof. intros H. unfold slice. rewrite length_take, length_drop. lia. Qed.

(** ** Fields *)

Lemma rd32_wr32_eq l off x : (off + 4 ≤ length l)%nat → rd32 (wr32 l off x) off = u32 x.
Proof.
  intros H. unfold rd32, wr32. change 4%nat with (length (le32 x)) at 1.
  by rewrite slice_splice_eq, of_le_le32.
Qed.

Lemma rd32_wr32_ne l off off' x :
  (off + 4 ≤ length l)%nat → (off' + 4 ≤ off ∨ off + 4 ≤ off')%nat → rd32 (wr32 l off x) off' = rd32 l off'.
Proof. intros H Hd. unfold rd32, wr32. by rewrite slice_splice_ne. Qed.

Lemma rd16_wr16_eq l off x : (off + 2 ≤ length l)%nat → rd16 (wr16 l off x) off = u16 x.
Proof.
  intros H. unfold rd16, wr16. change 2%nat with (length (le16 x)) at 1.
  by rewrite slice_splice_eq, of_le_le16.
Qed.

Lemma rd16_wr16_ne l off off' x :
  (off + 2 ≤ length l)%nat → (off' + 2 ≤ off ∨ off + 2 ≤ off')%nat → rd16 (wr16 l off x) off' = rd16 l off'.
Proof. intros H Hd. unfold rd16, wr16. by rewrite slice_splice_ne. Qed.

Lemma rd32_range l off : bytes l → (off + 4 ≤ length l)%nat → is_u32 (rd32 l off).
Proof.
  intros Hl H. pose proof (of_le_bound (slice l off 4) (bytes_slice l off 4 Hl)) as Hb.
  rewrite length_slice in Hb by done. done.
Qed.

Lemma length_wr32 l off x : (off + 4 ≤ length l)%nat → length (wr32 l off x) = length l.
Proof. intros. by apply length_splice. Qed.
Lemma length_wr16 l off x : (off + 2 ≤ length l)%nat → length (wr16 l off x) = length l.
Proof. intros. by apply length_splice. Qed.
