(* ===== verification/Sleeplock.v ===== *)
(** Sleeplock: [sleeplock.c]. *)

From S2P Require Import Prelude Layout State Spinlock Sched.

Section sleeplock.
Context {ENV : Env}.

(** The sleep lock a reference designates. *)
Definition sl_get (r : sleepref) (s : kstate) : option sleeplock :=
  match r with
  | SL_buf i => b_lock <$> k_bufs s !! i
  | SL_inode i => i_lock <$> k_inodes s !! i
  end.

Definition sl_upd (r : sleepref) (f : sleeplock → sleeplock) (s : kstate) : kstate :=
  match r with
  | SL_buf i => upd_k_bufs (alter (upd_b_lock f) i) s
  | SL_inode i => upd_k_inodes (alter (upd_i_lock f) i) s
  end.

Definition initsleeplock (r : sleepref) : K unit :=
  initlock (L_sleep r);;
  modify (sl_upd r (upd_sl_locked (λ _, false)));;
  modify (sl_upd r (upd_sl_pid (λ _, 0))).

(** [while (lk->locked) sleep(lk, &lk->lk);] *)
Fixpoint acquiresleep_loop (n : nat) (r : sleepref) : K unit :=
  lk ← deref (sl_get r);
  if sl_locked lk then
    match n with
    | O => nofuel
    | S n => sleep (Chan_sleeplock r) (Some (L_sleep r));; acquiresleep_loop n r
    end
  else mret tt.

Definition acquiresleep (r : sleepref) : K unit :=
  acquire (L_sleep r);;
  acquiresleep_loop env_turns r;;
  modify (sl_upd r (upd_sl_locked (λ _, true)));;
  p ← myproc;
  pr ← proc_at p;
  modify (sl_upd r (upd_sl_pid (λ _, p_pid pr)));;
  release (L_sleep r).

Definition releasesleep (r : sleepref) : K unit :=
  acquire (L_sleep r);;
  modify (sl_upd r (upd_sl_locked (λ _, false)));;
  modify (sl_upd r (upd_sl_pid (λ _, 0)));;
  wakeup (Chan_sleeplock r);;
  release (L_sleep r).

Definition holdingsleep (r : sleepref) : K bool :=
  acquire (L_sleep r);;
  lk ← deref (sl_get r);
  release (L_sleep r);;
  mret (sl_locked lk).
End sleeplock.
