(* ===== verification/Ready.v ===== *)
(** Ready: file-system code running without contention.

    [ready s]: no spin lock is held, a process is running, and nobody waits
    for a file-system lock.  In such a state a critical section of a spin
    lock is exactly its body, a free sleep lock is taken at once, and
    wake-ups on file-system channels change nothing. *)

From S2P Require Import Prelude Layout State Spinlock Sched Sleeplock.

(** The channels of [log.c], [sleeplock.c] and the disk driver. *)
Definition fs_chan (ch : chan) : bool :=
  match ch with Chan_log | Chan_buf _ | Chan_sleeplock _ => true | _ => false end.

Definition calm (l : list proc) : Prop :=
  ∀ p, p ∈ l → p_state p = SLEEPING → ∀ ch, p_chan p = Some ch → fs_chan ch = false.

Record ready (s : kstate) : Prop := MkReady {
  rd_wf : cpu_wf (k_cpu s);
  rd_sync : cpu_sync (k_cpu s) = k_cpu s;
  rd_locks : k_locks s = ∅;
  rd_proc : ∃ i pr, c_proc (k_cpu s) = Some i ∧ k_procs s !! i = Some pr;
  rd_calm : calm (k_procs s);
}.

(** Being ready depends on the CPU, the locks and the processes only. *)
Lemma ready_frame s s' :
  k_cpu s' = k_cpu s → k_locks s' = k_locks s → k_procs s' = k_procs s → ready s → ready s'.
Proof. intros Hc Hl Hp []. split; rewrite ?Hc, ?Hl, ?Hp; auto. Qed.

(** [s1] with the CPU and the locks of [s]. *)
Definition unlocked (s s1 : kstate) : kstate :=
  upd_k_locks (λ _, k_locks s) (upd_k_cpu (λ _, k_cpu s) s1).

Lemma sync_locked l s : cpu_wf (k_cpu s) → sync (locked l s) = locked l s.
Proof. intros Hwf. unfold sync, locked, upd_k_cpu. simpl. by rewrite cpu_sync_push. Qed.

Lemma release_run l s s1 :
  cpu_wf (k_cpu s) → cpu_sync (k_cpu s) = k_cpu s → k_locks s !! l = None →
  k_cpu s1 = push (k_cpu s) → k_locks s1 = <[l := c_id (k_cpu s)]> (k_locks s) →
  release l s1 = Ret tt (unlocked s s1).
Proof.
  intros Hwf Hs Hl Hc Hk. erewrite release_ok; [|exact Hwf|done|by rewrite Hk, lookup_insert_eq].
  unfold unlocked, upd_k_locks, upd_k_cpu. simpl. by rewrite Hk, delete_insert_eq, delete_id, Hs.
Qed.

(** Without knowing that [intena] is in step, the critical section leaves it
    so. *)
Definition settled (s s1 : kstate) : kstate :=
  upd_k_locks (λ _, k_locks s) (upd_k_cpu (λ _, cpu_sync (k_cpu s)) s1).

Lemma release_settles l s s1 :
  cpu_wf (k_cpu s) → k_locks s !! l = None →
  k_cpu s1 = push (k_cpu s) → k_locks s1 = <[l := c_id (k_cpu s)]> (k_locks s) →
  release l s1 = Ret tt (settled s s1).
Proof.
  intros Hwf Hl Hc Hk. erewrite release_ok; [|exact Hwf|done|by rewrite Hk, lookup_insert_eq].
  unfold settled, upd_k_locks, upd_k_cpu. simpl. by rewrite Hk, delete_insert_eq, delete_id.
Qed.

Section ready.
Context {ENV : Env}.

Lemma wake_calm ch l : fs_chan ch = true → calm l → map (wake (Some ch)) l = l.
Proof.
  intros Hc Hl. induction l as [|p l IH]; [done|]. simpl. rewrite IH.
  - f_equal. unfold wake. destruct (bool_decide_reflect (p_state p = SLEEPING)); [|done].
    destruct (bool_decide_reflect (p_chan p = Some ch)) as [E|]; [|done].
    rewrite (Hl p) with (ch := ch) in Hc; [done|by left|done|done].
  - intros q Hq. apply Hl. by right.
Qed.

Lemma wakeup_calm ch s :
  cpu_wf (k_cpu s) → cpu_sync (k_cpu s) = k_cpu s → k_locks s !! L_ptable = None →
  fs_chan ch = true → calm (k_procs s) → wakeup ch s = Ret tt s.
Proof.
  intros Hwf Hs Hl Hc Hp. rewrite wakeup_ok by done. do 2 f_equal.
  unfold upd_k_procs, sync, upd_k_cpu. simpl. by rewrite wake_calm, Hs.
Qed.

Definition mypid (s : kstate) : Z := default 0 (p_pid <$> curproc s).

(** ** Sleep locks *)

Lemma sl_get_upd r f s lk : sl_get r s = Some lk → sl_get r (sl_upd r f s) = Some (f lk).
Proof.
  destruct r as [i|i]; simpl; intros H; apply fmap_Some in H as (x & Hx & ->).
  - by rewrite list_lookup_alter_eq, Hx.
  - by rewrite list_lookup_alter_eq, Hx.
Qed.

Lemma sl_upd_upd r f g s : sl_upd r f (sl_upd r g s) = sl_upd r (f ∘ g) s.
Proof.
  destruct r as [i|i]; simpl; unfold upd_k_bufs, upd_k_inodes; simpl; by rewrite list_alter_alter.
Qed.

Lemma sl_upd_cpu r f s : k_cpu (sl_upd r f s) = k_cpu s ∧ k_locks (sl_upd r f s) = k_locks s ∧
  k_procs (sl_upd r f s) = k_procs s.
Proof. by destruct r. Qed.

Lemma unlocked_sl r f l s : unlocked s (sl_upd r f (locked l s)) = sl_upd r f s.
Proof. by destruct r. Qed.

Lemma acquiresleep_loop_free n r s lk :
  sl_get r s = Some lk → sl_locked lk = false → acquiresleep_loop n r s = Ret tt s.
Proof. intros Hg Hl. destruct n; simpl; rewrite (bind_deref _ _ _ _ Hg), Hl; done. Qed.

Lemma acquiresleep_run r s lk :
  ready s → sl_get r s = Some lk → sl_locked lk = false →
  acquiresleep r s = Ret tt (sl_upd r (λ _, MkSleeplock true (mypid s)) s).
Proof.
  intros [Hwf Hs Hl (i & pr & Hi & Hpr) _] Hg Hlk. unfold acquiresleep.
  assert (k_locks s !! L_sleep r = None) as Hfree by by rewrite Hl.
  mrun (acquire_ok (L_sleep r) s Hfree).
  assert (sl_get r (locked (L_sleep r) s) = Some lk) as Hg1 by by destruct r.
  mrun (acquiresleep_loop_free env_turns r _ lk Hg1 Hlk). msteps.
  set (s1 := sl_upd r (upd_sl_locked (λ _, true)) (locked (L_sleep r) s)).
  destruct (sl_upd_cpu r (upd_sl_locked (λ _, true)) (locked (L_sleep r) s)) as (Ec & El & Ep). fold s1 in Ec, El, Ep.
  change (k_cpu (locked (L_sleep r) s)) with (push (k_cpu s)) in Ec.
  assert (cpu_wf (k_cpu s1)) as Hwf1 by (rewrite Ec; by apply push_wf).
  mrun (myproc_ok s1 Hwf1).
  assert (sync s1 = s1) as ->.
  { unfold sync, upd_k_cpu. by rewrite Ec, (cpu_sync_push _ Hwf), <-Ec. }
  rewrite Ec. change (c_proc (push (k_cpu s))) with (c_proc (k_cpu s)). rewrite Hi.
  unfold proc_at. rewrite (bind_deref _ _ s1 pr) by (simpl; by rewrite Ep). msteps.
  unfold s1. rewrite sl_upd_upd.
  destruct (sl_upd_cpu r (upd_sl_pid (λ _, p_pid pr) ∘ upd_sl_locked (λ _, true)) (locked (L_sleep r) s)) as (Ec2 & El2 & _).
  rewrite (release_run (L_sleep r) s), unlocked_sl by (done || by rewrite ?Ec2, ?El2).
  do 2 f_equal. unfold mypid, curproc. rewrite Hi. simpl. by rewrite Hpr.
Qed.

Lemma releasesleep_run r s :
  ready s → releasesleep r s = Ret tt (sl_upd r (λ _, MkSleeplock false 0) s).
Proof.
  intros [Hwf Hs Hl _ Hcalm]. unfold releasesleep.
  assert (k_locks s !! L_sleep r = None) as Hfree by by rewrite Hl.
  mrun (acquire_ok (L_sleep r) s Hfree). msteps. rewrite sl_upd_upd.
  set (f := upd_sl_pid (λ _, 0) ∘ upd_sl_locked (λ _, false)).
  destruct (sl_upd_cpu r f (locked (L_sleep r) s)) as (Ec & El & Ep).
  erewrite bind_Ret; [|apply wakeup_calm; [rewrite Ec; by apply push_wf|rewrite Ec; by apply cpu_sync_push|
    rewrite El; simpl; by rewrite Hl, lookup_insert_ne|done|by rewrite Ep]].
  by rewrite (release_run (L_sleep r) s), unlocked_sl by (done || by rewrite ?Ec, ?El).
Qed.

Lemma holdingsleep_free r s lk :
  cpu_wf (k_cpu s) → cpu_sync (k_cpu s) = k_cpu s → k_locks s !! L_sleep r = None →
  sl_get r s = Some lk → holdingsleep r s = Ret (sl_locked lk) s.
Proof.
  intros Hwf Hs Hfree Hg. unfold holdingsleep.
  mrun (acquire_ok (L_sleep r) s Hfree).
  assert (sl_get r (locked (L_sleep r) s) = Some lk) as Hg1 by by destruct r.
  rewrite (bind_deref _ _ _ _ Hg1).
  assert (release (L_sleep r) (locked (L_sleep r) s) = Ret tt s) as Hrel by by rewrite (release_run (L_sleep r) s).
  by mrun Hrel.
Qed.

Lemma holdingsleep_run r s lk :
  ready s → sl_get r s = Some lk → holdingsleep r s = Ret (sl_locked lk) s.
Proof. intros [Hwf Hs Hl _ _]. apply holdingsleep_free; [done..|by rewrite Hl]. Qed.
End ready.
