(* ===== verification/Ports.v ===== *)
(** Ports: device I/O, the [in], [out], [ins] and [outs] wrappers of [x86.h]
    and memory-mapped registers.

    A device answers a read with a value that depends on everything that was
    done to it before: a machine is the function [dev_in] from the history of
    I/O operations to the next answer.  The drivers are proved for every
    machine that keeps the protocol of its devices. *)

From S2P Require Import Prelude Layout State Spinlock.

Class Device := {
  dev_in : list io → Z → Z;              (** [in] on a port *)
  dev_ins : list io → Z → nat → Z;       (** the bytes [rep ins] reads from a port *)
  dev_rd : list io → Z → Z;              (** a read of a memory-mapped register *)
  dev_turns : nat;                       (** how many turns of a polling loop are followed *)
}.

Section ports.
Context {DEV : Device}.

Definition log_io (e : io) : K unit := modify (upd_k_io (λ h, h ++ [e])).

Definition inb (port : Z) : K Z :=
  v ← gets (λ s, u8 (dev_in (k_io s) port));
  log_io (In port v);;
  mret v.

Definition outb (port data : Z) : K unit := log_io (Out port (u8 data)).

(** The [4 * cnt] bytes [insl] stores at its address. *)
Definition insl (port : Z) (cnt : nat) : K (list Z) :=
  l ← gets (λ s, map (λ k, u8 (dev_ins (k_io s) port k)) (seq 0 (4 * cnt)));
  log_io (Ins port l);;
  mret l.

Definition outsl (port : Z) (bytes : list Z) : K unit := log_io (Outs port bytes).

(** Reads and writes through a [volatile] pointer to device registers. *)
Definition mmio_read (addr : Z) : K Z :=
  v ← gets (λ s, u32 (dev_rd (k_io s) addr));
  log_io (Rd addr v);;
  mret v.

Definition mmio_write (addr v : Z) : K unit := log_io (Wr addr (u32 v)).

(** [while(cond(inb(port)));]: the last value read. *)
Fixpoint poll (turns : nat) (port : Z) (cond : Z → bool) : K Z :=
  v ← inb port;
  if cond v then
    match turns with
    | O => nofuel
    | S turns => poll turns port cond
    end
  else mret v.

(** ** Effect *)

Definition logged (l : list io) (s : kstate) : kstate := upd_k_io (λ h, h ++ l) s.

Lemma logged_logged l l' s : logged l' (logged l s) = logged (l ++ l') s.
Proof. unfold logged, upd_k_io. simpl. by rewrite <-app_assoc. Qed.

Lemma logged_nil s : logged [] s = s.
Proof. unfold logged, upd_k_io. by rewrite app_nil_r. Qed.

Lemma io_logged l s : k_io (logged l s) = k_io s ++ l.
Proof. done. Qed.

Lemma outb_ok port v s : outb port v s = Ret tt (logged [Out port (u8 v)] s).
Proof. done. Qed.

Lemma outsl_ok port l s : outsl port l s = Ret tt (logged [Outs port l] s).
Proof. done. Qed.

Lemma inb_ok port s :
  inb port s = Ret (u8 (dev_in (k_io s) port)) (logged [In port (u8 (dev_in (k_io s) port))] s).
Proof. done. Qed.

(** The history after which [cond] is false of the next answer of [port],
    polling at most [turns] more times. *)
Fixpoint settles (turns : nat) (h : list io) (port : Z) (cond : Z → bool) : Prop :=
  let v := u8 (dev_in h port) in
  if cond v then
    match turns with
    | O => False
    | S turns => settles turns (h ++ [In port v]) port cond
    end
  else True.

Lemma poll_ok turns port cond s :
  settles turns (k_io s) port cond →
  ∃ h l, let v := u8 (dev_in h port) in
    poll turns port cond s = Ret v (logged l s) ∧ cond v = false ∧ Forall (λ e, ∃ v, e = In port v) l.
Proof.
  revert s. induction turns as [|turns IH]; intros s; simpl; unfold mbind, M_bind; rewrite inb_ok.
  all: set (v := u8 (dev_in (k_io s) port)); destruct (cond v) eqn:E; [|intros _].
  - done.
  - exists (k_io s), [In port v]. split_and!; [done|done|]. repeat constructor. by exists v.
  - intros H. destruct (IH (logged [In port v] s)) as (h & l & Hr & Hw & Hl); [exact H|].
    exists h, (In port v :: l). cbn zeta. rewrite Hr, logged_logged. split_and!; [done|done|].
    constructor; [by exists v|done].
  - exists (k_io s), [In port v]. split_and!; [done|done|]. repeat constructor. by exists v.
Qed.
End ports.
