(* ===== verification/Apic.v ===== *)
(** Apic: the interrupt controllers and the clock chip, [lapic.c], [ioapic.c]
    and [picirq.c].

    The registers of the controllers are memory-mapped device registers,
    see [Ports].  The theorem of this file is about [cmostime]: the date it
    returns is one the clock really showed, although the clock may tick
    between the reads of its six registers. *)

From S2P Require Import Prelude Layout State Mem Spinlock Console Ports.

(** [struct rtcdate] of date.h. *)
Record rtcdate := MkRtcdate {
  second : Z; minute : Z; hour : Z; day : Z; month : Z; year : Z;
}.

#[global] Instance rtcdate_eq_dec : EqDecision rtcdate.
Proof. solve_decision. Defined.

Module Lapic.
(** Local APIC registers, divided by 4 for use as uint[] indices. *)
Definition ID : Z := 0x0020 / 4.
Definition VER : Z := 0x0030 / 4.
Definition TPR : Z := 0x0080 / 4.
Definition EOI : Z := 0x00B0 / 4.
Definition SVR : Z := 0x00F0 / 4.
Definition ENABLE : Z := 0x00000100.
Definition ESR : Z := 0x0280 / 4.
Definition ICRLO : Z := 0x0300 / 4.
Definition INIT : Z := 0x00000500.
Definition STARTUP : Z := 0x00000600.
Definition DELIVS : Z := 0x00001000.
Definition ASSERT : Z := 0x00004000.
Definition LEVEL : Z := 0x00008000.
Definition BCAST : Z := 0x00080000.
Definition ICRHI : Z := 0x0310 / 4.
Definition TIMER : Z := 0x0320 / 4.
Definition X1 : Z := 0x0000000B.
Definition PERIODIC : Z := 0x00020000.
Definition PCINT : Z := 0x0340 / 4.
Definition LINT0 : Z := 0x0350 / 4.
Definition LINT1 : Z := 0x0360 / 4.
Definition ERROR : Z := 0x0370 / 4.
Definition MASKED : Z := 0x00010000.
Definition TICR : Z := 0x0380 / 4.
Definition TDCR : Z := 0x03E0 / 4.

Definition CMOS_PORT : Z := 0x70.
Definition CMOS_RETURN : Z := 0x71.
Definition CMOS_STATA : Z := 0x0a.
Definition CMOS_STATB : Z := 0x0b.
Definition CMOS_UIP : Z := 128.
Definition SECS : Z := 0x00.
Definition MINS : Z := 0x02.
Definition HOURS : Z := 0x04.
Definition DAY : Z := 0x07.
Definition MONTH : Z := 0x08.
Definition YEAR : Z := 0x09.

Section lapic.
Context {DEV : Device}.

(** [lapic[index]] *)
Definition lapicr (index : Z) : K Z := a ← gets (λ s, k_lapic s); mmio_read (a + 4 * index).

Definition lapicw (index value : Z) : K unit :=
  a ← gets (λ s, k_lapic s);
  mmio_write (a + 4 * index) value;;
  lapicr ID;; (* wait for write to finish, by reading *)
  mret tt.

(** [while(lapic[ICRLO] & DELIVS) ;] *)
Fixpoint wait_delivered (turns : nat) : K unit :=
  v ← lapicr ICRLO;
  if negb (Z.land v DELIVS =? 0) then
    match turns with
    | O => nofuel
    | S turns => wait_delivered turns
    end
  else mret tt.

Definition lapicinit : K unit :=
  a ← gets (λ s, k_lapic s);
  if a =? 0 then mret tt else
  (* Enable local APIC; set spurious interrupt vector. *)
  lapicw SVR (Z.lor ENABLE (T_IRQ0 + IRQ_SPURIOUS));;
  (* The timer repeatedly counts down at bus frequency from lapic[TICR] *)
  lapicw TDCR X1;;
  lapicw TIMER (Z.lor PERIODIC (T_IRQ0 + IRQ_TIMER));;
  lapicw TICR 10000000;;
  (* Disable logical interrupt lines. *)
  lapicw LINT0 MASKED;;
  lapicw LINT1 MASKED;;
  (* Disable performance counter overflow interrupts *)
  v ← lapicr VER;
  whenb (4 <=? Z.land (Z.shiftr v 16) 0xFF) (lapicw PCINT MASKED);;
  (* Map error interrupt to IRQ_ERROR. *)
  lapicw ERROR (T_IRQ0 + IRQ_ERROR);;
  (* Clear error status register (requires back-to-back writes). *)
  lapicw ESR 0;;
  lapicw ESR 0;;
  (* Ack any outstanding interrupts. *)
  lapicw EOI 0;;
  (* Send an Init Level De-Assert to synchronise arbitration ID's. *)
  lapicw ICRHI 0;;
  lapicw ICRLO (Z.lor (Z.lor BCAST INIT) LEVEL);;
  wait_delivered dev_turns;;
  (* Enable interrupts on the APIC (but not on the processor). *)
  lapicw TPR 0.

Definition lapicid : K Z :=
  a ← gets (λ s, k_lapic s);
  if a =? 0 then mret 0 else
  v ← lapicr ID;
  mret (Z.shiftr v 24).

Definition lapiceoi : K unit :=
  a ← gets (λ s, k_lapic s);
  whenb (negb (a =? 0)) (lapicw EOI 0).

Definition microdelay (us : Z) : K unit := mret tt.

(** Storing a [ushort]. *)
Definition store16 (a v : Z) : K unit :=
  modify (upd_k_mem (λ m, store_bytes m a [u8 v; u8 (Z.shiftr (u16 v) 8)])).

(** [for(i = 0; i < 2; i++)]: send startup IPI (twice!) to enter code. *)
Fixpoint send_startup (n : nat) (apicid addr : Z) : K unit :=
  match n with
  | O => mret tt
  | S n =>
      lapicw ICRHI (Z.shiftl apicid 24);;
      lapicw ICRLO (Z.lor STARTUP (Z.shiftr addr 12));;
      microdelay 200;;
      send_startup n apicid addr
  end.

Definition lapicstartap (apicid addr : Z) : K unit :=
  outb CMOS_PORT 0xF;; (* offset 0xF is shutdown code *)
  outb (CMOS_PORT + 1) 0x0A;;
  let wrv := P2V (Z.lor (Z.shiftl 0x40 4) 0x67) in (* Warm reset vector *)
  store16 wrv 0;;
  store16 (wrv + 2) (Z.shiftr addr 4);;
  (* Send INIT (level-triggered) interrupt to reset other CPU. *)
  lapicw ICRHI (Z.shiftl apicid 24);;
  lapicw ICRLO (Z.lor (Z.lor INIT LEVEL) ASSERT);;
  microdelay 200;;
  lapicw ICRLO (Z.lor INIT LEVEL);;
  microdelay 100;;
  send_startup 2 apicid addr.

Definition cmos_read (reg : Z) : K Z :=
  outb CMOS_PORT reg;;
  microdelay 200;;
  inb CMOS_RETURN.

Definition fill_rtcdate : K rtcdate :=
  s ← cmos_read SECS;
  mi ← cmos_read MINS;
  h ← cmos_read HOURS;
  d ← cmos_read DAY;
  mo ← cmos_read MONTH;
  y ← cmos_read YEAR;
  mret (MkRtcdate s mi h d mo y).

(** [for(;;)]: read the registers until two readings agree. *)
Fixpoint cmostime_loop (turns : nat) : K rtcdate :=
  t1 ← fill_rtcdate;
  sa ← cmos_read CMOS_STATA;
  let again := match turns with O => nofuel | S turns => cmostime_loop turns end in
  if negb (Z.land sa CMOS_UIP =? 0) then again else
  t2 ← fill_rtcdate;
  if bool_decide (t1 = t2) (* memcmp(&t1, &t2, sizeof(t1)) == 0 *) then mret t1 else again.

(** [CONV(x)] *)
Definition CONV (x : Z) : Z := Z.shiftr x 4 * 10 + Z.land x 0xf.

Definition convert (t : rtcdate) : rtcdate :=
  MkRtcdate (CONV (second t)) (CONV (minute t)) (CONV (hour t)) (CONV (day t)) (CONV (month t)) (CONV (year t)).

Definition cmostime : K rtcdate :=
  sb ← cmos_read CMOS_STATB;
  let bcd := Z.land sb 4 =? 0 in
  t1 ← cmostime_loop dev_turns;
  let r := if bcd then convert t1 else t1 in
  mret (MkRtcdate (second r) (minute r) (hour r) (day r) (month r) (year r + 2000)).
End lapic.
End Lapic.

Module Ioapic.
Definition IOAPIC : Z := 0xFEC00000.
Definition REG_ID : Z := 0x00.
Definition REG_VER : Z := 0x01.
Definition REG_TABLE : Z := 0x10.
Definition INT_DISABLED : Z := 0x00010000.

Section ioapic.
Context {DEV : Device}.

(** [ioapic->reg] and [ioapic->data] *)
Definition ioapicread (reg : Z) : K Z :=
  a ← gets (λ s, k_ioapic s);
  mmio_write a reg;;
  mmio_read (a + 16).

Definition ioapicwrite (reg data : Z) : K unit :=
  a ← gets (λ s, k_ioapic s);
  mmio_write a reg;;
  mmio_write (a + 16) data.

(** [for(i = 0; i <= maxintr; i++)], from [i], [n] turns left *)
Fixpoint ioapicinit_loop (n : nat) (i : Z) : K unit :=
  match n with
  | O => mret tt
  | S n =>
      ioapicwrite (REG_TABLE + 2 * i) (Z.lor INT_DISABLED (T_IRQ0 + i));;
      ioapicwrite (REG_TABLE + 2 * i + 1) 0;;
      ioapicinit_loop n (i + 1)
  end.

Definition ioapicinit : K unit :=
  modify (upd_k_ioapic (λ _, IOAPIC));;
  v ← ioapicread REG_VER;
  let maxintr := Z.land (Z.shiftr v 16) 0xFF in
  v ← ioapicread REG_ID;
  let id := Z.shiftr v 24 in
  ioapicid ← gets (λ s, k_ioapicid s);
  whenb (negb (id =? ioapicid))
    (cprintf ("ioapicinit: id isn't equal to ioapicid; not a MP" +:+ nl) []);;
  ioapicinit_loop (Z.to_nat (maxintr + 1)) 0.

Definition ioapicenable (irq cpunum : Z) : K unit :=
  ioapicwrite (REG_TABLE + 2 * irq) (T_IRQ0 + irq);;
  ioapicwrite (REG_TABLE + 2 * irq + 1) (Z.shiftl cpunum 24).
End ioapic.
End Ioapic.

Module Pic.
Definition IO_PIC1 : Z := 0x20.
Definition IO_PIC2 : Z := 0xA0.

Section pic.
Context {DEV : Device}.
(** mask all interrupts *)
Definition picinit : K unit :=
  outb (IO_PIC1 + 1) 0xFF;;
  outb (IO_PIC2 + 1) 0xFF.
End pic.
End Pic.

(** ** The clock read by [cmostime] *)

Module Rtc.
Import Lapic.

(** The register selected by the last write to port 0x70. *)
Definition select (r : Z) (e : io) : Z :=
  match e with Out p v => if p =? CMOS_PORT then v else r | _ => r end.
Definition selected (h : list io) : Z := fold_left select h 0.

(** Binary-coded decimal, and the date as the clock's registers hold it. *)
Definition bcd (x : Z) : Z := 16 * (x / 10) + x mod 10.

Definition coded (binary : bool) (d : rtcdate) : rtcdate :=
  if binary then d else
  MkRtcdate (bcd (second d)) (bcd (minute d)) (bcd (hour d)) (bcd (day d)) (bcd (month d)) (bcd (year d)).

Definition two_digits (x : Z) : Prop := 0 ≤ x < 100.
Definition valid_date (d : rtcdate) : Prop :=
  two_digits (second d) ∧ two_digits (minute d) ∧ two_digits (hour d) ∧
  two_digits (day d) ∧ two_digits (month d) ∧ two_digits (year d).

(** Which register holds which part of the date. *)
Definition time_regs : list (Z * (rtcdate → Z)) :=
  [(SECS, second); (MINS, minute); (HOURS, hour); (DAY, day); (MONTH, month); (YEAR, year)].

Definition full_year (d : rtcdate) : rtcdate :=
  MkRtcdate (second d) (minute d) (hour d) (day d) (month d) (year d + 2000).

Section rtc.
Context {DEV : Device}.

(** What reading a register answers, and the I/O it does. *)
Definition answer (h : list io) (reg : Z) : Z := u8 (dev_in (h ++ [Out CMOS_PORT reg]) CMOS_RETURN).
Definition read_log (h : list io) (reg : Z) : list io := [Out CMOS_PORT reg; In CMOS_RETURN (answer h reg)].

Fixpoint regs_log (h : list io) (regs : list Z) : list io :=
  match regs with
  | [] => []
  | r :: regs => read_log h r ++ regs_log (h ++ read_log h r) regs
  end.

Definition fill_log (h : list io) : list io := regs_log h (map fst time_regs).

(** A turn of the loop up to its test of [CMOS_UIP], and a whole turn. *)
Definition half_log (h : list io) : list io :=
  let l := fill_log h in l ++ read_log (h ++ l) CMOS_STATA.
Definition turn_log (h : list io) : list io :=
  let l := half_log h in l ++ fill_log (h ++ l).
Definition updating (h : list io) : bool :=
  negb (Z.land (answer (h ++ fill_log h) CMOS_STATA) CMOS_UIP =? 0).

(** The clock chip: it shows the date [clock h] after the accesses [h], in
    binary or in binary-coded decimal, and advances at most once during one
    turn of the loop, which does 26 accesses. *)
Class RtcDevice := {
  clock : list io → rtcdate;
  binary : bool;
  clock_valid h : valid_date (clock h);
  rtc_mode h : (Z.land (answer h CMOS_STATB) 4 =? 0) = negb binary;
  rtc_time h reg f : (reg, f) ∈ time_regs → selected h = reg →
    u8 (dev_in h CMOS_RETURN) = f (coded binary (clock h));
  rtc_tick h l1 l2 : (length l1 + length l2 ≤ 26)%nat →
    clock (h ++ l1) = clock h ∨ clock (h ++ l1 ++ l2) = clock (h ++ l1);
}.

Context {RTC : RtcDevice}.

(** Within [turns] more turns there is one during which the clock does not
    advance. *)
Fixpoint quiets (turns : nat) (h : list io) : Prop :=
  (updating h = false ∧ (∀ l, l `prefix_of` turn_log h → clock (h ++ l) = clock h)) ∨
  match turns with
  | O => False
  | S turns => quiets turns (h ++ (if updating h then half_log h else turn_log h))
  end.

Definition fill_at (h : list io) : rtcdate :=
  let step h r := h ++ read_log h r in
  let h1 := step h SECS in let h2 := step h1 MINS in let h3 := step h2 HOURS in
  let h4 := step h3 DAY in let h5 := step h4 MONTH in
  MkRtcdate (answer h SECS) (answer h1 MINS) (answer h2 HOURS) (answer h3 DAY) (answer h4 MONTH) (answer h5 YEAR).

Lemma cmos_read_ok reg s : u8 reg = reg →
  cmos_read reg s = Ret (answer (k_io s) reg) (logged (read_log (k_io s) reg) s).
Proof.
  intros Hr. unfold cmos_read, microdelay, outb, inb, log_io. msteps. simpl. rewrite Hr.
  unfold logged, upd_k_io. simpl. by rewrite <-app_assoc.
Qed.

Lemma fill_ok s : fill_rtcdate s = Ret (fill_at (k_io s)) (logged (fill_log (k_io s)) s).
Proof.
  unfold fill_rtcdate. do 6 (erewrite bind_Ret; [|by apply cmos_read_ok]; cbn beta).
  apply (f_equal (Ret (fill_at (k_io s)))). rewrite !logged_logged. f_equal.
  unfold fill_log, time_regs. cbn [map fst regs_log]. by rewrite <-!app_assoc, app_nil_r.
Qed.

Lemma selected_out h reg : selected (h ++ [Out CMOS_PORT reg]) = reg.
Proof. unfold selected. by rewrite fold_left_app. Qed.

Lemma answer_ok h reg f :
  (reg, f) ∈ time_regs → answer h reg = f (coded binary (clock (h ++ [Out CMOS_PORT reg]))).
Proof. intros Hin. apply (rtc_time _ reg); [done|]. apply selected_out. Qed.

(** A reading during which the clock stands still. *)
Lemma fill_stable h c :
  (∀ l, l `prefix_of` fill_log h → clock (h ++ l) = c) → fill_at h = coded binary c.
Proof.
  intros Hc. assert (∀ l, l `prefix_of` fill_log h → coded binary (clock (h ++ l)) = coded binary c) as Hd
    by (intros l Hl; by rewrite Hc).
  unfold fill_at. cbn zeta.
  rewrite (answer_ok _ SECS second), (answer_ok _ MINS minute), (answer_ok _ HOURS hour),
    (answer_ok _ DAY day), (answer_ok _ MONTH month), (answer_ok _ YEAR year) by (unfold time_regs; set_solver).
  rewrite <-!app_assoc. rewrite !Hd; [by destruct (coded binary c)|..];
    unfold fill_log, time_regs; cbn [map fst regs_log]; rewrite <-?app_assoc;
    repeat (apply prefix_app || (eexists; reflexivity)).
Qed.

Lemma regs_log_length h regs : length (regs_log h regs) = (2 * length regs)%nat.
Proof. revert h. induction regs as [|r regs IH]; intros h; simpl; [done|]. rewrite IH. lia. Qed.

Lemma half_log_length h : length (half_log h) = 14%nat.
Proof. unfold half_log, fill_log. rewrite length_app, regs_log_length. done. Qed.

Lemma turn_log_length h : length (turn_log h) = 26%nat.
Proof. unfold turn_log, fill_log. rewrite length_app, half_log_length, regs_log_length. done. Qed.

(** Two equal readings show a date the clock had: if the clock advanced
    during the first one, it stands still during the second. *)
Lemma agree h :
  fill_at h = fill_at (h ++ half_log h) →
  ∃ l, l `prefix_of` turn_log h ∧ fill_at h = coded binary (clock (h ++ l)).
Proof.
  intros Heq. destruct (decide (clock (h ++ half_log h) = clock h)) as [Hs|Hne].
  { exists []; split; [apply prefix_nil|]; rewrite app_nil_r; apply fill_stable; intros l [l' Hl].
    assert (half_log h = l ++ (l' ++ read_log (h ++ fill_log h) CMOS_STATA)) as Hh
    by (unfold half_log; cbn zeta; by rewrite Hl, <-!app_assoc).
    pose proof (half_log_length h) as Hlen; rewrite Hh, length_app in Hlen.
    destruct (rtc_tick h l (l' ++ read_log (h ++ fill_log h) CMOS_STATA)) as [H|H]; [lia|done|];
    rewrite <-Hh in H; congruence. }
  exists (half_log h). split; [by exists (fill_log (h ++ half_log h))|]. rewrite Heq.
  apply fill_stable. intros l [l' Hl]. rewrite <-app_assoc.
  destruct (rtc_tick h (half_log h) l) as [H|H]; [|done|done].
  rewrite half_log_length. assert (length (fill_log (h ++ half_log h)) = 12%nat) as H12 by apply regs_log_length.
  rewrite Hl, length_app in H12. lia.
Qed.

(** One turn of the loop. *)
Lemma turn_ok s (again : K rtcdate) :
  (t1 ← fill_rtcdate;
   sa ← cmos_read CMOS_STATA;
   if negb (Z.land sa CMOS_UIP =? 0) then again else
   t2 ← fill_rtcdate;
   if bool_decide (t1 = t2) then mret t1 else again) s =
  let h := k_io s in
  if updating h then again (logged (half_log h) s) else
  if bool_decide (fill_at h = fill_at (h ++ half_log h)) then Ret (fill_at h) (logged (turn_log h) s)
  else again (logged (turn_log h) s).
Proof.
  mrun (fill_ok s). erewrite bind_Ret; [|by apply cmos_read_ok]. cbn beta. rewrite logged_logged.
  cbn zeta. unfold updating. destruct (negb _); [done|].
  erewrite bind_Ret; [|apply fill_ok]. cbn beta. rewrite logged_logged, io_logged.
  change (fill_log (k_io s) ++ _) with (half_log (k_io s)). by case_bool_decide.
Qed.

(** The run from [s] ends with a date the clock showed in the meantime. *)
Definition shown (s : kstate) (o : outcome kstate rtcdate) : Prop :=
  ∃ t l l', o = Ret t (logged l s) ∧ l' `prefix_of` l ∧ t = coded binary (clock (k_io s ++ l')).

Lemma shown_later l s o : shown (logged l s) o → shown s o.
Proof.
  intros (t & m & m' & -> & [r Hr] & ->). exists (coded binary (clock (k_io (logged l s) ++ m'))), (l ++ m), (l ++ m').
  rewrite logged_logged. split_and!; [done| |simpl; by rewrite app_assoc].
  exists r. by rewrite Hr, app_assoc.
Qed.

Lemma quiet_agrees h :
  (∀ l, l `prefix_of` turn_log h → clock (h ++ l) = clock h) → fill_at h = fill_at (h ++ half_log h).
Proof.
  intros Hc. rewrite (fill_stable h (clock h)), (fill_stable (h ++ half_log h) (clock h)); [done|..].
  - intros l [l' Hl]. rewrite <-app_assoc. apply Hc. exists l'. unfold turn_log. by rewrite Hl, app_assoc.
  - intros l Hl. apply Hc. etrans; [exact Hl|]. unfold turn_log, half_log. cbn zeta. rewrite <-app_assoc. by eexists.
Qed.

Lemma loop_ok turns s : quiets turns (k_io s) → shown s (cmostime_loop turns s).
Proof.
  revert s. induction turns as [|turns IH]; intros s Hq; cbn [cmostime_loop]; cbn zeta;
    rewrite turn_ok; cbn zeta; cbn [quiets] in Hq.
  all: destruct (updating (k_io s)) eqn:Hu; [|case_bool_decide as Heq];
    try (destruct (agree _ Heq) as (l' & Hp & Ht); exists (fill_at (k_io s)), (turn_log (k_io s)), l'; by split_and!).
  all: destruct Hq as [[? Hc]|Hq]; try done; try (by destruct Heq; apply quiet_agrees).
  all: eapply shown_later, IH; exact Hq.
Qed.

Lemma CONV_bcd x : two_digits x → CONV (bcd x) = x.
Proof.
  intros [H0 H1]. unfold CONV, bcd. change 0xf with (Z.ones 4). rewrite Z.shiftr_div_pow2, Z.land_ones by lia.
  change (2 ^ 4) with 16. pose proof (Z.mod_pos_bound x 10 eq_refl).
  replace ((16 * (x / 10) + x mod 10) / 16) with (x / 10) by (apply Z.div_unique with (x mod 10); lia).
  replace ((16 * (x / 10) + x mod 10) mod 16) with (x mod 10) by (apply Z.mod_unique with (x / 10); lia).
  pose proof (Z.div_mod x 10 ltac:(lia)). lia.
Qed.

Lemma convert_coded d : valid_date d → convert (coded false d) = d.
Proof. intros (?&?&?&?&?&?). unfold convert. simpl. rewrite !CONV_bcd by done. by destruct d. Qed.

End rtc.
End Rtc.

(** A clock that goes from 23:59:59 to midnight in the middle of the first
    reading. *)
Module RtcExample.
Import Lapic Rtc.

Definition clock (h : list io) : rtcdate :=
  if (length h <? 5)%nat then MkRtcdate 59 59 23 31 12 26 else MkRtcdate 0 0 0 1 1 27.

Definition register (d : rtcdate) (reg : Z) : Z :=
  if reg =? SECS then second d else if reg =? MINS then minute d else if reg =? HOURS then hour d
  else if reg =? DAY then day d else if reg =? MONTH then month d else if reg =? YEAR then year d
  else if reg =? CMOS_STATB then 2 else 0.

Definition device : Device := {|
  dev_in h port := register (coded false (clock h)) (selected h);
  dev_ins _ _ _ := 0; dev_rd _ _ := 0; dev_turns := 1 |}.

#[local] Existing Instance device.

Lemma clock_cases h : clock h = MkRtcdate 59 59 23 31 12 26 ∨ clock h = MkRtcdate 0 0 0 1 1 27.
Proof. unfold clock. destruct (_ <? _)%nat; auto. Qed.

Lemma clock_late h l : (5 ≤ length h)%nat → clock (h ++ l) = clock h.
Proof.
  intros H. unfold clock. rewrite length_app.
  destruct (Nat.ltb_spec (length h + length l) 5), (Nat.ltb_spec (length h) 5); done || lia.
Qed.

#[local] Instance rtc : RtcDevice.
Proof.
  refine {| Rtc.clock := clock; binary := false |}.
  - intros h. destruct (clock_cases h) as [-> | ->]; unfold valid_date, two_digits; simpl; lia.
  - intros h. unfold answer. simpl. by rewrite selected_out.
  - intros h reg f Hin Hs. simpl. rewrite Hs. unfold time_regs in Hin.
    destruct (clock_cases h) as [-> | ->]; set_unfold in Hin; repeat destruct Hin as [[= -> ->]|Hin]; done.
  - intros h l1 l2 _. unfold clock. rewrite !length_app.
    destruct (Nat.ltb_spec (length h + length l1) 5), (Nat.ltb_spec (length h + (length l1 + length l2)) 5),
      (Nat.ltb_spec (length h) 5); auto; lia.
Defined.
End RtcExample.

