(* ===== verification/Mp.v ===== *)
(** Mp: finding the processors, [mp.c] and the structures of [mp.h].

    The BIOS describes the machine in tables in low memory, which the kernel
    sees at [P2V].  The theorems: the search returns the first valid
    floating pointer structure, and [mpinit] records exactly the processors
    and the I/O APIC that the entries of the table list. *)

From S2P Require Import Prelude Layout State Mem Spinlock Console Ports.

Definition MPPROC : Z := 0.
Definition MPBUS : Z := 1.
Definition MPIOAPIC : Z := 2.
Definition MPIOINTR : Z := 3.
Definition MPLINTR : Z := 4.

(** Offsets of the fields of [struct mp] and [struct mpconf], and the sizes
    of the structures. *)
Definition sizeof_mp : Z := 16.
Definition mp_physaddr : Z := 4.
Definition mp_imcrp : Z := 12.
Definition sizeof_mpconf : Z := 44.
Definition mpc_length : Z := 4.
Definition mpc_version : Z := 6.
Definition mpc_lapicaddr : Z := 36.
Definition sizeof_mpproc : Z := 20.
Definition sizeof_mpioapic : Z := 8.

(** Loading a [ushort] and a [uint] from any address. *)
Definition ld16u (m : gmap Z Z) (a : Z) : Z := ldb m a + 256 * ldb m (a + 1).
Definition ld32u (m : gmap Z Z) (a : Z) : Z := ld16u m a + 65536 * ld16u m (a + 2).

Definition sum (m : gmap Z Z) (addr len : Z) : Z := u8 (foldr Z.add 0 (bytes_at m addr (Z.to_nat len))).

(** [memcmp(p, sig, 4) == 0] *)
Definition signed (m : gmap Z Z) (p : Z) (sig : string) : bool := bool_decide (bytes_at m p 4 = chars sig).

(** The test of [mpsearch1]. *)
Definition is_mp (m : gmap Z Z) (p : Z) : bool := signed m p "_MP_" && (sum m p sizeof_mp =? 0).

(** [for(p = addr; p < e; p += sizeof(struct mp))], [n] turns left *)
Fixpoint mpsearch1_loop (n : nat) (m : gmap Z Z) (p : Z) : option Z :=
  match n with
  | O => None
  | S n => if is_mp m p then Some p else mpsearch1_loop n m (p + sizeof_mp)
  end.

(** Look for an MP structure in the len bytes at addr. *)
Definition mpsearch1 (m : gmap Z Z) (a len : Z) : option Z :=
  mpsearch1_loop (Z.to_nat ((len + sizeof_mp - 1) / sizeof_mp)) m (P2V a).

Definition mpsearch (m : gmap Z Z) : option Z :=
  let bda := P2V 0x400 in
  let last := mpsearch1 m 0xF0000 0x10000 in
  let p := Z.shiftl (Z.lor (Z.shiftl (ldb m (bda + 0x0F)) 8) (ldb m (bda + 0x0E))) 4 in
  if negb (p =? 0) then
    match mpsearch1 m p 1024 with Some mp => Some mp | None => last end
  else
    let p := Z.lor (Z.shiftl (ldb m (bda + 0x14)) 8) (ldb m (bda + 0x13)) * 1024 in
    match mpsearch1 m (u32 (p - 1024)) 1024 with Some mp => Some mp | None => last end.

(** [mp] and the configuration table, [None] for 0. *)
Definition mpconfig (m : gmap Z Z) : option (Z * Z) :=
  match mpsearch m with
  | None => None
  | Some mp =>
      if ld32u m (mp + mp_physaddr) =? 0 then None else
      let conf := P2V (ld32u m (mp + mp_physaddr)) in
      if negb (signed m conf "PCMP") then None else
      let version := ldb m (conf + mpc_version) in
      if negb (version =? 1) && negb (version =? 4) then None else
      if negb (sum m conf (ld16u m (conf + mpc_length)) =? 0) then None else
      Some (mp, conf)
  end.

Section mp.
Context {DEV : Device}.

(** [case MPPROC] *)
Definition add_cpu (apicid : Z) (s : kstate) : kstate :=
  if k_ncpu s <? NCPU then
    upd_k_ncpu (λ n, n + 1) (upd_k_apicids <[Z.to_nat (k_ncpu s) := apicid]> s)
  else s.

(** The loop over the entries, from [p] to [e]: [ismp] *)
Fixpoint mpinit_loop (fuel : nat) (p e : Z) (ismp : bool) : K bool :=
  if e <=? p then mret ismp else
  match fuel with
  | O => nofuel
  | S fuel =>
      m ← gets (λ s, k_mem s);
      let type := ldb m p in
      if type =? MPPROC then
        modify (add_cpu (ldb m (p + 1)));;
        mpinit_loop fuel (p + sizeof_mpproc) e ismp
      else if type =? MPIOAPIC then
        modify (upd_k_ioapicid (λ _, ldb m (p + 1)));;
        mpinit_loop fuel (p + sizeof_mpioapic) e ismp
      else if (type =? MPBUS) || (type =? MPIOINTR) || (type =? MPLINTR) then
        mpinit_loop fuel (p + 8) e ismp
      else (* ismp = 0; break; leaves the switch *)
        mpinit_loop fuel p e false
  end.

Definition mpinit : K unit :=
  m ← gets (λ s, k_mem s);
  match mpconfig m with
  | None => panic "Expect to run on an SMP"
  | Some (mp, conf) =>
      modify (upd_k_lapic (λ _, ld32u m (conf + mpc_lapicaddr)));;
      let length := ld16u m (conf + mpc_length) in
      ismp ← mpinit_loop (Z.to_nat length) (conf + sizeof_mpconf) (conf + length) true;
      if negb ismp then panic "Didn't find a suitable machine" else
      if negb (ldb m (mp + mp_imcrp) =? 0) then
        (* Bochs doesn't support IMCR, so this doesn't run on Bochs. *)
        outb 0x22 0x70;; (* Select IMCR *)
        v ← inb 0x23;
        outb 0x23 (Z.lor v 1) (* Mask external interrupts. *)
      else mret tt
  end.
End mp.

(** ** The search *)

Lemma mpsearch1_loop_ok n m p :
  match mpsearch1_loop n m p with
  | Some q => ∃ k, (k < n)%nat ∧ q = p + sizeof_mp * Z.of_nat k ∧ is_mp m q = true ∧
      ∀ j, (j < k)%nat → is_mp m (p + sizeof_mp * Z.of_nat j) = false
  | None => ∀ j, (j < n)%nat → is_mp m (p + sizeof_mp * Z.of_nat j) = false
  end.
Proof.
  revert p. induction n as [|n IH]; intros p; cbn [mpsearch1_loop]; [intros j; lia|].
  destruct (is_mp m p) eqn:E.
  { exists 0%nat. split_and!; [lia|lia|done|intros j; lia]. }
  specialize (IH (p + sizeof_mp)). destruct (mpsearch1_loop n m (p + sizeof_mp)) as [q|].
  - destruct IH as (k & Hk & -> & Hq & Hj). exists (S k). split_and!; [lia|lia|done|].
    intros [|j] Hlt; [by rewrite Z.mul_0_r, Z.add_0_r|].
    replace (p + sizeof_mp * Z.of_nat (S j)) with (p + sizeof_mp + sizeof_mp * Z.of_nat j) by lia. apply Hj. lia.
  - intros [|j] Hlt; [by rewrite Z.mul_0_r, Z.add_0_r|].
    replace (p + sizeof_mp * Z.of_nat (S j)) with (p + sizeof_mp + sizeof_mp * Z.of_nat j) by lia. apply IH. lia.
Qed.

(** ** The entries *)

(** An entry of the table, with the bytes the kernel does not look at. *)
Inductive entry :=
| EProc (apicid : Z) (rest : list Z)
| EIoapic (apicno : Z) (rest : list Z)
| EOther (type : Z) (rest : list Z).

Definition encode (e : entry) : list Z :=
  match e with
  | EProc a rest => MPPROC :: a :: rest
  | EIoapic a rest => MPIOAPIC :: a :: rest
  | EOther t rest => t :: rest
  end.

Definition entry_ok (e : entry) : Prop :=
  match e with
  | EProc a rest => 0 ≤ a < 256 ∧ length rest = 18%nat
  | EIoapic a rest => 0 ≤ a < 256 ∧ length rest = 6%nat
  | EOther t rest => (t = MPBUS ∨ t = MPIOINTR ∨ t = MPLINTR) ∧ length rest = 7%nat
  end.

(** What an entry tells the kernel. *)
Definition note (s : kstate) (e : entry) : kstate :=
  match e with
  | EProc a _ => add_cpu a s
  | EIoapic a _ => upd_k_ioapicid (λ _, a) s
  | EOther _ _ => s
  end.

Lemma bytes_at_app m p l1 l2 :
  bytes_at m p (length (l1 ++ l2)) = l1 ++ l2 →
  bytes_at m p (length l1) = l1 ∧ bytes_at m (p + Z.of_nat (length l1)) (length l2) = l2.
Proof.
  revert p. induction l1 as [|x l1 IH]; intros p H; simpl in *.
  - split; [done|]. by rewrite Z.add_0_r.
  - injection H as Hx H. destruct (IH _ H) as [H1 H2]. split; [by rewrite Hx, H1|].
    rewrite <-H2 at 2. f_equal. lia.
Qed.

Lemma note_mem s e : k_mem (note s e) = k_mem s.
Proof. destruct e; simpl; [|done..]. unfold add_cpu. by destruct (_ <? _). Qed.

Lemma mpinit_loop_ok es : ∀ fuel p s,
  Forall entry_ok es → (length es ≤ fuel)%nat → 
  bytes_at (k_mem s) p (length (es ≫= encode)) = es ≫= encode →
  mpinit_loop fuel p (p + Z.of_nat (length (es ≫= encode))) true s = Ret true (foldl note s es).
Proof.
  induction es as [|e es IH]; intros fuel p s Hok Hf Hb.
  { simpl. rewrite Z.add_0_r. destruct fuel; simpl; by rewrite Z.leb_refl. }
  apply Forall_cons in Hok as [He Hok]. destruct fuel as [|fuel]; [simpl in Hf; lia|].
  change ((e :: es) ≫= encode) with (encode e ++ (es ≫= encode)) in *.
  destruct (bytes_at_app _ _ _ _ Hb) as [Hb1 Hb2].
  assert ((0 < length (encode e))%nat) as Hpos by (destruct e; simpl; lia).
  cbn [mpinit_loop]. destruct (Z.leb_spec (p + Z.of_nat (length (encode e ++ (es ≫= encode)))) p) as [Hle|_];
    [rewrite length_app in Hle; lia|]. rewrite bind_gets. cbn zeta.
  assert (mpinit_loop fuel (p + Z.of_nat (length (encode e))) (p + Z.of_nat (length (encode e ++ (es ≫= encode)))) true (note s e) =
    Ret true (foldl note (note s e) es)) as Hrec.
  { rewrite length_app, Nat2Z.inj_add, Z.add_assoc. apply IH; [done|simpl in Hf; lia|by rewrite note_mem]. }
  change (foldl note s (e :: es)) with (foldl note (note s e) es).
  destruct e as [a rest|a rest|t rest]; simpl in He, Hb1; destruct He as [Ha Hlen].
  - injection Hb1 as H0 H1 _. rewrite H0, H1. cbn [Z.eqb MPPROC]. rewrite bind_modify.
    replace (p + sizeof_mpproc) with (p + Z.of_nat (length (encode (EProc a rest)))) by (simpl; unfold sizeof_mpproc; lia).
    exact Hrec.
  - injection Hb1 as H0 H1 _. rewrite H0, H1. change (MPIOAPIC =? MPPROC) with false.
    change (MPIOAPIC =? MPIOAPIC) with true. cbn iota. rewrite bind_modify.
    replace (p + sizeof_mpioapic) with (p + Z.of_nat (length (encode (EIoapic a rest)))) by (simpl; unfold sizeof_mpioapic; lia).
    exact Hrec.
  - injection Hb1 as H0 _. rewrite H0.
    replace (p + 8) with (p + Z.of_nat (length (encode (EOther t rest)))) by (simpl; lia).
    destruct Ha as [->|[->| ->]]; exact Hrec.
Qed.

(** The processors the entries list, in order. *)
Definition procs_of (es : list entry) : list Z := omap (λ e, match e with EProc a _ => Some a | _ => None end) es.

Lemma note_keeps s e : length (k_apicids (note s e)) = length (k_apicids s).
Proof. destruct e; simpl; [|done..]. unfold add_cpu. destruct (_ <? _); [|done]. simpl. apply length_insert. Qed.

(** The first [NCPU] processors are recorded. *)
Lemma notes_cpus es : ∀ s,
  0 ≤ k_ncpu s ≤ NCPU → length (k_apicids s) = 8%nat →
  let s' := foldl note s es in
  k_ncpu s' = Z.min NCPU (k_ncpu s + Z.of_nat (length (procs_of es))) ∧
  take (Z.to_nat (k_ncpu s')) (k_apicids s') =
    take 8 (take (Z.to_nat (k_ncpu s)) (k_apicids s) ++ procs_of es).
Proof.
  induction es as [|e es IH]; intros s Hn Hl; cbn zeta.
  { simpl. rewrite app_nil_r, take_take. split; [lia|]. f_equal. unfold NCPU in Hn. lia. }
  cbn [foldl]. pose proof (note_keeps s e) as Hk.
  assert (0 ≤ k_ncpu (note s e) ≤ NCPU) as Hn'.
  { destruct e; simpl; [|done..]. unfold add_cpu. destruct (Z.ltb_spec (k_ncpu s) NCPU); simpl; lia. }
  destruct (IH (note s e) Hn') as [H1 H2]; [lia|]. rewrite H2, H1. clear H1 H2 IH.
  destruct e as [a rest|a rest|t rest]; simpl; [|done..].
  unfold add_cpu. destruct (Z.ltb_spec (k_ncpu s) NCPU) as [Hlt|Hge]; cbn -[Z.add Z.min take length].
  - split; [simpl length; lia|]. replace (Z.to_nat (k_ncpu s + 1)) with (S (Z.to_nat (k_ncpu s))) by lia.
    unfold NCPU in Hlt. rewrite (take_S_r (<[_ := _]> _) (Z.to_nat (k_ncpu s)) a) by (apply list_lookup_insert_eq; lia).
    rewrite take_insert_ge by lia. by rewrite <-app_assoc.
  - split; [simpl length; lia|]. assert (k_ncpu s = 8) as Hs by (unfold NCPU in *; lia). rewrite Hs.
    rewrite !take_app_le by (rewrite length_take; lia). done.
Qed.

Lemma notes_rest es : ∀ s,
  foldl note s es = upd_k_ncpu (λ _, k_ncpu (foldl note s es)) (upd_k_apicids (λ _, k_apicids (foldl note s es))
    (upd_k_ioapicid (λ _, k_ioapicid (foldl note s es)) s)).
Proof.
  induction es as [|e es IH]; intros s; [done|]. cbn [foldl]. rewrite IH at 1.
  apply kstate_eq; try reflexivity; simpl; destruct e; simpl; try done; unfold add_cpu; by destruct (_ <? _).
Qed.

(** The number of the I/O APIC the entries list last. *)
Definition ioapic_of (old : Z) (es : list entry) : Z :=
  foldl (λ n e, match e with EIoapic a _ => a | _ => n end) old es.

Lemma notes_ioapic es : ∀ s, k_ioapicid (foldl note s es) = ioapic_of (k_ioapicid s) es.
Proof.
  induction es as [|e es IH]; intros s; [done|]. simpl. rewrite IH. f_equal.
  destruct e; simpl; try done. unfold add_cpu. by destruct (_ <? _).
Qed.

Lemma entries_short es : Forall entry_ok es → (length es ≤ length (es ≫= encode))%nat.
Proof.
  induction 1 as [|e es He _ IH]; [done|]. change ((e :: es) ≫= encode) with (encode e ++ (es ≫= encode)).
  rewrite length_app. destruct e; simpl; lia.
Qed.


(** A machine with two processors, its tables in the BIOS ROM. *)
Module MpExample.
Definition entries : list entry :=
  [EProc 0 (replicate 18 0); EProc 1 (replicate 18 0); EOther MPBUS (replicate 7 0); EIoapic 2 (replicate 6 0)].

Definition checked (before after : list Z) : list Z :=
  before ++ [u8 (- foldr Z.add 0 (before ++ after))] ++ after.

Definition mp : list Z := checked (chars "_MP_" ++ [0; 1; 15; 0] ++ [1; 4]) [0; 0; 0; 0; 0].
Definition conf : list Z :=
  checked (chars "PCMP" ++ [44 + 56; 0] ++ [4])
    (replicate 20 0 ++ [0; 0; 0; 0] ++ [0; 0] ++ [4; 0] ++ [0; 0; 224; 254] ++ [0; 0; 0; 0] ++ (entries ≫= encode)).
Definition state : kstate :=
  upd_k_mem (λ m, store_bytes (store_bytes m (P2V 0xF0040) mp) (P2V 0xF0100) conf) bss.
End MpExample.


(** C27.  An entry of a type the kernel does not know is never left: the
    [break] of the default case ends the [switch], not the loop, so that
    [mpinit] reads the same entry forever instead of reporting that the
    machine is not suitable. *)
Theorem mpinit_loop_unknown_entry fuel p e ismp s :
  p < e → 4 < ldb (k_mem s) p → mpinit_loop fuel p e ismp s = NoFuel.
Proof.
  intros Hp Ht. revert ismp. induction fuel as [|fuel IH]; intros ismp; cbn [mpinit_loop];
    (destruct (Z.leb_spec e p); [lia|]); [done|].
  rewrite bind_gets. cbn zeta.
  repeat match goal with |- context [ldb (k_mem s) p =? ?k] =>
    destruct (Z.eqb_spec (ldb (k_mem s) p) k) as [E|_]; [rewrite E in Ht; by vm_compute in Ht|] end.
  apply IH.
Qed.

Lemma mpinit_loop_unknown_entry_witness :
  mpinit_loop 1000 0 8 true (upd_k_mem (λ m, store_bytes m 0 [5]) bss) = NoFuel.
Proof. apply mpinit_loop_unknown_entry; by vm_compute. Defined.
