(* ===== verification/Disk.v ===== *)
(** Disk: the interface of the disk drivers and the memory disk, [memide.c].

    [iderw] is what the buffer cache calls; [ide.c] and [memide.c] both
    define it, and the build links one of them. *)

From S2P Require Import Prelude Layout State Spinlock Sched Sleeplock.

(** The driver linked into the kernel. *)
Class DiskDriver := {
  iderw : nat → K unit;
  ideintr : K unit;
}.

(** The symbols of the disk image linked into a [kernelmemfs]. *)
Class FsImage := { fs_img_size : Z }.

Definition zero_block : list Z := replicate 512 0.

Definition disk_block (d : disk) (b : Z) : list Z := default zero_block (d_blocks d !! b).
Definition disk_write (b : Z) (data : list Z) (d : disk) : disk :=
  MkDisk (<[b := data]> (d_blocks d)) (d_writes d ++ [(b, data)]).

Definition buf_at (i : nat) : K buf := deref (λ s, k_bufs s !! i).
Definition set_buf (i : nat) (f : buf → buf) : K unit := modify (upd_k_bufs (alter f i)).

Lemma bind_buf_at {B} i x (f : buf → K B) s : k_bufs s !! i = Some x → (buf_at i ≫= f) s = f x s.
Proof. apply (bind_deref (λ s, k_bufs s !! i)). Qed.

(** Replace a buffer. *)
Definition put (i : nat) (x : buf) (s : kstate) : kstate := upd_k_bufs <[i := x]> s.

Lemma put_alter i x f s : k_bufs s !! i = Some x → upd_k_bufs (alter f i) s = put i (f x) s.
Proof.
  intros Hx. unfold put, upd_k_bufs. f_equal. apply list_eq. intros j.
  rewrite list_lookup_alter, list_insert_lookup_iff by (by eapply lookup_lt_Some).
  repeat case_decide; subst; try done. by rewrite Hx.
Qed.

Lemma put_here i x y s : k_bufs s !! i = Some y → k_bufs (put i x s) !! i = Some x.
Proof. apply list_insert_lookup_eq. Qed.

Lemma put_put i x y s : put i x (put i y s) = put i x s.
Proof. unfold put, upd_k_bufs. simpl. by rewrite list_insert_insert_eq. Qed.

Lemma alter_put i f x y s :
  k_bufs s !! i = Some y → upd_k_bufs (alter f i) (put i x s) = put i (f x) s.
Proof. intros Hy. rewrite (put_alter _ x) by (by eapply put_here). apply put_put. Qed.

Module Memide.
Section memide.
Context {ENV : Env} {IMG : FsImage}.

(** [(uint)_binary_fs_img_size/BSIZE] *)
Definition disksize : Z := u32 fs_img_size / BSIZE.

Definition ideintr : K unit := mret tt.

Definition iderw (i : nat) : K unit :=
  h ← holdingsleep (SL_buf i);
  if negb h then panic "iderw: buf not locked" else
  b ← buf_at i;
  if Z.land (b_flags b) (Z.lor B_VALID B_DIRTY) =? B_VALID then panic "iderw: nothing to do" else
  if negb (b_dev b =? 1) then panic "iderw: request not for disk 1" else
  if disksize <=? b_blockno b then panic "iderw: block out of range" else
  (if has_flag (b_flags b) B_DIRTY then
     set_buf i (upd_b_flags (λ f, Z.land f (u32 (Z.lnot B_DIRTY))));;
     modify (upd_k_disk (disk_write (b_blockno b) (b_data b)))
   else
     d ← gets (λ s, disk_block (k_disk s) (b_blockno b));
     set_buf i (upd_b_data (λ _, d)));;
  set_buf i (upd_b_flags (λ f, Z.lor f B_VALID)).

Definition driver : DiskDriver := {| Disk.iderw := iderw; Disk.ideintr := ideintr |}.
End memide.
End Memide.
