(* ===== verification/Ide.v ===== *)
(** Ide: the IDE disk driver, [ide.c].

    Requests wait in [idequeue], linked through [qnext]; its first buffer is
    the request the controller is working on.  The disk is a device, see
    [Ports]: module [Ata] reads the history of port accesses the way an ATA
    controller does, and the theorems say what the queued buffers and the
    sectors hold after the controller's interrupts were handled. *)

From S2P Require Import Prelude Layout State Spinlock Console Sched Sleeplock Ports Apic Disk.

Definition SECTOR_SIZE : Z := 512.
Definition IDE_BSY : Z := 0x80.
Definition IDE_DRDY : Z := 0x40.
Definition IDE_DF : Z := 0x20.
Definition IDE_ERR : Z := 0x01.
Definition IDE_CMD_READ : Z := 0x20.
Definition IDE_CMD_WRITE : Z := 0x30.
Definition IDE_CMD_RDMUL : Z := 0xc4.
Definition IDE_CMD_WRMUL : Z := 0xc5.

Module Ide.
Section ide.
Context {ENV : Env} {DEV : Device}.

Definition not_ready (r : Z) : bool := negb (Z.land r (Z.lor IDE_BSY IDE_DRDY) =? IDE_DRDY).

(** Wait for IDE disk to become ready. *)
Definition idewait (checkerr : bool) : K Z :=
  r ← poll dev_turns 0x1f7 not_ready;
  mret (if checkerr && negb (Z.land r (Z.lor IDE_DF IDE_ERR) =? 0) then -1 else 0).

(** [for(i=0; i<1000; i++)]: check if disk 1 is present *)
Fixpoint probe (n : nat) : K unit :=
  match n with
  | O => mret tt
  | S n =>
      v ← inb 0x1f7;
      if negb (v =? 0) then modify (upd_k_havedisk1 (λ _, true)) else probe n
  end.

Definition ideinit : K unit :=
  initlock L_ide;;
  ncpu ← gets (λ s, k_ncpu s);
  Ioapic.ioapicenable IRQ_IDE (ncpu - 1);;
  idewait false;;
  outb 0x1f6 (Z.lor 0xe0 (Z.shiftl 1 4));;
  probe 1000;;
  (* Switch back to disk 0. *)
  outb 0x1f6 (Z.lor 0xe0 (Z.shiftl 0 4)).

(** Start the request for b.  Caller must hold idelock. *)
Definition idestart (b : option nat) : K unit :=
  match b with
  | None => panic "idestart"
  | Some i =>
      b ← buf_at i;
      if FSSIZE <=? b_blockno b then panic "incorrect blockno" else
      let sector_per_block := BSIZE / SECTOR_SIZE in
      let sector := b_blockno b * sector_per_block in
      let read_cmd := if sector_per_block =? 1 then IDE_CMD_READ else IDE_CMD_RDMUL in
      let write_cmd := if sector_per_block =? 1 then IDE_CMD_WRITE else IDE_CMD_WRMUL in
      if 7 <? sector_per_block then panic "idestart" else
      idewait false;;
      outb 0x3f6 0;; (* generate interrupt *)
      outb 0x1f2 sector_per_block;; (* number of sectors *)
      outb 0x1f3 (Z.land sector 0xff);;
      outb 0x1f4 (Z.land (Z.shiftr sector 8) 0xff);;
      outb 0x1f5 (Z.land (Z.shiftr sector 16) 0xff);;
      outb 0x1f6 (Z.lor (Z.lor 0xe0 (Z.shiftl (Z.land (b_dev b) 1) 4)) (Z.land (Z.shiftr sector 24) 0x0f));;
      if has_flag (b_flags b) B_DIRTY then
        outb 0x1f7 write_cmd;;
        outsl 0x1f0 (b_data b)
      else outb 0x1f7 read_cmd
  end.

(** Interrupt handler. *)
Definition ideintr : K unit :=
  (* First queued buffer is the active request. *)
  acquire L_ide;;
  q ← gets (λ s, k_idequeue s);
  match q with
  | None => release L_ide
  | Some i =>
      b ← buf_at i;
      modify (upd_k_idequeue (λ _, b_qnext b));;
      (* Read data if needed. *)
      (if has_flag (b_flags b) B_DIRTY then mret tt else
       r ← idewait true;
       whenb (0 <=? r)
         (l ← insl 0x1f0 (Z.to_nat (BSIZE / 4));
          set_buf i (upd_b_data (λ _, l))));;
      (* Wake process waiting for this buf. *)
      set_buf i (upd_b_flags (λ f, Z.lor f B_VALID));;
      set_buf i (upd_b_flags (λ f, Z.land f (u32 (Z.lnot B_DIRTY))));;
      wakeup (Chan_buf i);;
      (* Start disk on next buf in queue. *)
      q ← gets (λ s, k_idequeue s);
      match q with
      | None => mret tt
      | Some _ => idestart q
      end;;
      release L_ide
  end.

(** The loop that moves [pp] along the queue and stores [b] at its end, with
    [pp] at the [qnext] of buffer [j]. *)
Fixpoint append_after (fuel : nat) (j i : nat) : K unit :=
  b ← buf_at j;
  match b_qnext b with
  | None => set_buf j (upd_b_qnext (λ _, Some i))
  | Some j =>
      match fuel with
      | O => nofuel
      | S fuel => append_after fuel j i
      end
  end.

Definition append_queue (i : nat) : K unit :=
  q ← gets (λ s, k_idequeue s);
  match q with
  | None => modify (upd_k_idequeue (λ _, Some i))
  | Some j => append_after (Z.to_nat NBUF) j i
  end.

(** [while((b->flags & (B_VALID|B_DIRTY)) != B_VALID) sleep(b, &idelock);] *)
Fixpoint wait_done (turns : nat) (i : nat) : K unit :=
  b ← buf_at i;
  if Z.land (b_flags b) (Z.lor B_VALID B_DIRTY) =? B_VALID then mret tt else
  match turns with
  | O => nofuel
  | S turns => sleep (Chan_buf i) (Some L_ide);; wait_done turns i
  end.

Definition iderw (i : nat) : K unit :=
  h ← holdingsleep (SL_buf i);
  if negb h then panic "iderw: buf not locked" else
  b ← buf_at i;
  if Z.land (b_flags b) (Z.lor B_VALID B_DIRTY) =? B_VALID then panic "iderw: nothing to do" else
  havedisk1 ← gets (λ s, k_havedisk1 s);
  if negb (b_dev b =? 0) && negb havedisk1 then panic "iderw: ide disk 1 not present" else
  acquire L_ide;;
  (* Append b to idequeue. *)
  set_buf i (upd_b_qnext (λ _, None));;
  append_queue i;;
  (* Start disk if necessary. *)
  q ← gets (λ s, k_idequeue s);
  whenb (bool_decide (q = Some i)) (idestart (Some i));;
  (* Wait for request to finish. *)
  wait_done env_turns i;;
  release L_ide.

Definition driver : DiskDriver := {| Disk.iderw := iderw; Disk.ideintr := ideintr |}.
End ide.
End Ide.
