(* ===== verification/IdeSpec.v ===== *)
(** IdeSpec: the IDE driver serves its queue in order.

    Module [Ata] is the disk's side: the history of port accesses determines
    the command registers, the pending command and the sectors.  A queue of
    requests has a simple meaning, [serve]: each request in turn reads or
    writes its sector.  [ideintr] serves the first request and starts the
    next; [iderw] appends a request and sleeps until it is served. *)

From S2P Require Import Prelude Layout State Spinlock Console Sched Sleeplock Ready Ports Apic Disk Ide.

(** ** The controller *)

Module Ata.
Inductive pending := Idle | Reading (sector : Z * Z) | Writing (sector : Z * Z).

(** The command registers, the pending command, and the sectors written so
    far, by drive and block address. *)
Record ata := MkAta {
  a_count : Z; a_lba0 : Z; a_lba1 : Z; a_lba2 : Z; a_head : Z;
  a_pending : pending;
  a_written : gmap (Z * Z) (list Z);
}.

Definition ata0 : ata := MkAta 0 0 0 0 0 Idle ∅.

(** Bit 4 of the head register selects the drive, its low bits extend the
    block address. *)
Definition address (a : ata) : Z * Z :=
  (Z.land (Z.shiftr (a_head a) 4) 1,
   a_lba0 a + 256 * a_lba1 a + 65536 * a_lba2 a + 16777216 * Z.land (a_head a) 15).

(** Commands for one sector, without DMA. *)
Definition command (a : ata) (c : Z) : pending :=
  if negb (a_count a =? 1) then Idle
  else if c =? 0x20 then Reading (address a)
  else if c =? 0x30 then Writing (address a)
  else Idle.

(** The 512 bytes of a sector that arrive on the bus. *)
Definition fit (data : list Z) : list Z := map (λ k, u8 (nth k data 0)) (seq 0 512).

Lemma fit_id data : length data = 512%nat → Forall (λ b, 0 ≤ b < 256) data → fit data = data.
Proof.
  intros Hl Hb. apply list_eq_same_length with 512%nat; [by rewrite Hl|unfold fit; by rewrite length_map, length_seq|].
  intros i x y Hi Hx Hy. unfold fit in Hx. rewrite list_lookup_fmap, lookup_seq_lt in Hx by lia. simpl in Hx. simplify_eq.
  rewrite (nth_lookup_Some _ _ _ _ Hy). unfold u8. apply Z.mod_small.
  rewrite Forall_lookup in Hb. by eapply Hb.
Qed.

Definition step (a : ata) (e : io) : ata :=
  let 'MkAta n l0 l1 l2 h p w := a in
  match e with
  | Out port v =>
      if port =? 0x1f2 then MkAta v l0 l1 l2 h p w
      else if port =? 0x1f3 then MkAta n v l1 l2 h p w
      else if port =? 0x1f4 then MkAta n l0 v l2 h p w
      else if port =? 0x1f5 then MkAta n l0 l1 v h p w
      else if port =? 0x1f6 then MkAta n l0 l1 l2 v p w
      else if port =? 0x1f7 then MkAta n l0 l1 l2 h (command a v) w
      else a
  | Outs port data =>
      if port =? 0x1f0 then
        match p with
        | Writing d => MkAta n l0 l1 l2 h Idle (<[d := fit data]> w)
        | _ => a
        end
      else a
  | Ins port _ =>
      if port =? 0x1f0 then
        match p with
        | Reading d => MkAta n l0 l1 l2 h Idle w
        | _ => a
        end
      else a
  | _ => a
  end.

Definition after (h : list io) : ata := fold_left step h ata0.

Lemma after_app h l : after (h ++ l) = fold_left step l (after h).
Proof. apply fold_left_app. Qed.

Lemma step_reads port l a : Forall (λ e, ∃ v, e = In port v) l → fold_left step l a = a.
Proof. induction 1 as [|e l [v ->] _ IH]; [done|]. by destruct a. Qed.
End Ata.

(** A disk that keeps the protocol: [sectors] is what it holds before the
    first access; it is ready after a while, reports no errors, and a pending
    read returns the sector. *)
Class AtaDevice {DEV : Device} := {
  sectors : Z * Z → list Z;
  ata_ready h : settles dev_turns h 0x1f7 Ide.not_ready;
  ata_no_error h : Ide.not_ready (u8 (dev_in h 0x1f7)) = false →
    Z.land (u8 (dev_in h 0x1f7)) (Z.lor IDE_DF IDE_ERR) = 0;
  ata_data h d : Ata.a_pending (Ata.after h) = Ata.Reading d →
    map (λ k, u8 (dev_ins h 0x1f0 k)) (seq 0 512) = default (sectors d) (Ata.a_written (Ata.after h) !! d);
}.

(** ** Requests *)

Record request := MkRequest { rq_sector : Z * Z; rq_flags : Z; rq_data : list Z }.

Definition view (b : buf) : request := MkRequest (b_dev b, b_blockno b) (b_flags b) (b_data b).

Abbreviation content := (Z * Z → list Z).

Definition dirty (r : request) : bool := has_flag (rq_flags r) B_DIRTY.

(** The disk and the request after it was served. *)
Definition store (D : content) (r : request) : content :=
  if dirty r then λ d, if decide (d = rq_sector r) then rq_data r else D d else D.
Definition served (D : content) (r : request) : request :=
  MkRequest (rq_sector r) B_VALID (if dirty r then rq_data r else D (rq_sector r)).

(** Serving the requests of [q] one after the other. *)
Fixpoint serve (D : content) (q : list nat) (rs : list request) : content * list request :=
  match q with
  | [] => (D, rs)
  | i :: q =>
      match rs !! i with
      | Some r => serve (store D r) q (<[i := served D r]> rs)
      | None => (D, rs)
      end
  end.

(** A buffer waiting for the disk: to be read, or to be written. *)
Definition waiting (r : request) : Prop :=
  (rq_flags r = 0 ∨ rq_flags r = B_DIRTY ∨ rq_flags r = Z.lor B_VALID B_DIRTY) ∧
  ((rq_sector r).1 = 0 ∨ (rq_sector r).1 = 1) ∧ 0 ≤ (rq_sector r).2 < FSSIZE ∧
  length (rq_data r) = 512%nat ∧ Forall (λ b, 0 ≤ b < 256) (rq_data r).

(** [o] heads the chain of the buffers [q], linked through [qnext]. *)
Fixpoint chain (bs : list buf) (o : option nat) (q : list nat) : Prop :=
  match q with
  | [] => o = None
  | i :: q => o = Some i ∧ ∃ b, bs !! i = Some b ∧ chain bs (b_qnext b) q
  end.

Lemma queue_frame bs bs' o q :
  (∀ i b, i ∈ q → bs !! i = Some b → ∃ b', bs' !! i = Some b' ∧ b_qnext b' = b_qnext b) →
  chain bs o q → chain bs' o q.
Proof.
  revert o. induction q as [|i q IH]; intros o Hf; simpl; [done|].
  intros (-> & b & Hb & Hq). split; [done|].
  destruct (Hf i b) as (b' & Hb' & He); [by left|done|]. exists b'. split; [done|]. rewrite He.
  apply IH; [|done]. intros j c Hj. apply Hf. by right.
Qed.

Section spec.
Context {ENV : Env} {DEV : Device} {ATA : AtaDevice}.

(** What the disk holds after the accesses [h]. *)
Definition held (h : list io) (d : Z * Z) : list Z := default (sectors d) (Ata.a_written (Ata.after h) !! d).

(** The controller has been told about the request: a write has reached the
    disk, a read is pending. *)
Definition started (h : list io) (D : content) (r : request) : Prop :=
  (∀ d, held h d = store D r d) ∧
  (dirty r = false → Ata.a_pending (Ata.after h) = Ata.Reading (rq_sector r)).

(** The requests [q] are queued, and the disk held [D] before the first of
    them. *)
Record ide_inv (s : kstate) (D : content) (q : list nat) : Prop := MkIdeInv {
  ii_chain : chain (k_bufs s) (k_idequeue s) q;
  ii_nodup : NoDup q;
  ii_waiting : ∀ i, i ∈ q → ∃ b, k_bufs s !! i = Some b ∧ waiting (view b);
  ii_disk : match q with
            | [] => ∀ d, held (k_io s) d = D d
            | i :: _ => ∃ b, k_bufs s !! i = Some b ∧ started (k_io s) D (view b)
            end;
}.

(** ** Starting a request *)

Lemma idewait_ok c s :
  ∃ l, Ide.idewait c s = Ret 0 (logged l s) ∧ ∀ h, Ata.after (h ++ l) = Ata.after h.
Proof.
  destruct (poll_ok dev_turns 0x1f7 Ide.not_ready s (ata_ready _)) as (h & l & Hr & Hv & Hl).
  exists l. split.
  - unfold Ide.idewait. mrun Hr. unfold mret, M_ret. rewrite ata_no_error by done. by destruct c.
  - intros h'. rewrite Ata.after_app. by eapply Ata.step_reads.
Qed.

Lemma lba_parts n : 0 ≤ n < FSSIZE →
  Z.land n 0xff + 256 * Z.land (Z.shiftr n 8) 0xff + 65536 * Z.land (Z.shiftr n 16) 0xff = n ∧
  Z.shiftr n 24 = 0 ∧ u8 (Z.land n 0xff) = Z.land n 0xff ∧
  u8 (Z.land (Z.shiftr n 8) 0xff) = Z.land (Z.shiftr n 8) 0xff ∧
  u8 (Z.land (Z.shiftr n 16) 0xff) = Z.land (Z.shiftr n 16) 0xff.
Proof.
  intros Hn. unfold FSSIZE in Hn. unfold u8. change 0xff with (Z.ones 8).
  rewrite !Z.land_ones, !Z.shiftr_div_pow2 by lia. cbn [Z.pow Z.pow_pos Pos.iter].
  change (2 ^ 8) with 256. rewrite !Zmod_mod. rewrite (Z.div_small n (2 ^ 16)), (Z.div_small n (2 ^ 24)) by lia.
  pose proof (Z.div_mod n 256 ltac:(lia)). rewrite (Z.mod_small (n / 256)); [|split; [apply Z.div_pos; lia|apply Z.div_lt_upper_bound; lia]].
  split_and!; try done. change (0 mod 256) with 0. lia.
Qed.

(** The accesses of [idestart] after its wait, and what the controller makes
    of them. *)
Definition start_log (r : request) : list io :=
  let n := (rq_sector r).2 in
  [Out 0x3f6 0; Out 0x1f2 1; Out 0x1f3 (Z.land n 0xff); Out 0x1f4 (Z.land (Z.shiftr n 8) 0xff);
   Out 0x1f5 (Z.land (Z.shiftr n 16) 0xff); Out 0x1f6 (0xe0 + 16 * (rq_sector r).1)] ++
  (if dirty r then [Out 0x1f7 0x30; Outs 0x1f0 (rq_data r)] else [Out 0x1f7 0x20]).

Lemma start_log_ok h r D : waiting r → (∀ d, held h d = D d) → started (h ++ start_log r) D r.
Proof.
  intros (_ & Hd & Hn & Hlen & Hbytes) HD. destruct (lba_parts _ Hn) as (Hlba & _).
  assert (Ata.after (h ++ start_log r) =
    if dirty r then Ata.MkAta 1 (Z.land (rq_sector r).2 0xff) (Z.land (Z.shiftr (rq_sector r).2 8) 0xff)
         (Z.land (Z.shiftr (rq_sector r).2 16) 0xff) (0xe0 + 16 * (rq_sector r).1) Ata.Idle
         (<[rq_sector r := Ata.fit (rq_data r)]> (Ata.a_written (Ata.after h)))
    else Ata.MkAta 1 (Z.land (rq_sector r).2 0xff) (Z.land (Z.shiftr (rq_sector r).2 8) 0xff)
         (Z.land (Z.shiftr (rq_sector r).2 16) 0xff) (0xe0 + 16 * (rq_sector r).1) (Ata.Reading (rq_sector r))
         (Ata.a_written (Ata.after h))) as Ha.
  { assert (∀ n p w, Ata.address (Ata.MkAta n (Z.land (rq_sector r).2 0xff) (Z.land (Z.shiftr (rq_sector r).2 8) 0xff)
      (Z.land (Z.shiftr (rq_sector r).2 16) 0xff) (0xe0 + 16 * (rq_sector r).1) p w) = rq_sector r) as Haddr.
    { intros n p w. unfold Ata.address. cbn [Ata.a_lba0 Ata.a_lba1 Ata.a_lba2 Ata.a_head]. rewrite Hlba.
      destruct (rq_sector r) as [d y]. cbn [fst snd] in *. destruct Hd as [-> | ->]; apply (f_equal2 pair); [done| |done|].
      all: change (Z.land _ 15) with 0; lia. }
    rewrite Ata.after_app. unfold start_log. cbn zeta. destruct (Ata.after h) as [n l0 l1 l2 hd p w].
    destruct (dirty r); cbn -[Z.land Z.shiftr Ata.address Z.mul Z.add Ata.fit]; unfold Ata.command;
      cbn -[Z.land Z.shiftr Ata.address Z.mul Z.add Ata.fit]; rewrite Haddr; done. }
  split.
  - intros d. unfold held, store. rewrite Ha. destruct (dirty r); simpl; [|apply HD].
    case_decide as E; [subst; rewrite lookup_insert_eq; by apply Ata.fit_id|]. rewrite lookup_insert_ne by done. apply HD.
  - intros E. rewrite Ha, E. done.
Qed.

Lemma idestart_ok i b D s :
  k_bufs s !! i = Some b → waiting (view b) → (∀ d, held (k_io s) d = D d) →
  ∃ l, Ide.idestart (Some i) s = Ret tt (logged l s) ∧ started (k_io s ++ l) D (view b).
Proof.
  intros Hb Hw HD. pose proof Hw as (Hf & Hd & Hn & _). simpl in Hd, Hn.
  destruct (idewait_ok false s) as (l & Hl & Hk).
  exists (l ++ start_log (view b)). split.
  - unfold Ide.idestart. rewrite (bind_buf_at _ _ _ _ Hb). destruct (Z.leb_spec FSSIZE (b_blockno b)); [lia|].
    change (BSIZE / SECTOR_SIZE) with 1. rewrite Z.mul_1_r. cbn -[Z.land Z.shiftr Z.shiftl Z.lor Ide.idewait].
    mrun Hl. destruct (lba_parts _ Hn) as (_ & H24 & H0 & H8 & H16).
    rewrite H24. do 6 (erewrite bind_Ret; [|apply outb_ok]; cbn beta). rewrite H0, H8, H16.
    unfold start_log, dirty. cbn [view rq_sector rq_flags rq_data snd fst].
    assert (u8 (Z.lor (Z.lor 224 (Z.shiftl (Z.land (b_dev b) 1) 4)) (Z.land 0 15)) = 0xe0 + 16 * b_dev b) as ->
      by (by destruct Hd as [-> | ->]).
    destruct (has_flag (b_flags b) B_DIRTY).
    + erewrite bind_Ret; [|apply outb_ok]. rewrite outsl_ok, !logged_logged, <-?app_assoc. done.
    + rewrite outb_ok, !logged_logged, <-?app_assoc. done.
  - rewrite app_assoc. apply start_log_ok; [done|]. intros d. unfold held. rewrite Hk. apply HD.
Qed.

(** ** The interrupt handler *)

Lemma set_buf_put i f x y l s :
  k_bufs s !! i = Some y → set_buf i f (logged l (put i x s)) = Ret tt (logged l (put i (f x) s)).
Proof.
  intros Hy. change (set_buf i f (logged l (put i x s)))
    with (Ret tt (logged l (upd_k_bufs (alter f i) (put i x s)))). by erewrite alter_put.
Qed.

(** The buffer with the sector it asked for. *)
Definition fetched (D : content) (b : buf) : buf :=
  upd_b_data (λ data, if dirty (view b) then data else D (rq_sector (view b))) b.

Lemma put_id i x s : k_bufs s !! i = Some x → put i x s = s.
Proof. intros Hx. unfold put, upd_k_bufs. by rewrite list_insert_id. Qed.

Lemma fetch_ok i b D s :
  k_bufs s !! i = Some b → started (k_io s) D (view b) →
  ∃ l, (if has_flag (b_flags b) B_DIRTY then mret tt else
        r ← Ide.idewait true;
        whenb (0 <=? r)
          (l ← insl 0x1f0 (Z.to_nat (BSIZE / 4));
           set_buf i (upd_b_data (λ _, l)))) s = Ret tt (logged l (put i (fetched D b) s)) ∧
    ∀ d, held (k_io s ++ l) d = store D (view b) d.
Proof.
  intros Hb [Hh Hp]. unfold fetched. change (has_flag (b_flags b) B_DIRTY) with (dirty (view b)).
  destruct (dirty (view b)) eqn:E.
  - exists []. rewrite app_nil_r, logged_nil. split; [|done]. unfold upd_b_data. rewrite put_id by done. done.
  - specialize (Hp eq_refl). destruct (idewait_ok true s) as (l & Hl & Hk).
    set (data := map (λ k, u8 (dev_ins (k_io s ++ l) 0x1f0 k)) (seq 0 512)).
    assert (data = D (rq_sector (view b))) as Hdata.
    { unfold data. erewrite (ata_data _ (rq_sector (view b))) by (by rewrite Hk).
      rewrite Hk. specialize (Hh (rq_sector (view b))). unfold held, store in Hh. by rewrite E in Hh. }
    exists (l ++ [Ins 0x1f0 data]). split.
    + mrun Hl. unfold insl, log_io. cbn [Z.leb Z.compare whenb]. msteps. unfold set_buf.
      change (map _ (seq 0 (4 * Z.to_nat (BSIZE / 4)))) with data. rewrite Hdata.
      rewrite <-(put_alter i b (upd_b_data (λ _, D (rq_sector (view b)))) s Hb), <-logged_logged. reflexivity.
    + intros d. rewrite <-Hh. unfold held. rewrite app_assoc, Ata.after_app, Hk.
      destruct (Ata.after (k_io s)) as [n l0 l1 l2 h p w]. simpl. by destruct p.
Qed.

(** The state after the first request of the queue, buffer [i], was served. *)
Definition served_buf (D : content) (b : buf) : buf := upd_b_flags (λ _, B_VALID) (fetched D b).

Definition served_state (D : content) (i : nat) (b : buf) (l : list io) (s : kstate) : kstate :=
  logged l (upd_k_procs (map (wake (Some (Chan_buf i))))
    (put i (served_buf D b) (upd_k_idequeue (λ _, b_qnext b) (sync s)))).

Lemma flags_done b : waiting (view b) → Z.land (Z.lor (b_flags b) B_VALID) (u32 (Z.lnot B_DIRTY)) = B_VALID.
Proof. intros [[H|[H|H]] _]; simpl in H; by rewrite H. Qed.

Definition calm_locks (s : kstate) : Prop :=
  cpu_wf (k_cpu s) ∧ k_locks s !! L_ide = None ∧ k_locks s !! L_ptable = None.

Lemma ide_inv_frame s s' D q :
  k_bufs s' = k_bufs s → k_idequeue s' = k_idequeue s → k_io s' = k_io s → ide_inv s D q → ide_inv s' D q.
Proof. intros Hb Hq Hi []. split; by rewrite ?Hb, ?Hq, ?Hi. Qed.

(** Starting the disk on the first buffer of the queue. *)
Lemma start_next_ok q D s :
  chain (k_bufs s) (k_idequeue s) q → NoDup q →
  (∀ i, i ∈ q → ∃ b, k_bufs s !! i = Some b ∧ waiting (view b)) →
  (∀ d, held (k_io s) d = D d) →
  ∃ l, match k_idequeue s with None => mret tt | Some _ => Ide.idestart (k_idequeue s) end s = Ret tt (logged l s) ∧
    ide_inv (logged l s) D q.
Proof.
  intros Hc Hnd Hw Hd. destruct q as [|i q].
  - exists []. simpl in Hc. rewrite Hc, logged_nil. split; [done|]. by split.
  - pose proof Hc as (Hq & b & Hb & _). destruct (Hw i) as (b' & Hb' & Hwb); [by left|]. simplify_eq.
    destruct (idestart_ok i b D s Hb Hwb Hd) as (l & Hl & Hs). exists l. rewrite Hq. split; [done|].
    split; [done|done|done|]. by exists b.
Qed.

(** Finishing one buffer keeps the others queued. *)
Lemma chain_put i b q bs o :
  i ∉ q → chain bs o q → chain (<[i := b]> bs) o q.
Proof.
  intros Hi. apply queue_frame. intros j c Hj Hc. exists c. split; [|done].
  rewrite list_lookup_insert_ne; [done|]. by intros ->.
Qed.

Lemma ideintr_run i b q D s :
  calm_locks s → k_bufs s !! i = Some b → ide_inv s D (i :: q) →
  ∃ l, Ide.ideintr s = Ret tt (served_state D i b l s) ∧ ide_inv (served_state D i b l s) (store D (view b)) q.
Proof.
  intros (Hwf & Hide & Hpt) Hb Hinv. pose proof Hinv as [Hc Hnd Hw Hd].
  destruct Hc as (Hq & b' & Hb' & Hc). simplify_eq. destruct Hd as (b'' & Hb'' & Hst). simplify_eq.
  apply NoDup_cons in Hnd as [Hni Hnd].
  destruct (Hw i) as (b'' & Hb'' & Hwb); [by left|]. simplify_eq.
  set (s1 := upd_k_idequeue (λ _, b_qnext b) (locked L_ide s)).
  destruct (fetch_ok i b D s1 Hb Hst) as (l1 & Hf & Hh1).
  set (s2 := logged l1 (put i (served_buf D b) s1)).
  set (s3 := upd_k_procs (map (wake (Some (Chan_buf i)))) (sync s2)).
  destruct (start_next_ok q (store D (view b)) s3) as (l2 & Hn & Hi2).
  { by apply chain_put. }
  { done. }
  { intros j Hj. destruct (Hw j) as (c & Hcj & Hwc); [by right|]. exists c. split; [|done]. simpl.
    rewrite list_lookup_insert_ne; [done|]. by intros ->. }
  { exact Hh1. }
  exists (l1 ++ l2). split.
  - unfold Ide.ideintr. mrun (acquire_ok _ _ Hide). msteps. cbn [k_idequeue]. change (k_idequeue (locked L_ide s)) with (k_idequeue s).
    rewrite Hq. rewrite (bind_buf_at i b _ (locked L_ide s)) by done. msteps. fold s1. mrun Hf.
    erewrite bind_Ret; [|apply (set_buf_put i _ _ b); exact Hb]. cbn beta.
    erewrite bind_Ret; [|apply (set_buf_put i _ _ b); exact Hb]. cbn beta.
    change (logged l1 (put i _ s1)) with
      (logged l1 (put i (upd_b_flags (λ _, Z.land (Z.lor (b_flags b) B_VALID) (u32 (Z.lnot B_DIRTY))) (fetched D b)) s1)).
    rewrite (flags_done b Hwb). fold (served_buf D b). fold s2.
    erewrite bind_Ret; [|apply wakeup_ok; [by apply push_wf|simpl; by rewrite lookup_insert_ne]]. cbn beta. fold s3.
    msteps. mrun Hn. erewrite release_ok; [|exact Hwf|simpl; by apply cpu_sync_push|simpl; by rewrite lookup_insert_eq].
    f_equal. apply kstate_eq; try reflexivity; simpl.
    + by rewrite delete_insert_eq, delete_id.
    + by rewrite app_assoc.
  - eapply ide_inv_frame; [..|exact Hi2]; try reflexivity. simpl. by rewrite app_assoc.
Qed.

Lemma ideintr_spurious D s : calm_locks s → ide_inv s D [] → Ide.ideintr s = Ret tt (sync s).
Proof.
  intros (Hwf & Hide & _) [Hq _ _ _]. simpl in Hq. unfold Ide.ideintr. mrun (acquire_ok _ _ Hide). msteps.
  change (k_idequeue (locked L_ide s)) with (k_idequeue s). rewrite Hq.
  erewrite release_ok; [|exact Hwf|done|simpl; by rewrite lookup_insert_eq].
  f_equal. apply kstate_eq; try reflexivity. simpl. by rewrite delete_insert_eq, delete_id.
Qed.

(** ** A series of interrupts *)

Fixpoint irqs (n : nat) : K unit :=
  match n with
  | O => mret tt
  | S n => Ide.ideintr;; irqs n
  end.

(** What interrupts leave alone: everything but the processes' wake-ups, the
    buffers, the queue and the I/O history. *)
Definition only_served (s s' : kstate) : Prop :=
  ∃ c procs bufs q h, cpu_sync c = cpu_sync (k_cpu s) ∧
    s' = upd_k_cpu (λ _, c) (upd_k_procs (λ _, procs) (upd_k_bufs (λ _, bufs)
           (upd_k_idequeue (λ _, q) (upd_k_io (λ _, h) s)))).

Lemma only_served_refl s : only_served s s.
Proof. exists (k_cpu s), (k_procs s), (k_bufs s), (k_idequeue s), (k_io s). split; [done|]. by apply kstate_eq. Qed.

Lemma only_served_trans s1 s2 s3 : only_served s1 s2 → only_served s2 s3 → only_served s1 s3.
Proof.
  intros (c & p & b & q & h & Hc & ->) (c' & p' & b' & q' & h' & Hc' & ->). exists c', p', b', q', h'.
  split; [by rewrite Hc'|]. by apply kstate_eq.
Qed.

Lemma only_served_sync s s' : only_served (sync s) s' → only_served s s'.
Proof.
  intros (c & p & b & q & h & Hc & ->). exists c, p, b, q, h. split; [by rewrite Hc; apply cpu_sync_idemp|].
  by apply kstate_eq.
Qed.

Lemma only_served_calm s s' : only_served s s' → calm_locks s → calm_locks s'.
Proof.
  intros (c & p & b & q & h & Hc & ->) ([H1 H2] & H). split; [|done]. simpl.
  change (c_ncli c) with (c_ncli (cpu_sync c)). unfold cpu_wf.
  change (c_ncli c) with (c_ncli (cpu_sync c)). change (c_if c) with (c_if (cpu_sync c)). by rewrite Hc.
Qed.

Lemma only_served_state D i b l s : only_served s (served_state D i b l s).
Proof. eexists (cpu_sync (k_cpu s)), _, _, _, _. split; [apply cpu_sync_idemp|]. by apply kstate_eq. Qed.

(** The processes that do not wait for the buffers [q] any more. *)
Definition wakes (q : list nat) (ps : list proc) : list proc :=
  fold_left (λ ps i, map (wake (Some (Chan_buf i))) ps) q ps.

(** The queue is served in order by as many interrupts as it has requests;
    further interrupts change nothing. *)
Lemma irqs_ok n : ∀ q D s,
  (length q ≤ n)%nat → calm_locks s → ide_inv s D q →
  ∃ s', irqs n s = Ret tt s' ∧ only_served s s' ∧
    ide_inv s' (serve D q (view <$> k_bufs s)).1 [] ∧
    view <$> k_bufs s' = (serve D q (view <$> k_bufs s)).2 ∧ k_procs s' = wakes q (k_procs s).
Proof.
  induction n as [|n IH]; intros q D s Hlen Hc Hinv.
  { destruct q; [|simpl in Hlen; lia]. exists s. split_and!; [done|apply only_served_refl|done|done|done]. }
  destruct q as [|i q]; cbn [irqs].
  - mrun (ideintr_spurious D s Hc Hinv).
    destruct (IH [] D (sync s)) as (s' & Hr & Ho & Hi); [simpl; lia|done|by apply (ide_inv_frame s)|].
    exists s'. split_and!; [done|by apply only_served_sync|apply Hi..].
  - destruct (ii_waiting _ _ _ Hinv i) as (b & Hb & Hw); [by left|].
    destruct (ideintr_run i b q D s Hc Hb Hinv) as (l & Hr & Hi). mrun Hr.
    destruct (IH q (store D (view b)) (served_state D i b l s)) as (s' & Hr' & Ho & H1 & H2 & H3);
      [simpl in Hlen; lia|eapply only_served_calm; [apply only_served_state|done]|done|].
    exists s'. rewrite Hr'. cbn [serve]. rewrite list_lookup_fmap, Hb. cbn [option_fmap option_map fmap].
    assert (view <$> k_bufs (served_state D i b l s) = <[i := served D (view b)]> (view <$> k_bufs s)) as Hv
      by apply (list_fmap_insert view).
    rewrite <-Hv. split_and!; [done|eapply only_served_trans; [apply only_served_state|done]|done|done|done].
Qed.

(** ** Appending a request *)

Lemma chain_snoc i b q : ∀ bs o k x,
  chain bs o q → NoDup q → last q = Some k → bs !! k = Some x → i ∉ q →
  bs !! i = Some b → b_qnext b = None →
  chain (<[k := upd_b_qnext (λ _, Some i) x]> bs) o (q ++ [i]).
Proof.
  induction q as [|j q IH]; intros bs o k x Hc Hnd Hl Hk Hi Hb Hn; [done|].
  destruct Hc as (-> & c & Hcj & Hc). apply NoDup_cons in Hnd as [Hj Hnd]. apply not_elem_of_cons in Hi as [Hij Hi].
  split; [done|]. destruct q as [|j' q].
  - simpl in Hl. simplify_eq. exists (upd_b_qnext (λ _, Some i) c). split.
    + apply list_lookup_insert_eq. by eapply lookup_lt_Some.
    + split; [done|]. exists b. rewrite list_lookup_insert_ne by done. done.
  - assert (last (j' :: q) = Some k) as Hl' by done.
    exists c. split; [|by apply IH].
    rewrite list_lookup_insert_ne; [done|]. intros ->. apply Hj. eapply last_Some_elem_of. exact Hl'.
Qed.

Lemma append_after_ok i fuel : ∀ j q s,
  chain (k_bufs s) (Some j) (j :: q) → (length q ≤ fuel)%nat →
  ∃ k x, last (j :: q) = Some k ∧ k_bufs s !! k = Some x ∧
    Ide.append_after fuel j i s = Ret tt (put k (upd_b_qnext (λ _, Some i) x) s).
Proof.
  induction fuel as [|fuel IH]; intros j q s (_ & b & Hb & Hc) Hl.
  all: destruct q as [|j' q]; simpl in Hc, Hl; [|try lia].
  1,2: exists j, b; cbn [Ide.append_after]; rewrite (bind_buf_at _ _ _ _ Hb), Hc; split_and!; [done|done|];
    unfold set_buf, modify; by rewrite (put_alter _ b).
  destruct Hc as (Hn & Hc). cbn [Ide.append_after]. rewrite (bind_buf_at _ _ _ _ Hb), Hn.
  destruct (IH j' q s) as (k & x & Hk & Hx & Hr); [by split|lia|]. by exists k, x.
Qed.

Lemma same_views (i : nat) (b : buf) (bs bs' : list buf) :
  view <$> bs' = view <$> bs → bs !! i = Some b → ∃ b', bs' !! i = Some b' ∧ view b' = view b.
Proof.
  intros Hv Hb. assert ((view <$> bs') !! i = Some (view b)) as H by (rewrite Hv, list_lookup_fmap; by rewrite Hb).
  rewrite list_lookup_fmap in H. by apply fmap_Some in H as (b' & Hb' & ->); exists b'.
Qed.

Lemma put_same_view i x x' s :
  k_bufs s !! i = Some x → view x' = view x → view <$> k_bufs (put i x' s) = view <$> k_bufs s.
Proof.
  intros Hx Hv. simpl. rewrite (list_fmap_insert view), Hv, list_insert_id; [done|].
  by rewrite list_lookup_fmap, Hx.
Qed.

(** The invariant when buffers change in their links only. *)
Lemma ide_inv_relink s s' D q q' :
  ide_inv s D q → view <$> k_bufs s' = view <$> k_bufs s → k_io s' = k_io s →
  chain (k_bufs s') (k_idequeue s') q' → NoDup q' →
  (∀ i, i ∈ q' → i ∈ q ∨ ∃ b, k_bufs s !! i = Some b ∧ waiting (view b)) →
  head q' = head q → ide_inv s' D q'.
Proof.
  intros [_ _ Hw Hd] Hv Hio Hc Hnd Hin Hh. split; [done|done|..].
  - intros i Hi. assert (∃ b, k_bufs s !! i = Some b ∧ waiting (view b)) as (b & Hb & Hwb)
      by (destruct (Hin i Hi); auto).
    destruct (same_views _ _ _ _ Hv Hb) as (b' & Hb' & Hvb). exists b'. by rewrite Hvb.
  - destruct q as [|j q], q' as [|j' q']; simplify_eq/=; rewrite Hio; [done|].
    destruct Hd as (b & Hb & Hs). destruct (same_views _ _ _ _ Hv Hb) as (b' & Hb' & Hvb).
    exists b'. by rewrite Hvb.
Qed.

(** The queue with [i] appended, the disk started when it was idle. *)
Lemma enqueue_ok i b q D s :
  ide_inv s D q → i ∉ q → k_bufs s !! i = Some b → waiting (view b) → (length q ≤ 30)%nat →
  ∃ s', (set_buf i (upd_b_qnext (λ _, None));;
         Ide.append_queue i;;
         q ← gets (λ s, k_idequeue s);
         whenb (bool_decide (q = Some i)) (Ide.idestart (Some i))) s = Ret tt s' ∧
    only_served s s' ∧ ide_inv s' D (q ++ [i]) ∧ view <$> k_bufs s' = view <$> k_bufs s ∧
    k_cpu s' = k_cpu s ∧ k_procs s' = k_procs s.
Proof.
  intros Hinv Hi Hb Hw Hlen. pose proof Hinv as [Hc Hnd _ Hd].
  unfold set_buf. msteps. rewrite (put_alter _ b) by done.
  set (b1 := upd_b_qnext (λ _, None) b). set (s1 := put i b1 s).
  assert (k_bufs s1 !! i = Some b1) as Hb1 by (by eapply put_here).
  assert (view <$> k_bufs s1 = view <$> k_bufs s) as Hv1 by (by eapply put_same_view).
  assert (chain (k_bufs s1) (k_idequeue s1) q) as Hc1 by (by apply chain_put).
  unfold Ide.append_queue. msteps. change (k_idequeue s1) with (k_idequeue s) in *. destruct q as [|j q].
  - simpl in Hc1. rewrite Hc1. msteps. cbn [k_idequeue upd_k_idequeue]. rewrite bool_decide_true by done.
    set (s2 := upd_k_idequeue (λ _, Some i) s1).
    destruct (idestart_ok i b1 D s2) as (l & Hl & Hs); [done|done|exact Hd|].
    set (s3 := logged l s2). exists s3. split_and!; [exact Hl| | |done|done|done].
    + exists (k_cpu s), (k_procs s), (k_bufs s3), (k_idequeue s3), (k_io s3). split; [done|].
      apply kstate_eq; reflexivity.
    + split; [|by apply NoDup_singleton| |].
      * split; [done|]. by exists b1.
      * intros k Hk. apply list_elem_of_singleton in Hk as ->. by exists b1.
      * by exists b1.
  - assert (k_idequeue s = Some j) as Hj by apply Hc1. rewrite Hj in Hc1. rewrite Hj.
    destruct (append_after_ok i (Z.to_nat NBUF) j q s1) as (k & x & Hk & Hx & Hr);
      [by apply Hc1|simpl in Hlen; unfold NBUF, MAXOPBLOCKS; lia|].
    mrun Hr. msteps. change (k_idequeue (put _ _ s1)) with (k_idequeue s). rewrite Hj.
    rewrite bool_decide_false by (intros [= ->]; apply Hi; by left). cbn [whenb].
    set (s2 := put k (upd_b_qnext (λ _, Some i) x) s1).
    assert (view <$> k_bufs s2 = view <$> k_bufs s) as Hv2 by (rewrite <-Hv1; by eapply put_same_view).
    exists s2. split_and!; [done| | |done|done|done].
    + exists (k_cpu s), (k_procs s), (k_bufs s2), (k_idequeue s2), (k_io s2). split; [done|].
      apply kstate_eq; reflexivity.
    + eapply ide_inv_relink; [exact Hinv|done|done|..].
      * change (k_idequeue s2) with (k_idequeue s). rewrite Hj. by eapply chain_snoc.
      * apply NoDup_app. split_and!; [done|set_solver|apply NoDup_singleton].
      * intros m Hm. apply elem_of_app in Hm as [Hm|Hm]; [by left|]. apply list_elem_of_singleton in Hm as ->. right. by exists b.
      * done.
Qed.
End spec.

(** ** Sleeping until the request is served *)

(** The machine while the caller of [iderw] sleeps: the scheduler gives up
    [ptable.lock], finds nothing to run, and takes [n] interrupts of the
    disk; then it resumes the caller if it was woken up. *)
Definition away (s : kstate) : kstate :=
  upd_k_locks (delete L_ptable) (upd_k_cpu (λ c, upd_c_proc (λ _, None) (upd_c_ncli (λ _, 0) c)) s).

Definition resumed (p : nat) (s s' : kstate) : kstate :=
  upd_k_cpu (λ _, k_cpu s) (upd_k_locks (λ _, k_locks s)
    (upd_k_procs (alter (upd_p_state (λ _, RUNNING)) p) s')).

Section disk_env.
Context {DEV : Device}.

Definition disk_env (n : nat) : Env := {|
  env_resume s :=
    match irqs n (away s), c_proc (k_cpu s) with
    | Ret _ s', Some p =>
        pr ← k_procs s' !! p;
        if bool_decide (p_state pr = RUNNABLE) then Some (resumed p s s') else None
    | _, _ => None
    end;
  env_run _ _ := None;
  env_turns := 1;
|}.

Context {ATA : AtaDevice}.

Lemma wakes_runnable q : ∀ ps p pr,
  ps !! p = Some pr → p_state pr = RUNNABLE → wakes q ps !! p = Some pr.
Proof.
  induction q as [|j q IH]; intros ps p pr Hp Hs; simpl; [done|]. apply IH; [|done].
  rewrite list_lookup_fmap, Hp. simpl. unfold wake. by rewrite Hs.
Qed.

Lemma wakes_sleeper i q : ∀ ps p pr,
  ps !! p = Some pr → p_state pr = SLEEPING → p_chan pr = Some (Chan_buf i) → i ∈ q →
  wakes q ps !! p = Some (upd_p_state (λ _, RUNNABLE) pr).
Proof.
  induction q as [|j q IH]; intros ps p pr Hp Hs Hch Hi; [by apply not_elem_of_nil in Hi|]. simpl.
  assert (map (wake (Some (Chan_buf j))) ps !! p = Some (wake (Some (Chan_buf j)) pr)) as Hw
    by (rewrite list_lookup_fmap; by rewrite Hp).
  unfold wake in Hw at 2. rewrite Hs, Hch in Hw. rewrite bool_decide_true in Hw by done.
  destruct (decide (j = i)) as [->|Hne].
  - rewrite bool_decide_true in Hw by done. by apply wakes_runnable.
  - rewrite bool_decide_false in Hw by congruence. apply IH; [done..|].
    by apply elem_of_cons in Hi as [->|Hi].
Qed.

Lemma push_sync c : c_ncli c = 0 → push (cpu_sync c) = push c.
Proof. intros H. unfold push, cpu_sync, upd_c_intena, upd_c_ncli, upd_c_if. simpl. by rewrite H. Qed.

Lemma sleep_served n i q D s c p pr :
  cpu_wf c → c_ncli c = 0 → k_cpu s = push c → k_locks s = {[L_ide := c_id c]} →
  c_proc c = Some p → k_procs s !! p = Some pr →
  ide_inv s D q → i ∈ q → (length q ≤ n)%nat →
  ∃ s', @sleep (disk_env n) (Chan_buf i) (Some L_ide) s = Ret tt s' ∧ only_served s s' ∧ k_cpu s' = push c ∧
    ide_inv s' (serve D q (view <$> k_bufs s)).1 [] ∧
    view <$> k_bufs s' = (serve D q (view <$> k_bufs s)).2.
Proof.
  intros Hwf H0 Hc Hl Hp Hpr Hinv Hi Hn.
  set (f := upd_p_state (λ _, SLEEPING) ∘ upd_p_chan (λ _, Some (Chan_buf i))).
  set (s2 := asleep (Chan_buf i) L_ide p c s). pose proof (asleep_locks (Chan_buf i) L_ide p c s Hc ltac:(done) Hl : k_locks s2 = _) as Hl2.
  assert (k_procs s2 !! p = Some (f pr)) as Hpr2 by (simpl; by rewrite !list_lookup_alter_eq, Hpr).
  destruct (irqs_ok n q D (away s2)) as (s3 & Hr & Ho & Hi3 & Hv3 & Hp3); [done| |by apply (ide_inv_frame s)|].
  { split_and!; [|change (k_locks (away s2)) with (delete L_ptable (k_locks s2)); rewrite Hl2..].
    - destruct Hwf. split; simpl; lia.
    - by rewrite delete_singleton_eq.
    - apply lookup_delete_eq. }
  assert (@env_resume (disk_env n) s2 = Some (resumed p s2 s3)) as Hres.
  { simpl. rewrite Hr. change (c_proc (k_cpu s2)) with (c_proc c). rewrite Hp, Hp3.
    change (k_procs (away s2)) with (k_procs s2).
    rewrite (wakes_sleeper i q _ _ _ Hpr2) by done. done. }
  exists (awake L_ide p c (resumed p s2 s3)). split_and!.
  - by apply (sleep_ok _ _ _ _ c p pr).
  - destruct Ho as (c' & ps & bs & q' & h & _ & E3).
    exists (push (cpu_sync c)), (k_procs (awake L_ide p c (resumed p s2 s3))), bs, q', h. rewrite push_sync, Hc by done. split; [done|].
    unfold awake, resumed. rewrite E3.
    apply kstate_eq; try reflexivity; [by apply push_sync|].
    change (<[L_ide := c_id c]> (delete L_ptable (k_locks s2)) = k_locks s). by rewrite Hl2, Hl, delete_singleton_eq.
  - by apply push_sync.
  - by apply (ide_inv_frame s3).
  - exact Hv3.
Qed.

Lemma serve_snoc i r q : ∀ D rs,
  rs !! i = Some r → i ∉ q → (∀ j, j ∈ q → is_Some (rs !! j)) →
  (serve D (q ++ [i]) rs).2 !! i = Some (served (serve D q rs).1 r).
Proof.
  induction q as [|j q IH]; intros D rs Hr Hi Hq; simpl.
  - rewrite Hr. simpl. apply list_lookup_insert_eq. by eapply lookup_lt_Some.
  - destruct (Hq j) as [rj Hj]; [by left|]. rewrite Hj. apply not_elem_of_cons in Hi as [Hne Hi]. apply IH; [|done|].
    + by rewrite list_lookup_insert_ne.
    + intros k Hk. rewrite list_lookup_insert_is_Some. apply Hq. by right.
Qed.

Lemma queue_short s D q : (length (k_bufs s) ≤ 30)%nat → ide_inv s D q → (length q ≤ 30)%nat.
Proof.
  intros Hlen Hinv. transitivity (length (k_bufs s)); [|done].
  rewrite <-(length_seq (length (k_bufs s)) 0). apply submseteq_length, NoDup_submseteq; [apply Hinv|].
  intros j Hj. destruct (ii_waiting _ _ _ Hinv j Hj) as (b & Hb & _). apply lookup_lt_Some in Hb.
  apply elem_of_seq. lia.
Qed.

(** Ready for a request of the disk: no lock is held and a process runs. *)
Record idle (s : kstate) (p : nat) (pr : proc) : Prop := MkIdle {
  id_wf : cpu_wf (k_cpu s);
  id_sync : cpu_sync (k_cpu s) = k_cpu s;
  id_ncli : c_ncli (k_cpu s) = 0;
  id_locks : k_locks s = ∅;
  id_proc : c_proc (k_cpu s) = Some p;
  id_procs : k_procs s !! p = Some pr;
}.

Lemma wait_done_ok n i b q D s c p pr :
  cpu_wf c → c_ncli c = 0 → k_cpu s = push c → k_locks s = {[L_ide := c_id c]} →
  c_proc c = Some p → k_procs s !! p = Some pr → k_bufs s !! i = Some b →
  ide_inv s D (q ++ [i]) → i ∉ q → (length q < n)%nat →
  ∃ s' b', @Ide.wait_done (disk_env n) 1 i s = Ret tt s' ∧ only_served s s' ∧ k_cpu s' = push c ∧
    ide_inv s' (serve D (q ++ [i]) (view <$> k_bufs s)).1 [] ∧
    view <$> k_bufs s' = (serve D (q ++ [i]) (view <$> k_bufs s)).2 ∧
    k_bufs s' !! i = Some b' ∧ view b' = served (serve D q (view <$> k_bufs s)).1 (view b).
Proof.
  intros Hwf H0 Hc Hl Hp Hpr Hb Hinv Hi Hn.
  destruct (ii_waiting _ _ _ Hinv i) as (b0 & Hb0 & Hw); [set_solver|]. simplify_eq.
  destruct (sleep_served n i (q ++ [i]) D s c p pr) as (s' & Hr & Ho & Hc' & Hi' & Hv); try done;
    [set_solver|rewrite length_app; simpl; lia|].
  assert ((view <$> k_bufs s') !! i = Some (served (serve D q (view <$> k_bufs s)).1 (view b))) as Hvi.
  { rewrite Hv. apply serve_snoc; [by rewrite list_lookup_fmap, Hb|done|]. intros j Hj.
    destruct (ii_waiting _ _ _ Hinv j) as (c' & Hcj & _); [set_solver|]. rewrite list_lookup_fmap, Hcj. by eexists. }
  rewrite list_lookup_fmap in Hvi. apply fmap_Some in Hvi as (b' & Hb' & Hvb).
  exists s', b'. split_and!; try done.
  cbn [Ide.wait_done]. rewrite (bind_buf_at _ _ _ _ Hb).
  assert ((Z.land (b_flags b) (Z.lor B_VALID B_DIRTY) =? B_VALID) = false) as ->
    by (destruct Hw as [[H|[H|H]] _]; simpl in H; by rewrite H).
  mrun Hr. cbn [Ide.wait_done]. rewrite (bind_buf_at _ _ _ _ Hb').
  assert (b_flags b' = B_VALID) as -> by (by injection Hvb). done.
Qed.

(** C13.  [iderw] on a locked buffer that waits to be read or written, with
    other requests already queued, returns once the disk has served them all
    in the order of the queue: the sectors and the queued buffers are those of
    serving the requests one after the other, the caller's buffer is valid
    and clean and holds its sector, the queue is empty, and nothing but the
    buffers, the wake-ups and the I/O history has changed. *)
Theorem iderw_serves_queue n i b q D s p pr :
  idle s p pr → (length (k_bufs s) ≤ 30)%nat → ide_inv s D q → i ∉ q → (length q < n)%nat →
  k_bufs s !! i = Some b → sl_locked (b_lock b) = true → waiting (view b) →
  (b_dev b = 0 ∨ k_havedisk1 s = true) →
  ∃ s' b', @Ide.iderw (disk_env n) DEV i s = Ret tt s' ∧ only_served s s' ∧
    ide_inv s' (serve D (q ++ [i]) (view <$> k_bufs s)).1 [] ∧
    view <$> k_bufs s' = (serve D (q ++ [i]) (view <$> k_bufs s)).2 ∧
    k_bufs s' !! i = Some b' ∧ view b' = served (serve D q (view <$> k_bufs s)).1 (view b).
Proof.
  intros [Hwf Hsy H0 Hl Hp Hpr] Hlen Hinv Hi Hn Hb Hlk Hw Hdev.
  destruct (enqueue_ok i b q D (locked L_ide s)) as (s1 & Hr1 & Ho1 & Hi1 & Hv1 & Hc1 & Hp1);
    [by apply (ide_inv_frame s)|done|done|done|by eapply queue_short|].
  pose proof Ho1 as (c1 & ps1 & bs1 & q1 & h1 & _ & E1).
  assert (k_locks s1 = {[L_ide := c_id (k_cpu s)]}) as Hl1 by (rewrite E1; simpl; by rewrite Hl).
  destruct (same_views i b _ _ Hv1 Hb) as (b1 & Hb1 & Hvb1).
  destruct (wait_done_ok n i b1 q D s1 (k_cpu s) p pr) as (s2 & b2 & Hr2 & Ho2 & Hc2 & Hi2 & Hv2 & Hb2 & Hvb2);
    try done; [by rewrite Hp1|].
  rewrite Hv1 in Hi2, Hv2, Hvb2. rewrite Hvb1 in Hvb2.
  set (s3 := upd_k_locks (delete L_ide) (upd_k_cpu (λ _, k_cpu s) s2)). exists s3, b2. split_and!; try done.
  - unfold Ide.iderw. erewrite bind_Ret; [|apply (holdingsleep_free _ _ (b_lock b)); [done|done|by rewrite Hl|simpl; by rewrite Hb]].
    rewrite Hlk. cbn [negb]. rewrite (bind_buf_at _ _ _ _ Hb).
    assert ((Z.land (b_flags b) (Z.lor B_VALID B_DIRTY) =? B_VALID) = false) as ->
      by (destruct Hw as [[H|[H|H]] _]; simpl in H; by rewrite H).
    rewrite bind_gets.
    assert (negb (b_dev b =? 0) && negb (k_havedisk1 s) = false) as ->
      by (destruct Hdev as [-> | ->]; [done|by rewrite andb_false_r]).
    erewrite bind_Ret; [|apply acquire_ok; by rewrite Hl]. cbn beta.
    minv Hr1 as [] sa Ea. minv Hr1 as [] sb Eb. minv Hr1 as qq sc Ec.
    mrun Ea. mrun Eb. mrun Ec. mrun Hr1. change (@env_turns (disk_env n)) with 1%nat. mrun Hr2.
    erewrite release_ok; [|exact Hwf|exact Hc2|]; [by rewrite Hsy|].
    destruct Ho2 as (c2 & ps2 & bs2 & q2 & h2 & _ & ->). simpl. rewrite Hl1. apply lookup_singleton_eq.
  - destruct Ho2 as (c2 & ps2 & bs2 & q2 & h2 & _ & E2). exists (k_cpu s), ps2, bs2, q2, h2. split; [done|].
    unfold s3. rewrite E2, E1. apply kstate_eq; try reflexivity.
    change (delete L_ide (<[L_ide := c_id (k_cpu s)]> (k_locks s)) = k_locks s). rewrite Hl. apply delete_insert_id. by rewrite lookup_empty.
  - by apply (ide_inv_frame s2).
Qed.
End disk_env.

(** A blank disk; buffer 3 is being written to sector 5 of disk 1 when the
    process asks to read that sector into buffer 4. *)
Module IdeExample.
Definition zeros : list Z := replicate 512 0.

Definition device : Device := {|
  dev_in _ _ := 0x40;
  dev_ins h _ k :=
    match Ata.a_pending (Ata.after h) with
    | Ata.Reading d => nth k (default zeros (Ata.a_written (Ata.after h) !! d)) 0
    | _ => 0
    end;
  dev_rd _ _ := 0; dev_turns := 0 |}.

Lemma written_fit h d c : Ata.a_written (Ata.after h) !! d = Some c → Ata.fit c = c.
Proof.
  revert d c. induction h as [|e h IH] using rev_ind; intros d c; [done|].
  rewrite Ata.after_app. destruct (Ata.after h) as [n l0 l1 l2 hd p w]. simpl in IH.
  assert (∀ data, Ata.fit (Ata.fit data) = Ata.fit data) as Hfit.
  { intros data. apply Ata.fit_id; [unfold Ata.fit; by rewrite length_map, length_seq|].
    apply Forall_forall. intros x Hx. unfold Ata.fit in Hx. apply list_elem_of_fmap in Hx as (k & -> & _).
    apply Z.mod_pos_bound. lia. }
  destruct e; simpl; repeat case_match; simpl; try apply IH.
  all: intros Hw; apply lookup_insert_Some in Hw as [[<- <-]|[_ Hw]]; [apply Hfit|by apply IH in Hw].
Qed.

#[local] Existing Instance device.
#[local] Instance ata : AtaDevice.
Proof.
  refine {| sectors := λ _, zeros |}.
  - done.
  - done.
  - intros h d Hp. simpl. rewrite Hp. change (map _ _) with (Ata.fit (default zeros (Ata.a_written (Ata.after h) !! d))).
    destruct (Ata.a_written (Ata.after h) !! d) eqn:E; [by apply written_fit in E|].
    change (Ata.fit zeros = zeros). apply Ata.fit_id; [done|apply Forall_replicate; lia].
Defined.

Definition sevens : list Z := replicate 512 7.
Definition buf3 : buf := MkBuf B_DIRTY 1 5 (MkSleeplock true 1) 1 0 0 None sevens.
Definition buf4 : buf := MkBuf 0 1 5 (MkSleeplock true 1) 1 0 0 None zeros.
Definition state : kstate :=
  upd_k_cpu (upd_c_proc (λ _, Some 0%nat)) (upd_k_havedisk1 (λ _, true) (upd_k_idequeue (λ _, Some 3%nat)
    (upd_k_io (λ _, start_log (view buf3)) (upd_k_bufs (λ l, <[3%nat := buf3]> (<[4%nat := buf4]> l)) bss)))).

Lemma waiting3 : waiting (view buf3).
Proof. split_and!; auto; try done. apply Forall_replicate; lia. Qed.

Lemma waiting4 : waiting (view buf4).
Proof. split_and!; auto; try done. apply Forall_replicate; lia. Qed.

Lemma queued : ide_inv state (λ _, zeros) [3%nat].
Proof.
  split.
  - split; [done|]. by exists buf3.
  - apply NoDup_singleton.
  - intros i Hi. apply list_elem_of_singleton in Hi as ->. exists buf3. split; [done|apply waiting3].
  - exists buf3. split; [done|]. apply (start_log_ok []); [apply waiting3|done].
Qed.
End IdeExample.

Lemma iderw_serves_queue_witness :
  ∃ s' b', @Ide.iderw (@disk_env IdeExample.device 2) IdeExample.device 4 IdeExample.state = Ret tt s' ∧
    k_bufs s' !! 4%nat = Some b' ∧ view b' = MkRequest (1, 5) B_VALID IdeExample.sevens.
Proof.
  destruct (@iderw_serves_queue IdeExample.device IdeExample.ata 2 4 IdeExample.buf4 [3%nat] (λ _, IdeExample.zeros)
    IdeExample.state 0 proc0) as (s' & b' & Hr & _ & _ & _ & Hb & Hv).
  - by split.
  - vm_compute. lia.
  - apply IdeExample.queued.
  - by rewrite list_elem_of_singleton.
  - simpl. lia.
  - done.
  - done.
  - apply IdeExample.waiting4.
  - by right.
  - exists s', b'. split_and!; [exact Hr|exact Hb|]. rewrite Hv. by vm_compute.
Defined.
