(* ===== verification/Boot.v ===== *)
(** Boot: the boot loader, [bootmain.c].

    [bootmain] runs with paging off: an address is a physical one, and
    [k_mem] is the memory at physical addresses.  The disk is a device, see
    [Ports] and [IdeSpec]. *)

From S2P Require Import Prelude Layout State Mem Spinlock Bytes Ports Apic Mp Ide IdeSpec.

Definition SECTSIZE : Z := 512.
Definition ELF_MAGIC : Z := 0x464C457F.

(** [struct elfhdr] and [struct proghdr] *)
Definition elf_magic : Z := 0.
Definition elf_entry : Z := 24.
Definition elf_phoff : Z := 28.
Definition elf_phnum : Z := 44.
Definition ph_off : Z := 4.
Definition ph_paddr : Z := 12.
Definition ph_filesz : Z := 16.
Definition ph_memsz : Z := 20.
Definition sizeof_proghdr : Z := 32.

Section boot.
Context {DEV : Device}.

(** [while((inb(0x1F7) & 0xC0) != 0x40);] *)
Definition waitdisk : K unit :=
  poll dev_turns 0x1F7 (λ v, negb (Z.land v 0xC0 =? 0x40));;
  mret tt.

(** Read a single sector at offset into dst. *)
Definition readsect (dst offset : Z) : K unit :=
  (* Issue command. *)
  waitdisk;;
  outb 0x1F2 1;; (* count = 1 *)
  outb 0x1F3 offset;;
  outb 0x1F4 (Z.shiftr offset 8);;
  outb 0x1F5 (Z.shiftr offset 16);;
  outb 0x1F6 (Z.lor (Z.shiftr offset 24) 0xE0);;
  outb 0x1F7 0x20;; (* cmd 0x20 - read sectors *)
  (* Read data. *)
  waitdisk;;
  l ← insl 0x1F0 (Z.to_nat (SECTSIZE / 4));
  modify (upd_k_mem (λ m, store_bytes m dst l)).

(** [for(; pa < epa; pa += SECTSIZE, offset++) readsect(pa, offset);] *)
Fixpoint readseg_loop (fuel : nat) (pa epa offset : Z) : K unit :=
  if pa <? epa then
    match fuel with
    | O => nofuel
    | S fuel =>
        readsect pa offset;;
        readseg_loop fuel (u32 (pa + SECTSIZE)) epa (u32 (offset + 1))
    end
  else mret tt.

(** Read 'count' bytes at 'offset' from kernel into physical address 'pa'. *)
Definition readseg (pa count offset : Z) : K unit :=
  let epa := u32 (pa + count) in
  (* Round down to sector boundary. *)
  let pa := u32 (pa - offset mod SECTSIZE) in
  (* Translate from bytes to sectors; kernel starts at sector 1. *)
  let offset := offset / SECTSIZE + 1 in
  readseg_loop (S (Z.to_nat ((epa - pa) / SECTSIZE))) pa epa offset.

(** The body of the loop over the program headers. *)
Definition load_segment (ph : Z) : K unit :=
  pa ← gets (λ s, ld32u (k_mem s) (ph + ph_paddr));
  filesz ← gets (λ s, ld32u (k_mem s) (ph + ph_filesz));
  off ← gets (λ s, ld32u (k_mem s) (ph + ph_off));
  readseg pa filesz off;;
  memsz ← gets (λ s, ld32u (k_mem s) (ph + ph_memsz));
  filesz ← gets (λ s, ld32u (k_mem s) (ph + ph_filesz));
  whenb (filesz <? memsz)
    (modify (upd_k_mem (λ m, stosb m (u32 (pa + filesz)) 0 (Z.to_nat (memsz - filesz))))).

Fixpoint load_segments (fuel : nat) (ph eph : Z) : K unit :=
  if ph <? eph then
    match fuel with
    | O => nofuel
    | S fuel => load_segment ph;; load_segments fuel (u32 (ph + sizeof_proghdr)) eph
    end
  else mret tt.

(** The address [bootmain] jumps to, or [None] when it returns. *)
Definition bootmain : K (option Z) :=
  let elf := 0x10000 in (* scratch space *)
  (* Read 1st page off disk *)
  readseg elf 4096 0;;
  (* Is this an ELF executable? *)
  magic ← gets (λ s, ld32u (k_mem s) (elf + elf_magic));
  if negb (magic =? ELF_MAGIC) then mret None else
  (* Load each program segment (ignores ph flags). *)
  phoff ← gets (λ s, ld32u (k_mem s) (elf + elf_phoff));
  phnum ← gets (λ s, ld16u (k_mem s) (elf + elf_phnum));
  let ph := u32 (elf + phoff) in
  let eph := u32 (ph + phnum * sizeof_proghdr) in
  load_segments (Z.to_nat phnum) ph eph;;
  (* Call the entry point from the ELF header. *)
  entry ← gets (λ s, ld32u (k_mem s) (elf + elf_entry));
  mret (Some entry).

(** ** Reading the kernel *)

Context {ATA : AtaDevice}.

(** Nothing was written to the disk so far. *)
Definition fresh (s : kstate) : Prop := Ata.a_written (Ata.after (k_io s)) = ∅.

Lemma waitdisk_ok s : ∃ l, waitdisk s = Ret tt (logged l s) ∧ ∀ h, Ata.after (h ++ l) = Ata.after h.
Proof.
  destruct (poll_ok dev_turns 0x1f7 Ide.not_ready s (ata_ready _)) as (h & l & Hr & Hv & Hl).
  exists l. split.
  - unfold waitdisk. change (λ v, negb (Z.land v 0xC0 =? 0x40)) with Ide.not_ready. by mrun Hr.
  - intros h'. rewrite Ata.after_app. by eapply Ata.step_reads.
Qed.

(** The head register holds the top of a 28-bit block address, drive 0. *)
Lemma lba_bytes n :
  0 ≤ n < 2 ^ 28 →
  Ata.address (Ata.MkAta 1 (u8 n) (u8 (Z.shiftr n 8)) (u8 (Z.shiftr n 16)) (u8 (Z.lor (Z.shiftr n 24) 0xE0)) Ata.Idle ∅)
  = (0, n).
Proof.
  intros Hn. unfold Ata.address. cbn [Ata.a_head Ata.a_lba0 Ata.a_lba1 Ata.a_lba2].
  rewrite !Z.shiftr_div_pow2 by lia. change (2 ^ 8) with 256. change (2 ^ 16) with 65536.
  change (2 ^ 24) with 16777216. set (t := n / 16777216).
  assert (Ht : 0 ≤ t < 16) by (unfold t; split; [apply Z.div_pos; lia|apply Z.div_lt_upper_bound; lia]).
  assert (Hh : u8 (Z.lor t 224) / 2 ^ 4 = 14 ∧ Z.land (u8 (Z.lor t 224)) 15 = t).
  { assert (t = 0 ∨ t = 1 ∨ t = 2 ∨ t = 3 ∨ t = 4 ∨ t = 5 ∨ t = 6 ∨ t = 7 ∨ t = 8 ∨ t = 9 ∨ t = 10 ∨
      t = 11 ∨ t = 12 ∨ t = 13 ∨ t = 14 ∨ t = 15) as Hc by lia.
    clearbody t. clear -Hc. repeat (destruct Hc as [->|Hc]; [by vm_compute|]). subst. by vm_compute. }
  destruct Hh as [-> ->]. change (Z.land 14 1) with 0. f_equal. unfold u8, t.
  pose proof (Z.div_mod n 256). pose proof (Z.div_mod (n / 256) 256). pose proof (Z.div_mod (n / 65536) 256).
  rewrite Z.div_div in * by lia. change (256 * 256) with 65536 in *. change (65536 * 256) with 16777216 in *. lia.
Qed.

Lemma readsect_ok dst n s :
  fresh s → 0 ≤ n < 2 ^ 28 →
  ∃ l, readsect dst n s = Ret tt (upd_k_mem (λ m, store_bytes m dst (sectors (0, n))) (logged l s)) ∧
       fresh (logged l s) ∧ length (sectors (0, n)) = 512%nat.
Proof.
  intros Hf Hn. destruct (waitdisk_ok s) as (l1 & H1 & Hk1). unfold readsect. mrun H1.
  do 6 (erewrite bind_Ret; [|apply outb_ok]; cbn beta). rewrite !logged_logged.
  match goal with |- context [logged ?x s] => set (l2 := x) end.
  destruct (waitdisk_ok (logged l2 s)) as (l3 & H3 & Hk3). mrun H3. rewrite logged_logged.
  assert (Ha : Ata.a_pending (Ata.after (k_io s ++ l2 ++ l3)) = Ata.Reading (0, n) ∧
               Ata.a_written (Ata.after (k_io s ++ l2 ++ l3)) = ∅).
  { rewrite app_assoc, Hk3. unfold l2. rewrite app_assoc, Ata.after_app, Hk1.
    unfold fresh in Hf. destruct (Ata.after (k_io s)) as [c a0 a1 a2 h p w]. cbn in Hf. subst w.
    cbn -[u8 Z.shiftr Z.lor Ata.address]. split; [|done]. f_equal.
    rewrite <- (lba_bytes n Hn). done. }
  destruct Ha as [Hp Hw]. pose proof (ata_data _ _ Hp) as Hd. rewrite Hw, lookup_empty in Hd. cbn [default] in Hd.
  unfold insl. rewrite bind_bind, bind_gets. change (4 * Z.to_nat (SECTSIZE / 4))%nat with 512%nat.
  rewrite io_logged, Hd. unfold log_io. msteps.
  exists ((l2 ++ l3) ++ [Ins 0x1f0 (sectors (0, n))]). split; [by rewrite <- (logged_logged (l2 ++ l3))|]. split.
  - unfold fresh. rewrite io_logged, app_assoc, Ata.after_app.
    destruct (Ata.after (k_io s ++ l2 ++ l3)) as [c a0 a1 a2 h p w]. cbn in Hp, Hw. by subst.
  - rewrite <- Hd. by rewrite length_map, length_seq.
Qed.

(** Byte [k] of the kernel's file, which starts at sector 1. *)
Definition kernel_file (k : Z) : Z := u8 (nth (Z.to_nat (k mod SECTSIZE)) (sectors (0, k / SECTSIZE + 1)) 0).

(** [m'] is [m] with the bytes from [off] on at [pa]. *)
Definition read_at (m m' : gmap Z Z) (pa epa off : Z) : Prop :=
  ∀ x, ldb m' x = if decide (pa ≤ x < epa) then kernel_file (off + (x - pa)) else ldb m x.

Lemma readseg_loop_ok fuel : ∀ pa epa k s,
  fresh s → 0 ≤ pa → epa + SECTSIZE ≤ two32 → 0 ≤ k → k + 1 + (epa - pa) / SECTSIZE + 1 < 2 ^ 28 →
  epa - pa ≤ SECTSIZE * Z.of_nat fuel →
  ∃ l m' n, readseg_loop fuel pa epa (k + 1) s = Ret tt (upd_k_mem (λ _, m') (logged l s)) ∧
    fresh (logged l s) ∧ read_at (k_mem s) m' pa (pa + SECTSIZE * n) (SECTSIZE * k) ∧ 0 ≤ n ∧
    epa ≤ pa + SECTSIZE * n ∧ (pa + SECTSIZE * n < epa + SECTSIZE ∨ n = 0).
Proof.
  unfold SECTSIZE. induction fuel as [|fuel IH]; intros pa epa k s Hf Hpa Hepa Hk Hb Hn; cbn [readseg_loop].
  - destruct (Z.ltb_spec pa epa); [lia|]. exists [], (k_mem s), 0. rewrite logged_nil.
    split; [done|]. split; [done|]. split; [|lia]. intros x. by rewrite decide_False by lia.
  - destruct (Z.ltb_spec pa epa).
    2: { exists [], (k_mem s), 0. rewrite logged_nil. split; [done|]. split; [done|]. split; [|lia].
         intros x. by rewrite decide_False by lia. }
    assert (Hdiv : (epa - (pa + 512)) / 512 = (epa - pa) / 512 - 1).
    { replace (epa - (pa + 512)) with (epa - pa + (-1) * 512) by lia. rewrite Z.div_add; lia. }
    pose proof (Z.div_pos (epa - pa) 512).
    destruct (readsect_ok pa (k + 1) s Hf) as (l1 & H1 & Hf1 & Hl1); [lia|]. mrun H1.
    unfold SECTSIZE. rewrite !u32_small by (unfold two32 in *; lia).
    destruct (IH (pa + 512) epa (k + 1) (upd_k_mem (λ m, store_bytes m pa (sectors (0, k + 1))) (logged l1 s)))
      as (l2 & m' & n & H2 & Hf2 & Hr & ? & ? & ?); [done|lia|lia|lia|rewrite Hdiv; lia|lia|].
    exists (l1 ++ l2), m', (n + 1). rewrite <- logged_logged. split; [exact H2|]. split; [exact Hf2|].
    split; [|lia]. intros x. specialize (Hr x). cbn in Hr. rewrite Hr, ldb_store_bytes, Hl1.
    destruct (decide (pa + 512 ≤ x < pa + 512 + 512 * n)).
    + rewrite decide_True by lia. f_equal. lia.
    + destruct (decide (pa ≤ x < pa + Z.of_nat 512)).
      * rewrite decide_True by lia. unfold kernel_file, SECTSIZE.
        replace (512 * k + (x - pa)) with ((x - pa) + k * 512) by lia.
        rewrite Z.mod_add, Z.div_add, (Z.mod_small (x - pa)), (Z.div_small (x - pa)) by lia. done.
      * rewrite decide_False by lia. done.
Qed.

Lemma readseg_ok pa count off s :
  fresh s → 0 ≤ count → 0 ≤ off < two32 → off mod SECTSIZE ≤ pa → pa + count + SECTSIZE ≤ two32 →
  ∃ l m', readseg pa count off s = Ret tt (upd_k_mem (λ _, m') (logged l s)) ∧ fresh (logged l s) ∧
    (∀ x, pa ≤ x < pa + count → ldb m' x = kernel_file (off + (x - pa))) ∧
    (∀ x, x < pa - off mod SECTSIZE ∨ pa + count + SECTSIZE ≤ x → ldb m' x = ldb (k_mem s) x).
Proof.
  unfold SECTSIZE. intros Hf Hc Ho Hp Hb. unfold readseg, SECTSIZE.
  pose proof (Z.mod_pos_bound off 512). pose proof (Z.div_mod off 512).
  assert (Hd : 0 ≤ off / 512 < 2 ^ 23)
    by (split; [apply Z.div_pos; lia|apply Z.div_lt_upper_bound; [lia|unfold two32 in *; lia]]).
  rewrite !u32_small by (unfold two32 in *; lia).
  set (p0 := pa - off mod 512) in *. set (e := pa + count) in *.
  assert (Hq : (e - p0) / 512 < 2 ^ 23) by (apply Z.div_lt_upper_bound; [lia|unfold two32, e, p0 in *; lia]).
  pose proof (Z.div_mod (e - p0) 512). pose proof (Z.mod_pos_bound (e - p0) 512).
  pose proof (Z.div_pos (e - p0) 512).
  destruct (readseg_loop_ok (S (Z.to_nat ((e - p0) / 512))) p0 e (off / 512) s)
    as (l & m' & n & Hrun & Hf' & Hr & Hn & Hge & Hlt); unfold SECTSIZE in *; try done; try (unfold e, p0 in *; lia).
  exists l, m'. split; [exact Hrun|]. split; [exact Hf'|]. split; intros x Hx; rewrite Hr.
  - rewrite decide_True by (unfold p0 in *; lia). f_equal. unfold p0. lia.
  - rewrite decide_False; [done|]. unfold p0, e in *. lia.
Qed.

(** ** Loading the segments *)

Definition file16 (k : Z) : Z := kernel_file k + 256 * kernel_file (k + 1).
Definition file32 (k : Z) : Z := file16 k + 65536 * file16 (k + 2).

Lemma file32_range k : 0 ≤ file32 k < two32.
Proof.
  unfold file32, file16, kernel_file, two32.
  match goal with |- 0 ≤ u8 ?a + _ * u8 ?b + _ * (u8 ?c + _ * u8 ?d) < _ =>
    pose proof (Bytes.u8_range a); pose proof (Bytes.u8_range b);
    pose proof (Bytes.u8_range c); pose proof (Bytes.u8_range d) end. lia.
Qed.

(** A segment, as the program header at [k] of the file describes it. *)
Record segment := MkSegment { sg_off : Z; sg_pa : Z; sg_filesz : Z; sg_memsz : Z }.
Definition segment_at (k : Z) : segment :=
  MkSegment (file32 (k + ph_off)) (file32 (k + ph_paddr)) (file32 (k + ph_filesz)) (file32 (k + ph_memsz)).

Definition sg_start (g : segment) : Z := sg_pa g - sg_off g mod SECTSIZE.
Definition sg_end (g : segment) : Z := sg_pa g + Z.max (sg_filesz g) (sg_memsz g).

(** The segment stays clear of the scratch page and below 4 GB. *)
Definition sg_ok (g : segment) : Prop := 0x11000 ≤ sg_start g ∧ sg_end g + SECTSIZE ≤ two32.

(** Its bytes, then zeros. *)
Definition loaded (m : gmap Z Z) (g : segment) : Prop :=
  ∀ k, 0 ≤ k < sg_end g - sg_pa g →
    ldb m (sg_pa g + k) = if k <? sg_filesz g then kernel_file (sg_off g + k) else 0.

(** The first page of the file is in the scratch page. *)
Definition header_in (m : gmap Z Z) : Prop := ∀ k, 0 ≤ k < 4096 → ldb m (0x10000 + k) = kernel_file k.

Lemma header16 m k : header_in m → 0 ≤ k → k + 2 ≤ 4096 → ld16u m (0x10000 + k) = file16 k.
Proof. intros Hh ??. unfold ld16u, file16. rewrite <- Z.add_assoc, !Hh by lia. done. Qed.

Lemma header32 m k : header_in m → 0 ≤ k → k + 4 ≤ 4096 → ld32u m (0x10000 + k) = file32 k.
Proof. intros Hh ??. unfold ld32u, file32. rewrite <- Z.add_assoc, !header16 by (done || lia). done. Qed.

Lemma load_segment_ok k s :
  fresh s → header_in (k_mem s) → 0 ≤ k → k + sizeof_proghdr ≤ 4096 → sg_ok (segment_at k) →
  ∃ l m', load_segment (0x10000 + k) s = Ret tt (upd_k_mem (λ _, m') (logged l s)) ∧ fresh (logged l s) ∧
    header_in m' ∧ loaded m' (segment_at k) ∧
    (∀ x, x < sg_start (segment_at k) → ldb m' x = ldb (k_mem s) x).
Proof.
  intros Hf Hh Hk Hk4 [Hok1 Hok2]. unfold sizeof_proghdr in Hk4. set (g := segment_at k) in *.
  unfold load_segment. msteps. rewrite <- !Z.add_assoc.
  rewrite !(header32 (k_mem s)) by (done || unfold ph_paddr, ph_filesz, ph_off; lia).
  change (file32 (k + ph_paddr)) with (sg_pa g). change (file32 (k + ph_filesz)) with (sg_filesz g).
  change (file32 (k + ph_off)) with (sg_off g).
  pose proof (file32_range (k + ph_off)) as R1. pose proof (file32_range (k + ph_filesz)) as R2.
  pose proof (file32_range (k + ph_memsz)) as R3. pose proof (file32_range (k + ph_paddr)) as R4.
  change (file32 (k + ph_off)) with (sg_off g) in R1. change (file32 (k + ph_filesz)) with (sg_filesz g) in R2.
  change (file32 (k + ph_memsz)) with (sg_memsz g) in R3. change (file32 (k + ph_paddr)) with (sg_pa g) in R4.
  unfold sg_start, sg_end, SECTSIZE in *. pose proof (Z.mod_pos_bound (sg_off g) 512).
  destruct (readseg_ok (sg_pa g) (sg_filesz g) (sg_off g) s) as (l & m1 & Hrun & Hf1 & Hin & Hout);
    unfold SECTSIZE in *; try done; try lia.
  mrun Hrun. msteps. cbn [k_mem upd_k_mem].
  assert (Hh1 : header_in m1) by (intros j Hj; rewrite Hout by lia; by apply Hh).
  rewrite !(header32 m1) by (done || unfold ph_memsz, ph_filesz; lia).
  change (file32 (k + ph_memsz)) with (sg_memsz g). change (file32 (k + ph_filesz)) with (sg_filesz g).
  exists l. destruct (Z.ltb_spec (sg_filesz g) (sg_memsz g)) as [Hlt|Hge]; cbn [whenb].
  - eexists. split; [reflexivity|]. cbn [k_mem upd_k_mem]. rewrite u32_small by lia.
    split; [done|]. split; [|split].
    + intros j Hj. rewrite ldb_stosb, decide_False by lia. by apply Hh1.
    + intros j Hj. rewrite ldb_stosb. unfold sg_end in Hj. destruct (Z.ltb_spec j (sg_filesz g)).
      * rewrite decide_False, Hin by lia. f_equal. lia.
      * by rewrite decide_True by lia.
    + intros x Hx. rewrite ldb_stosb, decide_False by lia. apply Hout. lia.
  - exists m1. split; [done|]. split; [done|]. split; [done|]. split.
    + intros j Hj. unfold sg_end in Hj. rewrite (proj2 (Z.ltb_lt j _)), Hin by lia. f_equal. lia.
    + intros x Hx. apply Hout. lia.
Qed.

Section image.
Context (phoff : Z) (phnum : nat).
Context (Hphoff : 0 ≤ phoff) (Hpage : phoff + sizeof_proghdr * Z.of_nat phnum ≤ 4096).

Definition program_header (i : nat) : segment := segment_at (phoff + sizeof_proghdr * Z.of_nat i).

Context (Hok : ∀ i, (i < phnum)%nat → sg_ok (program_header i)).
Context (Hord : ∀ i j, (i < j < phnum)%nat → sg_end (program_header i) ≤ sg_start (program_header j)).

Lemma load_segments_ok n : ∀ i s,
  (i + n = phnum)%nat → fresh s → header_in (k_mem s) → (∀ j, (j < i)%nat → loaded (k_mem s) (program_header j)) →
  ∃ l m', load_segments n (0x10000 + (phoff + sizeof_proghdr * Z.of_nat i))
      (0x10000 + (phoff + sizeof_proghdr * Z.of_nat phnum)) s = Ret tt (upd_k_mem (λ _, m') (logged l s)) ∧
    header_in m' ∧ ∀ j, (j < phnum)%nat → loaded m' (program_header j).
Proof.
  unfold sizeof_proghdr in *. induction n as [|n IH]; intros i s Hi Hf Hh Hl; cbn [load_segments].
  - rewrite (proj2 (Z.ltb_ge _ _)) by lia. exists [], (k_mem s). rewrite logged_nil. split; [done|].
    split; [done|]. intros j Hj. apply Hl. lia.
  - rewrite (proj2 (Z.ltb_lt _ _)) by lia.
    destruct (load_segment_ok (phoff + 32 * Z.of_nat i) s) as (l1 & m1 & Hrun & Hf1 & Hh1 & Hl1 & Hb);
      [done|done|lia|unfold sizeof_proghdr; lia|apply Hok; lia|].
    mrun Hrun. unfold sizeof_proghdr. rewrite u32_small by (unfold two32; lia).
    replace (0x10000 + (phoff + 32 * Z.of_nat i) + 32) with (0x10000 + (phoff + 32 * Z.of_nat (S i))) by lia.
    destruct (IH (S i) (upd_k_mem (λ _, m1) (logged l1 s))) as (l2 & m2 & Hrun2 & Hh2 & Hl2); [lia|done|done| |].
    { intros j Hj. destruct (decide (j = i)) as [->|]; [exact Hl1|].
      intros k Hk. cbn [k_mem upd_k_mem]. rewrite Hb; [by apply Hl; [lia|]|].
      specialize (Hord j i). unfold program_header in *. unfold sizeof_proghdr in *. lia. }
    exists (l1 ++ l2), m2. rewrite <- logged_logged. done.
Qed.
End image.

Lemma bootmain_run s :
  let phoff := file32 elf_phoff in let phnum := Z.to_nat (file16 elf_phnum) in
  fresh s → file32 elf_magic = ELF_MAGIC → phoff + sizeof_proghdr * Z.of_nat phnum ≤ 4096 →
  (∀ i, (i < phnum)%nat → sg_ok (program_header phoff i)) →
  (∀ i j, (i < j < phnum)%nat → sg_end (program_header phoff i) ≤ sg_start (program_header phoff j)) →
  ∃ l m', bootmain s = Ret (Some (file32 elf_entry)) (upd_k_mem (λ _, m') (logged l s)) ∧
    ∀ i, (i < phnum)%nat → loaded m' (program_header phoff i).
Proof.
  intros phoff phnum Hf Hmag Hpage Hok Hord. unfold bootmain.
  destruct (readseg_ok 0x10000 4096 0 s) as (l & m1 & Hrun & Hf1 & Hin & _); try done.
  mrun Hrun. msteps. cbn [k_mem upd_k_mem].
  assert (Hh : header_in m1) by (intros k Hk; rewrite Hin by lia; f_equal; lia).
  rewrite (header32 m1 elf_magic), Hmag by done. cbn [negb Z.eqb Pos.eqb ELF_MAGIC]. msteps. cbn [k_mem upd_k_mem].
  rewrite (header32 m1 elf_phoff), (header16 m1 elf_phnum) by done. fold phoff.
  pose proof (file32_range elf_phoff) as Hr. fold phoff in Hr. unfold sizeof_proghdr in *.
  assert (Hn : file16 elf_phnum = Z.of_nat phnum).
  { unfold phnum. rewrite Z2Nat.id; [done|]. unfold file16, kernel_file.
    match goal with |- 0 ≤ u8 ?a + _ * u8 ?b => pose proof (u8_range a); pose proof (u8_range b) end. lia. }
  rewrite Hn, Nat2Z.id. rewrite !u32_small by (unfold two32; try rewrite u32_small; unfold two32; lia).
  destruct (load_segments_ok phoff phnum ltac:(lia) Hpage Hok Hord phnum 0 (upd_k_mem (λ _, m1) (logged l s)))
    as (l2 & m2 & Hrun2 & Hh2 & Hl2); [lia|done|done|lia|].
  unfold sizeof_proghdr in Hrun2.
  replace (0x10000 + (phoff + 32 * Z.of_nat 0)) with (0x10000 + phoff) in Hrun2 by lia.
  replace (0x10000 + (phoff + 32 * Z.of_nat phnum)) with (0x10000 + phoff + Z.of_nat phnum * 32) in Hrun2 by lia.
  mrun Hrun2. msteps. cbn [k_mem upd_k_mem]. rewrite (header32 m2 elf_entry) by done.
  exists (l ++ l2), m2. rewrite <- logged_logged. done.
Qed.
End boot.

(** C20.  The boot loader, on a disk whose sectors from 1 on hold an ELF
    kernel: it reads every segment of the program headers to its physical
    address and clears the rest of its memory, and ends at the entry point of
    the header.  The headers lie in the first page, and the segments, in
    increasing order, stay clear of the scratch page and of each other, the
    sector a segment starts in included. *)
Theorem bootmain_loads_kernel {DEV : Device} {ATA : AtaDevice} s :
  let phoff := file32 elf_phoff in let phnum := Z.to_nat (file16 elf_phnum) in
  fresh s → file32 elf_magic = ELF_MAGIC → phoff + sizeof_proghdr * Z.of_nat phnum ≤ 4096 →
  (∀ i, (i < phnum)%nat → sg_ok (program_header phoff i)) →
  (∀ i j, (i < j < phnum)%nat → sg_end (program_header phoff i) ≤ sg_start (program_header phoff j)) →
  ∃ l m', bootmain s = Ret (Some (file32 elf_entry)) (upd_k_mem (λ _, m') (logged l s)) ∧
    ∀ i, (i < phnum)%nat → loaded m' (program_header phoff i).
Proof. apply bootmain_run. Qed.

(** A kernel with one segment of 600 bytes, and 400 bytes of bss. *)
Module BootExample.
Definition header : list Z :=
  [0x7f; 0x45; 0x4c; 0x46] ++ replicate 20 0 ++ [0x0c; 0; 0x10; 0] ++ [52; 0; 0; 0] ++ replicate 12 0 ++ [1; 0] ++
  replicate 6 0 ++
  [1; 0; 0; 0] ++ [0; 0x10; 0; 0] ++ [0; 0; 0x10; 0x80] ++ [0; 0; 0x10; 0] ++ [0x58; 2; 0; 0] ++ [0xe8; 3; 0; 0].
Definition byte (k : Z) : Z := u8 (nth (Z.to_nat k) header k).
Definition disk (d : Z * Z) : list Z := map (λ j, byte (512 * (d.2 - 1) + Z.of_nat j)) (seq 0 512).

Definition device : Device := {|
  dev_in _ _ := 0x40;
  dev_ins h _ k :=
    match Ata.a_pending (Ata.after h) with
    | Ata.Reading d => nth k (default (disk d) (Ata.a_written (Ata.after h) !! d)) 0
    | _ => 0
    end;
  dev_rd _ _ := 0; dev_turns := 0 |}.

#[local] Existing Instance device.
#[local] Instance ata : AtaDevice.
Proof.
  refine {| sectors := disk |}.
  - done.
  - done.
  - intros h d Hp. simpl. rewrite Hp. change (map _ _) with (Ata.fit (default (disk d) (Ata.a_written (Ata.after h) !! d))).
    destruct (Ata.a_written (Ata.after h) !! d) eqn:E; [by apply IdeExample.written_fit in E|].
    apply Ata.fit_id; [unfold disk; cbn [default]; by rewrite length_map, length_seq|].
    apply Forall_forall. intros x Hx. unfold disk in Hx. cbn [default] in Hx.
    apply list_elem_of_fmap in Hx as (k & -> & _). apply u8_range.
Defined.

Definition kernel : segment := MkSegment 4096 0x100000 600 1000.

Lemma kernel_header : program_header (file32 elf_phoff) 0 = kernel.
Proof. by vm_compute. Qed.
End BootExample.

Lemma bootmain_loads_kernel_witness :
  ∃ l m', @bootmain BootExample.device bss = Ret (Some 0x10000c) (upd_k_mem (λ _, m') (logged l bss)) ∧
    @loaded _ BootExample.ata m' BootExample.kernel.
Proof.
  destruct (@bootmain_loads_kernel BootExample.device BootExample.ata bss) as (l & m' & Hrun & Hl).
  - done.
  - by vm_compute.
  - by vm_compute.
  - intros i Hi. change (Z.to_nat (file16 elf_phnum)) with 1%nat in Hi. assert (i = 0%nat) as -> by lia.
    rewrite BootExample.kernel_header. by vm_compute.
  - intros i j Hij. change (Z.to_nat (file16 elf_phnum)) with 1%nat in Hij. lia.
  - exists l, m'. split; [exact Hrun|]. rewrite <- BootExample.kernel_header. apply Hl.
    change (Z.to_nat (file16 elf_phnum)) with 1%nat. lia.
Defined.
