(* ===== verification/Bio.v ===== *)
(** Bio: the buffer cache of [bio.c].

    Buffers are linked through [b_prev]/[b_next] in most-recently-used
    order; index [NBUF] stands for [bcache.head], whose two links are
    [k_bhead]. *)

From S2P Require Import Prelude Layout State Spinlock Sched Sleeplock Disk.

(** [&bcache.head] *)
Definition bhead : nat := Z.to_nat NBUF.

Section bio.
Context {ENV : Env} {DRV : DiskDriver}.

(** The links of a buffer or of the head. *)
Definition bprev (s : kstate) (i : nat) : option nat :=
  if decide (i = bhead) then Some (k_bhead s).1 else b_prev <$> k_bufs s !! i.
Definition bnext (s : kstate) (i : nat) : option nat :=
  if decide (i = bhead) then Some (k_bhead s).2 else b_next <$> k_bufs s !! i.
Definition set_bprev (i x : nat) (s : kstate) : kstate :=
  if decide (i = bhead) then upd_k_bhead (λ h, (x, h.2)) s
  else upd_k_bufs (alter (upd_b_prev (λ _, x)) i) s.
Definition set_bnext (i x : nat) (s : kstate) : kstate :=
  if decide (i = bhead) then upd_k_bhead (λ h, (h.1, x)) s
  else upd_k_bufs (alter (upd_b_next (λ _, x)) i) s.

Definition binit : K unit :=
  initlock L_bcache;;
  modify (set_bprev bhead bhead);;
  modify (set_bnext bhead bhead);;
  for_ (Z.to_nat NBUF) 0 (λ z,
    let b := Z.to_nat z in
    hn ← deref (λ s, bnext s bhead);
    modify (set_bnext b hn);;
    modify (set_bprev b bhead);;
    initsleeplock (SL_buf b);;
    hn ← deref (λ s, bnext s bhead);
    modify (set_bprev hn b);;
    modify (set_bnext bhead b)).

(** [for(b = bcache.head.next; b != &bcache.head; b = b->next)] *)
Fixpoint bget_cached (fuel : nat) (dev blockno : Z) (b : nat) : K (option nat) :=
  if decide (b = bhead) then mret None else
  match fuel with
  | O => nofuel
  | S fuel =>
      x ← buf_at b;
      if (b_dev x =? dev) && (b_blockno x =? blockno) then
        set_buf b (upd_b_refcnt (Z.add 1));;
        release L_bcache;;
        acquiresleep (SL_buf b);;
        mret (Some b)
      else bget_cached fuel dev blockno (b_next x)
  end.

(** [for(b = bcache.head.prev; b != &bcache.head; b = b->prev)] *)
Fixpoint bget_recycle (fuel : nat) (dev blockno : Z) (b : nat) : K (option nat) :=
  if decide (b = bhead) then mret None else
  match fuel with
  | O => nofuel
  | S fuel =>
      x ← buf_at b;
      if (b_refcnt x =? 0) && (Z.land (b_flags x) B_DIRTY =? 0) then
        set_buf b (upd_b_dev (λ _, dev));;
        set_buf b (upd_b_blockno (λ _, blockno));;
        set_buf b (upd_b_flags (λ _, 0));;
        set_buf b (upd_b_refcnt (λ _, 1));;
        release L_bcache;;
        acquiresleep (SL_buf b);;
        mret (Some b)
      else bget_recycle fuel dev blockno (b_prev x)
  end.

Definition bget (dev blockno : Z) : K nat :=
  acquire L_bcache;;
  b ← deref (λ s, bnext s bhead);
  r ← bget_cached (Z.to_nat NBUF) dev blockno b;
  match r with
  | Some b => mret b
  | None =>
      b ← deref (λ s, bprev s bhead);
      r ← bget_recycle (Z.to_nat NBUF) dev blockno b;
      match r with
      | Some b => mret b
      | None => panic "bget: no buffers"
      end
  end.

Definition bread (dev blockno : Z) : K nat :=
  b ← bget dev blockno;
  x ← buf_at b;
  whenb (Z.land (b_flags x) B_VALID =? 0) (iderw b);;
  mret b.

Definition bwrite (b : nat) : K unit :=
  h ← holdingsleep (SL_buf b);
  if negb h then panic "bwrite" else
  set_buf b (upd_b_flags (λ f, Z.lor f B_DIRTY));;
  iderw b.

Definition brelse (b : nat) : K unit :=
  h ← holdingsleep (SL_buf b);
  if negb h then panic "brelse" else
  releasesleep (SL_buf b);;
  acquire L_bcache;;
  set_buf b (upd_b_refcnt (λ n, n - 1));;
  x ← buf_at b;
  whenb (b_refcnt x =? 0)
    (* no one is waiting for it. *)
    (n ← deref (λ s, bnext s b);
     p ← deref (λ s, bprev s b);
     modify (set_bprev n p);;
     p ← deref (λ s, bprev s b);
     n ← deref (λ s, bnext s b);
     modify (set_bnext p n);;
     hn ← deref (λ s, bnext s bhead);
     modify (set_bnext b hn);;
     modify (set_bprev b bhead);;
     hn ← deref (λ s, bnext s bhead);
     modify (set_bprev hn b);;
     modify (set_bnext bhead b));;
  release L_bcache.
End bio.
