(* ===== verification/Lru.v ===== *)
(** Lru: the doubly-linked list of buffers in [bio.c].

    [lru s ord]: following [next] from [bcache.head] visits the buffers
    [ord] and returns to the head, and [prev] follows the same cycle
    backwards.  [brelse] moves a buffer to the front. *)

From S2P Require Import Prelude Layout State Spinlock Sched Sleeplock Disk Bio.

(** [x] is followed by [y]. *)
Definition link (s : kstate) (x y : nat) : Prop := bnext s x = Some y ∧ bprev s y = Some x.

(** Consecutive elements are linked. *)
Fixpoint path (s : kstate) (l : list nat) : Prop :=
  match l with
  | x :: l' => match l' with y :: _ => link s x y | [] => True end ∧ path s l'
  | [] => True
  end.

(** Every node of the cycle is a buffer or the head. *)
Definition node (s : kstate) (i : nat) : Prop := i = bhead ∨ is_Some (k_bufs s !! i).

Record lru (s : kstate) (ord : list nat) : Prop := MkLru {
  lru_path : path s (bhead :: ord ++ [bhead]);
  lru_nodup : NoDup (bhead :: ord);
  lru_all i : is_Some (k_bufs s !! i) ↔ i ∈ ord;
}.

(** Two states with the same links. *)
Definition same_links (s s' : kstate) : Prop :=
  (∀ i, bnext s' i = bnext s i) ∧ (∀ i, bprev s' i = bprev s i) ∧
  ∀ i, is_Some (k_bufs s' !! i) ↔ is_Some (k_bufs s !! i).

Lemma same_links_path s s' l : same_links s s' → path s l → path s' l.
Proof.
  intros (Hn & Hp & _). induction l as [|x l IH]; simpl; [done|]. intros [Hl ?].
  split; [|auto]. destruct l; [done|]. unfold link in *. by rewrite Hn, Hp.
Qed.

Lemma same_links_lru s s' ord : same_links s s' → lru s ord → lru s' ord.
Proof.
  intros Hs [Hd Hn Ha]. split; [by eapply same_links_path|done|].
  intros i. destruct Hs as (_ & _ & Hi). by rewrite Hi.
Qed.

(** Changing a buffer's contents leaves the links alone. *)
Lemma same_links_alter f i s :
  (∀ x, b_next (f x) = b_next x ∧ b_prev (f x) = b_prev x) → same_links s (upd_k_bufs (alter f i) s).
Proof.
  intros Hf. unfold same_links, bnext, bprev. simpl. split; [|split]; intros j.
  - case_decide; [done|]. rewrite list_lookup_alter. case_decide; [|done]. subst.
    destruct (k_bufs s !! j) as [x|]; simpl; [|done]. f_equal. apply Hf.
  - case_decide; [done|]. rewrite list_lookup_alter. case_decide; [|done]. subst.
    destruct (k_bufs s !! j) as [x|]; simpl; [|done]. f_equal. apply Hf.
  - rewrite list_lookup_alter. case_decide; [subst|done]. by rewrite fmap_is_Some.
Qed.

(** ** Writing links *)

Lemma bnext_set_bnext s i x j : node s i → bnext (set_bnext i x s) j = if decide (j = i) then Some x else bnext s j.
Proof.
  intros Hi. unfold bnext, set_bnext. destruct (decide (i = bhead)) as [->|Hne]; simpl.
  - repeat case_decide; congruence.
  - destruct Hi as [?|[b Hb]]; [done|]. rewrite list_lookup_alter.
    repeat case_decide; subst; try congruence; try done. by rewrite Hb.
Qed.

Lemma bprev_set_bnext s i x j : bprev (set_bnext i x s) j = bprev s j.
Proof.
  unfold bprev, set_bnext. destruct (decide (i = bhead)) as [->|Hne]; simpl; [done|].
  case_decide; [done|]. rewrite list_lookup_alter. case_decide; [subst|done]. by destruct (k_bufs s !! j).
Qed.

Lemma bprev_set_bprev s i x j : node s i → bprev (set_bprev i x s) j = if decide (j = i) then Some x else bprev s j.
Proof.
  intros Hi. unfold bprev, set_bprev. destruct (decide (i = bhead)) as [->|Hne]; simpl.
  - repeat case_decide; congruence.
  - destruct Hi as [?|[b Hb]]; [done|]. rewrite list_lookup_alter.
    repeat case_decide; subst; try congruence; try done. by rewrite Hb.
Qed.

Lemma bnext_set_bprev s i x j : bnext (set_bprev i x s) j = bnext s j.
Proof.
  unfold bnext, set_bprev. destruct (decide (i = bhead)) as [->|Hne]; simpl; [done|].
  case_decide; [done|]. rewrite list_lookup_alter. case_decide; [subst|done]. by destruct (k_bufs s !! j).
Qed.

Lemma node_set s i x j : (node (set_bnext i x s) j ↔ node s j) ∧ (node (set_bprev i x s) j ↔ node s j).
Proof.
  unfold node, set_bnext, set_bprev. destruct (decide (i = bhead)); simpl; [done|].
  split; f_equiv; rewrite list_lookup_alter; case_decide; subst; by rewrite ?fmap_is_Some.
Qed.

(** ** Splitting and joining *)

Lemma path_app s l1 x l2 : path s (l1 ++ x :: l2) ↔ path s (l1 ++ [x]) ∧ path s (x :: l2).
Proof.
  induction l1 as [|y l1 IH]; simpl; [tauto|]. rewrite IH. destruct l1; simpl; tauto.
Qed.

Lemma path_frame s s' l x :
  (∀ i, i ∈ l → bnext s' i = bnext s i) → (∀ i, i ∈ tail (l ++ [x]) → bprev s' i = bprev s i) →
  path s (l ++ [x]) → path s' (l ++ [x]).
Proof.
  induction l as [|y l IH]; intros Hn Hp; simpl; [done|]. intros [Hl Hpa]. split.
  - destruct l as [|z l]; simpl in *; unfold link in *; rewrite Hn, Hp by (simpl; apply elem_of_cons; auto); exact Hl.
  - apply IH; [intros i Hi; apply Hn; by right| |done]. intros i Hi. apply Hp. simpl.
    destruct l; simpl in *; [by apply not_elem_of_nil in Hi|by right].
Qed.

Lemma path_pair s l x y : path s (l ++ [x; y]) ↔ path s (l ++ [x]) ∧ link s x y.
Proof. rewrite (path_app s l x [y]). simpl. tauto. Qed.

(** A non-empty list ends, and starts, with an element. *)
Lemma cons_snoc {A} (x : A) l : ∃ l' y, x :: l = l' ++ [y].
Proof. destruct (exists_last (l := x :: l)) as (l' & y & ->); eauto. Qed.

Lemma snoc_cons {A} (x : A) l : ∃ y l', l ++ [x] = y :: l'.
Proof. destruct l as [|y l]; simpl; eauto. Qed.

(** ** Unlinking *)

Lemma unlink_path s s' l1 p b n l2 :
  path s ((l1 ++ [p]) ++ b :: (n :: l2)) →
  (∀ i, bnext s' i = if decide (i = p) then Some n else bnext s i) →
  (∀ i, bprev s' i = if decide (i = n) then Some p else bprev s i) →
  NoDup (l1 ++ [p]) → (∀ k z, n :: l2 = k ++ [z] → p ∉ k) → n ∉ tail (l1 ++ [p]) → n ∉ l2 →
  path s' ((l1 ++ [p]) ++ n :: l2).
Proof.
  intros Hpath Hn Hp Hnd Hpl Hnl Hn2. rewrite <-app_assoc in *. simpl in *.
  apply path_app in Hpath as [Hp1 Hp2]. simpl in Hp2. destruct Hp2 as (_ & _ & Hp3).
  apply path_app. split.
  - apply (path_frame s); [|..|done].
    + intros i Hi. rewrite Hn, decide_False; [done|]. intros ->.
      apply NoDup_app in Hnd as (_ & Hd & _). apply (Hd p Hi). by left.
    + intros i Hi. rewrite Hp, decide_False; [done|]. intros ->. done.
  - simpl. split; [by split; rewrite ?Hn, ?Hp, decide_True|].
    destruct (cons_snoc n l2) as (k & z & E). change (match l2 with [] => True | y :: _ => link s' n y end ∧ path s' l2)
      with (path s' (n :: l2)). change (match l2 with [] => True | y :: _ => link s n y end ∧ path s l2) with (path s (n :: l2)) in Hp3.
    specialize (Hpl k z E). rewrite E in Hp3 |- *.
    apply (path_frame s); [|..|done].
    + intros i Hi. rewrite Hn, decide_False; [done|]. by intros ->.
    + intros i Hi. rewrite Hp, decide_False; [done|]. intros ->. rewrite <-E in Hi. done.
Qed.

(** ** Linking behind the head *)

Lemma insert_path s s' f b rest :
  path s (bhead :: f :: rest) →
  (∀ i, bnext s' i = if decide (i = bhead) then Some b else if decide (i = b) then Some f else bnext s i) →
  (∀ i, bprev s' i = if decide (i = f) then Some b else if decide (i = b) then Some bhead else bprev s i) →
  b ≠ bhead → b ∉ f :: rest → NoDup (f :: rest) → (∀ k z, f :: rest = k ++ [z] → bhead ∉ k) →
  path s' (bhead :: b :: f :: rest).
Proof.
  intros Hpath Hn Hp Hb Hbf Hnd Hk. simpl in Hpath. destruct Hpath as [_ Hpath].
  apply not_elem_of_cons in Hbf as [Hbf Hbr].
  split; [split; rewrite ?Hn, ?Hp|split; [split; rewrite ?Hn, ?Hp|]].
  - by rewrite decide_True.
  - by rewrite decide_False, decide_True by done.
  - by rewrite decide_False, decide_True by done.
  - by rewrite decide_True.
  - change (path s (f :: rest)) in Hpath. change (path s' (f :: rest)).
    destruct (cons_snoc f rest) as (k & z & E). specialize (Hk k z E).
    assert (∀ i, i ∈ k ++ [z] → i ≠ b) as Hne by (intros i Hi ->; rewrite <-E in Hi; set_solver).
    rewrite E in Hpath |- *. apply (path_frame s); [..|done].
    + intros i Hi. rewrite Hn, !decide_False; [done|apply Hne; set_solver|by intros ->].
    + intros i Hi. rewrite Hp, !decide_False; [done| |].
      * apply Hne. destruct (k ++ [z]); [set_solver|]. by right.
      * intros ->. rewrite <-E in Hi. simpl in Hi. by apply NoDup_cons in Hnd as [??].
Qed.

(** ** [brelse] moves a buffer to the front *)

(** The two pairs of writes of [brelse] and [binit]. *)
Definition unlinked (n p : nat) (s : kstate) : kstate := set_bnext p n (set_bprev n p s).
Definition linked (b hn : nat) (s : kstate) : kstate :=
  set_bnext bhead b (set_bprev hn b (set_bprev b bhead (set_bnext b hn s))).

Section cycle.
Context (s : kstate) (ord : list nat) (Hlru : lru s ord).

Lemma ord_node i : i ∈ bhead :: ord → node s i.
Proof using Hlru.
  intros Hi. apply elem_of_cons in Hi as [->|Hi]; [by left|]. right. by apply (lru_all _ _ Hlru).
Qed.

(** The neighbours of a buffer of the cycle. *)
Lemma lru_split l1 b l2 :
  ord = l1 ++ (b :: l2) →
  ∃ k p n r, (bhead :: l1 = k ++ [p]) ∧ l2 ++ [bhead] = n :: r ∧ path s ((k ++ [p]) ++ b :: n :: r) ∧
    bprev s b = Some p ∧ bnext s b = Some n ∧ node s p ∧ node s n ∧ p ≠ b ∧ n ≠ b.
Proof using Hlru.
  intros Eo. destruct (cons_snoc bhead l1) as (k & p & E1). destruct (snoc_cons bhead l2) as (n & r & E2).
  exists k, p, n, r. pose proof (lru_path _ _ Hlru) as Hp. pose proof (lru_nodup _ _ Hlru) as Hnd.
  assert ((bhead :: ord ++ [bhead]) = (k ++ [p]) ++ b :: n :: r) as E.
  { rewrite Eo, <-E2, <-E1. simpl. by rewrite <-app_assoc. }
  rewrite E in Hp. split; [done|]. split; [done|]. split; [done|].
  assert (p ∈ bhead :: l1) as Hpi by (rewrite E1; set_solver).
  assert (n ∈ bhead :: l2) as Hni.
  { assert (n ∈ l2 ++ [bhead]) as H by (rewrite E2; by left). set_solver. }
  rewrite <-app_assoc in Hp. simpl in Hp. rewrite path_app in Hp. simpl in Hp.
  destruct Hp as (_ & [_ ?] & [? _] & _).
  assert ((b ∉ bhead :: l1) ∧ (b ∉ bhead :: l2)) as [Hb1 Hb2].
  { rewrite Eo in Hnd. apply NoDup_cons in Hnd as [Hh Hnd]. apply NoDup_app in Hnd as (_ & Hd & Hnd).
    apply NoDup_cons in Hnd as [Hb _].
    assert (b ≠ bhead) by (intros ->; set_solver).
    split; apply not_elem_of_cons; (split; [done|]); [|done]. intros H'. apply (Hd b H'). by left. }
  split; [done|]. split; [done|].
  split; [apply ord_node; rewrite Eo; set_solver|]. split; [apply ord_node; rewrite Eo; set_solver|].
  split; intros ->; done.
Qed.
End cycle.

(** A buffer without its links. *)
Definition strip (x : buf) : buf := upd_b_prev (λ _, O) (upd_b_next (λ _, O) x).

(** [s'] is [s] up to the links. *)
Definition relinked (s s' : kstate) : Prop :=
  map strip (k_bufs s') = map strip (k_bufs s) ∧
  ∃ bs h, s' = upd_k_bufs (λ _, bs) (upd_k_bhead (λ _, h) s).

Lemma relinked_trans s s1 s2 : relinked s s1 → relinked s1 s2 → relinked s s2.
Proof. intros [H (b & h & ->)] [H' (b' & h' & ->)]. split; [by rewrite H'|]. by exists b', h'. Qed.

Lemma strip_alter f i l : (∀ x, strip (f x) = strip x) → map strip (alter f i l) = map strip l.
Proof.
  intros Hf. apply list_eq. intros j. rewrite !list_lookup_fmap, list_lookup_alter.
  case_decide; [subst|done]. destruct (l !! j); simpl; [|done]. by rewrite Hf.
Qed.

Lemma relinked_bnext i x s : relinked s (set_bnext i x s).
Proof.
  split; [|exists (k_bufs (set_bnext i x s)), (k_bhead (set_bnext i x s)); unfold set_bnext; by case_decide].
  unfold set_bnext. case_decide; [done|]. by apply strip_alter.
Qed.

Lemma relinked_bprev i x s : relinked s (set_bprev i x s).
Proof.
  split; [|exists (k_bufs (set_bprev i x s)), (k_bhead (set_bprev i x s)); unfold set_bprev; by case_decide].
  unfold set_bprev. case_decide; [done|]. by apply strip_alter.
Qed.

Lemma unlinked_relinked n p s : relinked s (unlinked n p s).
Proof. eapply relinked_trans; [apply relinked_bprev|apply relinked_bnext]. Qed.

Lemma linked_relinked b hn s : relinked s (linked b hn s).
Proof.
  eapply relinked_trans; [|apply relinked_bnext]. eapply relinked_trans; [|apply relinked_bprev].
  eapply relinked_trans; [|apply relinked_bprev]. apply relinked_bnext.
Qed.

Lemma relinked_is_Some s s' i : relinked s s' → is_Some (k_bufs s' !! i) ↔ is_Some (k_bufs s !! i).
Proof.
  intros [H _]. rewrite !lookup_lt_is_Some, <-(length_map strip (k_bufs s')), H. by rewrite length_map.
Qed.

Lemma unlink_lru s l1 b l2 p n :
  lru s (l1 ++ b :: l2) → bprev s b = Some p → bnext s b = Some n →
  path (unlinked n p s) (bhead :: (l1 ++ l2) ++ [bhead]).
Proof.
  intros Hl Hp Hn.
  destruct (lru_split s _ Hl l1 b l2 eq_refl) as (k & p' & n' & r & E1 & E2 & Hpath & Hp' & Hn' & Np & Nn & Hpb & Hnb).
  simplify_eq.
  replace (bhead :: (l1 ++ l2) ++ [bhead]) with ((k ++ [p]) ++ n :: r)
    by (rewrite <-E1, <-E2; simpl; by rewrite <-app_assoc).
  pose proof (lru_nodup _ _ Hl) as Hnd. apply NoDup_cons in Hnd as [Hh Hnd].
  assert (bhead ∉ l1 ∧ bhead ∉ l2) as [Hh1 Hh2] by (split; intros ?; apply Hh; set_solver).
  apply NoDup_app in Hnd as (Hd1 & Hd & Hd2). apply NoDup_cons in Hd2 as [_ Hd2].
  assert (NoDup (n :: r)) as Hnr.
  { rewrite <-E2. apply NoDup_app. split; [done|]. split; [|apply NoDup_singleton]. intros x Hx ->%list_elem_of_singleton. done. }
  assert (p ∈ bhead :: l1) as Hpi by (rewrite E1; set_solver).
  assert (n ∈ l2 ++ [bhead]) as Hni by (rewrite E2; by left).
  apply (unlink_path s _ k p b n r); try done.
  - intros i. unfold unlinked. rewrite bnext_set_bnext by (by apply node_set). by rewrite bnext_set_bprev.
  - intros i. unfold unlinked. rewrite bprev_set_bnext. by apply bprev_set_bprev.
  - rewrite <-E1. by apply NoDup_cons.
  - intros k' z E. rewrite E in E2. apply app_inj_tail in E2 as [<- ?]. intros Hp2.
    apply elem_of_cons in Hpi as [->|Hpi]; [done|]. apply (Hd p Hpi). by right.
  - rewrite <-E1. simpl. intros Hn1. apply elem_of_app in Hni as [Hn2| ->%list_elem_of_singleton]; [|done].
    apply (Hd n Hn1). by right.
  - by apply NoDup_cons in Hnr as [? _].
Qed.

Lemma linked_path b f s rest :
  path s (bhead :: f :: rest) → node s b → node s f →
  b ≠ bhead → b ∉ f :: rest → NoDup (f :: rest) → (∀ k z, f :: rest = k ++ [z] → bhead ∉ k) →
  path (linked b f s) (bhead :: b :: f :: rest).
Proof.
  intros Hp Nb Nf Hb Hbf Hnd Hk. apply (insert_path s); try done.
  - intros i. unfold linked. rewrite bnext_set_bnext by (by left). rewrite !bnext_set_bprev.
    by rewrite bnext_set_bnext.
  - intros i. unfold linked. rewrite bprev_set_bnext, bprev_set_bprev.
    + rewrite bprev_set_bprev by (by apply node_set). by rewrite bprev_set_bnext.
    + by apply node_set, node_set.
Qed.

(** The state [brelse] leaves is again a cycle, with the buffer in front. *)
Lemma move_front s l1 b l2 p n :
  lru s (l1 ++ b :: l2) → bprev s b = Some p → bnext s b = Some n → b ≠ bhead →
  ∃ hn, n ≠ b ∧ bnext (unlinked n p s) bhead = Some hn ∧ hn ≠ b ∧
    lru (linked b hn (unlinked n p s)) (b :: l1 ++ l2) ∧
    relinked s (linked b hn (unlinked n p s)).
Proof.
  intros Hl Hp Hn Hb. pose proof (unlink_lru _ _ _ _ _ _ Hl Hp Hn) as Hpath.
  destruct (lru_split s _ Hl l1 b l2 eq_refl) as (_ & p' & n' & _ & _ & _ & _ & Hp' & Hn' & _ & _ & _ & Hnb). simplify_eq.
  pose proof (lru_nodup _ _ Hl) as Hnd. apply NoDup_cons in Hnd as [Hh Hnd].
  rewrite <-Permutation_middle in Hnd. apply NoDup_cons in Hnd as [Hbo Hnd].
  assert (bhead ∉ l1 ++ l2) as Hho by (intros ?; apply Hh; set_solver).
  destruct (snoc_cons bhead (l1 ++ l2)) as (f & r & E).
  assert (NoDup (f :: r)) as Hfr.
  { rewrite <-E. apply NoDup_app. split; [done|]. split; [|apply NoDup_singleton]. by intros x Hx ->%list_elem_of_singleton. }
  assert (b ∉ f :: r) as Hbr by (rewrite <-E; set_solver).
  assert (relinked s (unlinked n p s)) as Hr by apply unlinked_relinked.
  assert (∀ i, i ∈ l1 ++ b :: l2 → node (unlinked n p s) i) as Hnode.
  { intros i Hi. right. rewrite (relinked_is_Some _ _ _ Hr). by apply (lru_all _ _ Hl). }
  rewrite E in Hpath. exists f. split; [done|]. split; [apply Hpath|].
  split; [intros ->; by apply Hbr; left|]. split.
  - split.
    + change (path (linked b f (unlinked n p s)) (bhead :: b :: (l1 ++ l2) ++ [bhead])). rewrite E.
      apply linked_path; try done.
      * apply Hnode. set_solver.
      * assert (f ∈ (l1 ++ l2) ++ [bhead]) as Hf by (rewrite E; by left).
        apply elem_of_app in Hf as [Hf| ->%list_elem_of_singleton]; [apply Hnode; set_solver|by left].
      * intros k z Ek. rewrite Ek in E. apply app_inj_tail in E as [<- _]. done.
    + apply NoDup_cons. split; [apply not_elem_of_cons; by split|by apply NoDup_cons].
    + intros i. rewrite (relinked_is_Some s) by (by eapply relinked_trans; [|apply linked_relinked]).
      rewrite (lru_all _ _ Hl). set_solver.
  - by eapply relinked_trans; [|apply linked_relinked].
Qed.
