(* ===== verification/Bcache.v ===== *)
(** Bcache: what the buffer cache promises.

    The concrete state (30 linked buffers with flags, reference counts and
    sleep locks) represents a map from block numbers to entries; over it,
    [cache s v H T] says that [v] is the content of every block as a reader
    sees it, [H] the blocks currently locked by a caller and the buffers
    that hold them, and [T] the blocks that are dirty in memory.  [bread],
    [bwrite] and [brelse] are specified on [v], [H], [T] and the disk. *)

From S2P Require Import Prelude Layout State Spinlock Sched Sleeplock Ready Disk Bio Lru.

Lemma bhead_eq : bhead = 30%nat.
Proof. done. Qed.

(** ** The driver *)

(** What [iderw] does to a locked buffer of the disk: it fills an invalid
    buffer from the disk, and writes a dirty one to it. *)
Class DiskDriverOk {ENV : Env} (DRV : DiskDriver) := {
  disk_size : Z;                            (** in blocks; byte offsets fit 32 bits *)
  disk_size_small : disk_size ≤ 8388608;
  iderw_read i x s :
    ready s → k_bufs s !! i = Some x → sl_locked (b_lock x) = true → b_dev x = 1 →
    0 ≤ b_blockno x < disk_size → b_flags x = 0 →
    iderw i s = Ret tt (put i (upd_b_flags (λ _, B_VALID)
                                (upd_b_data (λ _, disk_block (k_disk s) (b_blockno x)) x)) s);
  iderw_write i x s :
    ready s → k_bufs s !! i = Some x → sl_locked (b_lock x) = true → b_dev x = 1 →
    0 ≤ b_blockno x < disk_size → b_flags x = Z.lor B_VALID B_DIRTY →
    iderw i s = Ret tt (upd_k_disk (disk_write (b_blockno x) (b_data x))
                          (put i (upd_b_flags (λ _, B_VALID) x) s));
}.

Section memide.
Context {ENV : Env} {IMG : FsImage}.

Lemma memide_head i x s :
  ready s → k_bufs s !! i = Some x → sl_locked (b_lock x) = true →
  sl_get (SL_buf i) s = Some (b_lock x).
Proof. intros _ Hx _. simpl. by rewrite Hx. Qed.

#[export] Instance memide_ok : DiskDriverOk Memide.driver.
Proof.
  refine {| disk_size := Memide.disksize |}.
  { unfold Memide.disksize, BSIZE. pose proof (u32_range fs_img_size) as Hu. unfold two32 in Hu.
    apply Z.div_le_upper_bound; lia. }
  all: intros i x s Hs Hx Hl Hd Hb Hf; simpl; unfold Memide.iderw.
  all: mrun (holdingsleep_run _ _ _ Hs (memide_head _ _ _ Hs Hx Hl)); rewrite Hl; simpl.
  all: unfold buf_at; rewrite (bind_deref _ _ s x Hx), Hf; simpl; rewrite Hd; simpl.
  all: destruct (Z.leb_spec Memide.disksize (b_blockno x)); [lia|].
  - unfold set_buf. msteps. rewrite (put_alter _ _ _ _ Hx).
    unfold modify. rewrite (alter_put _ _ _ _ _ Hx).
    do 2 f_equal. unfold upd_b_flags. simpl. by rewrite Hf.
  - unfold set_buf. msteps. rewrite (put_alter _ _ _ _ Hx). unfold modify.
    erewrite put_alter by (simpl; by eapply list_insert_lookup_eq).
    f_equal. unfold put, upd_k_bufs, upd_k_disk. simpl. rewrite list_insert_insert_eq. do 2 f_equal.
    unfold upd_b_flags. simpl. by rewrite Hf.
Defined.
End memide.

(** ** Entries *)

Record entry := MkEntry {
  e_buf : nat;           (** the buffer that holds the block *)
  e_data : list Z;
  e_dirty : bool;        (** modified in memory since it was read or written *)
  e_held : bool;         (** returned by [bread] and not yet released *)
}.

(** Buffer [i] with content [x] holds entry [e]. *)
Record shows (i : nat) (x : buf) (e : entry) : Prop := MkShows {
  sh_buf : e_buf e = i;
  sh_data : b_data x = e_data e;
  sh_flags : b_flags x = if e_dirty e then Z.lor B_VALID B_DIRTY else B_VALID;
  sh_ref : b_refcnt x = if e_held e then 1 else 0;
  sh_lock : sl_locked (b_lock x) = e_held e;
}.

Definition blank (x : buf) : Prop :=
  b_flags x = 0 ∧ b_refcnt x = 0 ∧ sl_locked (b_lock x) = false.

Definition buf_ok (C : gmap Z entry) (i : nat) (x : buf) : Prop :=
  length (b_data x) = 512%nat ∧
  if decide (b_dev x = 1) then ∃ e, C !! b_blockno x = Some e ∧ shows i x e else blank x.

Record crep (s : kstate) (C : gmap Z entry) : Prop := MkCrep {
  cr_len : length (k_bufs s) = bhead;
  cr_lru : ∃ ord, lru s ord;
  cr_buf i x : k_bufs s !! i = Some x → buf_ok C i x;
  cr_entry b e : C !! b = Some e → ∃ x, k_bufs s !! e_buf e = Some x ∧ b_dev x = 1 ∧ b_blockno x = b;
}.

Lemma crep_shows s C b e :
  crep s C → C !! b = Some e →
  ∃ x, k_bufs s !! e_buf e = Some x ∧ b_dev x = 1 ∧ b_blockno x = b ∧ shows (e_buf e) x e ∧
    length (b_data x) = 512%nat.
Proof.
  intros Hc Hb. destruct (cr_entry _ _ Hc b e Hb) as (x & Hx & Hd & <-). exists x.
  destruct (cr_buf _ _ Hc _ _ Hx) as [Hlen Hok]. rewrite decide_True in Hok by done.
  destruct Hok as (e' & He' & Hs). simplify_eq. done.
Qed.

(** Two entries are in different buffers. *)
Lemma crep_inj s C b b' e e' : crep s C → C !! b = Some e → C !! b' = Some e' → e_buf e = e_buf e' → b = b'.
Proof.
  intros Hc Hb Hb' He. destruct (cr_entry _ _ Hc b e Hb) as (x & Hx & _ & <-).
  destruct (cr_entry _ _ Hc b' e' Hb') as (x' & Hx' & _ & <-). rewrite He in Hx. by simplify_eq.
Qed.

(** The buffer of a block, found by device and number. *)
Lemma crep_find s C i x b :
  crep s C → k_bufs s !! i = Some x → b_dev x = 1 → b_blockno x = b →
  ∃ e, C !! b = Some e ∧ e_buf e = i.
Proof.
  intros Hc Hx Hd <-. destruct (cr_buf _ _ Hc _ _ Hx) as [_ Hok]. rewrite decide_True in Hok by done.
  destruct Hok as (e & He & Hs). exists e. by destruct Hs.
Qed.

Lemma lru_put s ord i x x' :
  k_bufs s !! i = Some x → b_next x' = b_next x → b_prev x' = b_prev x → lru s ord → lru (put i x' s) ord.
Proof.
  intros Hx Hn Hp. apply same_links_lru. unfold same_links, bnext, bprev, put. simpl.
  pose proof (lookup_lt_Some _ _ _ Hx) as Hi.
  split; [|split]; intros j; rewrite list_insert_lookup_iff by done; case_decide; try done.
  all: try (case_decide; [subst|]; try done; simpl; rewrite ?Hx; simpl; congruence).
  all: repeat case_decide; subst; rewrite ?Hx; simpl; try congruence; done.
Qed.

Lemma crep_update s C b e x x' e' :
  crep s C → C !! b = Some e → k_bufs s !! e_buf e = Some x →
  b_next x' = b_next x → b_prev x' = b_prev x → b_dev x' = 1 → b_blockno x' = b →
  length (b_data x') = 512%nat → shows (e_buf e) x' e' →
  crep (put (e_buf e) x' s) (<[b := e']> C).
Proof.
  intros Hc Hb Hx Hn Hp Hd Hbn Hlen Hs. pose proof (lookup_lt_Some _ _ _ Hx) as Hi. split; simpl.
  - rewrite length_insert. apply Hc.
  - destruct (cr_lru _ _ Hc) as [ord Ho]. exists ord. by eapply lru_put.
  - intros j y. rewrite list_insert_lookup_iff by done. case_decide as Ej; intros Hy; simplify_eq.
    + split; [done|]. rewrite decide_True by done. exists e'. by rewrite lookup_insert_eq.
    + destruct (cr_buf _ _ Hc _ _ Hy) as [Hly Hok]. split; [done|]. case_decide as Ey; [|done].
      destruct Hok as (e1 & He1 & Hs1). exists e1. rewrite lookup_insert_ne; [by split|].
      intros E. apply Ej. rewrite <-(sh_buf _ _ _ Hs1). rewrite E in Hb. congruence.
  - intros b1 e1 H1. rewrite list_insert_lookup_iff by done.
    destruct (decide (b = b1)) as [<-|Hne].
    + rewrite lookup_insert_eq in H1. simplify_eq. rewrite (sh_buf _ _ _ Hs), decide_True by done. eauto.
    + rewrite lookup_insert_ne in H1 by done. rewrite decide_False; [by apply Hc|].
      intros E. apply Hne. by eapply crep_inj.
Qed.

(** The map without the block that buffer [x] held. *)
Definition evict (x : buf) (C : gmap Z entry) : gmap Z entry :=
  if decide (b_dev x = 1) then delete (b_blockno x) C else C.

Lemma evict_lookup s C i x b e :
  crep s C → k_bufs s !! i = Some x → evict x C !! b = Some e ↔ C !! b = Some e ∧ e_buf e ≠ i.
Proof.
  intros Hc Hx. unfold evict. destruct (decide (b_dev x = 1)) as [Hd|Hd].
  - destruct (crep_find s C i x _ Hc Hx Hd eq_refl) as (e1 & He1 & <-).
    rewrite lookup_delete_Some. split; intros [H1 H2].
    + split; [done|]. intros E. apply H1. by eapply crep_inj.
    + split; [|done]. intros <-. simplify_eq.
  - split; [|by intros [? ?]]. intros He. split; [done|]. intros <-.
    destruct (cr_entry _ _ Hc b e He) as (y & Hy & ? & _). simplify_eq.
Qed.

Lemma crep_recycle s C i x x' b e' :
  crep s C → k_bufs s !! i = Some x → C !! b = None →
  b_next x' = b_next x → b_prev x' = b_prev x → b_dev x' = 1 → b_blockno x' = b →
  length (b_data x') = 512%nat → shows i x' e' →
  crep (put i x' s) (<[b := e']> (evict x C)).
Proof.
  intros Hc Hx Hb Hn Hp Hd Hbn Hlen Hs. pose proof (lookup_lt_Some _ _ _ Hx) as Hi. split; simpl.
  - rewrite length_insert. apply Hc.
  - destruct (cr_lru _ _ Hc) as [ord Ho]. exists ord. by eapply lru_put.
  - intros j y. rewrite list_insert_lookup_iff by done. case_decide as Ej; intros Hy; simplify_eq.
    + split; [done|]. rewrite decide_True by done. exists e'. by rewrite lookup_insert_eq.
    + destruct (cr_buf _ _ Hc _ _ Hy) as [Hly Hok]. split; [done|]. case_decide as Ey; [|done].
      destruct Hok as (e1 & He1 & Hs1). exists e1. split; [|done]. rewrite lookup_insert_ne by congruence.
      rewrite evict_lookup by done. split; [done|]. rewrite (sh_buf _ _ _ Hs1); congruence.
  - intros b1 e1 H1. rewrite list_insert_lookup_iff by done.
    destruct (decide (b = b1)) as [<-|Hne].
    + rewrite lookup_insert_eq in H1. simplify_eq. rewrite (sh_buf _ _ _ Hs), decide_True by done. eauto.
    + rewrite lookup_insert_ne in H1 by done. rewrite evict_lookup in H1 by done. destruct H1 as [H1 H2].
      rewrite decide_False by done. by apply Hc.
Qed.

(** ** Searching the list *)

Section search.
Context {ENV : Env} {DRV : DiskDriver}.

Definition matches (dev bno : Z) (x : buf) : bool := (b_dev x =? dev) && (b_blockno x =? bno).
Definition recyclable (x : buf) : bool := (b_refcnt x =? 0) && (Z.land (b_flags x) B_DIRTY =? 0).

Lemma path_next s i x l :
  i ≠ bhead → k_bufs s !! i = Some x → path s (i :: l ++ [bhead]) → b_next x = hd bhead l.
Proof.
  intros Hi Hx Hp. destruct l as [|j l]; destruct Hp as [[H _] _]; unfold bnext in H;
    rewrite decide_False, Hx in H by done; simpl in H; by simplify_eq.
Qed.

Lemma path_prev s i x l :
  i ≠ bhead → k_bufs s !! i = Some x → path s ((bhead :: l) ++ [i]) → b_prev x = List.last l bhead.
Proof.
  intros Hi Hx. destruct (cons_snoc bhead l) as (k & y & E).
  assert (List.last l bhead = y) as ->.
  { destruct l as [|z l]; [destruct k as [|? [|]]; by simplify_eq/=|].
    change (List.last (z :: l) bhead) with (List.last (bhead :: z :: l) bhead). rewrite E. apply last_last. }
  rewrite E, <-app_assoc. simpl. rewrite path_pair. intros [_ [_ H]]. unfold bprev in H.
  rewrite decide_False, Hx in H by done. simpl in H. by simplify_eq.
Qed.

(** The list of buffers to visit, as seen from a locked state. *)
Definition visits (s : kstate) (l : list nat) : Prop :=
  ∀ i, i ∈ l → i ≠ bhead ∧ is_Some (k_bufs s !! i).

Lemma bget_cached_miss s dev bno l fuel :
  visits s l → path s (l ++ [bhead]) → (length l ≤ fuel)%nat →
  (∀ i x, i ∈ l → k_bufs s !! i = Some x → matches dev bno x = false) →
  bget_cached fuel dev bno (hd bhead l) s = Ret None s.
Proof.
  revert fuel. induction l as [|i l IH]; intros fuel Hv Hp Hf Hm; simpl in *.
  { by destruct fuel. }
  destruct (Hv i) as [Hi [x Hx]]; [by left|]. destruct fuel as [|fuel]; [lia|]. simpl.
  rewrite decide_False by done. unfold buf_at. rewrite (bind_deref _ _ s x Hx).
  pose proof (Hm i x ltac:(by left) Hx) as Hmx. unfold matches in Hmx. rewrite Hmx.
  rewrite (path_next s i x l) by done. apply IH; [|by apply Hp|lia|].
  - intros j Hj. apply Hv. by right.
  - intros j y Hj. apply Hm. by right.
Qed.

Lemma bget_cached_hit s dev bno l fuel i x :
  visits s l → path s (l ++ [bhead]) → (length l ≤ fuel)%nat →
  i ∈ l → k_bufs s !! i = Some x → matches dev bno x = true →
  (∀ j y, k_bufs s !! j = Some y → matches dev bno y = true → j = i) →
  bget_cached fuel dev bno (hd bhead l) s =
  (set_buf i (upd_b_refcnt (Z.add 1));; release L_bcache;; acquiresleep (SL_buf i);; mret (Some i)) s.
Proof.
  revert fuel. induction l as [|j l IH]; intros fuel Hv Hp Hf Hil Hx Hm Huniq; simpl in *.
  { by apply not_elem_of_nil in Hil. }
  destruct (Hv j) as [Hj [y Hy]]; [by left|]. destruct fuel as [|fuel]; [lia|]. simpl.
  rewrite decide_False by done. unfold buf_at. rewrite (bind_deref _ _ s y Hy).
  fold (matches dev bno y). destruct (matches dev bno y) eqn:Ey.
  - by rewrite (Huniq j y Hy Ey).
  - rewrite (path_next s j y l) by done.
    apply elem_of_cons in Hil as [->|Hil]; [simplify_eq; congruence|].
    apply IH; [|by apply Hp|lia|done..]. intros k Hk. apply Hv. by right.
Qed.

Lemma bget_recycle_hit s dev bno l fuel :
  visits s l → path s (bhead :: l) → (length l ≤ fuel)%nat →
  (∃ i x, i ∈ l ∧ k_bufs s !! i = Some x ∧ recyclable x = true) →
  ∃ i x, k_bufs s !! i = Some x ∧ recyclable x = true ∧
    bget_recycle fuel dev bno (List.last l bhead) s =
    (set_buf i (upd_b_dev (λ _, dev));; set_buf i (upd_b_blockno (λ _, bno));;
     set_buf i (upd_b_flags (λ _, 0));; set_buf i (upd_b_refcnt (λ _, 1));;
     release L_bcache;; acquiresleep (SL_buf i);; mret (Some i)) s.
Proof.
  revert fuel. induction l as [|j l IH] using rev_ind; intros fuel Hv Hp Hf (i & x & Hil & Hx & Hr).
  { by apply not_elem_of_nil in Hil. }
  rewrite last_last. rewrite length_app in Hf. simpl in Hf.
  destruct (Hv j) as [Hj [y Hy]]; [set_solver|]. destruct fuel as [|fuel]; [lia|]. simpl.
  rewrite decide_False by done. unfold buf_at. rewrite (bind_deref _ _ s y Hy).
  fold (recyclable y). destruct (recyclable y) eqn:Ey; [by exists j, y|].
  rewrite (path_prev s j y l) by done.
  apply IH; [| |lia|].
  - intros k Hk. apply Hv. set_solver.
  - rewrite app_comm_cons in Hp. destruct (cons_snoc bhead l) as (k & z & E). rewrite E in Hp |- *.
    rewrite <-app_assoc in Hp. simpl in Hp. by apply path_pair in Hp as [? _].
  - exists i, x. split; [|done]. apply elem_of_app in Hil as [?| ->%list_elem_of_singleton]; [done|]. congruence.
Qed.
End search.

(** ** [bget] *)

Section bget.
Context {ENV : Env} {DRV : DiskDriver}.

(** [x] taken by the current process *)
Definition taken (s : kstate) (x : buf) : buf := upd_b_lock (λ _, MkSleeplock true (mypid s)) x.

Lemma bget_finish s i x x1 :
  ready s → k_bufs s !! i = Some x → sl_locked (b_lock x1) = false →
  (release L_bcache;; acquiresleep (SL_buf i);; mret (Some i)) (put i x1 (locked L_bcache s)) =
  Ret (Some i) (put i (taken s x1) s).
Proof.
  intros Hs Hx Hl. pose proof Hs as [Hwf Hsy Hlk _ _].
  assert (release L_bcache (put i x1 (locked L_bcache s)) = Ret tt (put i x1 s)) as Hrel.
  { rewrite (release_run L_bcache s); [done|done..|by rewrite Hlk|done|done]. }
  mrun Hrel.
  assert (ready (put i x1 s)) as Hr by (by apply (ready_frame s)).
  assert (sl_get (SL_buf i) (put i x1 s) = Some (b_lock x1)) as Hg.
  { simpl. by rewrite (list_insert_lookup_eq _ _ _ _ Hx). }
  mrun (acquiresleep_run _ _ _ Hr Hg Hl). simpl.
  by rewrite (alter_put _ _ _ _ _ Hx).
Qed.

Lemma crep_visits s C ord : crep s C → lru s ord → visits s ord ∧ length ord = bhead.
Proof.
  intros Hc Ho. split.
  - intros i Hi. split; [|by apply (lru_all _ _ Ho)]. intros ->.
    pose proof (lru_nodup _ _ Ho) as Hnd. by apply NoDup_cons in Hnd as [? _].
  - transitivity (length (seq 0 bhead)); [|apply length_seq]. apply Permutation_length. apply NoDup_Permutation.
    + pose proof (lru_nodup _ _ Ho) as Hnd. by apply NoDup_cons in Hnd as [_ ?].
    + apply NoDup_seq.
    + intros i. rewrite <-(lru_all _ _ Ho), lookup_lt_is_Some, elem_of_seq, (cr_len _ _ Hc). lia.
Qed.

Lemma lru_locked l s ord : lru s ord → lru (locked l s) ord.
Proof. by apply same_links_lru. Qed.

Lemma matches_spec dev bno x : matches dev bno x = true ↔ b_dev x = dev ∧ b_blockno x = bno.
Proof. unfold matches. rewrite andb_true_iff, !Z.eqb_eq. done. Qed.

Lemma lru_first s ord : lru s ord → bnext s bhead = Some (hd bhead ord).
Proof. intros Ho. pose proof (lru_path _ _ Ho) as Hp. destruct ord; by destruct Hp as [[? _] _]. Qed.

Lemma lru_last s ord : lru s ord → bprev s bhead = Some (List.last ord bhead).
Proof.
  intros Ho. pose proof (lru_path _ _ Ho) as Hp. rewrite app_comm_cons in Hp.
  destruct (cons_snoc bhead ord) as (k & y & E).
  assert (List.last ord bhead = y) as ->.
  { destruct ord as [|z l]; [destruct k as [|? [|]]; by simplify_eq/=|].
    change (List.last (z :: l) bhead) with (List.last (bhead :: z :: l) bhead). rewrite E. apply last_last. }
  rewrite E, <-app_assoc in Hp. simpl in Hp. rewrite path_pair in Hp. by destruct Hp as [_ [_ ?]].
Qed.

Lemma bget_hit s C b e x :
  ready s → crep s C → C !! b = Some e → e_held e = false → k_bufs s !! e_buf e = Some x →
  bget 1 b s = Ret (e_buf e) (put (e_buf e) (taken s (upd_b_refcnt (Z.add 1) x)) s).
Proof.
  intros Hs Hc Hb He Hx. destruct (cr_lru _ _ Hc) as [ord Ho].
  destruct (crep_visits _ _ _ Hc Ho) as [Hv Hlen].
  destruct (crep_shows _ _ _ _ Hc Hb) as (x' & Hx' & Hd & Hbn & Hsh & _). simplify_eq.
  unfold bget. assert (k_locks s !! L_bcache = None) as Hl by by rewrite (rd_locks _ Hs).
  mrun (acquire_ok L_bcache s Hl).
  rewrite (bind_deref (λ s, bnext s bhead) _ _ _ (lru_first _ _ (lru_locked L_bcache _ _ Ho))).
  eapply (bind_Ret_eq _ _ _ (Some (e_buf e))); [|reflexivity]. rewrite (bget_cached_hit _ _ _ _ _ (e_buf e) x).
  - unfold set_buf. msteps. rewrite (put_alter _ x _ (locked L_bcache s) Hx).
    apply (bget_finish _ _ x); [done|done|]. simpl. by rewrite (sh_lock _ _ _ Hsh).
  - done.
  - apply (same_links_path s); [done|]. by apply lru_path in Ho as [_ ?].
  - rewrite Hlen. done.
  - apply (lru_all _ _ Ho). by eexists.
  - done.
  - by apply matches_spec.
  - intros j y Hy [Hy1 Hy2]%matches_spec.
    destruct (crep_find _ _ _ _ _ Hc Hy Hy1 Hy2) as (e1 & He1 & <-). by simplify_eq.
Qed.

Lemma bget_miss s C b :
  ready s → crep s C → C !! b = None →
  (∃ i x, k_bufs s !! i = Some x ∧ recyclable x = true) →
  ∃ i x, k_bufs s !! i = Some x ∧ recyclable x = true ∧
    bget 1 b s = Ret i (put i (taken s (upd_b_refcnt (λ _, 1) (upd_b_flags (λ _, 0)
      (upd_b_blockno (λ _, b) (upd_b_dev (λ _, 1) x))))) s).
Proof.
  intros Hs Hc Hb (i0 & x0 & Hx0 & Hr0). destruct (cr_lru _ _ Hc) as [ord Ho].
  destruct (crep_visits _ _ _ Hc Ho) as [Hv Hlen].
  pose proof (lru_locked L_bcache _ _ Ho) as Ho1.
  destruct (bget_recycle_hit (locked L_bcache s) 1 b ord (Z.to_nat NBUF)) as (i & x & Hx & Hr & Hrun).
  { done. }
  { pose proof (lru_path _ _ Ho1) as Hp. rewrite app_comm_cons in Hp.
    destruct (cons_snoc bhead ord) as (k & z & E). rewrite E in Hp |- *. rewrite <-app_assoc in Hp.
    simpl in Hp. by apply path_pair in Hp as [? _]. }
  { rewrite Hlen. done. }
  { exists i0, x0. split; [|done]. apply (lru_all _ _ Ho). by eexists. }
  exists i, x. split; [done|]. split; [done|].
  unfold bget. assert (k_locks s !! L_bcache = None) as Hl by by rewrite (rd_locks _ Hs).
  mrun (acquire_ok L_bcache s Hl).
  rewrite (bind_deref (λ s, bnext s bhead) _ _ _ (lru_first _ _ Ho1)).
  erewrite bind_Ret; [|apply bget_cached_miss; [done|by apply lru_path in Ho1 as [_ ?]|by rewrite Hlen|]].
  2:{ intros j y _ Hy. apply not_true_iff_false. intros [Hy1 Hy2]%matches_spec.
      destruct (crep_find _ _ _ _ _ Hc Hy Hy1 Hy2) as (e1 & He1 & _). congruence. }
  cbn beta iota. rewrite (bind_deref (λ s, bprev s bhead) _ _ _ (lru_last _ _ Ho1)).
  eapply (bind_Ret_eq _ _ _ (Some i)); [|reflexivity]. rewrite Hrun. unfold set_buf. msteps.
  rewrite (put_alter _ x _ (locked L_bcache s) Hx). rewrite !(alter_put _ _ _ _ (locked L_bcache s) Hx).
  apply (bget_finish _ _ x); [done|done|]. simpl.
  destruct (cr_buf _ _ Hc _ _ Hx) as [_ Hok]. case_decide; [|apply Hok].
  destruct Hok as (e & _ & Hsh). rewrite (sh_lock _ _ _ Hsh).
  pose proof (sh_ref _ _ _ Hsh) as Href. unfold recyclable in Hr. rewrite Href in Hr. by destruct (e_held e).
Qed.
End bget.

(** ** The abstract cache *)

Definition view (C : gmap Z entry) (d : disk) (b : Z) : list Z :=
  match C !! b with Some e => e_data e | None => disk_block d b end.

Record abs (size : Z) (C : gmap Z entry) (d : disk) (v : Z → list Z) (H : gmap Z nat) (T : gset Z) : Prop := MkAbs {
  abs_v b : v b = view C d b;
  abs_h b i : H !! b = Some i ↔ ∃ e, C !! b = Some e ∧ e_held e = true ∧ e_buf e = i;
  abs_t b : b ∈ T ↔ ∃ e, C !! b = Some e ∧ e_dirty e = true;
  abs_coh b e : C !! b = Some e → e_held e = false → e_dirty e = false → e_data e = disk_block d b;
  abs_rng b e : C !! b = Some e → 0 ≤ b < size;
  abs_len b : length (disk_block d b) = 512%nat;
}.

Section abs.
Context (size : Z) (C : gmap Z entry) (d : disk) (v : Z → list Z) (H : gmap Z nat) (T : gset Z).
Context (Habs : abs size C d v H T).

(** Case analysis on whether a lookup is at the changed block. *)
Ltac at_block b :=
  repeat match goal with
  | |- context [ <[b := _]> ?m !! ?b' ] =>
      destruct (decide (b = b')) as [<-|]; [rewrite ?lookup_insert_eq|rewrite ?lookup_insert_ne by done]
  | Hm : context [ <[b := _]> ?m !! ?b' ] |- _ =>
      destruct (decide (b = b')) as [<-|]; [rewrite lookup_insert_eq in Hm|rewrite lookup_insert_ne in Hm by done]
  end.

Lemma abs_held b i : H !! b = Some i → ∃ e, C !! b = Some e ∧ e_held e = true ∧ e_buf e = i.
Proof using Habs. apply Habs. Qed.

Lemma abs_free_entry b e : H !! b = None → C !! b = Some e → e_held e = false.
Proof using Habs.
  intros Hb He. destruct (e_held e) eqn:E; [|done].
  assert (H !! b = Some (e_buf e)) by (apply Habs; eauto). congruence.
Qed.

(** A free entry is taken. *)
Lemma abs_hold b e :
  C !! b = Some e → e_held e = false →
  abs size (<[b := MkEntry (e_buf e) (e_data e) (e_dirty e) true]> C) d v (<[b := e_buf e]> H) T.
Proof using Habs.
  intros He Hf. destruct Habs as [Hv Hh Ht Hc Hr Hl]. split; try done.
  - intros b'. rewrite Hv. unfold view. at_block b; [by rewrite He|done].
  - intros b' i. at_block b; [|apply Hh]. split; [intros [= <-]; eauto|]. intros (e' & [= <-] & _ & <-). done.
  - intros b'. rewrite Ht. at_block b; [|done]. rewrite He. split; intros (e' & [= <-] & Hd); eauto.
  - intros b' e'. at_block b; [by intros [= <-]|apply Hc].
  - intros b' e'. at_block b; [intros _; by eapply Hr|apply Hr].
Qed.

(** A clean free entry is dropped. *)
Lemma abs_drop b e :
  C !! b = Some e → e_held e = false → e_dirty e = false → abs size (delete b C) d v H T.
Proof using Habs.
  intros He Hf Hd. destruct Habs as [Hv Hh Ht Hc Hr Hl].
  assert (∀ b', b' ≠ b → delete b C !! b' = C !! b') as Hne by (intros; by rewrite lookup_delete_ne).
  split; try done.
  - intros b'. rewrite Hv. unfold view. destruct (decide (b' = b)) as [->|]; [|by rewrite Hne].
    rewrite lookup_delete_eq, He. by apply Hc.
  - intros b' i. rewrite Hh. destruct (decide (b' = b)) as [->|]; [|by rewrite Hne].
    rewrite lookup_delete_eq, He. split; intros (e' & ? & ? & ?); simplify_eq; congruence.
  - intros b'. rewrite Ht. destruct (decide (b' = b)) as [->|]; [|by rewrite Hne].
    rewrite lookup_delete_eq, He. split; intros (e' & ? & ?); simplify_eq; congruence.
  - intros b' e' [_ He']%lookup_delete_Some. by apply Hc.
  - intros b' e' [_ He']%lookup_delete_Some. by eapply Hr.
Qed.

(** A block is read from the disk. *)
Lemma abs_new b i :
  C !! b = None → 0 ≤ b < size →
  abs size (<[b := MkEntry i (disk_block d b) false true]> C) d v (<[b := i]> H) T.
Proof using Habs.
  intros He Hb. destruct Habs as [Hv Hh Ht Hc Hr Hl]. split; try done.
  - intros b'. rewrite Hv. unfold view. at_block b; [by rewrite He|done].
  - intros b' j. at_block b; [|apply Hh]. split; [intros [= <-]; eauto|]. intros (e' & [= <-] & _ & <-). done.
  - intros b'. rewrite Ht. at_block b; [|done]. rewrite He. by split; intros (e' & [= <-] & Hd).
  - intros b' e'. at_block b; [by intros [= <-]|apply Hc].
  - intros b' e'. at_block b; [by intros|apply Hr].
Qed.

(** A held entry changes. *)
Lemma abs_change b e data dirty T' v' :
  C !! b = Some e → e_held e = true → v' b = data → (∀ b', b' ≠ b → v' b' = v b') →
  (b ∈ T' ↔ dirty = true) → (∀ b', b' ≠ b → b' ∈ T' ↔ b' ∈ T) →
  abs size (<[b := MkEntry (e_buf e) data dirty true]> C) d v' H T'.
Proof using Habs.
  intros He Hf Hvb Hv' Hdt HT'. destruct Habs as [Hv Hh Ht Hc Hr Hl]. split; try done.
  - intros b'. unfold view. at_block b; [done|]. rewrite Hv' by done. apply Hv.
  - intros b' i. rewrite Hh. at_block b; [|done]. rewrite He. split; intros (e' & [= <-] & ? & <-); eauto.
  - intros b'. at_block b; [|rewrite HT' by done; apply Ht]. rewrite Hdt. split; [eauto|]. by intros (e' & [= <-] & Hd).
  - intros b' e'. at_block b; [by intros [= <-]|apply Hc].
  - intros b' e'. at_block b; [intros _; by eapply Hr|apply Hr].
Qed.

(** A held entry is written to the disk. *)
Lemma abs_write b e :
  C !! b = Some e → e_held e = true → length (e_data e) = 512%nat →
  abs size (<[b := MkEntry (e_buf e) (e_data e) false true]> C) (disk_write b (e_data e) d) v H (T ∖ {[b]}).
Proof using Habs.
  intros He Hf Hlen. destruct Habs as [Hv Hh Ht Hc Hr Hl].
  assert (∀ b', b' ≠ b → disk_block (disk_write b (e_data e) d) b' = disk_block d b') as Hne.
  { intros b' Hb. unfold disk_block, disk_write. simpl. by rewrite lookup_insert_ne. }
  split.
  - intros b'. rewrite Hv. unfold view. at_block b; [by rewrite He|]. by rewrite Hne.
  - intros b' i. rewrite Hh. at_block b; [|done]. rewrite He. split; intros (e' & [= <-] & ? & <-); eauto.
  - intros b'. rewrite elem_of_difference, elem_of_singleton, Ht. at_block b; [|naive_solver].
    split; [by intros [_ ?]|]. by intros (e' & [= <-] & ?).
  - intros b' e'. at_block b; [by intros [= <-]|]. rewrite Hne by done. apply Hc.
  - intros b' e'. at_block b; [intros _; by eapply Hr|apply Hr].
  - intros b'. destruct (decide (b' = b)) as [->|]; [|by rewrite Hne].
    unfold disk_block, disk_write. simpl. by rewrite lookup_insert_eq.
Qed.

(** A held entry that is dirty or agrees with the disk is released. *)
Lemma abs_free b e :
  C !! b = Some e → e_held e = true → e_dirty e = true ∨ e_data e = disk_block d b →
  abs size (<[b := MkEntry (e_buf e) (e_data e) (e_dirty e) false]> C) d v (delete b H) T.
Proof using Habs.
  intros He Hf Hok. destruct Habs as [Hv Hh Ht Hc Hr Hl]. split; try done.
  - intros b'. rewrite Hv. unfold view. at_block b; [by rewrite He|done].
  - intros b' i. at_block b; [|rewrite lookup_delete_ne by done; apply Hh].
    rewrite lookup_delete_eq. split; [done|]. by intros (e' & [= <-] & ? & _).
  - intros b'. rewrite Ht. at_block b; [|done]. rewrite He. split; intros (e' & [= <-] & Hd); eauto.
  - intros b' e'. at_block b; [|apply Hc]. intros [= <-]. simpl. intros _ Hd. destruct Hok; [congruence|done].
  - intros b' e'. at_block b; [intros _; by eapply Hr|apply Hr].
Qed.
End abs.
