(* ===== verification/BcacheSpec.v ===== *)
(** BcacheSpec: the specifications of [bread], [bwrite], [brelse] and
    [binit] on the abstract cache of Bcache. *)

From S2P Require Import Prelude Layout State Spinlock Sched Sleeplock Ready Disk Bio Lru Bcache.

(** ** Specifications *)

(** [s'] differs from [s] in the buffers and the disk only. *)
Definition bio_step (s s' : kstate) : Prop :=
  ∃ bs h d, s' = upd_k_bufs (λ _, bs) (upd_k_bhead (λ _, h) (upd_k_disk (λ _, d) s)).

#[export] Instance bio_step_pre : PreOrder bio_step.
Proof.
  split.
  - intros s. by exists (k_bufs s), (k_bhead s), (k_disk s).
  - intros s s1 s2 (b & h & d & ->) (b' & h' & d' & ->). by exists b', h', d'.
Qed.

Lemma bio_step_put i x s : bio_step s (put i x s).
Proof. by exists (<[i := x]> (k_bufs s)), (k_bhead s), (k_disk s). Qed.

Lemma bio_step_ready s s' : bio_step s s' → ready s → ready s'.
Proof. intros (b & h & d & ->). by apply ready_frame. Qed.

Lemma bio_step_log s s' : bio_step s s' → k_log s' = k_log s.
Proof. by intros (b & h & d & ->). Qed.

#[export] Hint Resolve bio_step_put : kernel.

Section specs.
Context {ENV : Env} {DRV : DiskDriver} {OK : DiskDriverOk DRV}.

Definition cache (s : kstate) (v : Z → list Z) (H : gmap Z nat) (T : gset Z) : Prop :=
  ready s ∧ ∃ C, crep s C ∧ abs disk_size C (k_disk s) v H T.

(** Some buffer is free and clean unless all are taken by held and dirty blocks. *)
Lemma recyclable_exists s C v H T :
  crep s C → abs disk_size C (k_disk s) v H T → (size (dom H ∪ T) < bhead)%nat →
  ∃ i x, k_bufs s !! i = Some x ∧ recyclable x = true.
Proof.
  intros Hc Ha Hsz. destruct (existsb recyclable (k_bufs s)) eqn:E.
  { apply existsb_exists in E as (x & Hx & Hr). apply list_elem_of_In, list_elem_of_lookup in Hx as [i Hi]. eauto. }
  exfalso.
  assert (∀ i x, k_bufs s !! i = Some x → ∃ e, C !! b_blockno x = Some e ∧ e_buf e = i ∧ b_blockno x ∈ dom H ∪ T) as Hall.
  { intros i x Hx. assert (recyclable x = false) as Hr.
    { apply not_true_iff_false. intros Hr. apply not_true_iff_false in E. apply E, existsb_exists.
      exists x. split; [|done]. apply list_elem_of_In. by eapply list_elem_of_lookup_2. }
    destruct (cr_buf _ _ Hc _ _ Hx) as [_ Hok]. unfold recyclable in Hr. case_decide.
    - destruct Hok as (e & He & Hsh). exists e. split; [done|]. split; [apply Hsh|].
      rewrite (sh_ref _ _ _ Hsh), (sh_flags _ _ _ Hsh) in Hr. apply elem_of_union.
      destruct (e_held e) eqn:Eh.
      + left. apply elem_of_dom. exists (e_buf e). apply (abs_h _ _ _ _ _ _ Ha). eauto.
      + right. apply (abs_t _ _ _ _ _ _ Ha). exists e. split; [done|]. by destruct (e_dirty e).
    - destruct Hok as (Hf & Hf' & _). by rewrite Hf, Hf' in Hr. }
  assert (NoDup (b_blockno <$> k_bufs s)) as Hnd.
  { apply NoDup_alt. intros i j b. rewrite !list_lookup_fmap. intros (x & Hx & ->)%fmap_Some (y & Hy & E')%fmap_Some.
    destruct (Hall i x Hx) as (e & He & <- & _), (Hall j y Hy) as (e' & He' & <- & _). congruence. }
  assert (list_to_set (b_blockno <$> k_bufs s) ⊆ dom H ∪ T) as Hsub.
  { intros b (x & -> & Hx)%elem_of_list_to_set%list_elem_of_fmap. apply list_elem_of_lookup in Hx as [i Hx].
    by destruct (Hall i x Hx) as (? & _ & _ & ?). }
  apply subseteq_size in Hsub. rewrite size_list_to_set, length_fmap, (cr_len _ _ Hc) in Hsub by done. lia.
Qed.

(** A held block is in its buffer. *)
Lemma cache_held s v H T b i :
  cache s v H T → H !! b = Some i →
  ∃ x, k_bufs s !! i = Some x ∧ b_data x = v b ∧ b_blockno x = b ∧ length (v b) = 512%nat.
Proof.
  intros (_ & C & Hc & Ha) Hb. destruct (abs_held _ _ _ _ _ _ Ha b i Hb) as (e & He & _ & <-).
  destruct (crep_shows _ _ _ _ Hc He) as (x & Hx & _ & Hbn & Hsh & Hlen). exists x.
  assert (v b = e_data e) as Hv by (rewrite (abs_v _ _ _ _ _ _ Ha); unfold view; by rewrite He).
  rewrite Hv, <-(sh_data _ _ _ Hsh). done.
Qed.

Lemma cache_len s v H T b : cache s v H T → length (v b) = 512%nat.
Proof.
  intros (_ & C & Hc & Ha). rewrite (abs_v _ _ _ _ _ _ Ha). unfold view. destruct (C !! b) as [e|] eqn:He.
  - destruct (crep_shows _ _ _ _ Hc He) as (x & _ & _ & _ & Hsh & Hlen). by rewrite <-(sh_data _ _ _ Hsh).
  - apply Ha.
Qed.

(** A block that is neither held nor dirty reads as on the disk. *)
Lemma cache_clean s v H T b : cache s v H T → H !! b = None → b ∉ T → v b = disk_block (k_disk s) b.
Proof.
  intros (_ & C & Hc & Ha) Hb Hd. rewrite (abs_v _ _ _ _ _ _ Ha). unfold view. destruct (C !! b) as [e|] eqn:He; [|done].
  apply (abs_coh _ _ _ _ _ _ Ha); [done|by eapply abs_free_entry|].
  destruct (e_dirty e) eqn:Ed; [|done]. destruct Hd. apply Ha. eauto.
Qed.

Lemma bread_ok s v H T b :
  cache s v H T → H !! b = None → 0 ≤ b < disk_size → b ∈ T ∨ (size (dom H ∪ T) < bhead)%nat →
  ∃ i s', bread 1 b s = Ret i s' ∧ bio_step s s' ∧ k_disk s' = k_disk s ∧ cache s' v (<[b := i]> H) T.
Proof.
  intros (Hs & C & Hc & Ha) Hb Hrng Hsz. unfold bread. destruct (C !! b) as [e|] eqn:He.
  - destruct (crep_shows _ _ _ _ Hc He) as (x & Hx & Hd & Hbn & Hsh & Hlen).
    pose proof (abs_free_entry _ _ _ _ _ _ Ha b e Hb He) as Hf.
    mrun (bget_hit _ _ _ _ _ Hs Hc He Hf Hx).
    rewrite (bind_buf_at _ _ _ _ (put_here _ _ _ _ Hx)). simpl.
    rewrite (sh_flags _ _ _ Hsh).
    replace (Z.land (if e_dirty e then Z.lor B_VALID B_DIRTY else B_VALID) B_VALID =? 0) with false
      by (by destruct (e_dirty e)). msteps.
    eexists _, _. split; [done|]. split; [apply bio_step_put|]. split; [done|].
    split; [by apply (bio_step_ready s); [apply bio_step_put|]|].
    exists (<[b := MkEntry (e_buf e) (e_data e) (e_dirty e) true]> C).
    split; [|by apply abs_hold]. eapply crep_update; try done. destruct Hsh as [H1 H2 H3 H4 H5]. split; try done.
    simpl. by rewrite H4, Hf.
  - assert (b ∉ T) as HbT by (intros (e & He' & _)%(abs_t _ _ _ _ _ _ Ha); congruence).
    destruct Hsz as [?|Hsz]; [done|].
    destruct (bget_miss s C b Hs Hc He (recyclable_exists _ _ _ _ _ Hc Ha Hsz)) as (i & x & Hx & Hr & Hrun).
    mrun Hrun. rewrite (bind_buf_at _ _ _ _ (put_here _ _ _ _ Hx)). simpl.
    set (x1 := taken s _).
    assert (iderw i (put i x1 s) = Ret tt (put i (upd_b_flags (λ _, B_VALID)
              (upd_b_data (λ _, disk_block (k_disk s) b) x1)) s)) as Hrd.
    { rewrite (iderw_read i x1); [by rewrite put_put|by apply (bio_step_ready s); [apply bio_step_put|]|
        by eapply put_here|done..]. }
    mrun Hrd. eexists _, _. split; [done|]. split; [apply bio_step_put|]. split; [done|].
    split; [by apply (bio_step_ready s); [apply bio_step_put|]|].
    exists (<[b := MkEntry i (disk_block (k_disk s) b) false true]> (evict x C)). split.
    + eapply crep_recycle; try done. apply Ha.
    + assert (abs disk_size (evict x C) (k_disk s) v H T) as Ha'.
      { unfold evict. case_decide as Ed; [|done]. destruct (cr_buf _ _ Hc _ _ Hx) as [_ Hok].
        rewrite decide_True in Hok by done. destruct Hok as (e & He' & Hsh).
        unfold recyclable in Hr. rewrite (sh_ref _ _ _ Hsh), (sh_flags _ _ _ Hsh) in Hr.
        eapply (abs_drop _ _ _ _ _ _ Ha _ e He'); by destruct (e_held e), (e_dirty e). }
      apply abs_new; [done| |done]. apply eq_None_not_Some. intros [e' [? _]%(evict_lookup s C i)]; [congruence|done..].
Qed.

Lemma set_data_ok s v H T b i f :
  cache s v H T → H !! b = Some i → length (f (v b)) = 512%nat →
  ∃ s', set_buf i (upd_b_data f) s = Ret tt s' ∧ bio_step s s' ∧ k_disk s' = k_disk s ∧
    cache s' (<[b := f (v b)]> v) H T.
Proof.
  intros (Hs & C & Hc & Ha) Hb Hlen. destruct (abs_held _ _ _ _ _ _ Ha b i Hb) as (e & He & Hh & <-).
  destruct (crep_shows _ _ _ _ Hc He) as (x & Hx & Hd & Hbn & Hsh & _).
  assert (v b = e_data e) as Hv by (rewrite (abs_v _ _ _ _ _ _ Ha); unfold view; by rewrite He).
  unfold set_buf, modify. rewrite (put_alter _ _ _ _ Hx).
  eexists. split; [done|]. split; [apply bio_step_put|]. split; [done|].
  split; [by apply (bio_step_ready s); [apply bio_step_put|]|].
  exists (<[b := MkEntry (e_buf e) (f (v b)) (e_dirty e) true]> C). split.
  - eapply crep_update; try done; simpl; destruct Hsh as [H1 H2 H3 H4 H5]; [by rewrite H2, <-Hv|].
    split; simpl; try done; [by rewrite H2, <-Hv|by rewrite H4, Hh|by rewrite H5].
  - eapply abs_change; try done; [by rewrite fn_lookup_insert|by intros; rewrite fn_lookup_insert_ne|].
    rewrite (abs_t _ _ _ _ _ _ Ha), He. split; [by intros (? & [= <-] & ?)|eauto].
Qed.

Lemma mark_dirty_ok s v H T b i :
  cache s v H T → H !! b = Some i →
  ∃ s', set_buf i (upd_b_flags (λ f, Z.lor f B_DIRTY)) s = Ret tt s' ∧ bio_step s s' ∧
    k_disk s' = k_disk s ∧ cache s' v H (T ∪ {[b]}).
Proof.
  intros (Hs & C & Hc & Ha) Hb. destruct (abs_held _ _ _ _ _ _ Ha b i Hb) as (e & He & Hh & <-).
  destruct (crep_shows _ _ _ _ Hc He) as (x & Hx & Hd & Hbn & Hsh & Hlen).
  assert (v b = e_data e) as Hv by (rewrite (abs_v _ _ _ _ _ _ Ha); unfold view; by rewrite He).
  unfold set_buf, modify. rewrite (put_alter _ _ _ _ Hx).
  eexists. split; [done|]. split; [apply bio_step_put|]. split; [done|].
  split; [by apply (bio_step_ready s); [apply bio_step_put|]|].
  exists (<[b := MkEntry (e_buf e) (v b) true true]> C). split.
  - eapply crep_update; try done; simpl; destruct Hsh as [H1 H2 H3 H4 H5].
    split; simpl; try done; [congruence|rewrite H3; by destruct (e_dirty e)|by rewrite H4, Hh|by rewrite H5, Hh].
  - eapply abs_change; try done; [set_solver|]. intros b' Hne. set_solver.
Qed.

Lemma held_lock s C b e x i :
  crep s C → C !! b = Some e → e_held e = true → e_buf e = i → k_bufs s !! i = Some x →
  sl_get (SL_buf i) s = Some (b_lock x) ∧ sl_locked (b_lock x) = true.
Proof.
  intros Hc He Hh <- Hx. destruct (crep_shows _ _ _ _ Hc He) as (x' & Hx' & _ & _ & Hsh & _). simplify_eq.
  split; [simpl; by rewrite Hx|]. by rewrite (sh_lock _ _ _ Hsh).
Qed.

Lemma bwrite_ok s v H T b i :
  cache s v H T → H !! b = Some i →
  ∃ s', bwrite i s = Ret tt s' ∧ bio_step s s' ∧ k_disk s' = disk_write b (v b) (k_disk s) ∧
    cache s' v H (T ∖ {[b]}).
Proof.
  intros (Hs & C & Hc & Ha) Hb. destruct (abs_held _ _ _ _ _ _ Ha b i Hb) as (e & He & Hh & <-).
  destruct (crep_shows _ _ _ _ Hc He) as (x & Hx & Hd & Hbn & Hsh & Hlen).
  assert (v b = e_data e) as Hv by (rewrite (abs_v _ _ _ _ _ _ Ha); unfold view; by rewrite He).
  destruct (held_lock _ _ _ _ _ _ Hc He Hh eq_refl Hx) as [Hg Hl].
  pose proof Hsh as [H1 H2 H3 H4 H5].
  unfold bwrite. mrun (holdingsleep_run _ _ _ Hs Hg). rewrite Hl. simpl.
  unfold set_buf. msteps. rewrite (put_alter _ _ _ _ Hx). set (x1 := upd_b_flags _ x).
  assert (iderw (e_buf e) (put (e_buf e) x1 s) =
          Ret tt (upd_k_disk (disk_write b (v b)) (put (e_buf e) (upd_b_flags (λ _, B_VALID) x1) s))) as Hrd.
  { rewrite (iderw_write _ x1); [|by apply (bio_step_ready s); [apply bio_step_put|]|by eapply put_here|done|done|..].
    - rewrite put_put. simpl. by rewrite Hbn, Hv, H2.
    - simpl. rewrite Hbn. by eapply Ha.
    - simpl. rewrite H3. by destruct (e_dirty e). }
  rewrite Hrd. eexists. split; [done|].
  assert (bio_step s (upd_k_disk (disk_write b (v b)) (put (e_buf e) (upd_b_flags (λ _, B_VALID) x1) s))) as Hst.
  { by eexists (<[e_buf e := upd_b_flags (λ _, B_VALID) x1]> (k_bufs s)), (k_bhead s), _. }
  split; [done|]. split; [done|]. split; [by eapply bio_step_ready|].
  exists (<[b := MkEntry (e_buf e) (e_data e) false true]> C). split.
  - assert (crep (put (e_buf e) (upd_b_flags (λ _, B_VALID) x1) s) (<[b := MkEntry (e_buf e) (e_data e) false true]> C)) as Hc'.
    { eapply crep_update; try done. split; simpl; rewrite ?H4, ?H5, ?Hh; done. }
    destruct Hc' as [Hc1 [ord Hc2] Hc3 Hc4]. split; [done| |done|done]. exists ord.
    by eapply same_links_lru; [|exact Hc2].
  - simpl. rewrite Hv. eapply abs_write; try done. by rewrite <-H2.
Qed.

Lemma buf_ok_strip C i x : buf_ok C i (strip x) ↔ buf_ok C i x.
Proof.
  unfold buf_ok. simpl. f_equiv. case_decide; [|done].
  split; intros (e & He & [H1 H2 H3 H4 H5]); exists e; (split; [done|]); by split.
Qed.

Lemma crep_relinked s s' C ord : relinked s s' → lru s' ord → crep s C → crep s' C.
Proof.
  intros [Hm _] Ho Hc.
  assert (∀ i x', k_bufs s' !! i = Some x' → ∃ x, k_bufs s !! i = Some x ∧ strip x' = strip x) as Hl1.
  { intros i x' Hx'. assert (map strip (k_bufs s') !! i = Some (strip x')) as E by by rewrite list_lookup_fmap, Hx'.
    rewrite Hm, list_lookup_fmap in E. apply fmap_Some in E as (x & ? & ?). eauto. }
  assert (∀ i x, k_bufs s !! i = Some x → ∃ x', k_bufs s' !! i = Some x' ∧ strip x' = strip x) as Hl2.
  { intros i x Hx. assert (map strip (k_bufs s) !! i = Some (strip x)) as E by by rewrite list_lookup_fmap, Hx.
    rewrite <-Hm, list_lookup_fmap in E. apply fmap_Some in E as (x' & ? & ?). eauto. }
  split.
  - rewrite <-(length_map strip), Hm, length_map. apply Hc.
  - eauto.
  - intros i x' Hx'. destruct (Hl1 i x' Hx') as (x & Hx & E). apply buf_ok_strip. rewrite E.
    apply buf_ok_strip. by apply (cr_buf _ _ Hc).
  - intros b e He. destruct (cr_entry _ _ Hc b e He) as (x & Hx & Hd & Hb).
    destruct (Hl2 _ _ Hx) as (x' & Hx' & E). exists x'. split; [done|].
    change (b_dev (strip x') = 1 ∧ b_blockno (strip x') = b). by rewrite E.
Qed.

(** The unlinking and relinking statements of [brelse]. *)
Lemma relink_run s ord b :
  lru s ord → b ∈ ord →
  ∃ s', (n ← deref (λ s, bnext s b); p ← deref (λ s, bprev s b);
         modify (set_bprev n p);;
         p ← deref (λ s, bprev s b); n ← deref (λ s, bnext s b);
         modify (set_bnext p n);;
         hn ← deref (λ s, bnext s bhead);
         modify (set_bnext b hn);; modify (set_bprev b bhead);;
         hn ← deref (λ s, bnext s bhead);
         modify (set_bprev hn b);; modify (set_bnext bhead b)) s = Ret tt s' ∧
    relinked s s' ∧ ∃ ord', lru s' ord'.
Proof.
  intros Ho Hb. apply list_elem_of_split in Hb as (l1 & l2 & ->).
  destruct (lru_split s _ Ho l1 b l2 eq_refl) as (_ & p & n & _ & _ & _ & _ & Hp & Hn & Np & Nn & _ & Hnb).
  assert (b ≠ bhead) as Hbh.
  { intros ->. pose proof (lru_nodup _ _ Ho) as [Hnd _]%NoDup_cons. apply Hnd. set_solver. }
  destruct (move_front s l1 b l2 p n Ho Hp Hn Hbh) as (hn & _ & Hhn & Hhb & Ho' & Hr).
  exists (linked b hn (unlinked n p s)). split; [|eauto].
  rewrite (bind_deref (λ s, bnext s b) _ _ _ Hn), (bind_deref (λ s, bprev s b) _ _ _ Hp). msteps.
  rewrite (bind_deref (λ s, bprev s b) _ _ p) by (by rewrite bprev_set_bprev, decide_False).
  rewrite (bind_deref (λ s, bnext s b) _ _ n) by (by rewrite bnext_set_bprev). msteps.
  rewrite (bind_deref (λ s, bnext s bhead) _ _ hn); [reflexivity|].
  rewrite bnext_set_bprev, bnext_set_bnext, decide_False; [done|done|].
  right. apply (relinked_is_Some s); [apply unlinked_relinked|]. apply (lru_all _ _ Ho). set_solver.
Qed.

Lemma brelse_ok s v H T b i :
  cache s v H T → H !! b = Some i → b ∈ T ∨ v b = disk_block (k_disk s) b →
  ∃ s', brelse i s = Ret tt s' ∧ bio_step s s' ∧ k_disk s' = k_disk s ∧ cache s' v (delete b H) T.
Proof.
  intros (Hs & C & Hc & Ha) Hb Hcl. destruct (abs_held _ _ _ _ _ _ Ha b i Hb) as (e & He & Hh & <-).
  destruct (crep_shows _ _ _ _ Hc He) as (x & Hx & Hd & Hbn & Hsh & Hlen).
  assert (v b = e_data e) as Hv by (rewrite (abs_v _ _ _ _ _ _ Ha); unfold view; by rewrite He).
  destruct (held_lock _ _ _ _ _ _ Hc He Hh eq_refl Hx) as [Hg Hl]. pose proof Hsh as [H1 H2 H3 H4 H5].
  unfold brelse. mrun (holdingsleep_run _ _ _ Hs Hg). rewrite Hl. simpl.
  mrun (releasesleep_run (SL_buf (e_buf e)) _ Hs). simpl. rewrite (put_alter _ _ _ _ Hx).
  set (x1 := upd_b_lock _ x). set (x2 := upd_b_refcnt (λ n, n - 1) x1).
  assert (k_locks (put (e_buf e) x1 s) !! L_bcache = None) as Hlk by (simpl; by rewrite (rd_locks _ Hs)).
  mrun (acquire_ok L_bcache _ Hlk). unfold set_buf. msteps.
  change (locked L_bcache (put (e_buf e) x1 s)) with (put (e_buf e) x1 (locked L_bcache s)).
  rewrite (alter_put _ _ _ x (locked L_bcache s) Hx). fold x2.
  rewrite (bind_buf_at _ x2) by (by eapply (put_here _ _ x)).
  replace (b_refcnt x2 =? 0) with true by (simpl; by rewrite H4, Hh). rewrite bind_whenb.
  assert (crep (put (e_buf e) x2 s) (<[b := MkEntry (e_buf e) (e_data e) (e_dirty e) false]> C)) as Hc2.
  { eapply crep_update; try done. split; simpl; try done. by rewrite H4, Hh. }
  destruct (cr_lru _ _ Hc2) as [ord Ho].
  destruct (relink_run (put (e_buf e) x2 (locked L_bcache s)) ord (e_buf e)) as (s4 & Hrun & Hr & ord' & Ho').
  { by eapply same_links_lru; [|exact Ho]. }
  { apply (lru_all _ _ Ho). rewrite (put_here _ _ _ _ Hx). by eexists. }
  mrun Hrun. destruct Hr as [Hm (bs & h & ->)].
  exists (upd_k_bufs (λ _, bs) (upd_k_bhead (λ _, h) s)).
  split; [rewrite (release_run L_bcache s); first [done|apply Hs|by rewrite (rd_locks _ Hs)]|].
  split; [by exists bs, h, (k_disk s)|]. split; [done|].
  split; [by apply (ready_frame s)|].
  exists (<[b := MkEntry (e_buf e) (e_data e) (e_dirty e) false]> C). split.
  - eapply (crep_relinked (put (e_buf e) x2 s) _ _ ord'); [|by eapply same_links_lru; [|exact Ho']|done].
    split; [done|]. by exists bs, h.
  - apply (abs_free _ _ _ _ _ _ Ha); [done|done|].
    destruct Hcl as [Ht|?]; [left|right; congruence]. apply (abs_t _ _ _ _ _ _ Ha) in Ht as (e' & ? & ?). congruence.
Qed.
End specs.

(** ** [binit] *)

(** A buffer as it is before the cache is used. *)
Definition unused (x : buf) : Prop := blank x ∧ b_dev x ≠ 1 ∧ length (b_data x) = 512%nat.

Definition all_unused (s : kstate) : Prop :=
  length (k_bufs s) = bhead ∧ ∀ i x, k_bufs s !! i = Some x → unused x.

Lemma unused_alter s i f : (∀ x, unused x → unused (f x)) → all_unused s → all_unused (upd_k_bufs (alter f i) s).
Proof.
  intros Hf [Hl Hu]. split; simpl; [by rewrite length_alter|].
  intros j x. rewrite list_lookup_alter. case_decide; [|apply Hu]. subst.
  intros (y & Hy & ->)%fmap_Some. by eapply Hf, Hu.
Qed.

Lemma unused_set_bnext s i j : all_unused s → all_unused (set_bnext i j s).
Proof. intros H. unfold set_bnext. case_decide; [done|]. by apply unused_alter. Qed.

Lemma unused_set_bprev s i j : all_unused s → all_unused (set_bprev i j s).
Proof. intros H. unfold set_bprev. case_decide; [done|]. by apply unused_alter. Qed.

Lemma bio_step_set_bnext s i j : bio_step s (set_bnext i j s).
Proof.
  exists (k_bufs (set_bnext i j s)), (k_bhead (set_bnext i j s)), (k_disk s).
  unfold set_bnext. by case_decide.
Qed.

Lemma bio_step_set_bprev s i j : bio_step s (set_bprev i j s).
Proof.
  exists (k_bufs (set_bprev i j s)), (k_bhead (set_bprev i j s)), (k_disk s).
  unfold set_bprev. by case_decide.
Qed.

Lemma initlock_empty l s : k_locks s = ∅ → initlock l s = Ret tt s.
Proof.
  intros H. unfold initlock, modify, upd_k_locks. rewrite H, delete_empty, <-H. done.
Qed.

Lemma bio_step_locks s s' : bio_step s s' → k_locks s' = k_locks s.
Proof. by intros (b & h & d & ->). Qed.

(** The lock of buffer [b] initialised. *)
Definition lock_reset (b : nat) (s : kstate) : kstate :=
  sl_upd (SL_buf b) (upd_sl_pid (λ _, 0)) (sl_upd (SL_buf b) (upd_sl_locked (λ _, false)) s).

Lemma initsleeplock_run b s : k_locks s = ∅ → initsleeplock (SL_buf b) s = Ret tt (lock_reset b s).
Proof. intros H. unfold initsleeplock. mrun (initlock_empty (L_sleep (SL_buf b)) s H). done. Qed.

Lemma lock_reset_links b s : same_links s (lock_reset b s).
Proof.
  assert (∀ s f, same_links s (sl_upd (SL_buf b) f s)) as H by (intros; by apply same_links_alter).
  pose proof (H s (upd_sl_locked (λ _, false))) as (A1 & A2 & A3).
  pose proof (H (sl_upd (SL_buf b) (upd_sl_locked (λ _, false)) s) (upd_sl_pid (λ _, 0))) as (B1 & B2 & B3).
  unfold lock_reset. split; [|split]; intros i; [by rewrite B1, A1|by rewrite B2, A2|by rewrite B3, A3].
Qed.

Lemma lock_reset_unused b s : all_unused s → all_unused (lock_reset b s).
Proof.
  intros H. apply unused_alter; [|apply unused_alter; [|done]]; intros x ((? & ? & ?) & Hd & Hl); (split; [|done]); by split_and!.
Qed.

(** One round of the loop of [binit]. *)
Definition link_in (b hn : nat) (s : kstate) : kstate :=
  set_bnext bhead b (set_bprev hn b (lock_reset b (set_bprev b bhead (set_bnext b hn s)))).

Record init_inv (s0 : kstate) (i : nat) (s : kstate) : Prop := MkInitInv {
  ii_path : path s (bhead :: rev (seq 0 i) ++ [bhead]);
  ii_unused : all_unused s;
  ii_step : bio_step s0 s;
  ii_disk : k_disk s = k_disk s0;
}.

Lemma link_in_path s b f rest :
  path s (bhead :: f :: rest) → node s b → node s f →
  b ≠ bhead → b ∉ f :: rest → NoDup (f :: rest) → (∀ k z, f :: rest = k ++ [z] → bhead ∉ k) →
  path (link_in b f s) (bhead :: b :: f :: rest).
Proof.
  intros Hp Nb Nf Hb Hbf Hnd Hk. destruct (lock_reset_links b (set_bprev b bhead (set_bnext b f s))) as (Ln & Lp & Li).
  assert (node (lock_reset b (set_bprev b bhead (set_bnext b f s))) f) as Nf'.
  { unfold node. rewrite Li. change (node (set_bprev b bhead (set_bnext b f s)) f). by apply node_set, node_set. }
  apply (insert_path s); try done; intros i; unfold link_in.
  - rewrite bnext_set_bnext by (by left). by rewrite bnext_set_bprev, Ln, bnext_set_bprev, bnext_set_bnext.
  - rewrite bprev_set_bnext, bprev_set_bprev by done. rewrite Lp.
    rewrite bprev_set_bprev by (by apply node_set). by rewrite bprev_set_bnext.
Qed.

Lemma init_step s0 i s :
  (i < bhead)%nat → init_inv s0 i s → ∃ f, bnext s bhead = Some f ∧
    bnext (set_bprev i bhead (set_bnext i f s)) bhead = Some f ∧ init_inv s0 (S i) (link_in i f s).
Proof.
  intros Hi [Hp Hu Hst Hd]. destruct (snoc_cons bhead (rev (seq 0 i))) as (f & r & E).
  assert (∀ j, j ∈ rev (seq 0 i) → (j < i)%nat) as Hlt.
  { intros j Hj. apply list_elem_of_In, in_rev, list_elem_of_In, elem_of_seq in Hj. lia. }
  assert (∀ j, (j < bhead)%nat → node s j) as Hn.
  { intros j Hj. right. apply lookup_lt_is_Some. destruct Hu as [-> _]. done. }
  assert (f ∈ rev (seq 0 i) ++ [bhead]) as Hf by (rewrite E; by left).
  assert (NoDup (rev (seq 0 i))) as Hnd by (rewrite <-Permutation_rev; apply NoDup_seq).
  exists f. rewrite E in Hp. split; [apply Hp|]. split.
  { rewrite bnext_set_bprev, bnext_set_bnext by (by apply Hn). rewrite decide_False by lia. apply Hp. }
  split.
  - rewrite seq_S, rev_app_distr. simpl. rewrite E. apply link_in_path; try done.
    + by apply Hn.
    + apply elem_of_app in Hf as [Hf| ->%list_elem_of_singleton]; [|by left]. apply Hn. specialize (Hlt f Hf). lia.
    + lia.
    + rewrite <-E. intros [Hj%Hlt| Hj%list_elem_of_singleton]%elem_of_app; lia.
    + rewrite <-E. apply NoDup_app. split; [done|]. split; [|apply NoDup_singleton].
      intros j Hj%Hlt Hj'%list_elem_of_singleton. lia.
    + intros k z Ek. rewrite <-E in Ek. apply app_inj_tail in Ek as [<- _]. intros Hj%Hlt. lia.
  - by apply unused_set_bnext, unused_set_bprev, lock_reset_unused, unused_set_bprev, unused_set_bnext.
  - etrans; [exact Hst|]. unfold link_in.
    etrans; [|apply bio_step_set_bnext]. etrans; [|apply bio_step_set_bprev].
    etrans; [|by eexists (k_bufs (lock_reset i _)), _, _]. etrans; [|apply bio_step_set_bprev]. apply bio_step_set_bnext.
  - unfold link_in, set_bnext, set_bprev, lock_reset. repeat case_decide; done.
Qed.

Section binit.
Context {ENV : Env} {DRV : DiskDriver} {OK : DiskDriverOk DRV}.

Lemma binit_run s :
  k_locks s = ∅ → all_unused s → ∃ s', binit s = Ret tt s' ∧ init_inv s bhead s'.
Proof.
  intros Hl Hu. unfold binit. mrun (initlock_empty L_bcache s Hl). msteps.
  set (s1 := set_bnext bhead bhead (set_bprev bhead bhead s)).
  assert (init_inv s 0 s1) as H0.
  { split; [by unfold s1, path, link, bnext, bprev, set_bnext, set_bprev|done| |done].
    etrans; [apply bio_step_set_bprev|apply bio_step_set_bnext]. }
  match goal with |- context [ for_ _ _ ?f ] =>
    destruct (for_inv (λ z, init_inv s (Z.to_nat z)) f (Z.to_nat NBUF) 0) with (s := s1) as ([] & s' & Hrun & Hi) end.
  - intros z Hz s2 Hi. destruct (init_step s (Z.to_nat z) s2) as (hn & E1 & E2 & Hi'); [unfold bhead; lia|done|].
    rewrite (bind_deref (λ s, bnext s bhead) _ _ _ E1). msteps.
    assert (k_locks (set_bprev (Z.to_nat z) bhead (set_bnext (Z.to_nat z) hn s2)) = ∅) as Hl2.
    { rewrite <-Hl. apply bio_step_locks. etrans; [apply Hi|].
      etrans; [apply bio_step_set_bnext|apply bio_step_set_bprev]. }
    mrun (initsleeplock_run (Z.to_nat z) _ Hl2).
    rewrite (bind_deref (λ s, bnext s bhead) _ _ hn).
    + msteps. eexists _, _. split; [done|]. by replace (Z.to_nat (z + 1)) with (S (Z.to_nat z)) by lia.
    + by rewrite (proj1 (lock_reset_links _ _)).
  - done.
  - exists s'. split; [done|]. exact Hi.
Qed.

(** After [binit] the cache is empty: every block reads as on the disk. *)
Lemma binit_empty s :
  k_locks s = ∅ → all_unused s → (∀ b, length (disk_block (k_disk s) b) = 512%nat) →
  ∃ s', binit s = Ret tt s' ∧ bio_step s s' ∧ k_disk s' = k_disk s ∧ crep s' ∅ ∧
    abs disk_size ∅ (k_disk s') (disk_block (k_disk s)) ∅ ∅.
Proof.
  intros Hs Hu Hd. destruct (binit_run s Hs Hu) as (s' & Hrun & [Hp Hu' Hst Hdk]).
  exists s'. split; [done|]. split; [done|]. split; [done|]. split.
  - destruct Hu' as [Hlen Hun]. split; [done| | |done].
    + exists (rev (seq 0 bhead)). split; [done| |].
      * apply NoDup_cons. split; [|rewrite <-Permutation_rev; apply NoDup_seq].
        intros H. apply list_elem_of_In, in_rev, list_elem_of_In, elem_of_seq in H. lia.
      * intros i. rewrite lookup_lt_is_Some, Hlen. split; intros H.
        -- apply list_elem_of_In, in_rev. rewrite rev_involutive. apply list_elem_of_In, elem_of_seq. lia.
        -- apply list_elem_of_In, in_rev, list_elem_of_In, elem_of_seq in H. lia.
    + intros i x Hx. destruct (Hun i x Hx) as (Hb & Hd1 & Hl). split; [done|]. by rewrite decide_False.
  - rewrite Hdk. clear -Hd. split.
    + intros b. unfold view. by rewrite lookup_empty.
    + intros b i. rewrite !lookup_empty. split; [done|]. by intros (e & ? & _).
    + intros b. rewrite lookup_empty. split; [by intros ?%elem_of_empty|]. by intros (e & ? & _).
    + intros b e He. by rewrite lookup_empty in He.
    + intros b e He. by rewrite lookup_empty in He.
    + exact Hd.
Qed.

Lemma binit_ok s :
  ready s → all_unused s → (∀ b, length (disk_block (k_disk s) b) = 512%nat) →
  ∃ s', binit s = Ret tt s' ∧ bio_step s s' ∧ k_disk s' = k_disk s ∧ cache s' (disk_block (k_disk s)) ∅ ∅.
Proof.
  intros Hs Hu Hd. destruct (binit_empty s (rd_locks _ Hs) Hu Hd) as (s' & Hrun & Hst & Hdk & Hc & Ha).
  exists s'. split; [done|]. split; [done|]. split; [done|]. split; [by eapply bio_step_ready|]. exists ∅. exact (conj Hc Ha).
Qed.
End binit.

(** ** A concrete machine

    A memory disk of 1000 blocks and one running process; used to instantiate
    the theorems of the file-system layers. *)
Module FsExample.
#[export] Instance img : FsImage := {| fs_img_size := 512000 |}.
#[export] Instance env : Env := {| env_resume := λ _, None; env_run := λ _ _, None; env_turns := 0 |}.
#[export] Instance drv : DiskDriver := Memide.driver.
#[export] Instance drv_ok : DiskDriverOk drv := memide_ok.

(** The first process running over disk [d], the cache not yet initialised. *)
Definition machine (d : disk) : kstate :=
  upd_k_disk (λ _, d) (upd_k_cpu (upd_c_proc (λ _, Some 0%nat)) (upd_k_procs <[0%nat := upd_p_state (λ _, RUNNING) proc0]> bss)).

(** After [binit]. *)
Definition started (d : disk) : kstate := match binit (machine d) with Ret _ s => s | _ => machine d end.

Lemma machine_ready d : ready (machine d).
Proof.
  split; [done|done|done| |].
  - by eexists 0%nat, _.
  - intros p Hp Hsl. exfalso. simpl in Hp. repeat (apply elem_of_cons in Hp as [->|Hp]; [done|]). by apply elem_of_nil in Hp.
Qed.

Lemma machine_unused d : all_unused (machine d).
Proof.
  split; [done|]. intros i x Hx. apply list_elem_of_lookup_2 in Hx. change (x ∈ k_bufs bss) in Hx.
  unfold bss in Hx. cbn [k_bufs] in Hx. apply elem_of_replicate in Hx as [-> _]. by split_and!.
Qed.

Lemma started_cache d :
  (∀ b, length (disk_block d b) = 512%nat) →
  bio_step (machine d) (started d) ∧ k_disk (started d) = d ∧ cache (started d) (disk_block d) ∅ ∅.
Proof.
  intros Hd. destruct (binit_ok (machine d) (machine_ready d) (machine_unused d) Hd) as (s & Hrun & Hst & Hk & Hc).
  unfold started. rewrite Hrun. split; [exact Hst|]. split; [exact Hk|exact Hc].
Qed.
End FsExample.
