(* ===== verification/BlockStore.v ===== *)
(** BlockStore: the buffer cache refines a store of blocks.

    The interface described at the top of [bio.c] - [bread] to get a buffer
    with a block's content, [bwrite] after changing it, [brelse] when done -
    behaves as a map from block numbers to contents: a client cannot tell
    which blocks are cached. *)

From S2P Require Import Prelude Layout State Spinlock Sched Sleeplock Ready Disk Bio Lru Bcache BcacheSpec.

(** ** The abstract store *)

Inductive block_op :=
| BRead (b : Z)
| BWrite (b : Z) (d : list Z).

Definition op_block (o : block_op) : Z := match o with BRead b | BWrite b _ => b end.

(** The result of an operation and the store after it. *)
Definition store_op (v : Z → list Z) (o : block_op) : list Z * (Z → list Z) :=
  match o with BRead b => (v b, v) | BWrite b d => (d, <[b := d]> v) end.

Fixpoint store_run (v : Z → list Z) (os : list block_op) : list (list Z) * (Z → list Z) :=
  match os with
  | [] => ([], v)
  | o :: os => let '(x, v1) := store_op v o in let '(xs, v2) := store_run v1 os in (x :: xs, v2)
  end.

Section store.
Context {ENV : Env} {DRV : DiskDriver} {OK : DiskDriverOk DRV}.

(** ** The same through the cache *)

Definition run_op (o : block_op) : K (list Z) :=
  match o with
  | BRead b => bp ← bread 1 b; x ← buf_at bp; brelse bp;; mret (b_data x)
  | BWrite b d => bp ← bread 1 b; set_buf bp (upd_b_data (λ _, d));; bwrite bp;; brelse bp;; mret d
  end.

Fixpoint run_ops (os : list block_op) : K (list (list Z)) :=
  match os with
  | [] => mret []
  | o :: os => x ← run_op o; xs ← run_ops os; mret (x :: xs)
  end.

Definition op_ok (o : block_op) : Prop :=
  0 ≤ op_block o < disk_size ∧ match o with BWrite _ d => length d = 512%nat | _ => True end.

Lemma run_op_ok s v o :
  cache s v ∅ ∅ → op_ok o →
  ∃ s', run_op o s = Ret (store_op v o).1 s' ∧ bio_step s s' ∧ cache s' (store_op v o).2 ∅ ∅.
Proof.
  intros Hc [Hb Hd]. destruct o as [b|b d]; simpl in *.
  all: destruct (bread_ok s v ∅ ∅ b Hc) as (i & s1 & R1 & B1 & K1 & C1);
    [apply lookup_empty|done|right; rewrite dom_empty_L, (left_id_L ∅ (∪)), size_empty, bhead_eq; lia|]; mrun R1.
  - destruct (cache_held _ _ _ _ b i C1) as (x & Hx & Hxd & _); [apply lookup_insert_eq|].
    rewrite (bind_buf_at _ _ _ _ Hx).
    destruct (brelse_ok s1 _ _ ∅ b i C1) as (s2 & R2 & B2 & K2 & C2); [apply lookup_insert_eq| |].
    { right. rewrite K1. apply (cache_clean s v ∅ ∅); [done|apply lookup_empty|apply not_elem_of_empty]. }
    mrun R2. exists s2. rewrite Hxd. split; [done|]. split; [by etrans|].
    by rewrite delete_insert_id in C2.
  - destruct (set_data_ok s1 v _ ∅ b i (λ _, d) C1) as (s2 & R2 & B2 & K2 & C2); [apply lookup_insert_eq|done|]. mrun R2.
    destruct (bwrite_ok s2 _ _ ∅ b i C2) as (s3 & R3 & B3 & K3 & C3); [apply lookup_insert_eq|]. mrun R3.
    rewrite fn_lookup_insert in K3. rewrite empty_difference_L in C3.
    destruct (brelse_ok s3 _ _ ∅ b i C3) as (s4 & R4 & B4 & K4 & C4); [apply lookup_insert_eq| |].
    { right. rewrite fn_lookup_insert, K3. unfold disk_block, disk_write. simpl. by rewrite lookup_insert_eq. }
    mrun R4. exists s4. split; [done|]. split; [by etrans; [exact B1|]; etrans; [exact B2|]; etrans|].
    by rewrite delete_insert_id in C4.
Qed.

Lemma run_ops_ok os s v :
  cache s v ∅ ∅ → Forall op_ok os →
  ∃ s', run_ops os s = Ret (store_run v os).1 s' ∧ bio_step s s' ∧ cache s' (store_run v os).2 ∅ ∅.
Proof.
  revert s v. induction os as [|o os IH]; intros s v Hc Hos; [by exists s|].
  apply Forall_cons in Hos as [Ho Hos]. destruct (run_op_ok s v o Hc Ho) as (s1 & R1 & B1 & C1).
  simpl. mrun R1. destruct (store_op v o) as [x v1]. simpl in *.
  destruct (IH s1 v1 C1 Hos) as (s2 & R2 & B2 & C2). mrun R2. destruct (store_run v1 os) as [xs v2]. simpl in *.
  exists s2. split; [done|]. split; [by etrans|done].
Qed.

End store.

Module StoreExample.
Export FsExample.
Definition ones : list Z := replicate 512 1.
Definition script : list block_op := [BRead 7; BWrite 7 ones; BRead 7; BRead 8].

Definition blank_machine : kstate := machine (MkDisk ∅ []).
Definition expected : list (list Z) * (Z → list Z) := store_run (disk_block (k_disk blank_machine)) script.

End StoreExample.
