(* ===== verification/Log.v ===== *)
(** Log: the write-ahead log of [log.c], and [readsb] of [fs.c].

    The loops over [log.lh.block] read the bound [log.lh.n] once: no other
    process changes it while [log.committing] is set or during recovery. *)

From S2P Require Import Prelude Layout State Spinlock Sched Bytes Sleeplock Disk Bio.

Section log.
Context {ENV : Env} {DRV : DiskDriver}.

(** ** Superblock (fs.c) *)

Definition set_data (b : nat) (f : list Z → list Z) : K unit := set_buf b (upd_b_data f).

Definition superblock_of (d : list Z) : superblock :=
  MkSuperblock (rd32 d 0) (rd32 d 4) (rd32 d 8) (rd32 d 12) (rd32 d 16) (rd32 d 20) (rd32 d 24).

Definition readsb (dev : Z) : K superblock :=
  bp ← bread dev 1;
  b ← buf_at bp;
  let sb := superblock_of (b_data b) in
  brelse bp;;
  mret sb.

(** ** On-disk log *)

Definition get_log {A} (f : log → A) : K A := gets (λ s, f (k_log s)).
Definition set_log (f : log → log) : K unit := modify (upd_k_log f).

(** [log.lh.block[i]], which has LOGSIZE elements *)
Definition lh_get (i : nat) : K Z := deref (λ s, lh_block (log_lh (k_log s)) !! i).
Definition lh_set (i : nat) (x : Z) : K unit :=
  lh_get i;;
  set_log (upd_log_lh (upd_lh_block <[i := x]>)).

Definition install_trans : K unit :=
  n ← get_log (λ l, lh_n (log_lh l));
  for_ (Z.to_nat n) 0 (λ tail,
    l ← get_log (λ l, l);
    lbuf ← bread (log_dev l) (log_start l + tail + 1);      (* read log block *)
    blk ← lh_get (Z.to_nat tail);
    dbuf ← bread (log_dev l) blk;                           (* read dst *)
    lb ← buf_at lbuf;
    set_data dbuf (λ _, b_data lb);;                        (* copy block to dst *)
    bwrite dbuf;;                                           (* write dst to disk *)
    brelse lbuf;;
    brelse dbuf).

Definition read_head : K unit :=
  l ← get_log (λ l, l);
  buf ← bread (log_dev l) (log_start l);
  b ← buf_at buf;
  set_log (upd_log_lh (upd_lh_n (λ _, s32 (rd32 (b_data b) 0))));;
  n ← get_log (λ l, lh_n (log_lh l));
  for_ (Z.to_nat n) 0 (λ i, lh_set (Z.to_nat i) (s32 (rd32 (b_data b) (4 + 4 * Z.to_nat i))));;
  brelse buf.

Definition write_head : K unit :=
  l ← get_log (λ l, l);
  buf ← bread (log_dev l) (log_start l);
  set_data buf (λ d, wr32 d 0 (lh_n (log_lh l)));;
  for_ (Z.to_nat (lh_n (log_lh l))) 0 (λ i,
    x ← lh_get (Z.to_nat i);
    set_data buf (λ d, wr32 d (4 + 4 * Z.to_nat i) x));;
  bwrite buf;;
  brelse buf.

Definition recover_from_log : K unit :=
  read_head;;
  install_trans;;                              (* if committed, copy from log to disk *)
  set_log (upd_log_lh (upd_lh_n (λ _, 0)));;
  write_head.                                  (* clear the log *)

(** [sizeof(struct logheader)] is 4 + 4 * LOGSIZE *)
Definition initlog (dev : Z) : K unit :=
  if BSIZE <=? 4 + 4 * LOGSIZE then panic "initlog: too big logheader" else
  initlock L_log;;
  sb ← readsb dev;
  set_log (upd_log_start (λ _, s32 (sb_logstart sb)));;
  set_log (upd_log_size (λ _, s32 (sb_nlog sb)));;
  set_log (upd_log_dev (λ _, dev));;
  recover_from_log.

(** ** Transactions *)

Definition begin_op_full (l : log) : bool :=
  LOGSIZE <? lh_n (log_lh l) + (log_outstanding l + 1) * MAXOPBLOCKS.

(** [while(1)] of [begin_op] *)
Fixpoint begin_op_loop (n : nat) : K unit :=
  l ← get_log (λ l, l);
  if log_committing l || begin_op_full l then
    match n with
    | O => nofuel
    | S n => sleep Chan_log (Some L_log);; begin_op_loop n
    end
  else
    set_log (upd_log_outstanding (λ o, o + 1));;
    release L_log.

Definition begin_op : K unit :=
  acquire L_log;;
  begin_op_loop env_turns.

(** Copy modified blocks from cache to log. *)
Definition write_log : K unit :=
  n ← get_log (λ l, lh_n (log_lh l));
  for_ (Z.to_nat n) 0 (λ tail,
    l ← get_log (λ l, l);
    to ← bread (log_dev l) (log_start l + tail + 1);        (* log block *)
    blk ← lh_get (Z.to_nat tail);
    from ← bread (log_dev l) blk;                           (* cache block *)
    fb ← buf_at from;
    set_data to (λ _, b_data fb);;
    bwrite to;;                                             (* write the log *)
    brelse from;;
    brelse to).

Definition commit : K unit :=
  n ← get_log (λ l, lh_n (log_lh l));
  whenb (0 <? n)
    (write_log;;                               (* Write modified blocks from cache to log *)
     write_head;;                              (* Write header to disk -- the real commit *)
     install_trans;;                           (* Now install writes to home locations *)
     set_log (upd_log_lh (upd_lh_n (λ _, 0)));;
     write_head).                              (* Erase the transaction from the log *)

Definition end_op : K unit :=
  acquire L_log;;
  set_log (upd_log_outstanding (λ o, o - 1));;
  l ← get_log (λ l, l);
  if log_committing l then panic "log.committing" else
  let do_commit := log_outstanding l =? 0 in
  (if do_commit then set_log (upd_log_committing (λ _, true))
   else wakeup Chan_log);;
  release L_log;;
  whenb do_commit
    (commit;;
     acquire L_log;;
     set_log (upd_log_committing (λ _, false));;
     wakeup Chan_log;;
     release L_log).

(** The index the loop of [log_write] stops at: log absorption. *)
Fixpoint absorb (blocks : list Z) (n : nat) (blockno : Z) : nat :=
  match n, blocks with
  | S n, x :: blocks => if x =? blockno then O else S (absorb blocks n blockno)
  | _, _ => O
  end.

Definition log_write (b : nat) : K unit :=
  l ← get_log (λ l, l);
  if (LOGSIZE <=? lh_n (log_lh l)) || (log_size l - 1 <=? lh_n (log_lh l)) then panic "too big a transaction" else
  if log_outstanding l <? 1 then panic "log_write outside of trans" else
  acquire L_log;;
  x ← buf_at b;
  l ← get_log (λ l, l);
  let i := absorb (lh_block (log_lh l)) (Z.to_nat (lh_n (log_lh l))) (b_blockno x) in
  lh_set i (b_blockno x);;
  whenb (Z.of_nat i =? lh_n (log_lh l)) (set_log (upd_log_lh (upd_lh_n (λ n, n + 1))));;
  set_buf b (upd_b_flags (λ f, Z.lor f B_DIRTY));;           (* prevent eviction *)
  release L_log.
End log.
