(* ===== verification/LogSpec.v ===== *)
(** LogSpec: the log of [log.c] over the abstract cache.

    [write_log], [write_head], [install_trans] and [read_head] are run
    against the specifications of the buffer cache; each is characterised by
    the list of disk writes it makes and by the contents of the blocks
    afterwards. *)

From S2P Require Import Prelude Layout State Spinlock Sched Bytes Sleeplock Ready Disk Bio Lru Bcache BcacheSpec Log.

Lemma LOGSIZE_eq : LOGSIZE = 30.
Proof. done. Qed.

(** ** Sequences of writes *)

Notation writes := (list (Z * list Z)) (only parsing).

Definition apply_writes (W : writes) (d : disk) : disk := foldl (λ d w, disk_write w.1 w.2 d) d W.
Definition apply_view (W : writes) (v : Z → list Z) : Z → list Z := foldl (λ v w, <[w.1 := w.2]> v) v W.

Lemma apply_writes_app W W' d : apply_writes (W ++ W') d = apply_writes W' (apply_writes W d).
Proof. apply foldl_app. Qed.

Lemma apply_view_app W W' v : apply_view (W ++ W') v = apply_view W' (apply_view W v).
Proof. apply foldl_app. Qed.

Lemma apply_view_snoc W b x v : apply_view (W ++ [(b, x)]) v = <[b := x]> (apply_view W v).
Proof. by rewrite apply_view_app. Qed.

Lemma apply_view_ne W v b : b ∉ W.*1 → apply_view W v b = v b.
Proof.
  induction W as [|[b' x] W IH] using rev_ind; [done|]. rewrite fmap_app, apply_view_snoc. simpl. intros Hb.
  apply not_elem_of_app in Hb as [Hb [Hne _]%not_elem_of_cons]. rewrite fn_lookup_insert_ne by done.
  by apply IH.
Qed.

(** The content of a written block does not depend on what was there before. *)
Lemma apply_view_in W v v' b : b ∈ W.*1 → apply_view W v b = apply_view W v' b.
Proof.
  induction W as [|[b' x] W IH] using rev_ind; [by intros ?%elem_of_nil|]. rewrite fmap_app, !apply_view_snoc.
  destruct (decide (b' = b)) as [->|Hne]; [by rewrite !fn_lookup_insert|].
  rewrite !fn_lookup_insert_ne by done. intros [Hb|Hb]%elem_of_app; [by apply IH|].
  simpl in Hb. by apply list_elem_of_singleton in Hb.
Qed.

Lemma apply_view_nodup W v b x : NoDup W.*1 → (b, x) ∈ W → apply_view W v b = x.
Proof.
  induction W as [|[b' y] W IH] using rev_ind; [by intros _ ?%elem_of_nil|]. rewrite fmap_app, apply_view_snoc.
  intros (Hnd & Hd & _)%NoDup_app [Hb|Hb]%elem_of_app.
  - rewrite fn_lookup_insert_ne; [by apply IH|]. intros ->. apply (Hd b); [|by left].
    apply list_elem_of_fmap. by exists (b, x).
  - apply list_elem_of_singleton in Hb as [= -> ->]. by rewrite fn_lookup_insert.
Qed.

Lemma disk_block_write b x d b' : disk_block (disk_write b x d) b' = <[b := x]> (disk_block d) b'.
Proof.
  unfold disk_block, disk_write. simpl. destruct (decide (b = b')) as [->|].
  - by rewrite lookup_insert_eq, fn_lookup_insert.
  - by rewrite lookup_insert_ne, fn_lookup_insert_ne.
Qed.

Lemma apply_view_ext W v v' b : v b = v' b → apply_view W v b = apply_view W v' b.
Proof.
  intros Hv. destruct (decide (b ∈ W.*1)) as [Hin|Hout]; [by apply apply_view_in|]. by rewrite !apply_view_ne.
Qed.

Lemma disk_block_writes W d b : disk_block (apply_writes W d) b = apply_view W (disk_block d) b.
Proof.
  induction W as [|[b' x] W IH] using rev_ind; [done|].
  rewrite apply_writes_app, apply_view_snoc.
  change (apply_writes [(b', x)] (apply_writes W d)) with (disk_write b' x (apply_writes W d)). rewrite disk_block_write.
  destruct (decide (b' = b)) as [->|]; [by rewrite !fn_lookup_insert|]. by rewrite !fn_lookup_insert_ne.
Qed.

(** The writes are the trace the disk records. *)
Lemma d_writes_apply W d : d_writes (apply_writes W d) = d_writes d ++ W.
Proof.
  induction W as [|[b' x] W IH] using rev_ind; [by rewrite app_nil_r|].
  rewrite apply_writes_app. simpl. by rewrite IH, app_assoc.
Qed.

(** ** Steps of the log *)

(** [s'] differs from [s] in the buffers, the disk and the log only. *)
Definition log_step (s s' : kstate) : Prop :=
  ∃ bs h d l, s' = upd_k_bufs (λ _, bs) (upd_k_bhead (λ _, h) (upd_k_disk (λ _, d) (upd_k_log (λ _, l) s))).

#[export] Instance log_step_pre : PreOrder log_step.
Proof.
  split.
  - intros s. by exists (k_bufs s), (k_bhead s), (k_disk s), (k_log s).
  - intros s s1 s2 (b & h & d & l & ->) (b' & h' & d' & l' & ->). by exists b', h', d', l'.
Qed.

Lemma bio_log_step s s' : bio_step s s' → log_step s s'.
Proof. intros (b & h & d & ->). by exists b, h, d, (k_log s). Qed.

Lemma log_step_ready s s' : log_step s s' → ready s → ready s'.
Proof. intros (b & h & d & l & ->). by apply ready_frame. Qed.

Lemma log_step_upd f s : log_step s (upd_k_log f s).
Proof. by exists (k_bufs s), (k_bhead s), (k_disk s), (f (k_log s)). Qed.

#[export] Hint Resolve bio_log_step log_step_upd : kernel.

Section steps.
Context {ENV : Env} {DRV : DiskDriver} {OK : DiskDriverOk DRV}.

Lemma cache_ext s v v' H T : (∀ b, v b = v' b) → cache s v H T → cache s v' H T.
Proof.
  intros Hv (Hs & C & Hc & [H1 H2 H3 H4 H5 H6]). split; [done|]. exists C. split; [done|].
  split; try done. intros b. by rewrite <-Hv.
Qed.

Lemma fn_insert_insert (v : Z → list Z) b x y b' : <[b := x]> (<[b := y]> v) b' = <[b := x]> v b'.
Proof.
  destruct (decide (b = b')) as [->|]; [by rewrite !fn_lookup_insert|]. by rewrite !fn_lookup_insert_ne.
Qed.

Lemma cache_upd_log f s v H T : cache s v H T → cache (upd_k_log f s) v H T.
Proof.
  intros (Hs & C & [H1 [ord H2] H3 H4] & Ha). split; [by apply (ready_frame s)|]. exists C. split; [|done].
  split; try done. exists ord. by eapply same_links_lru; [|exact H2].
Qed.

Lemma bind_lh_get {A} i x (f : Z → K A) s :
  lh_block (log_lh (k_log s)) !! i = Some x → (lh_get i ≫= f) s = f x s.
Proof. apply (bind_deref (λ s, lh_block (log_lh (k_log s)) !! i)). Qed.

(** Copy block [D] to the log block [L] and write it: the body of [write_log]. *)
Lemma write_step s v T t L D :
  cache s v ∅ T → lh_block (log_lh (k_log s)) !! t = Some D → L ≠ D → L ∉ T → D ∈ T → 0 ≤ L < disk_size → 0 ≤ D < disk_size → (size T < bhead)%nat →
  ∃ s', (to ← bread 1 L; blk ← lh_get t; from ← bread 1 blk; fb ← buf_at from; set_data to (λ _, b_data fb);;
         bwrite to;; brelse from;; brelse to) s = Ret tt s' ∧
    bio_step s s' ∧ k_disk s' = disk_write L (v D) (k_disk s) ∧ cache s' (<[L := v D]> v) ∅ T.
Proof.
  intros Hc Ht HLD HLT HDT HL HD Hsz.
  destruct (bread_ok s v ∅ T L Hc) as (i & s1 & R1 & B1 & K1 & C1); [apply lookup_empty|done|right; by rewrite dom_empty_L, (left_id_L ∅ (∪))|].
  mrun R1. rewrite (bind_lh_get t D) by (by rewrite (bio_step_log _ _ B1)).
  destruct (bread_ok s1 v _ T D C1) as (j & s2 & R2 & B2 & K2 & C2).
  { by rewrite lookup_insert_ne. } { done. } { by left. }
  mrun R2. destruct (cache_held _ _ _ _ D j C2) as (x & Hx & Hxd & _ & Hlen); [by rewrite lookup_insert_eq|].
  rewrite (bind_buf_at _ _ _ _ Hx). rewrite Hxd.
  destruct (set_data_ok s2 v _ T L i (λ _, v D) C2) as (s3 & R3 & B3 & K3 & C3); [|done|].
  { rewrite lookup_insert_ne by done. by rewrite lookup_insert_eq. }
  unfold set_data. mrun R3.
  assert (<[D := j]> (<[L := i]> (∅ : gmap Z nat)) !! L = Some i) as HL'.
  { rewrite lookup_insert_ne by done. by rewrite lookup_insert_eq. }
  destruct (bwrite_ok s3 _ _ T L i C3 HL') as (s4 & R4 & B4 & K4 & C4). mrun R4.
  rewrite fn_lookup_insert in K4. replace (T ∖ {[L]}) with T in C4 by set_solver.
  destruct (brelse_ok s4 _ _ T D j C4) as (s5 & R5 & B5 & K5 & C5); [by rewrite lookup_insert_eq|by left|]. mrun R5.
  rewrite delete_insert_id in C5 by (by rewrite lookup_insert_ne).
  destruct (brelse_ok s5 _ _ T L i C5) as (s6 & R6 & B6 & K6 & C6); [by rewrite lookup_insert_eq| |].
  { right. rewrite fn_lookup_insert, K5, K4, disk_block_write, fn_lookup_insert. done. }
  exists s6. split; [done|]. split; [by etrans; [exact B1|]; etrans; [exact B2|]; etrans; [exact B3|]; etrans; [exact B4|]; etrans|].
  split; [by rewrite K6, K5, K4, K3, K2, K1|]. by rewrite delete_insert_id in C6.
Qed.

(** Copy the log block [L] to its home [D] and write it: the body of [install_trans]. *)
Lemma install_step s v T t L D :
  cache s v ∅ T → lh_block (log_lh (k_log s)) !! t = Some D → L ≠ D → L ∉ T → 0 ≤ L < disk_size → 0 ≤ D < disk_size →
  (size T < bhead)%nat → D ∈ T ∨ (size ({[L]} ∪ T) < bhead)%nat →
  ∃ s', (lbuf ← bread 1 L; blk ← lh_get t; dbuf ← bread 1 blk; lb ← buf_at lbuf; set_data dbuf (λ _, b_data lb);;
         bwrite dbuf;; brelse lbuf;; brelse dbuf) s = Ret tt s' ∧
    bio_step s s' ∧ k_disk s' = disk_write D (v L) (k_disk s) ∧ cache s' (<[D := v L]> v) ∅ (T ∖ {[D]}).
Proof.
  intros Hc Ht HLD HLT HL HD Hsz Hsz2.
  destruct (bread_ok s v ∅ T L Hc) as (i & s1 & R1 & B1 & K1 & C1); [apply lookup_empty|done|right; by rewrite dom_empty_L, (left_id_L ∅ (∪))|].
  mrun R1. rewrite (bind_lh_get t D) by (by rewrite (bio_step_log _ _ B1)).
  destruct (bread_ok s1 v _ T D C1) as (j & s2 & R2 & B2 & K2 & C2).
  { by rewrite lookup_insert_ne. } { done. }
  { destruct Hsz2; [by left|right]. by rewrite dom_insert_L, dom_empty_L, (right_id_L ∅ (∪)). }
  mrun R2. assert (<[D := j]> (<[L := i]> (∅ : gmap Z nat)) !! L = Some i) as HL'.
  { rewrite lookup_insert_ne by done. by rewrite lookup_insert_eq. }
  destruct (cache_held _ _ _ _ L i C2 HL') as (x & Hx & Hxd & _ & Hlen).
  rewrite (bind_buf_at _ _ _ _ Hx). rewrite Hxd.
  destruct (set_data_ok s2 v _ T D j (λ _, v L) C2) as (s3 & R3 & B3 & K3 & C3); [by rewrite lookup_insert_eq|done|].
  unfold set_data. mrun R3.
  destruct (bwrite_ok s3 _ _ T D j C3) as (s4 & R4 & B4 & K4 & C4); [by rewrite lookup_insert_eq|]. mrun R4.
  rewrite fn_lookup_insert in K4.
  destruct (brelse_ok s4 _ _ _ L i C4 HL') as (s5 & R5 & B5 & K5 & C5).
  { right. rewrite fn_lookup_insert_ne by done. rewrite K4, disk_block_write, fn_lookup_insert_ne by done.
    rewrite K3, K2, K1. by eapply cache_clean. }
  mrun R5. rewrite delete_insert_ne, delete_insert_id in C5 by done.
  destruct (brelse_ok s5 _ _ _ D j C5) as (s6 & R6 & B6 & K6 & C6); [by rewrite lookup_insert_eq| |].
  { right. rewrite fn_lookup_insert, K5, K4, disk_block_write, fn_lookup_insert. done. }
  exists s6. split; [done|]. split; [by etrans; [exact B1|]; etrans; [exact B2|]; etrans; [exact B3|]; etrans; [exact B4|]; etrans|].
  split; [by rewrite K6, K5, K4, K3, K2, K1|]. by rewrite delete_insert_id in C6.
Qed.
End steps.

(** ** The header block *)

(** What [write_head] makes of the header block [d]. *)
Definition head_blocks (d : list Z) (k : nat) (B : list Z) : list Z :=
  foldl (λ d p, wr32 d (4 + 4 * p.1) p.2) d (zip (seq k (length B)) B).
Definition head_data (d : list Z) (B : list Z) : list Z :=
  head_blocks (wr32 d 0 (Z.of_nat (length B))) 0 B.

Lemma head_blocks_cons d k x B : head_blocks d k (x :: B) = head_blocks (wr32 d (4 + 4 * k) x) (S k) B.
Proof. done. Qed.

Lemma head_blocks_snoc d k B x :
  head_blocks d k (B ++ [x]) = wr32 (head_blocks d k B) (4 + 4 * (k + length B)) x.
Proof.
  revert d k. induction B as [|y B IH]; intros d k.
  - change (wr32 d (4 + 4 * k) x = wr32 d (4 + 4 * (k + 0)) x). by rewrite Nat.add_0_r.
  - simpl app. simpl length. rewrite !head_blocks_cons, IH. by replace (S k + length B)%nat with (k + S (length B))%nat by lia.
Qed.

Lemma length_head_blocks d k B :
  (4 + 4 * (k + length B) ≤ length d)%nat → length (head_blocks d k B) = length d.
Proof.
  revert d k. induction B as [|x B IH]; intros d k H; [done|]. rewrite head_blocks_cons. simpl in H.
  rewrite IH; rewrite length_wr32; lia.
Qed.

Lemma head_blocks_before d k B off :
  (4 + 4 * (k + length B) ≤ length d)%nat → (off + 4 ≤ 4 + 4 * k)%nat → rd32 (head_blocks d k B) off = rd32 d off.
Proof.
  revert d k. induction B as [|x B IH]; intros d k H Ho; [done|]. rewrite head_blocks_cons. simpl in H.
  rewrite IH by (rewrite ?length_wr32; lia). apply rd32_wr32_ne; lia.
Qed.

Lemma head_blocks_at d k B i x :
  (4 + 4 * (k + length B) ≤ length d)%nat → B !! i = Some x → rd32 (head_blocks d k B) (4 + 4 * (k + i)) = u32 x.
Proof.
  revert d k i. induction B as [|y B IH]; intros d k i H Hx; [done|]. rewrite head_blocks_cons. simpl in H.
  destruct i as [|i]; simpl in Hx.
  - simplify_eq. rewrite head_blocks_before by (rewrite ?length_wr32; lia).
    replace (4 + 4 * (k + 0))%nat with (4 + 4 * k)%nat by lia. apply rd32_wr32_eq. lia.
  - replace (k + S i)%nat with (S k + i)%nat by lia. apply IH; [rewrite length_wr32; lia|done].
Qed.

Lemma length_head_data d B : (4 + 4 * length B ≤ length d)%nat → length (head_data d B) = length d.
Proof. intros H. unfold head_data. rewrite length_head_blocks; rewrite length_wr32; lia. Qed.

Lemma head_data_n d B :
  (4 + 4 * length B ≤ length d)%nat → Z.of_nat (length B) < 2147483648 →
  s32 (rd32 (head_data d B) 0) = Z.of_nat (length B).
Proof.
  intros H Hn. unfold head_data. rewrite head_blocks_before, rd32_wr32_eq by (rewrite ?length_wr32; lia).
  apply s32_u32. lia.
Qed.

Lemma head_data_block d B i x :
  (4 + 4 * length B ≤ length d)%nat → B !! i = Some x → 0 ≤ x < 2147483648 →
  s32 (rd32 (head_data d B) (4 + 4 * i)) = x.
Proof.
  intros H Hx Hr. unfold head_data. rewrite (head_blocks_at _ 0 B i x) by (rewrite ?length_wr32; done || lia).
  apply s32_u32. lia.
Qed.

(** ** The four routines *)

(** The log's variables: the device is disk 1, the header is in block [start]. *)
Record log_at (start : Z) (l : log) : Prop := MkLogAt {
  la_dev : log_dev l = 1;
  la_start : log_start l = start;
  la_len : length (lh_block (log_lh l)) = Z.to_nat LOGSIZE;
}.

(** The transaction holds the blocks [B]. *)
Definition logged_blocks (B : list Z) (l : log) : Prop :=
  lh_n (log_lh l) = Z.of_nat (length B) ∧ take (length B) (lh_block (log_lh l)) = B.

(** Blocks outside the log: the header and at most [LOGSIZE - 1] data blocks. *)
Definition home (start b : Z) : Prop := b < start ∨ start + LOGSIZE ≤ b.

#[export] Instance home_dec start b : Decision (home start b).
Proof. unfold home. apply _. Defined.

Section routines.
Context {ENV : Env} {DRV : DiskDriver} {OK : DiskDriverOk DRV}.
Context (start : Z) (Hstart : 0 ≤ start) (Hfit : start + LOGSIZE ≤ disk_size).

(** The block numbers of a transaction. *)
Definition blocks_ok (B : list Z) : Prop :=
  (length B < Z.to_nat LOGSIZE)%nat ∧ ∀ b, b ∈ B → 0 ≤ b < disk_size ∧ home start b.

Lemma blocks_lookup B l i b :
  logged_blocks B l → B !! i = Some b → lh_block (log_lh l) !! i = Some b.
Proof using.
  intros [_ Ht] Hb. rewrite <-Ht in Hb. apply lookup_take_Some in Hb. tauto.
Qed.

(** The writes of [write_log] and of [install_trans]. *)
Definition to_log (v : Z → list Z) (B : list Z) : writes := imap (λ i b, (start + Z.of_nat i + 1, v b)) B.
Definition to_home (v : Z → list Z) (B : list Z) : writes := imap (λ i b, (b, v (start + Z.of_nat i + 1))) B.

Lemma to_log_keys v B b : b ∈ (to_log v B).*1 → ∃ i, (i < length B)%nat ∧ b = start + Z.of_nat i + 1.
Proof using.
  intros Hb. apply list_elem_of_lookup in Hb as [i Hi]. unfold to_log in Hi.
  rewrite list_lookup_fmap, list_lookup_imap in Hi.
  destruct (B !! i) as [x|] eqn:E; simplify_eq/=. exists i. split; [by eapply lookup_lt_Some|done].
Qed.

Lemma to_home_keys v B : (to_home v B).*1 = B.
Proof using.
  unfold to_home. apply list_eq. intros i. rewrite list_lookup_fmap, list_lookup_imap. by destruct (B !! i).
Qed.

Lemma take_imap_S {A C} (f : nat → A → C) (l : list A) i x :
  l !! i = Some x → take (S i) (imap f l) = take i (imap f l) ++ [f i x].
Proof using.
  intros Hx. apply take_S_r. by rewrite list_lookup_imap, Hx.
Qed.
Lemma size_blocks B : NoDup B → size (list_to_set B : gset Z) = length B.
Proof using. apply size_list_to_set. Qed.

(** After the first [i] writes of [W]. *)
Record progress (s0 : kstate) (W : writes) (v : Z → list Z) (T : nat → gset Z) (i : nat) (s : kstate) : Prop := MkProgress {
  pg_cache : cache s (apply_view (take i W) v) ∅ (T i);
  pg_step : bio_step s0 s;
  pg_disk : k_disk s = apply_writes (take i W) (k_disk s0);
}.

Lemma progress_S s0 W v T i s s' b x :
  progress s0 W v T i s → W !! i = Some (b, x) →
  bio_step s s' → k_disk s' = disk_write b x (k_disk s) →
  cache s' (<[b := x]> (apply_view (take i W) v)) ∅ (T (S i)) →
  progress s0 W v T (S i) s'.
Proof using.
  intros [Hc Hs Hd] Hx Hs' Hd' Hc'. pose proof (take_S_r _ _ _ Hx) as E. split.
  - by rewrite E, apply_view_snoc.
  - by etrans.
  - by rewrite E, apply_writes_app, <-Hd.
Qed.

Lemma progress_log s0 W v T i s : progress s0 W v T i s → k_log s = k_log s0.
Proof using. intros [_ H _]. by apply bio_step_log. Qed.

Lemma elem_of_take_1 {A} (l : list A) i x : x ∈ take i l → x ∈ l.
Proof using. intros (j & Hj & _)%elem_of_take. by eapply list_elem_of_lookup_2. Qed.

(** The home blocks are untouched by writes to the log, and conversely. *)
Lemma to_log_home v u B i b :
  (length B < Z.to_nat LOGSIZE)%nat → home start b → apply_view (take i (to_log v B)) u b = u b.
Proof using.
  intros Hlen Hb. apply apply_view_ne. rewrite fmap_take. intros (j & Hj & ->)%elem_of_take_1%to_log_keys.
  unfold home in Hb. lia.
Qed.

Lemma to_home_log v u B i b :
  blocks_ok B → ¬ home start b → apply_view (take i (to_home v B)) u b = u b.
Proof using.
  intros [_ HB] Hb. apply apply_view_ne. rewrite fmap_take, to_home_keys. intros Hin%elem_of_take_1.
  by apply Hb, HB.
Qed.

Lemma log_not_home i : (S i < Z.to_nat LOGSIZE)%nat → ¬ home start (start + Z.of_nat i + 1).
Proof using. unfold home. lia. Qed.

Lemma write_log_ok s v B :
  cache s v ∅ (list_to_set B) → log_at start (k_log s) → logged_blocks B (k_log s) →
  blocks_ok B → NoDup B → (length B < bhead)%nat →
  ∃ s', write_log s = Ret tt s' ∧ bio_step s s' ∧ k_disk s' = apply_writes (to_log v B) (k_disk s) ∧
    cache s' (apply_view (to_log v B) v) ∅ (list_to_set B).
Proof using Hstart Hfit.
  intros Hc Hl Hb HB Hnd Hlen. unfold write_log, get_log. rewrite bind_gets.
  rewrite (proj1 Hb), Nat2Z.id.
  match goal with |- context [ for_ _ _ ?f ] =>
    destruct (for_inv (λ z, progress s (to_log v B) v (λ _, list_to_set B) (Z.to_nat z)) f (length B) 0)
      with (s := s) as ([] & s' & Hrun & [Hc' Hs' Hd']) end.
  - intros z Hz s1 Hp. destruct (lookup_lt_is_Some_2 B (Z.to_nat z)) as [b Hbz]; [lia|].
    destruct (proj2 HB b) as [Hrb Hhb]; [by eapply list_elem_of_lookup_2|].
    rewrite bind_gets, (progress_log _ _ _ _ _ _ Hp). rewrite (la_dev _ _ Hl), (la_start _ _ Hl).
    destruct (write_step s1 _ _ (Z.to_nat z) (start + z + 1) b (pg_cache _ _ _ _ _ _ Hp)) as (s2 & R & Hs2 & Hd2 & Hc2).
    { rewrite (progress_log _ _ _ _ _ _ Hp). by eapply blocks_lookup. }
    { intros E. rewrite <-E in Hhb. unfold home in Hhb. destruct HB. lia. }
    { intros Hin%elem_of_list_to_set. destruct (proj2 HB _ Hin) as [_ Hh]. unfold home in Hh. destruct HB. lia. }
    { apply elem_of_list_to_set. by eapply list_elem_of_lookup_2. }
    { destruct HB. lia. }
    { done. }
    { rewrite size_blocks by done. done. }
    exists tt, s2. split; [exact R|]. replace (Z.to_nat (z + 1)) with (S (Z.to_nat z)) by lia.
    rewrite to_log_home in Hd2, Hc2 by (done || apply HB).
    eapply progress_S; [done| |done..]. unfold to_log. rewrite list_lookup_imap, Hbz. simpl.
    by rewrite Z2Nat.id by lia.
  - split; [done|done|done].
  - assert (take (Z.to_nat (0 + Z.of_nat (length B))) (to_log v B) = to_log v B) as E.
    { apply take_ge. unfold to_log. rewrite length_imap. lia. }
    rewrite E in Hc', Hd'. by exists s'.
Qed.

Lemma write_head_ok s v T B :
  cache s v ∅ T → log_at start (k_log s) → logged_blocks B (k_log s) →
  (length B ≤ Z.to_nat LOGSIZE)%nat → start ∉ T → (size T < bhead)%nat →
  ∃ s', write_head s = Ret tt s' ∧ bio_step s s' ∧
    k_disk s' = disk_write start (head_data (v start) B) (k_disk s) ∧
    cache s' (<[start := head_data (v start) B]> v) ∅ T.
Proof using Hstart Hfit.
  intros Hc Hl Hb HB HT Hsz. pose proof LOGSIZE_eq as HLS. unfold write_head, get_log. rewrite bind_gets.
  rewrite (la_dev _ _ Hl), (la_start _ _ Hl), (proj1 Hb), Nat2Z.id.
  assert (length (v start) = 512%nat) as Hlen by (by eapply cache_len).
  assert (4 + 4 * length B ≤ length (v start))%nat as Hroom by lia.
  destruct (bread_ok s v ∅ T start Hc) as (i & s1 & R1 & B1 & K1 & C1);
    [apply lookup_empty|lia|right; by rewrite dom_empty_L, (left_id_L ∅ (∪))|]. mrun R1.
  set (d0 := wr32 (v start) 0 (Z.of_nat (length B))).
  destruct (set_data_ok s1 v _ T start i (λ d, wr32 d 0 (Z.of_nat (length B))) C1) as (s2 & R2 & B2 & K2 & C2);
    [by rewrite lookup_insert_eq|rewrite length_wr32; lia|]. unfold set_data. mrun R2. fold d0 in C2.
  assert (∀ j, length (head_blocks d0 0 (take j B)) = 512%nat) as Hd0.
  { intros j. assert (length d0 = 512%nat) as E by (unfold d0; rewrite length_wr32; lia).
    rewrite length_head_blocks; [done|]. rewrite E, length_take. lia. }
  match goal with |- context [ for_ _ _ ?f ] =>
    destruct (for_inv (λ z s3, cache s3 (<[start := head_blocks d0 0 (take (Z.to_nat z) B)]> v) {[start := i]} T ∧
      bio_step s s3 ∧ k_disk s3 = k_disk s) f (length B) 0) with (s := s2) as ([] & s3 & R3 & C3 & B3 & K3) end.
  - intros z Hz s3 (C3 & B3 & K3). destruct (lookup_lt_is_Some_2 B (Z.to_nat z)) as [b Hbz]; [lia|].
    rewrite (bind_lh_get (Z.to_nat z) b) by (rewrite (bio_step_log _ _ B3); by eapply blocks_lookup).
    destruct (set_data_ok s3 _ _ T start i (λ d, wr32 d (4 + 4 * Z.to_nat z) b) C3) as (s4 & R4 & B4 & K4 & C4).
    + apply lookup_insert_eq.
    + rewrite fn_lookup_insert, length_wr32; rewrite (Hd0 (Z.to_nat z)); lia.
    + exists tt, s4. split; [exact R4|]. split; [|split; [by etrans|congruence]].
      eapply cache_ext; [|exact C4]. intros b'. rewrite fn_insert_insert, fn_lookup_insert.
      replace (Z.to_nat (z + 1)) with (S (Z.to_nat z)) by lia.
      rewrite (take_S_r _ _ _ Hbz), head_blocks_snoc, length_take. do 3 f_equal. lia.
  - split; [exact C2|]. split; [by etrans|]. by rewrite K2.
  - mrun R3. replace (take (Z.to_nat (0 + Z.of_nat (length B))) B) with B in C3 by (rewrite take_ge; [done|lia]).
    fold (head_data (v start) B) in C3.
    destruct (bwrite_ok s3 _ _ T start i C3) as (s4 & R4 & B4 & K4 & C4); [apply lookup_insert_eq|]. mrun R4.
    rewrite fn_lookup_insert in K4. replace (T ∖ {[start]}) with T in C4 by set_solver.
    destruct (brelse_ok s4 _ _ T start i C4) as (s5 & R5 & B5 & K5 & C5); [apply lookup_insert_eq| |].
    { right. by rewrite fn_lookup_insert, K4, disk_block_write, fn_lookup_insert. }
    exists s5. split; [done|]. split; [by etrans; [exact B3|]; etrans|]. split; [by rewrite K5, K4, K3|].
    unfold singletonM, map_singleton in C5. by rewrite delete_insert_id in C5.
Qed.

Lemma install_trans_ok s v T B :
  cache s v ∅ T → log_at start (k_log s) → logged_blocks B (k_log s) → blocks_ok B →
  (∀ b, b ∈ T → home start b) → (T = ∅ ∨ (T = list_to_set B ∧ NoDup B ∧ (length B < bhead)%nat)) →
  ∃ s', install_trans s = Ret tt s' ∧ bio_step s s' ∧ k_disk s' = apply_writes (to_home v B) (k_disk s) ∧
    cache s' (apply_view (to_home v B) v) ∅ (T ∖ list_to_set B).
Proof using Hstart Hfit.
  intros Hc Hl Hb HB HhT HT. pose proof LOGSIZE_eq as HLS. unfold install_trans, get_log. rewrite bind_gets. rewrite (proj1 Hb), Nat2Z.id.
  assert (size T < bhead)%nat as HszT.
  { destruct HT as [->|(-> & Hnd & Hlt)]; [rewrite size_empty, bhead_eq; lia|]. by rewrite size_blocks. }
  match goal with |- context [ for_ _ _ ?f ] =>
    destruct (for_inv (λ z, progress s (to_home v B) v (λ i, T ∖ list_to_set (take i B)) (Z.to_nat z)) f (length B) 0)
      with (s := s) as ([] & s' & Hrun & [Hc' Hs' Hd']) end.
  - intros z Hz s1 Hp. destruct (lookup_lt_is_Some_2 B (Z.to_nat z)) as [b Hbz]; [lia|].
    destruct (proj2 HB b) as [Hrb Hhb]; [by eapply list_elem_of_lookup_2|].
    assert (¬ home start (start + z + 1)) as HL.
    { pose proof (log_not_home (Z.to_nat z)) as Hn. rewrite Z2Nat.id in Hn by lia. apply Hn. destruct HB. lia. }
    rewrite bind_gets, (progress_log _ _ _ _ _ _ Hp). rewrite (la_dev _ _ Hl), (la_start _ _ Hl).
    destruct (install_step s1 _ _ (Z.to_nat z) (start + z + 1) b (pg_cache _ _ _ _ _ _ Hp)) as (s2 & R & Hs2 & Hd2 & Hc2).
    { rewrite (progress_log _ _ _ _ _ _ Hp). by eapply blocks_lookup. }
    { intros E. by rewrite E in HL. }
    { intros Hin. apply HL, HhT. set_solver. }
    { destruct HB. lia. }
    { done. }
    { eapply Nat.le_lt_trans; [apply subseteq_size, subseteq_difference_l; reflexivity|done]. }
    { destruct HT as [->|(-> & Hnd & Hlt)]; [right|left].
      - rewrite empty_difference_L, (right_id_L ∅ (∪)), size_singleton, bhead_eq. lia.
      - apply elem_of_difference. split; [apply elem_of_list_to_set; by eapply list_elem_of_lookup_2|].
        intros (j & Hj & Hlt')%elem_of_list_to_set%elem_of_take. pose proof (NoDup_lookup _ _ _ _ Hnd Hj Hbz). lia. }
    exists tt, s2. split; [exact R|]. replace (Z.to_nat (z + 1)) with (S (Z.to_nat z)) by lia.
    rewrite to_home_log in Hd2, Hc2 by done.
    eapply progress_S; [done| |done|done|].
    + unfold to_home. rewrite list_lookup_imap, Hbz. simpl. by rewrite Z2Nat.id by lia.
    + rewrite (take_S_r _ _ _ Hbz), list_to_set_app_L. simpl.
      replace (T ∖ (list_to_set (take (Z.to_nat z) B) ∪ ({[b]} ∪ ∅))) with (T ∖ list_to_set (take (Z.to_nat z) B) ∖ {[b]}) by set_solver.
      done.
  - split; [|done|done]. simpl. by rewrite difference_empty_L.
  - assert (take (Z.to_nat (0 + Z.of_nat (length B))) (to_home v B) = to_home v B) as E.
    { apply take_ge. unfold to_home. rewrite length_imap. lia. }
    assert (take (Z.to_nat (0 + Z.of_nat (length B))) B = B) as E' by (apply take_ge; lia).
    rewrite E in Hc', Hd'. rewrite E' in Hc'. by exists s'.
Qed.
End routines.
