(* ===== verification/Crash.v ===== *)
(** Crash: recovery and the atomicity of transactions.

    A crash leaves the disk after some prefix of the writes made so far.
    [recovered] is the content of the disk that recovery will establish: it
    is the state of the file system that a disk represents.  A commit moves
    it from the old to the new contents at a single write, and recovery does
    not change it, however often it is interrupted. *)

From S2P Require Import Prelude Layout State Spinlock Sched Bytes Sleeplock Ready Disk Bio Lru Bcache BcacheSpec Log LogSpec.

(** ** What a disk represents *)

Definition hdr_n (d : list Z) : Z := s32 (rd32 d 0).
Definition hdr_blocks (d : list Z) : list Z :=
  map (λ i, s32 (rd32 d (4 + 4 * i))) (seq 0 (Z.to_nat (hdr_n d))).

Lemma length_hdr_blocks d : length (hdr_blocks d) = Z.to_nat (hdr_n d).
Proof. unfold hdr_blocks. by rewrite length_map, length_seq. Qed.

Lemma hdr_blocks_lookup d i :
  (i < Z.to_nat (hdr_n d))%nat → hdr_blocks d !! i = Some (s32 (rd32 d (4 + 4 * i))).
Proof. intros H. unfold hdr_blocks. rewrite list_lookup_fmap, lookup_seq_lt by done. done. Qed.

Lemma hdr_blocks_head d B :
  (4 + 4 * length B ≤ length d)%nat → Z.of_nat (length B) < 2147483648 →
  (∀ b, b ∈ B → 0 ≤ b < 2147483648) → hdr_blocks (head_data d B) = B.
Proof.
  intros Hlen Hn HB. apply list_eq. intros i.
  assert (Z.to_nat (hdr_n (head_data d B)) = length B) as E by (unfold hdr_n; rewrite head_data_n by done; lia).
  destruct (decide (i < length B)%nat) as [Hi|Hi].
  - rewrite hdr_blocks_lookup by lia. destruct (lookup_lt_is_Some_2 B i Hi) as [b Hb].
    rewrite Hb, (head_data_block d B i b); [done|done|done|]. apply HB. by eapply list_elem_of_lookup_2.
  - rewrite !lookup_ge_None_2; [done|lia|]. rewrite length_hdr_blocks. lia.
Qed.

Lemma hdr_blocks_nil d : hdr_n d = 0 → hdr_blocks d = [].
Proof. intros H. unfold hdr_blocks. by rewrite H. Qed.

(** The blocks as recovery will leave them. *)
Definition recovered (start : Z) (v : Z → list Z) : Z → list Z :=
  apply_view (to_home start v (hdr_blocks (v start))) v.

Lemma to_home_ext start v v' B :
  (∀ i, (i < length B)%nat → v (start + Z.of_nat i + 1) = v' (start + Z.of_nat i + 1)) →
  to_home start v B = to_home start v' B.
Proof.
  intros H. unfold to_home. apply list_eq. intros i. rewrite !list_lookup_imap.
  destruct (B !! i) as [b|] eqn:E; simpl; [|done]. rewrite H by (by eapply lookup_lt_Some). done.
Qed.

Lemma recovered_clean start v b : hdr_n (v start) = 0 → recovered start v b = v b.
Proof. intros H. unfold recovered. by rewrite hdr_blocks_nil. Qed.

Section crash.
Context {ENV : Env} {DRV : DiskDriver} {OK : DiskDriverOk DRV}.
Context (start : Z) (Hstart : 0 ≤ start) (Hfit : start + LOGSIZE ≤ disk_size).

(** The header on the disk describes a transaction. *)
Definition header_ok (v : Z → list Z) : Prop :=
  0 ≤ hdr_n (v start) ∧ blocks_ok start (hdr_blocks (v start)).

Lemma header_ok_empty v : hdr_n (v start) = 0 → header_ok v.
Proof using.
  intros H. split; [by rewrite H|]. rewrite hdr_blocks_nil by done. split; [rewrite LOGSIZE_eq; simpl; lia|]. by intros b ?%elem_of_nil.
Qed.

(** ** Recovery *)

Lemma read_head_ok s v :
  cache s v ∅ ∅ → log_at start (k_log s) → 0 ≤ hdr_n (v start) ≤ LOGSIZE →
  ∃ s', read_head s = Ret tt s' ∧ log_step s s' ∧ k_disk s' = k_disk s ∧ cache s' v ∅ ∅ ∧
    log_at start (k_log s') ∧ logged_blocks (hdr_blocks (v start)) (k_log s').
Proof using Hstart Hfit.
  intros Hc Hl Hn. pose proof LOGSIZE_eq as HLS. unfold read_head, get_log. rewrite bind_gets.
  rewrite (la_dev _ _ Hl), (la_start _ _ Hl).
  destruct (bread_ok s v ∅ ∅ start Hc) as (i & s1 & R1 & B1 & K1 & C1);
    [apply lookup_empty|lia|right; rewrite dom_empty_L, (left_id_L ∅ (∪)), size_empty, bhead_eq; lia|]. mrun R1.
  destruct (cache_held _ _ _ _ start i C1) as (x & Hx & Hxd & _); [apply lookup_insert_eq|].
  rewrite (bind_buf_at _ _ _ _ Hx), Hxd. unfold set_log. msteps.
  set (n := s32 (rd32 (v start) 0)). change (hdr_n (v start)) with n in Hn.
  set (s2 := upd_k_log (upd_log_lh (upd_lh_n (λ _, n))) s1).
  change (lh_n (log_lh (k_log s2))) with n.
  assert (log_at start (k_log s2)) as Hl2.
  { pose proof (bio_step_log _ _ B1) as E. destruct Hl as [H1 H2 H3]. split; simpl; rewrite E; done. }
  match goal with |- context [ for_ _ _ ?f ] =>
    destruct (for_inv (λ z s3, ∃ l, s3 = upd_k_log (λ _, l) s2 ∧ log_at start l ∧ lh_n (log_lh l) = n ∧
      take (Z.to_nat z) (lh_block (log_lh l)) = take (Z.to_nat z) (hdr_blocks (v start))) f (Z.to_nat n) 0)
      with (s := s2) as ([] & s3 & R3 & l3 & -> & Hl3 & Hn3 & Ht3) end.
  - intros z Hz s3 (l & -> & Hla & Hln & Ht). unfold lh_set.
    destruct (lookup_lt_is_Some_2 (lh_block (log_lh l)) (Z.to_nat z)) as [y Hy]; [rewrite (la_len _ _ Hla); lia|].
    rewrite (bind_lh_get _ y) by done. unfold set_log, modify.
    eexists _, _. split; [done|]. eexists. split; [reflexivity|]. destruct Hla as [H1 H2 H3].
    split; [split; simpl; [done|done|by rewrite length_insert]|]. split; [done|]. simpl.
    replace (Z.to_nat (z + 1)) with (S (Z.to_nat z)) by lia.
    erewrite take_S_r by (eapply list_insert_lookup_eq; exact Hy).
    rewrite take_insert_ge by lia. rewrite Ht. symmetry. apply take_S_r. apply hdr_blocks_lookup.
    unfold hdr_n. fold n. lia.
  - exists (k_log s2). split; [done|]. split; [done|]. split; [done|]. done.
  - mrun R3. assert (cache (upd_k_log (λ _, l3) s2) v {[start := i]} ∅) as C3 by (by do 2 apply cache_upd_log).
    destruct (brelse_ok _ _ _ ∅ start i C3) as (s4 & R4 & B4 & K4 & C4); [apply lookup_insert_eq| |].
    { right. simpl. rewrite K1. by apply (cache_clean s v ∅ ∅). }
    exists s4. split; [done|]. split.
    { etrans; [by apply bio_log_step, B1|]. etrans; [|by apply bio_log_step, B4].
      etrans; [apply (log_step_upd (upd_log_lh (upd_lh_n (λ _, n))))|apply log_step_upd]. }
    split; [by rewrite K4|]. split; [by unfold singletonM, map_singleton in C4; rewrite delete_insert_id in C4|].
    rewrite (bio_step_log _ _ B4). split; [done|]. split; [simpl; rewrite Hn3, length_hdr_blocks; unfold hdr_n; fold n; lia|].
    rewrite length_hdr_blocks. unfold hdr_n at 1. fold n. simpl.
    rewrite <-(take_ge (hdr_blocks (v start)) (Z.to_nat n)) by (rewrite length_hdr_blocks; unfold hdr_n; fold n; lia).
    by replace (Z.to_nat (0 + Z.of_nat (Z.to_nat n))) with (Z.to_nat n) in Ht3 by lia.
Qed.

Lemma log_at_n start' l n : log_at start' l → log_at start' (upd_log_lh (upd_lh_n (λ _, n)) l).
Proof using. intros [H1 H2 H3]. by split. Qed.

Lemma start_not_home : ¬ home start start.
Proof using. unfold home. pose proof LOGSIZE_eq. lia. Qed.

Lemma hdr_n_empty d : length d = 512%nat → hdr_n (head_data d []) = 0.
Proof using. intros H. unfold hdr_n. rewrite head_data_n; simpl; [done|lia|lia]. Qed.

(** Clearing the header: the last two statements of [commit] and of recovery. *)
Lemma clear_ok s v :
  cache s v ∅ ∅ → log_at start (k_log s) →
  ∃ s', (set_log (upd_log_lh (upd_lh_n (λ _, 0)));; write_head) s = Ret tt s' ∧ log_step s s' ∧
    k_disk s' = disk_write start (head_data (v start) []) (k_disk s) ∧
    cache s' (<[start := head_data (v start) []]> v) ∅ ∅ ∧ k_log s' = upd_log_lh (upd_lh_n (λ _, 0)) (k_log s).
Proof using Hstart Hfit.
  intros Hc Hl. unfold set_log. rewrite bind_modify.
  destruct (write_head_ok start Hstart Hfit (upd_k_log (upd_log_lh (upd_lh_n (λ _, 0))) s) v ∅ []) as (s' & R & B & K & C).
  - by apply cache_upd_log.
  - by apply log_at_n.
  - by split.
  - simpl. lia.
  - set_solver.
  - rewrite size_empty, bhead_eq. lia.
  - exists s'. split; [done|]. split; [etrans; [apply log_step_upd|by apply bio_log_step]|]. split; [done|].
    split; [done|]. by rewrite (bio_step_log _ _ B).
Qed.

(** The writes of recovery. *)
Definition recovery_writes (v : Z → list Z) : writes :=
  to_home start v (hdr_blocks (v start)) ++ [(start, head_data (v start) [])].

Lemma recover_run s v :
  cache s v ∅ ∅ → log_at start (k_log s) → header_ok v →
  ∃ s', recover_from_log s = Ret tt s' ∧ log_step s s' ∧
    k_disk s' = apply_writes (recovery_writes v) (k_disk s) ∧
    cache s' (apply_view (recovery_writes v) v) ∅ ∅ ∧ log_at start (k_log s') ∧ logged_blocks [] (k_log s').
Proof using Hstart Hfit.
  intros Hc Hl [Hn HB]. unfold recover_from_log.
  assert (hdr_n (v start) ≤ LOGSIZE) as Hn' by (destruct HB as [HB _]; rewrite length_hdr_blocks, LOGSIZE_eq in HB; rewrite LOGSIZE_eq; lia).
  destruct (read_head_ok s v Hc Hl (conj Hn Hn')) as (s1 & R1 & B1 & K1 & C1 & L1 & G1). mrun R1.
  destruct (install_trans_ok start Hstart Hfit s1 v ∅ _ C1 L1 G1 HB) as (s2 & R2 & B2 & K2 & C2).
  { intros b Hb%elem_of_empty. done. } { by left. }
  mrun R2. rewrite empty_difference_L in C2.
  destruct (clear_ok s2 _ C2) as (s3 & R3 & B3 & K3 & C3 & L3).
  { by rewrite (bio_step_log _ _ B2). }
  assert (apply_view (to_home start v (hdr_blocks (v start))) v start = v start) as Es.
  { rewrite <-(take_ge (to_home start v (hdr_blocks (v start))) (length (to_home start v (hdr_blocks (v start))))) by lia.
    apply to_home_log; [done|apply start_not_home]. }
  rewrite Es in K3, C3. exists s3. split; [exact R3|].
  split; [etrans; [exact B1|]; etrans; [by apply bio_log_step, B2|done]|].
  unfold recovery_writes. rewrite apply_writes_app, apply_view_snoc. split; [by rewrite K3, K2, K1|].
  split; [done|]. rewrite L3, (bio_step_log _ _ B2). split; [by apply log_at_n|by split].
Qed.

(** A prefix of the writes home changes neither the header nor the log. *)
Lemma recovered_prefix v B u i b :
  blocks_ok start B → hdr_blocks (u start) = B →
  (∀ j, (j < length B)%nat → u (start + Z.of_nat j + 1) = v (start + Z.of_nat j + 1)) →
  recovered start (apply_view (take i (to_home start v B)) u) b = apply_view (to_home start v B) u b.
Proof using.
  intros HB Hh Hu. unfold recovered.
  assert (∀ b, ¬ home start b → apply_view (take i (to_home start v B)) u b = u b) as Hlog.
  { intros b' Hb'. by apply to_home_log. }
  rewrite (Hlog start start_not_home), Hh.
  rewrite (to_home_ext start _ v B).
  - destruct (decide (b ∈ (to_home start v B).*1)) as [Hin|Hout]; [by apply apply_view_in|].
    rewrite !(apply_view_ne (to_home start v B)) by done. apply apply_view_ne.
    rewrite fmap_take. by intros ?%elem_of_take_1.
  - intros j Hj. rewrite Hlog; [by apply Hu|]. apply log_not_home. destruct HB. lia.
Qed.

(** Interrupting recovery anywhere leaves what the disk represents unchanged. *)
Lemma recovery_prefix v i :
  header_ok v → length (v start) = 512%nat →
  header_ok (apply_view (take i (recovery_writes v)) v) ∧
  ∀ b, home start b → recovered start (apply_view (take i (recovery_writes v)) v) b = recovered start v b.
Proof using.
  intros [Hn HB] Hlen. unfold recovery_writes. set (L := to_home start v (hdr_blocks (v start))).
  destruct (decide (i ≤ length L)%nat) as [Hi|Hi].
  - rewrite take_app_le by done.
    assert (apply_view (take i L) v start = v start) as Es by (apply to_home_log; [done|apply start_not_home]).
    split; [unfold header_ok; by rewrite Es|]. intros b Hb. by apply recovered_prefix.
  - rewrite take_ge by (rewrite length_app; simpl; lia). rewrite apply_view_snoc.
    assert (hdr_n (<[start := head_data (v start) []]> (apply_view L v) start) = 0) as E0.
    { rewrite fn_lookup_insert. by apply hdr_n_empty. }
    split; [by apply header_ok_empty|].
    intros b Hb. rewrite recovered_clean by done. rewrite fn_lookup_insert_ne; [done|].
    intros E. rewrite <-E in Hb. by apply start_not_home in Hb.
Qed.

(** ** Commit *)

Section transaction.
Context (v : Z → list Z) (B : list Z) (HB : blocks_ok start B) (Hnd : NoDup B).
Context (Hlen : ∀ b, length (v b) = 512%nat).

(** The contents after the blocks are in the log and the header is written. *)
Definition committed_view : Z → list Z :=
  <[start := head_data (v start) B]> (apply_view (to_log start v B) v).

Definition commit_writes : writes :=
  to_log start v B ++ [(start, head_data (v start) B)] ++ to_home start committed_view B ++
  [(start, head_data (head_data (v start) B) [])].

Lemma to_log_all u b : home start b → apply_view (to_log start v B) u b = u b.
Proof using HB.
  intros Hb. rewrite <-(take_ge (to_log start v B) (length (to_log start v B))) by lia.
  apply to_log_home; [apply HB|done].
Qed.

Lemma to_log_start u : apply_view (to_log start v B) u start = u start.
Proof using.
  apply apply_view_ne. intros (i & _ & E)%to_log_keys. lia.
Qed.

Lemma to_log_nodup : NoDup (to_log start v B).*1.
Proof using.
  apply NoDup_alt. intros i j b. unfold to_log. rewrite !list_lookup_fmap, !list_lookup_imap.
  destruct (B !! i), (B !! j); intros; simplify_eq/=. lia.
Qed.

(** The log blocks hold the new contents. *)
Lemma committed_log i b : B !! i = Some b → committed_view (start + Z.of_nat i + 1) = v b.
Proof using.
  intros Hb. unfold committed_view. rewrite fn_lookup_insert_ne by lia.
  apply apply_view_nodup; [apply to_log_nodup|]. apply list_elem_of_lookup. exists i.
  unfold to_log. by rewrite list_lookup_imap, Hb.
Qed.

Lemma committed_home b : home start b → committed_view b = v b.
Proof using HB.
  intros Hb. unfold committed_view. rewrite fn_lookup_insert_ne.
  - by apply to_log_all.
  - intros E. rewrite <-E in Hb. by apply start_not_home in Hb.
Qed.

(** Installing the log changes nothing a reader of the cache can see. *)
Lemma installed_home u b :
  home start b → (b ∉ B → u b = v b) → apply_view (to_home start committed_view B) u b = v b.
Proof using Hnd.
  intros Hb Hu. destruct (decide (b ∈ B)) as [Hin|Hout].
  - apply list_elem_of_lookup in Hin as [i Hi]. rewrite <-(committed_log i b Hi).
    apply apply_view_nodup; [by rewrite to_home_keys|]. apply list_elem_of_lookup. exists i.
    unfold to_home. by rewrite list_lookup_imap, Hi.
  - rewrite apply_view_ne by (by rewrite to_home_keys). auto.
Qed.

Lemma B_small b : b ∈ B → 0 ≤ b < 2147483648.
Proof using HB. intros Hb. pose proof disk_size_small. destruct (proj2 HB b Hb) as [? _]. lia. Qed.

Lemma committed_header d : length d = 512%nat → hdr_blocks (head_data d B) = B.
Proof using HB.
  intros Hd. pose proof LOGSIZE_eq. destruct HB as [HB' _]. apply hdr_blocks_head; [lia|lia|].
  intros b. apply B_small.
Qed.

Lemma committed_n d : length d = 512%nat → hdr_n (head_data d B) = Z.of_nat (length B).
Proof using HB.
  intros Hd. pose proof LOGSIZE_eq. destruct HB as [HB' _]. apply head_data_n; lia.
Qed.

Lemma commit_run s :
  cache s v ∅ (list_to_set B) → log_at start (k_log s) → logged_blocks B (k_log s) →
  (0 < length B < bhead)%nat →
  ∃ s', commit s = Ret tt s' ∧ log_step s s' ∧ k_disk s' = apply_writes commit_writes (k_disk s) ∧
    cache s' (apply_view commit_writes v) ∅ ∅ ∧ k_log s' = upd_log_lh (upd_lh_n (λ _, 0)) (k_log s).
Proof using Hstart Hfit HB Hnd.
  intros Hc Hl Hb Hn. unfold commit, get_log. rewrite bind_gets, (proj1 Hb).
  replace (0 <? Z.of_nat (length B)) with true by (symmetry; apply Z.ltb_lt; lia). simpl whenb.
  destruct (write_log_ok start Hstart Hfit s v B Hc Hl Hb HB Hnd (proj2 Hn)) as (s1 & R1 & B1 & K1 & C1). mrun R1.
  assert (start ∉ (list_to_set B : gset Z)) as HsB.
  { intros H%elem_of_list_to_set. by apply (proj2 HB) in H as [_ ?%start_not_home]. }
  destruct (write_head_ok start Hstart Hfit s1 _ _ B C1) as (s2 & R2 & B2 & K2 & C2);
    [by rewrite (bio_step_log _ _ B1)|by rewrite (bio_step_log _ _ B1)|destruct HB; lia|done|rewrite size_blocks by done; lia|].
  mrun R2. rewrite to_log_start in C2, K2. fold committed_view in C2.
  assert (k_log s2 = k_log s) as E2 by (by rewrite (bio_step_log _ _ B2), (bio_step_log _ _ B1)).
  destruct (install_trans_ok start Hstart Hfit s2 _ _ B C2) as (s3 & R3 & B3 & K3 & C3).
  { by rewrite E2. } { by rewrite E2. } { done. }
  { intros b Hin%elem_of_list_to_set. by apply HB. } { right. split; [done|]. split; [done|lia]. }
  mrun R3. rewrite difference_diag_L in C3.
  destruct (clear_ok s3 _ C3) as (s4 & R4 & B4 & K4 & C4 & L4); [by rewrite (bio_step_log _ _ B3), E2|].
  exists s4. split; [exact R4|].
  split; [etrans; [by apply bio_log_step, B1|]; etrans; [by apply bio_log_step, B2|]; etrans; [by apply bio_log_step, B3|done]|].
  assert (apply_view (to_home start committed_view B) committed_view start = head_data (v start) B) as Es.
  { rewrite <-(take_ge (to_home start committed_view B) (length (to_home start committed_view B))) by lia.
    rewrite to_home_log by (done || apply start_not_home). unfold committed_view. by rewrite fn_lookup_insert. }
  rewrite Es in K4, C4. unfold commit_writes. rewrite !apply_writes_app, !apply_view_app.
  split; [by rewrite K4, K3, K2, K1|]. split; [done|]. by rewrite L4, (bio_step_log _ _ B3), E2.
Qed.

(** After the commit a block outside the log holds the new contents. *)
Lemma commit_home b : home start b → apply_view commit_writes v b = v b.
Proof using HB Hnd.
  intros Hb. assert (start ≠ b) as Hne by (intros E; rewrite <-E in Hb; by apply start_not_home in Hb).
  unfold commit_writes. rewrite !apply_view_app. simpl.
  rewrite fn_lookup_insert_ne by done. apply installed_home; [done|]. intros _.
  rewrite fn_lookup_insert_ne by done. by apply to_log_all.
Qed.

Lemma commit_start : apply_view commit_writes v start = head_data (head_data (v start) B) [].
Proof using. unfold commit_writes. rewrite !app_assoc, apply_view_snoc. by rewrite fn_lookup_insert. Qed.

(** Once the header is written the disk represents the new contents. *)
Lemma after_header u j :
  u start = head_data (v start) B → (∀ i b, B !! i = Some b → u (start + Z.of_nat i + 1) = v b) →
  (∀ b, home start b → b ∉ B → u b = v b) →
  let u' := apply_view (take j (to_home start committed_view B ++ [(start, head_data (head_data (v start) B) [])])) u in
  (header_ok u' ∧ ∀ b, b ∈ hdr_blocks (u' start) → b ∈ B) ∧ ∀ b, home start b → recovered start u' b = v b.
Proof using HB Hnd Hlen.
  intros Hs Hlog Hh u'. subst u'.
  destruct (decide (j ≤ length (to_home start committed_view B))%nat) as [Hj|Hj].
  - rewrite take_app_le by done.
    assert (apply_view (take j (to_home start committed_view B)) u start = head_data (v start) B) as Es.
    { rewrite <-Hs. apply to_home_log; [done|apply start_not_home]. }
    split; [rewrite Es, committed_header by done; split; [|done];
      split; rewrite Es; [rewrite committed_n by done; lia|by rewrite committed_header]|].
    intros b Hb. rewrite recovered_prefix; [by apply installed_home; auto|done|by rewrite Hs, committed_header|].
    intros i Hi. destruct (lookup_lt_is_Some_2 B i Hi) as [b' Hb']. by rewrite (Hlog i b'), (committed_log i b').
  - rewrite take_ge by (rewrite length_app; simpl; lia). rewrite apply_view_snoc.
    assert (hdr_n (<[start := head_data (head_data (v start) B) []]> (apply_view (to_home start committed_view B) u) start) = 0) as E0.
    { rewrite fn_lookup_insert. apply hdr_n_empty. destruct HB as [HB' _]. pose proof LOGSIZE_eq.
      rewrite length_head_data, Hlen; [done|]. rewrite Hlen. lia. }
    split.
    + split; [by apply header_ok_empty|]. rewrite hdr_blocks_nil by done. by intros b ?%elem_of_nil.
    + intros b Hb. rewrite recovered_clean by done. rewrite fn_lookup_insert_ne; [by apply installed_home; auto|].
      intros E. rewrite <-E in Hb. by apply start_not_home in Hb.
Qed.

(** Every prefix of the writes of a commit represents the old or the new contents. *)
Lemma commit_prefix u i :
  (∀ b, b ∉ B → u b = v b) → hdr_n (v start) = 0 →
  let u' := apply_view (take i commit_writes) u in
  (header_ok u' ∧ ∀ b, b ∈ hdr_blocks (u' start) → b ∈ B) ∧
  ((∀ b, home start b → recovered start u' b = u b) ∨ (∀ b, home start b → recovered start u' b = v b)).
Proof using HB Hnd Hlen.
  intros Hu H0 u'. subst u'. unfold commit_writes.
  assert (start ∉ B) as HsB by (intros H; by apply (proj2 HB) in H as [_ ?%start_not_home]).
  assert (u start = v start) as Hus by by apply Hu.
  destruct (decide (i ≤ length (to_log start v B))%nat) as [Hi|Hi].
  - rewrite take_app_le by done.
    assert (apply_view (take i (to_log start v B)) u start = v start) as Es.
    { rewrite <-Hus. apply apply_view_ne. rewrite fmap_take. intros (j & _ & E)%elem_of_take_1%to_log_keys. lia. }
    split.
    + split; [apply header_ok_empty; by rewrite Es|]. rewrite Es, hdr_blocks_nil by done. by intros b ?%elem_of_nil.
    + left. intros b Hb. rewrite recovered_clean by (by rewrite Es). apply to_log_home; [apply HB|done].
  - rewrite take_app_ge by lia. rewrite apply_view_app.
    destruct (i - length (to_log start v B))%nat as [|k] eqn:Ek; [lia|]. simpl app. rewrite firstn_cons.
    set (u1 := <[start := head_data (v start) B]> (apply_view (to_log start v B) u)).
    assert (∀ l, apply_view ((start, head_data (v start) B) :: l) (apply_view (to_log start v B) u) = apply_view l u1) as E1 by done.
    rewrite E1. destruct (after_header u1 k) as [Hok Hnew].
    + unfold u1. by rewrite fn_lookup_insert.
    + intros j b Hb. unfold u1. rewrite fn_lookup_insert_ne by lia.
      apply apply_view_nodup; [apply to_log_nodup|]. apply list_elem_of_lookup. exists j.
      unfold to_log. by rewrite list_lookup_imap, Hb.
    + intros b Hb HbB. unfold u1. rewrite fn_lookup_insert_ne; [rewrite to_log_all by done; auto|].
      intros E. rewrite <-E in Hb. by apply start_not_home in Hb.
    + split; [exact Hok|]. right. exact Hnew.
Qed.
End transaction.
End crash.
