(* ===== verification/Transaction.v ===== *)
(** Transaction: a system call's updates are atomic.

    The protocol of [log.c]'s header comment, as file-system code uses it:
    [begin_op], then for every block [bread], change the data, [log_write],
    [brelse], and finally [end_op].  The theorems show that the cache is
    updated block by block, and that the disk is updated in one step, also
    across crashes during the commit and during recovery. *)

From S2P Require Import Prelude Layout State Spinlock Sched Bytes Sleeplock Ready Disk Bio Lru Bcache BcacheSpec Log LogSpec Crash.

Section ops.
Context {ENV : Env} {DRV : DiskDriver} {OK : DiskDriverOk DRV}.

(** ** [begin_op] *)

Lemma begin_op_run s :
  ready s → log_committing (k_log s) = false → begin_op_full (k_log s) = false →
  begin_op s = Ret tt (upd_k_log (upd_log_outstanding (λ o, o + 1)) s).
Proof.
  intros Hs Hc Hf. unfold begin_op. assert (k_locks s !! L_log = None) as Hl by by rewrite (rd_locks _ Hs).
  mrun (acquire_ok L_log s Hl).
  assert (∀ n, begin_op_loop n (locked L_log s) =
    release L_log (upd_k_log (upd_log_outstanding (λ o, o + 1)) (locked L_log s))) as E.
  { intros [|n]; simpl; unfold get_log; rewrite bind_gets; simpl; rewrite Hc, Hf; done. }
  rewrite E, (release_run L_log s); first [done|apply Hs].
Qed.

(** ** [log_write] *)

(** The blocks of the transaction after [b] is written: absorption. *)
Definition add_block (b : Z) (B : list Z) : list Z := if decide (b ∈ B) then B else B ++ [b].

Lemma absorb_in blocks n b B :
  take n blocks = B → (n ≤ length blocks)%nat → b ∈ B →
  B !! absorb blocks n b = Some b ∧ (absorb blocks n b < n)%nat.
Proof.
  revert blocks B. induction n as [|n IH]; intros blocks B <- Hn Hb; simpl in *; [by apply elem_of_nil in Hb|].
  destruct blocks as [|x blocks]; [simpl in *; lia|]. simpl in *.
  destruct (Z.eqb_spec x b) as [->|Hne]; [split; [done|lia]|].
  apply elem_of_cons in Hb as [->|Hb]; [done|].
  destruct (IH blocks _ eq_refl ltac:(lia) Hb). split; [done|lia].
Qed.

Lemma absorb_out blocks n b :
  (n ≤ length blocks)%nat → b ∉ take n blocks → absorb blocks n b = n.
Proof.
  revert blocks. induction n as [|n IH]; intros blocks Hn Hb; [by destruct blocks|].
  destruct blocks as [|x blocks]; [simpl in *; lia|]. simpl in *. apply not_elem_of_cons in Hb as [Hne Hb].
  destruct (Z.eqb_spec x b) as [->|_]; [done|]. rewrite IH by (done || lia). done.
Qed.

(** The in-memory log during a transaction. *)
Record in_op (start size : Z) (B : list Z) (l : log) : Prop := MkInOp {
  io_at : log_at start l;
  io_blocks : logged_blocks B l;
  io_size : log_size l = size;
  io_out : log_outstanding l = 1;
  io_free : log_committing l = false;
}.

Lemma log_write_ok s v H T b i start size B :
  cache s v H T → H !! b = Some i → in_op start size B (k_log s) →
  (length B < Z.to_nat LOGSIZE)%nat → Z.of_nat (length B) < size - 1 →
  ∃ s', log_write i s = Ret tt s' ∧ log_step s s' ∧ k_disk s' = k_disk s ∧
    cache s' v H (T ∪ {[b]}) ∧ in_op start size (add_block b B) (k_log s').
Proof.
  intros Hc Hb [Hat [Hn Ht] Hsz Ho Hf] HB HB'. pose proof Hc as [Hs _]. pose proof LOGSIZE_eq as HLS.
  destruct (cache_held _ _ _ _ b i Hc Hb) as (x & Hx & _ & Hxb & _).
  unfold log_write, get_log. rewrite bind_gets, Hn, Hsz, Ho.
  destruct (Z.leb_spec LOGSIZE (Z.of_nat (length B))); [lia|].
  destruct (Z.leb_spec (size - 1) (Z.of_nat (length B))); [lia|]. simpl.
  assert (k_locks s !! L_log = None) as Hl by by rewrite (rd_locks _ Hs).
  mrun (acquire_ok L_log s Hl). rewrite (bind_buf_at _ x) by done. rewrite bind_gets.
  change (k_log (locked L_log s)) with (k_log s). rewrite Hn, Nat2Z.id, Hxb.
  set (j := absorb (lh_block (log_lh (k_log s))) (length B) b).
  assert (length B ≤ length (lh_block (log_lh (k_log s))))%nat as Hroom by (rewrite (la_len _ _ Hat); lia).
  assert (j ≤ length B)%nat as Hj.
  { destruct (decide (b ∈ B)) as [Hin|Hout]; [destruct (absorb_in _ _ _ _ Ht Hroom Hin); unfold j; lia|].
    unfold j. rewrite absorb_out; [lia|done|by rewrite Ht]. }
  destruct (lookup_lt_is_Some_2 (lh_block (log_lh (k_log s))) j) as [y Hy]; [rewrite (la_len _ _ Hat); lia|].
  unfold lh_set. rewrite bind_bind, (bind_lh_get _ y) by done. unfold set_log. msteps.
  set (l' := if decide (b ∈ B) then upd_log_lh (upd_lh_block <[j := b]>) (k_log s)
             else upd_log_lh (upd_lh_n (λ n, n + 1)) (upd_log_lh (upd_lh_block <[j := b]>) (k_log s))).
  assert (in_op start size (add_block b B) l') as Hin'.
  { unfold l', add_block. destruct Hat as [Hd Hst Hlb]. case_decide as Hin.
    - destruct (absorb_in _ _ _ _ Ht Hroom Hin) as [Hlk Hlt]. fold j in Hlk, Hlt.
      split; try done; [split; simpl; [done|done|by rewrite length_insert]|]. split; [done|]. simpl.
      rewrite take_insert_lt, Ht by done. by apply list_insert_id.
    - assert (j = length B) as Ej by (unfold j; apply absorb_out; [done|by rewrite Ht]).
      split; try done; [split; simpl; [done|done|by rewrite length_insert]|]. split; simpl.
      + rewrite Hn, length_app. simpl. lia.
      + rewrite length_app. simpl. replace (length B + 1)%nat with (S (length B)) by lia.
        erewrite take_S_r by (rewrite <-Ej; by eapply list_insert_lookup_eq).
        by rewrite take_insert_ge, Ht by lia. }
  destruct (mark_dirty_ok (upd_k_log (λ _, l') s) v H T b i) as (s' & R & Bs & Ks & Cs); [by apply cache_upd_log|done|].
  exists s'. split; [|split; [by etrans; [apply log_step_upd|apply bio_log_step]|]; split; [done|];
    split; [done|]; by rewrite (bio_step_log _ _ Bs)].
  unfold set_buf, modify in R. injection R as <-. unfold set_buf. msteps.
  assert ((Z.of_nat j =? Z.of_nat (length B)) = negb (bool_decide (b ∈ B))) as Ej.
  { case_bool_decide as Hin; simpl.
    - destruct (absorb_in _ _ _ _ Ht Hroom Hin) as [_ Hlt]. fold j in Hlt. apply Z.eqb_neq. lia.
    - apply Z.eqb_eq. f_equal. unfold j. apply absorb_out; [done|by rewrite Ht]. }
  rewrite Ej. unfold l'. case_bool_decide as Hin; simpl; [rewrite decide_True by done|rewrite decide_False by done].
  all: msteps; rewrite (release_run L_log s); first [done|apply Hs].
Qed.

(** ** [end_op] *)

(** The log between transactions. *)
Record idle (start size : Z) (l : log) : Prop := MkIdle {
  id_at : log_at start l;
  id_blocks : logged_blocks [] l;
  id_size : log_size l = size;
  id_out : log_outstanding l = 0;
  id_free : log_committing l = false;
}.

Lemma idle_begin start size l : idle start size l → in_op start size [] (upd_log_outstanding (λ o, o + 1) l).
Proof. intros [[H1 H2 H3] [H4 H5] H6 H7 H8]. split; [by split|by split|done|simpl; lia|done]. Qed.

Lemma idle_not_full start size l : idle start size l → begin_op_full l = false.
Proof. intros [_ [H _] _ Ho _]. unfold begin_op_full. by rewrite H, Ho. Qed.

Lemma log_n_zero l : lh_n (log_lh l) = 0 → l = upd_log_lh (upd_lh_n (λ _, 0)) l.
Proof. intros H. unfold upd_log_lh, upd_lh_n. by rewrite <-H. Qed.

(** The critical section that ends a commit. *)
Lemma commit_done s :
  ready s →
  (acquire L_log;; set_log (upd_log_committing (λ _, false));; wakeup Chan_log;; release L_log) s =
  Ret tt (upd_k_log (upd_log_committing (λ _, false)) s).
Proof.
  intros [Hwf Hs Hl _ Hcalm]. assert (k_locks s !! L_log = None) as Hfree by by rewrite Hl.
  mrun (acquire_ok L_log s Hfree). unfold set_log. msteps.
  erewrite bind_Ret; [|apply wakeup_calm; [by apply push_wf|by apply cpu_sync_push|
    simpl; by rewrite Hl, lookup_insert_ne|done|done]].
  by rewrite (release_run L_log s).
Qed.

(** The writes of a transaction on the blocks [B]. *)
Definition txn_writes (start : Z) (v : Z → list Z) (B : list Z) : writes :=
  match B with [] => [] | _ => commit_writes start v B end.

Lemma end_op_ok s v start size B :
  0 ≤ start → start + LOGSIZE ≤ disk_size →
  cache s v ∅ (list_to_set B) → in_op start size B (k_log s) → blocks_ok start B → NoDup B → (length B < bhead)%nat →
  ∃ s', end_op s = Ret tt s' ∧ log_step s s' ∧ k_disk s' = apply_writes (txn_writes start v B) (k_disk s) ∧
    cache s' (apply_view (txn_writes start v B) v) ∅ ∅ ∧ idle start size (k_log s').
Proof.
  intros Hst Hfit Hc [Hat Hb Hsz Ho Hf] HB Hnd Hlen. pose proof Hc as [Hs _].
  unfold end_op. assert (k_locks s !! L_log = None) as Hl by by rewrite (rd_locks _ Hs).
  mrun (acquire_ok L_log s Hl). unfold set_log, get_log. msteps. simpl. rewrite Hf, Ho. simpl. rewrite bind_modify.
  set (s1 := upd_k_log (upd_log_committing (λ _, true)) (upd_k_log (upd_log_outstanding (λ o, o - 1)) s)).
  erewrite bind_Ret; [|apply (release_run L_log s); first [done|apply Hs]].
  change (unlocked s _) with s1.
  assert (∃ s2, commit s1 = Ret tt s2 ∧ log_step s1 s2 ∧ k_disk s2 = apply_writes (txn_writes start v B) (k_disk s) ∧
    cache s2 (apply_view (txn_writes start v B) v) ∅ ∅ ∧ k_log s2 = upd_log_lh (upd_lh_n (λ _, 0)) (k_log s1)) as
    (s2 & R2 & B2 & K2 & C2 & L2).
  { assert (cache s1 v ∅ (list_to_set B)) as Hc1 by (by do 2 apply cache_upd_log). destruct B as [|b B].
    - exists s1. destruct Hb as [Hn _]. unfold commit, get_log. rewrite bind_gets. simpl. rewrite Hn. simpl.
      split; [done|]. split; [done|]. split; [done|]. split; [done|].
      by apply log_n_zero.
    - destruct Hat as [H1 H2 H3]. destruct Hb as [H4 H5].
      apply (commit_run start Hst Hfit v (b :: B) HB Hnd s1 Hc1); [by split|by split|simpl in *; lia]. }
  mrun R2. erewrite commit_done by apply C2.
  eexists. split; [done|]. split; [etrans; [|apply log_step_upd]; etrans; [|exact B2]; etrans; apply log_step_upd|].
  split; [done|]. split; [by apply cache_upd_log|]. simpl. rewrite L2. destruct Hat as [H1 H2 H3].
  split; [by split|by split|done|simpl; lia|done].
Qed.
End ops.

(** ** Booting and crashing *)

Section boot.
Context {ENV : Env} {DRV : DiskDriver} {OK : DiskDriverOk DRV}.

(** The machine has started with disk [d], and [binit] has been run. *)
Definition booted (d : disk) (r : kstate) : Prop :=
  cache r (disk_block d) ∅ ∅ ∧ k_disk r = d ∧ length (lh_block (log_lh (k_log r))) = Z.to_nat LOGSIZE.

(** [initlog] is interrupted after some of its writes. *)
Definition recovery_crash (d d' : disk) : Prop :=
  ∃ r r' W i, booted d r ∧ initlog 1 r = Ret tt r' ∧ k_disk r' = apply_writes W d ∧ d' = apply_writes (take i W) d.

Lemma readsb_ok s v :
  cache s v ∅ ∅ → 1 < disk_size →
  ∃ s', readsb 1 s = Ret (superblock_of (v 1)) s' ∧ bio_step s s' ∧ k_disk s' = k_disk s ∧ cache s' v ∅ ∅.
Proof.
  intros Hc Hd. unfold readsb.
  destruct (bread_ok s v ∅ ∅ 1 Hc) as (i & s1 & R1 & B1 & K1 & C1);
    [apply lookup_empty|lia|right; rewrite dom_empty_L, (left_id_L ∅ (∪)), size_empty, bhead_eq; lia|]. mrun R1.
  destruct (cache_held _ _ _ _ 1 i C1) as (x & Hx & Hxd & _); [apply lookup_insert_eq|].
  rewrite (bind_buf_at _ _ _ _ Hx), Hxd.
  destruct (brelse_ok s1 _ _ ∅ 1 i C1) as (s2 & R2 & B2 & K2 & C2); [apply lookup_insert_eq| |].
  { right. rewrite K1. by apply (cache_clean s v ∅ ∅). }
  mrun R2. exists s2. split; [done|]. split; [by etrans|]. split; [by rewrite K2|].
  by rewrite delete_insert_id in C2.
Qed.

Context (start : Z) (Hstart : 0 ≤ start) (Hfit : start + LOGSIZE ≤ disk_size).

(** The superblock of [v] places the log at [start]. *)
Definition super_ok (v : Z → list Z) : Prop := s32 (sb_logstart (superblock_of (v 1))) = start.

Lemma initlog_run d r :
  booted d r → super_ok (disk_block d) → header_ok start (disk_block d) → 1 < disk_size →
  ∃ r', initlog 1 r = Ret tt r' ∧ k_disk r' = apply_writes (recovery_writes start (disk_block d)) d.
Proof using Hstart Hfit.
  intros (Hc & Hd & Hlen) Hsb Hh H1. unfold initlog. change (BSIZE <=? 4 + 4 * LOGSIZE) with false. cbn iota.
  mrun (initlock_empty L_log r (rd_locks _ (proj1 Hc))).
  destruct (readsb_ok r _ Hc H1) as (r1 & R1 & B1 & K1 & C1). mrun R1. unfold set_log. msteps.
  set (r2 := upd_k_log (upd_log_dev (λ _, 1)) _).
  assert (cache r2 (disk_block d) ∅ ∅) as C2 by (by do 3 apply cache_upd_log).
  destruct (recover_run start Hstart Hfit r2 _ C2) as (r3 & R3 & _ & K3 & _); [|done|].
  { split; [done|done|]. simpl. by rewrite (bio_step_log _ _ B1). }
  exists r3. split; [done|]. rewrite K3. simpl. by rewrite K1, Hd.
Qed.

Lemma recovered_ext v v' b : (∀ b, v b = v' b) → recovered start v b = recovered start v' b.
Proof using.
  intros Hv. unfold recovered. rewrite (Hv start), (to_home_ext start v v') by auto. by apply apply_view_ext.
Qed.

(** [d] represents the contents [f] outside the log and can be booted. *)
Record represents (f : Z → list Z) (d : disk) : Prop := MkRepresents {
  rp_header : header_ok start (disk_block d);
  rp_super : super_ok (disk_block d);
  rp_keep : 1 ∉ hdr_blocks (disk_block d start);
  rp_home b : home start b → recovered start (disk_block d) b = f b;
}.

Lemma hdr_recovery_prefix v i :
  length (v start) = 512%nat →
  (∀ b, b ∈ hdr_blocks (v start) → home start b) →
  hdr_blocks (apply_view (take i (recovery_writes start v)) v start) = hdr_blocks (v start) ∨
  hdr_blocks (apply_view (take i (recovery_writes start v)) v start) = [].
Proof using.
  intros Hlen Hh. unfold recovery_writes. set (L := to_home start v (hdr_blocks (v start))).
  assert (∀ j, apply_view (take j L) v start = v start) as HL.
  { intros j. apply apply_view_ne. rewrite fmap_take. unfold L. rewrite to_home_keys.
    intros ?%elem_of_take_1%Hh. by eapply start_not_home. }
  destruct (decide (i ≤ length L)%nat) as [Hi|Hi].
  - left. rewrite take_app_le by done. by rewrite HL.
  - right. rewrite take_ge by (rewrite length_app; simpl; lia). rewrite apply_view_snoc, fn_lookup_insert.
    by apply hdr_blocks_nil, hdr_n_empty.
Qed.

Lemma recovery_writes_keys v b : b ∈ (recovery_writes start v).*1 → b = start ∨ b ∈ hdr_blocks (v start).
Proof using.
  unfold recovery_writes. rewrite fmap_app, to_home_keys. intros [?|?%list_elem_of_singleton]%elem_of_app; auto.
Qed.

(** Crashes during recovery do not change what the disk represents. *)
Lemma represents_crash f d d' :
  1 < disk_size → home start 1 → represents f d → recovery_crash d d' → represents f d'.
Proof using Hstart Hfit.
  intros H1 Hh1 [Hh Hsb Hk Hf] (r & r' & W & i & Hr & Hrun & HW & ->).
  destruct (initlog_run d r Hr Hsb Hh H1) as (r2 & Hrun2 & HW2). rewrite Hrun in Hrun2. injection Hrun2 as <-.
  assert (W = recovery_writes start (disk_block d)) as ->.
  { rewrite HW in HW2. apply (f_equal d_writes) in HW2. rewrite !d_writes_apply in HW2. by apply app_inv_head in HW2. }
  assert (length (disk_block d start) = 512%nat) as Hlen by (by eapply cache_len, Hr).
  set (v := disk_block d) in *. set (v' := apply_view (take i (recovery_writes start v)) v).
  assert (∀ b, disk_block (apply_writes (take i (recovery_writes start v)) d) b = v' b) as E by (intros; apply disk_block_writes).
  destruct (recovery_prefix start v i Hh Hlen) as [Hok Hrec]. fold v' in Hok, Hrec.
  assert (v' 1 = v 1) as E1.
  { apply apply_view_ne. rewrite fmap_take. intros [Es|?]%elem_of_take_1%recovery_writes_keys; [|done].
    rewrite Es in Hh1. by apply start_not_home in Hh1. }
  split.
  - unfold header_ok. by rewrite E.
  - unfold super_ok. rewrite E, E1. exact Hsb.
  - rewrite E. unfold v'. destruct (hdr_recovery_prefix v i Hlen) as [->| ->]; [|done|by intros ?%elem_of_nil].
    intros b Hb. by apply (proj2 Hh).
  - intros b Hb. rewrite (recovered_ext _ v') by done. rewrite Hrec by done. by apply Hf.
Qed.

Lemma represents_crashes f d d' :
  1 < disk_size → home start 1 → rtc recovery_crash d d' → represents f d → represents f d'.
Proof using Hstart Hfit. intros H1 Hh. induction 1; eauto using represents_crash. Qed.

(** Recovery makes the blocks what the disk represents. *)
Lemma represents_boot f d r :
  1 < disk_size → represents f d → booted d r →
  ∃ r', initlog 1 r = Ret tt r' ∧ hdr_n (disk_block (k_disk r') start) = 0 ∧
    ∀ b, home start b → disk_block (k_disk r') b = f b.
Proof using Hstart Hfit.
  intros H1 [Hh Hsb Hk Hf] Hr. destruct (initlog_run d r Hr Hsb Hh H1) as (r' & Hrun & Hd).
  assert (length (disk_block d start) = 512%nat) as Hlen by (by eapply cache_len, Hr).
  exists r'. split; [done|]. rewrite Hd. unfold recovery_writes. split.
  - rewrite disk_block_writes, apply_view_snoc, fn_lookup_insert. by apply hdr_n_empty.
  - intros b Hb. rewrite disk_block_writes, apply_view_snoc, fn_lookup_insert_ne; [by apply Hf|].
    intros E. rewrite <-E in Hb. by apply start_not_home in Hb.
Qed.
End boot.

(** ** A whole transaction *)

Section transaction.
Context {ENV : Env} {DRV : DiskDriver} {OK : DiskDriverOk DRV}.

(** How file-system code updates blocks: the "typical use" of [log_write]. *)
Fixpoint update_blocks (us : writes) : K unit :=
  match us with
  | [] => mret tt
  | (b, d) :: us =>
      bp ← bread 1 b;
      set_data bp (λ _, d);;
      log_write bp;;
      brelse bp;;
      update_blocks us
  end.

Definition transaction (us : writes) : K unit := begin_op;; update_blocks us;; end_op.

Context (start size : Z).

(** The updates a transaction may make: data blocks outside the log. *)
Definition updates_ok (us : writes) : Prop :=
  ∀ b d, (b, d) ∈ us → 0 ≤ b < disk_size ∧ home start b ∧ b ≠ 1 ∧ length d = 512%nat.

Lemma add_block_spec b B b' : b' ∈ add_block b B ↔ b' ∈ B ∨ b' = b.
Proof using. unfold add_block. case_decide; set_solver. Qed.

Lemma add_block_set b B : (list_to_set B : gset Z) ∪ {[b]} = list_to_set (add_block b B).
Proof using.
  apply set_eq. intros x. rewrite elem_of_union, elem_of_singleton, !elem_of_list_to_set. by rewrite add_block_spec.
Qed.

Lemma add_block_nodup b B : NoDup B → NoDup (add_block b B).
Proof using.
  intros H. unfold add_block. case_decide; [done|]. apply NoDup_app. split; [done|]. split; [|apply NoDup_singleton].
  intros x Hx ->%list_elem_of_singleton. done.
Qed.

Lemma add_block_length b B : (length (add_block b B) ≤ S (length B))%nat.
Proof using. unfold add_block. case_decide; [lia|]. rewrite length_app. simpl. lia. Qed.

(** The state in the middle of a transaction that has written the blocks [B]. *)
Record mid_txn (s : kstate) (v : Z → list Z) (B : list Z) : Prop := MkMidTxn {
  mt_cache : cache s v ∅ (list_to_set B);
  mt_op : in_op start size B (k_log s);
  mt_nodup : NoDup B;
  mt_blocks b : b ∈ B → 0 ≤ b < disk_size ∧ home start b ∧ b ≠ 1;
}.

Lemma update_blocks_ok us s v B :
  mid_txn s v B → updates_ok us → (length B + length us < bhead)%nat → Z.of_nat (length B + length us) < size →
  ∃ s' B', update_blocks us s = Ret tt s' ∧ log_step s s' ∧ k_disk s' = k_disk s ∧
    mid_txn s' (apply_view us v) B' ∧ (length B' ≤ length B + length us)%nat.
Proof using.
  pose proof LOGSIZE_eq as HLS. pose proof bhead_eq as Hbh.
  revert s v B. induction us as [|[b d] us IH]; intros s v B [Hc Ho Hnd HB] Hus Hlen Hsz; simpl in *.
  { exists s, B. split; [done|]. split; [done|]. split; [done|]. split; [done|lia]. }
  destruct (Hus b d) as (Hb & Hhb & Hb1 & Hd); [by left|].
  destruct (bread_ok s v ∅ _ b Hc) as (i & s1 & R1 & B1 & K1 & C1);
    [apply lookup_empty|done|right; rewrite dom_empty_L, (left_id_L ∅ (∪)), size_blocks by done; lia|]. mrun R1.
  destruct (set_data_ok s1 v _ _ b i (λ _, d) C1) as (s2 & R2 & B2 & K2 & C2); [apply lookup_insert_eq|done|].
  unfold set_data. mrun R2.
  assert (k_log s2 = k_log s) as E2 by (by rewrite (bio_step_log _ _ B2), (bio_step_log _ _ B1)).
  destruct (log_write_ok s2 _ _ _ b i start size B C2) as (s3 & R3 & B3 & K3 & C3 & O3);
    [apply lookup_insert_eq|by rewrite E2|lia|lia|]. mrun R3.
  destruct (brelse_ok s3 _ _ _ b i C3) as (s4 & R4 & B4 & K4 & C4); [apply lookup_insert_eq|left; set_solver|]. mrun R4.
  rewrite delete_insert_id, add_block_set in C4 by (apply lookup_empty).
  pose proof (add_block_length b B) as Hal.
  destruct (IH s4 (<[b := d]> v) (add_block b B)) as (s5 & B' & R5 & B5 & K5 & M5 & L5).
  - split; [done|by rewrite (bio_step_log _ _ B4)|by apply add_block_nodup|].
    intros b' [Hb'| ->]%add_block_spec; [by apply HB|done].
  - intros b' d' H'. apply Hus. by right.
  - lia.
  - lia.
  - exists s5, B'. split; [done|]. split; [|split; [by rewrite K5, K4, K3, K2, K1|split; [done|lia]]].
    etrans; [by apply bio_log_step, B1|]. etrans; [by apply bio_log_step, B2|]. etrans; [exact B3|].
    etrans; [by apply bio_log_step, B4|exact B5].
Qed.

(** Between transactions: the blocks read as [v], the log is empty. *)
Record fs_idle (s : kstate) (v : Z → list Z) : Prop := MkFsIdle {
  fi_cache : cache s v ∅ ∅;
  fi_log : idle start size (k_log s);
  fi_clear : hdr_n (v start) = 0;
  fi_super : super_ok start v;
}.

(** The disk holds a log of [LOGSIZE] blocks behind the superblock. *)
Definition layout_ok : Prop := 1 < start ∧ start + LOGSIZE ≤ disk_size ∧ size ≤ LOGSIZE.

Lemma mid_blocks s v B : layout_ok → mid_txn s v B → Z.of_nat (length B) < size → blocks_ok start B.
Proof using.
  intros (_ & _ & Hsz) Hm Hlen. pose proof LOGSIZE_eq. split; [lia|]. intros b Hb.
  destruct (mt_blocks _ _ _ Hm b Hb) as (? & ? & _). done.
Qed.

(** The state a transaction leaves. *)
Lemma txn_idle s v B s' :
  layout_ok → mid_txn s v B → blocks_ok start B → hdr_n (v start) = 0 → super_ok start v →
  cache s' (apply_view (txn_writes start v B) v) ∅ ∅ → idle start size (k_log s') →
  fs_idle s' (apply_view (txn_writes start v B) v) ∧
  ∀ b, home start b → apply_view (txn_writes start v B) v b = v b.
Proof using.
  intros (H1 & H2 & Hsz) Hm HB H0 Hsb Hc Hi. pose proof LOGSIZE_eq as HLS.
  destruct B as [|b0 B0]; [by split|]. set (B := b0 :: B0) in *. change (txn_writes start v B) with (commit_writes start v B) in *.
  assert (∀ b, home start b → apply_view (commit_writes start v B) v b = v b) as Hh.
  { intros b. apply commit_home; [done|apply Hm]. }
  split; [|done]. split; [done|done| |].
  - rewrite commit_start. apply hdr_n_empty. destruct HB as [HB _].
    assert (length (v start) = 512%nat) as E by (by eapply cache_len, Hm). rewrite length_head_data; [done|lia].
  - unfold super_ok. rewrite Hh; [done|]. unfold home. lia.
Qed.

(** The disk represents the old or the new contents at every point of a commit. *)
Lemma txn_represents s v B i :
  layout_ok → mid_txn s v B → blocks_ok start B → hdr_n (v start) = 0 → super_ok start v →
  let d := apply_writes (take i (txn_writes start v B)) (k_disk s) in
  represents start (disk_block (k_disk s)) d ∨ represents start v d.
Proof using.
  intros (H1 & H2 & Hsz) Hm HB H0 Hsb d. subst d. set (u := disk_block (k_disk s)).
  assert (∀ b, b ∉ B → u b = v b) as Hu.
  { intros b Hb. symmetry. eapply cache_clean; [apply Hm|apply lookup_empty|]. by rewrite elem_of_list_to_set. }
  assert (home start 1) as Hh1 by (unfold home; lia).
  assert (1 ∉ B) as H1B by (intros Hin; by destruct (mt_blocks _ _ _ Hm 1 Hin) as (_ & _ & ?)).
  assert (∀ W, 1 ∉ W.*1 → super_ok start (apply_view W u)) as Hsuper.
  { intros W HW. unfold super_ok. rewrite apply_view_ne, Hu by done. done. }
  assert (start ∉ B) as HsB.
  { intros Hin. destruct (mt_blocks _ _ _ Hm _ Hin) as (_ & ?%start_not_home & _). done. }
  destruct B as [|b0 B0].
  { left. simpl. rewrite take_nil. simpl. split; [apply header_ok_empty; fold u; by rewrite Hu|by apply (Hsuper [])| |].
    - fold u. rewrite Hu, hdr_blocks_nil by done. by intros ?%elem_of_nil.
    - intros b Hb. apply recovered_clean. fold u. by rewrite Hu. }
  set (B := b0 :: B0) in *. change (txn_writes start v B) with (commit_writes start v B). clearbody B.
  set (W := take i (commit_writes start v B)).
  assert (∀ b, disk_block (apply_writes W (k_disk s)) b = apply_view W u b) as E by (intros; apply disk_block_writes).
  destruct (commit_prefix start v B HB (mt_nodup _ _ _ Hm) ltac:(intros; by eapply cache_len, Hm) u i Hu H0) as [[Hok Hhdr] Hcase].
  fold W in Hok, Hhdr, Hcase.
  assert (1 ∉ W.*1) as H1W.
  { unfold W. rewrite fmap_take. intros Hin%elem_of_take_1. unfold commit_writes in Hin.
    rewrite !fmap_app, to_home_keys in Hin. simpl in Hin.
    apply elem_of_app in Hin as [(j & _ & Ej)%to_log_keys|Hin]; [lia|].
    apply elem_of_cons in Hin as [?|[?|?%list_elem_of_singleton]%elem_of_app]; [lia|done|lia]. }
  destruct Hcase as [Hc|Hc]; [left|right]; (split;
    [unfold header_ok; by rewrite E|unfold super_ok; rewrite E; by apply Hsuper|rewrite E; by intros ?%Hhdr|
     intros b Hb; rewrite (recovered_ext start _ (apply_view W u)) by done; by apply Hc]).
Qed.

(** What [end_op] makes of a transaction that began in [s] and has reached [s1]. *)
Lemma end_txn s v s1 v1 B :
  layout_ok → fs_idle s v → mid_txn s1 v1 B → k_disk s1 = k_disk s → Z.of_nat (length B) < size →
  (∀ b, ¬ home start b ∨ b = 1 → v1 b = v b) →
  ∃ s' W v', end_op s1 = Ret tt s' ∧ log_step s1 s' ∧ k_disk s' = apply_writes W (k_disk s) ∧ fs_idle s' v' ∧
    (∀ b, home start b → v' b = v1 b) ∧
    ∀ i d r, rtc recovery_crash (apply_writes (take i W) (k_disk s)) d → booted d r →
      ∃ r', initlog 1 r = Ret tt r' ∧ hdr_n (disk_block (k_disk r') start) = 0 ∧
        ((∀ b, home start b → disk_block (k_disk r') b = v b) ∨
         (∀ b, home start b → disk_block (k_disk r') b = v1 b)).
Proof using.
  intros Hlay [Hc Hi H0 Hsb] M1 K1 Hlen Hkeep. pose proof Hlay as (H1 & H2 & Hsz). pose proof LOGSIZE_eq. pose proof bhead_eq.
  assert (blocks_ok start B) as HB by (by eapply mid_blocks).
  destruct (end_op_ok s1 _ start size B ltac:(lia) H2 (mt_cache _ _ _ M1) (mt_op _ _ _ M1) HB (mt_nodup _ _ _ M1) ltac:(lia))
    as (s2 & R2 & B2 & K2 & C2 & I2).
  assert (hdr_n (v1 start) = 0) as H0' by (rewrite Hkeep; [done|left; apply start_not_home]).
  assert (super_ok start v1) as Hsb' by (unfold super_ok; rewrite Hkeep by auto; done).
  destruct (txn_idle s1 _ B s2 Hlay M1 HB H0' Hsb' C2 I2) as [Hidle Hhome].
  eexists s2, (txn_writes start v1 B), _. split; [done|]. split; [done|]. split; [by rewrite K2, K1|].
  split; [exact Hidle|]. split; [done|]. intros i d r Hrtc Hr.
  assert (home start 1) as Hh1 by (unfold home; lia).
  assert (∀ f, represents start f (apply_writes (take i (txn_writes start v1 B)) (k_disk s)) →
    ∃ r', initlog 1 r = Ret tt r' ∧ hdr_n (disk_block (k_disk r') start) = 0 ∧
      ∀ b, home start b → disk_block (k_disk r') b = f b) as Hboot.
  { intros f Hf. apply (represents_boot start ltac:(lia) H2 f d r); [lia| |done].
    eapply represents_crashes; [lia|done|lia|done|exact Hrtc|exact Hf]. }
  destruct (txn_represents s1 _ B i Hlay M1 HB H0' Hsb') as [Hf|Hf]; rewrite K1 in Hf;
    destruct (Hboot _ Hf) as (r' & Hr' & Hn' & Hb'); exists r'; (split; [done|]); (split; [done|]).
  - left. intros b Hb. rewrite Hb' by done. symmetry. by apply (cache_clean s v ∅ ∅); [|apply lookup_empty|apply not_elem_of_empty].
  - right. exact Hb'.
Qed.

(** The state after [begin_op]. *)
Lemma begin_txn s v :
  fs_idle s v → begin_op s = Ret tt (upd_k_log (upd_log_outstanding (λ o, o + 1)) s) ∧
    mid_txn (upd_k_log (upd_log_outstanding (λ o, o + 1)) s) v [].
Proof using.
  intros [Hc Hi H0 Hsb]. split; [apply begin_op_run; [apply Hc|apply Hi|by eapply idle_not_full]|].
  split; [by apply cache_upd_log|by apply idle_begin|apply NoDup_nil_2|by intros b ?%elem_of_nil].
Qed.

(** C1.  Transactions are atomic and durable.  The updates made between
    [begin_op] and [end_op] through [bread], [log_write] and [brelse] are all
    visible in the cache and on the disk afterwards, and if the machine stops
    after any number of the disk writes, and any number of times during the
    recoveries that follow, then once [initlog] has run to its end the blocks
    outside the log are all as before the transaction or all updated. *)
Theorem transaction_atomic us s v :
  layout_ok → fs_idle s v → updates_ok us → Z.of_nat (length us) < size →
  ∃ s' W v', transaction us s = Ret tt s' ∧ k_disk s' = apply_writes W (k_disk s) ∧ fs_idle s' v' ∧
    (∀ b, home start b → v' b = apply_view us v b) ∧
    ∀ i d r, rtc recovery_crash (apply_writes (take i W) (k_disk s)) d → booted d r →
      ∃ r', initlog 1 r = Ret tt r' ∧ hdr_n (disk_block (k_disk r') start) = 0 ∧
        ((∀ b, home start b → disk_block (k_disk r') b = v b) ∨
         (∀ b, home start b → disk_block (k_disk r') b = apply_view us v b)).
Proof using.
  intros Hlay Hs Hus Hlen. pose proof Hlay as (H1 & H2 & Hsz). pose proof LOGSIZE_eq. pose proof bhead_eq.
  destruct (begin_txn s v Hs) as [R0 M0]. unfold transaction. mrun R0.
  destruct (update_blocks_ok us _ v [] M0) as (s1 & B & R1 & B1 & K1 & M1 & L1); [done|simpl; lia|simpl; lia|].
  mrun R1. simpl in K1, L1.
  destruct (end_txn s v s1 _ B Hlay Hs M1 K1) as (s' & W & v' & R & _ & Hrest); [lia| |by exists s', W, v'].
  intros b Hb. apply apply_view_ne. intros ([b' d'] & -> & Hin)%list_elem_of_fmap.
  destruct (Hus b' d' Hin) as (_ & ? & ? & _). simpl in Hb. tauto.
Qed.
End transaction.

(** ** An instance *)

Module TxnExample.
Export FsExample.
Definition ones : list Z := replicate 512 1.
(** A disk whose superblock puts the log at block 2. *)
Definition demo_disk : disk := MkDisk {[ 1 := wr32 zero_block 16 2 ]} [].
Definition demo : kstate :=
  upd_k_log (λ _, MkLog 2 30 0 false 1 (MkLogheader 0 (replicate 30 0))) (started demo_disk).

Lemma demo_len b : length (disk_block demo_disk b) = 512%nat.
Proof.
  unfold disk_block, demo_disk. simpl. destruct (decide (b = 1)) as [->|Hne].
  - by rewrite lookup_singleton_eq.
  - by rewrite lookup_singleton_ne.
Qed.

Lemma demo_super : super_ok 2 (disk_block demo_disk).
Proof. unfold super_ok, disk_block, demo_disk. simpl. rewrite lookup_singleton_eq. by vm_compute. Qed.

Lemma demo_clear : hdr_n (disk_block demo_disk 2) = 0.
Proof. unfold disk_block, demo_disk. simpl. rewrite lookup_singleton_ne by done. by vm_compute. Qed.

Lemma demo_idle : fs_idle 2 30 demo (disk_block demo_disk).
Proof.
  destruct (started_cache demo_disk demo_len) as (_ & _ & Hc). split.
  - by apply cache_upd_log.
  - by split; [split| | | |].
  - apply demo_clear.
  - apply demo_super.
Qed.

Lemma demo_layout : layout_ok 2 30.
Proof. split_and!; [done|apply Z.leb_le; by vm_compute|apply Z.leb_le; by vm_compute]. Qed.

Lemma demo_updates : updates_ok 2 [(40, ones); (41, ones); (40, zero_block)].
Proof.
  intros b d Hin. rewrite !elem_of_cons, elem_of_nil in Hin.
  destruct Hin as [[= -> ->]|[[= -> ->]|[[= -> ->]|[]]]]; (split; [split; [done|apply Z.ltb_lt; by vm_compute]|]); (split; [right; by vm_compute|]); done.
Qed.
Lemma transaction_atomic_witness :
  ∃ s' W v', transaction [(40, ones); (41, ones); (40, zero_block)] demo = Ret tt s' ∧
    k_disk s' = apply_writes W (k_disk demo) ∧ fs_idle 2 30 s' v' ∧
    (∀ b, home 2 b → v' b =
      apply_view [(40, ones); (41, ones); (40, zero_block)] (disk_block demo_disk) b) ∧
    ∀ i d r, rtc recovery_crash (apply_writes (take i W) (k_disk demo)) d → booted d r →
      ∃ r', initlog 1 r = Ret tt r' ∧ hdr_n (disk_block (k_disk r') 2) = 0 ∧
        ((∀ b, home 2 b → disk_block (k_disk r') b = disk_block demo_disk b) ∨
         (∀ b, home 2 b → disk_block (k_disk r') b =
           apply_view [(40, ones); (41, ones); (40, zero_block)] (disk_block demo_disk) b)).
Proof.
  apply (transaction_atomic 2 30 _ demo (disk_block demo_disk)).
  - exact demo_layout.
  - exact demo_idle.
  - exact demo_updates.
  - reflexivity.
Defined.
End TxnExample.
