(* ===== verification/Fs.v ===== *)
(** Fs: blocks and inodes of the file system, the first half of [fs.c].

    [struct inode*] is an index into [icache.inode]; a [struct dinode] is
    the 64 bytes at its offset in a block.  Loops over the bitmap and over
    the inodes of the disk have their trip count as fuel. *)

From S2P Require Import Prelude Layout State Spinlock Console Sched Bytes Sleeplock Disk Bio Log.

Section fs.
Context {ENV : Env} {DRV : DiskDriver}.

(** ** Blocks *)

Definition BBLOCK (b : Z) (sb : superblock) : Z := u32 (b / BPB + sb_bmapstart sb).
Definition IBLOCK (i : Z) (sb : superblock) : Z := u32 (i / IPB + sb_inodestart sb).

Definition bzero (dev bno : Z) : K unit :=
  bp ← bread dev bno;
  set_data bp (λ _, zero_block);;
  log_write bp;;
  brelse bp.

(** [(data[bi/8] & (1 << (bi % 8))) == 0] *)
Definition bit_free (data : list Z) (bi : Z) : bool :=
  Z.land (nth (Z.to_nat (bi / 8)) data 0) (Z.shiftl 1 (bi mod 8)) =? 0.
(** [data[bi/8] |= m] and [data[bi/8] &= ~m] *)
Definition bit_set (data : list Z) (bi : Z) : list Z :=
  alter (λ x, Z.lor x (Z.shiftl 1 (bi mod 8))) (Z.to_nat (bi / 8)) data.
Definition bit_clear (data : list Z) (bi : Z) : list Z :=
  alter (λ x, u8 (Z.land x (Z.lnot (Z.shiftl 1 (bi mod 8))))) (Z.to_nat (bi / 8)) data.

(** The inner loop of [balloc]: the first free bit among the next [n]. *)
Fixpoint first_free (data : list Z) (bi : Z) (n : nat) : option Z :=
  match n with
  | O => None
  | S n => if bit_free data bi then Some bi else first_free data (bi + 1) n
  end.

(** [for(b = 0; b < sb.size; b += BPB)] *)
Fixpoint balloc_loop (fuel : nat) (dev b : Z) : K Z :=
  sb ← gets (λ s, k_sb s);
  if b <? sb_size sb then
    match fuel with
    | O => nofuel
    | S fuel =>
        bp ← bread dev (BBLOCK b sb);
        x ← buf_at bp;
        match first_free (b_data x) 0 (Z.to_nat (Z.min BPB (sb_size sb - b))) with
        | Some bi =>
            set_data bp (λ d, bit_set d bi);;              (* Mark block in use. *)
            log_write bp;;
            brelse bp;;
            bzero dev (b + bi);;
            mret (b + bi)
        | None =>
            brelse bp;;
            balloc_loop fuel dev (b + BPB)
        end
    end
  else panic "balloc: out of blocks".

Definition balloc (dev : Z) : K Z :=
  n ← gets (λ s, Z.to_nat (sb_size (k_sb s) / BPB + 1));
  balloc_loop n dev 0.

Definition bfree (dev b : Z) : K unit :=
  sb ← readsb dev;
  modify (upd_k_sb (λ _, sb));;
  bp ← bread dev (BBLOCK b sb);
  let bi := b mod BPB in
  x ← buf_at bp;
  if bit_free (b_data x) bi then panic "freeing free block" else
  set_data bp (λ d, bit_clear d bi);;
  log_write bp;;
  brelse bp.

(** ** Inodes *)

Definition inode_at (ip : nat) : K inode := deref (λ s, k_inodes s !! ip).
Definition set_inode (ip : nat) (f : inode → inode) : K unit := modify (upd_k_inodes (alter f ip)).

(** [bp->data + inum%IPB] as a [dinode] pointer: its byte offset *)
Definition dinode_off (inum : Z) : nat := Z.to_nat (inum mod IPB * sizeof_dinode).

(** Reading and writing the fields of a [struct dinode]. *)
Definition dinode_read (d : list Z) (o : nat) (ip : inode) : inode :=
  upd_i_addrs (λ _, (λ k, rd32 d (o + 12 + 4 * k)) <$> seq 0 (Z.to_nat NDIRECT + 1))
    (upd_i_size (λ _, rd32 d (o + 8))
      (upd_i_nlink (λ _, s16 (rd16 d (o + 6)))
        (upd_i_minor (λ _, s16 (rd16 d (o + 4)))
          (upd_i_major (λ _, s16 (rd16 d (o + 2)))
            (upd_i_type (λ _, s16 (rd16 d o)) ip))))).

Definition dinode_write (d : list Z) (o : nat) (ip : inode) : list Z :=
  let d := wr16 d o (i_type ip) in
  let d := wr16 d (o + 2) (i_major ip) in
  let d := wr16 d (o + 4) (i_minor ip) in
  let d := wr16 d (o + 6) (i_nlink ip) in
  let d := wr32 d (o + 8) (i_size ip) in
  splice d (o + 12) (mjoin (le32 <$> i_addrs ip)).

Definition iinit (dev : Z) : K unit :=
  initlock L_icache;;
  for_ (Z.to_nat NINODE) 0 (λ i, initsleeplock (SL_inode (Z.to_nat i)));;
  sb ← readsb dev;
  modify (upd_k_sb (λ _, sb));;
  cprintf ("sb: size %d nblocks %d ninodes %d nlog %d logstart %d inodestart %d bmap start %d" +:+ nl)
    [AInt (sb_size sb); AInt (sb_nblocks sb); AInt (sb_ninodes sb); AInt (sb_nlog sb);
     AInt (sb_logstart sb); AInt (sb_inodestart sb); AInt (sb_bmapstart sb)].

Definition iupdate (ip : nat) : K unit :=
  x ← inode_at ip;
  sb ← gets (λ s, k_sb s);
  bp ← bread (i_dev x) (IBLOCK (i_inum x) sb);
  x ← inode_at ip;
  set_data bp (λ d, dinode_write d (dinode_off (i_inum x)) x);;
  log_write bp;;
  brelse bp.

(** The scan of [iget]: the entry that caches the inode, or the first
    unused entry. *)
Fixpoint iget_scan (l : list inode) (i : nat) (empty : option nat) (dev inum : Z) : option nat * option nat :=
  match l with
  | [] => (None, empty)
  | x :: l =>
      if (0 <? i_ref x) && (i_dev x =? dev) && (i_inum x =? inum) then (Some i, empty)
      else iget_scan l (S i)
        (match empty with None => if i_ref x =? 0 then Some i else None | Some e => Some e end) dev inum
  end.

Definition iget (dev inum : Z) : K nat :=
  acquire L_icache;;
  r ← gets (λ s, iget_scan (k_inodes s) 0 None dev inum);
  match r with
  | (Some ip, _) =>
      set_inode ip (upd_i_ref (Z.add 1));;
      release L_icache;;
      mret ip
  | (None, None) => panic "iget: no inodes"
  | (None, Some ip) =>
      set_inode ip (upd_i_dev (λ _, dev));;
      set_inode ip (upd_i_inum (λ _, inum));;
      set_inode ip (upd_i_ref (λ _, 1));;
      set_inode ip (upd_i_valid (λ _, false));;
      release L_icache;;
      mret ip
  end.

(** [for(inum = 1; inum < sb.ninodes; inum++)] *)
Fixpoint ialloc_loop (fuel : nat) (dev type inum : Z) : K nat :=
  sb ← gets (λ s, k_sb s);
  if inum <? sb_ninodes sb then
    match fuel with
    | O => nofuel
    | S fuel =>
        bp ← bread dev (IBLOCK inum sb);
        x ← buf_at bp;
        let o := dinode_off inum in
        if s16 (rd16 (b_data x) o) =? 0 then               (* a free inode *)
          set_data bp (λ d, splice d o (replicate (Z.to_nat sizeof_dinode) 0));;
          set_data bp (λ d, wr16 d o type);;
          log_write bp;;                                     (* mark it allocated on the disk *)
          brelse bp;;
          iget dev inum
        else
          brelse bp;;
          ialloc_loop fuel dev type (inum + 1)
    end
  else panic "ialloc: no inodes".

Definition ialloc (dev type : Z) : K nat :=
  n ← gets (λ s, Z.to_nat (sb_ninodes (k_sb s)));
  ialloc_loop n dev type 1.

Definition idup (ip : nat) : K nat :=
  acquire L_icache;;
  inode_at ip;;
  set_inode ip (upd_i_ref (Z.add 1));;
  release L_icache;;
  mret ip.

Definition ilock (ip : option nat) : K unit :=
  match ip with
  | None => panic "ilock"
  | Some ip =>
      x ← inode_at ip;
      if i_ref x <? 1 then panic "ilock" else
      acquiresleep (SL_inode ip);;
      x ← inode_at ip;
      if negb (i_valid x) then
        sb ← gets (λ s, k_sb s);
        bp ← bread (i_dev x) (IBLOCK (i_inum x) sb);
        b ← buf_at bp;
        set_inode ip (dinode_read (b_data b) (dinode_off (i_inum x)));;
        brelse bp;;
        set_inode ip (upd_i_valid (λ _, true));;
        x ← inode_at ip;
        if i_type x =? 0 then panic "ilock: no type" else mret tt
      else mret tt
  end.

Definition iunlock (ip : option nat) : K unit :=
  match ip with
  | None => panic "iunlock"
  | Some ip =>
      h ← holdingsleep (SL_inode ip);
      if negb h then panic "iunlock" else
      x ← inode_at ip;
      if i_ref x <? 1 then panic "iunlock" else
      releasesleep (SL_inode ip)
  end.

(** ** Inode content *)

Definition addr_at (x : inode) (k : nat) : K Z := deref (λ _, i_addrs x !! k).
Definition set_addr (ip k : nat) (a : Z) : K unit := set_inode ip (upd_i_addrs <[k := a]>).

Definition bmap (ip : nat) (bn : Z) : K Z :=
  x ← inode_at ip;
  if bn <? NDIRECT then
    addr ← addr_at x (Z.to_nat bn);
    if addr =? 0 then
      addr ← balloc (i_dev x);
      set_addr ip (Z.to_nat bn) addr;;
      mret addr
    else mret addr
  else
  let bn := bn - NDIRECT in
  if bn <? NINDIRECT then
    (* Load indirect block, allocating if necessary. *)
    addr ← addr_at x (Z.to_nat NDIRECT);
    addr ← (if addr =? 0 then
              addr ← balloc (i_dev x);
              set_addr ip (Z.to_nat NDIRECT) addr;;
              mret addr
            else mret addr);
    bp ← bread (i_dev x) addr;
    b ← buf_at bp;
    let addr := rd32 (b_data b) (4 * Z.to_nat bn) in
    addr ← (if addr =? 0 then
              addr ← balloc (i_dev x);
              set_data bp (λ d, wr32 d (4 * Z.to_nat bn) addr);;
              log_write bp;;
              mret addr
            else mret addr);
    brelse bp;;
    mret addr
  else panic "bmap: out of range".

Definition itrunc (ip : nat) : K unit :=
  for_ (Z.to_nat NDIRECT) 0 (λ i,
    x ← inode_at ip;
    a ← addr_at x (Z.to_nat i);
    whenb (negb (a =? 0))
      (bfree (i_dev x) a;;
       set_addr ip (Z.to_nat i) 0));;
  x ← inode_at ip;
  ind ← addr_at x (Z.to_nat NDIRECT);
  whenb (negb (ind =? 0))
    (bp ← bread (i_dev x) ind;
     for_ (Z.to_nat NINDIRECT) 0 (λ j,
       b ← buf_at bp;
       let a := rd32 (b_data b) (4 * Z.to_nat j) in
       whenb (negb (a =? 0)) (bfree (i_dev x) a));;
     brelse bp;;
     bfree (i_dev x) ind;;
     set_addr ip (Z.to_nat NDIRECT) 0);;
  set_inode ip (upd_i_size (λ _, 0));;
  iupdate ip.

Definition iput (ip : nat) : K unit :=
  acquiresleep (SL_inode ip);;
  x ← inode_at ip;
  whenb (i_valid x && (i_nlink x =? 0))
    (acquire L_icache;;
     y ← inode_at ip;
     let r := i_ref y in
     release L_icache;;
     whenb (r =? 1)
       (* inode has no links and no other references: truncate and free. *)
       (itrunc ip;;
        set_inode ip (upd_i_type (λ _, 0));;
        iupdate ip;;
        set_inode ip (upd_i_valid (λ _, false))));;
  releasesleep (SL_inode ip);;
  acquire L_icache;;
  set_inode ip (upd_i_ref (λ r, r - 1));;
  release L_icache.

Definition iunlockput (ip : nat) : K unit :=
  iunlock (Some ip);;
  iput ip.

Definition stati (ip : nat) : K stat :=
  x ← inode_at ip;
  mret (MkStat (i_type x) (i_dev x) (i_inum x) (i_nlink x) (i_size x)).
End fs.
