(* ===== verification/Inode.v ===== *)
(** Inode: files as sequences of bytes.

    A view [v] gives the content of every disk block.  On a view, an inode's
    13 addresses determine its blocks - twelve direct ones, the indirect
    block and the 128 blocks it lists - and so the bytes of the file.  The
    lemmas say how the free bitmap, the blocks and the bytes change when a
    block is allocated and when bytes of a block are overwritten; the kernel
    ([FsSpec]) and the image builder ([Mkfs]) both use them. *)

From S2P Require Import Prelude Layout State Bytes Disk LogSpec Fs.

(** Linear arithmetic with division and remainder by constants. *)
Ltac dlia := zify; Z.to_euclidean_division_equations; lia.

(** ** The bitmap *)

Lemma bit_free_testbit d bi : 0 ≤ bi → bit_free d bi = negb (Z.testbit (nth (Z.to_nat (bi / 8)) d 0) (bi mod 8)).
Proof.
  intros Hbi. unfold bit_free. set (x := nth _ d 0). assert (0 ≤ bi mod 8) as Hm by dlia. set (n := bi mod 8) in *.
  rewrite Z.shiftl_1_l. apply eq_bool_prop_intro. rewrite Is_true_true, Z.eqb_eq, Is_true_true, negb_true_iff. split.
  - intros H. apply (f_equal (λ y, Z.testbit y n)) in H. by rewrite Z.land_spec, Z.pow2_bits_true, andb_true_r, Z.bits_0 in H.
  - intros H. apply Z.bits_inj'. intros k Hk. rewrite Z.land_spec, Z.bits_0.
    destruct (decide (k = n)) as [->|]; [by rewrite H|]. by rewrite Z.pow2_bits_false, andb_false_r by done.
Qed.

Lemma nth_alter {A} (f : A → A) (i j : nat) (l : list A) d :
  (i < length l)%nat → nth j (alter f i l) d = if decide (i = j) then f (nth j l d) else nth j l d.
Proof.
  intros Hi. rewrite !nth_lookup. case_decide as E; [subst j|by rewrite list_lookup_alter_ne].
  rewrite list_lookup_alter_eq. destruct (lookup_lt_is_Some_2 l i Hi) as [x ->]. done.
Qed.

Lemma bit_free_set d bi bj :
  0 ≤ bi → 0 ≤ bj → (Z.to_nat (bi / 8) < length d)%nat →
  bit_free (bit_set d bi) bj = bit_free d bj && negb (bi =? bj).
Proof.
  intros Hi Hj Hlen. rewrite !bit_free_testbit by done. unfold bit_set. rewrite nth_alter by done.
  case_decide as E.
  - rewrite Z.shiftl_1_l, Z.lor_spec, negb_orb, Z.pow2_bits_eqb by dlia. do 2 f_equal.
    destruct (Z.eqb_spec (bi mod 8) (bj mod 8)), (Z.eqb_spec bi bj); try done; exfalso; dlia.
  - destruct (Z.eqb_spec bi bj) as [->|]; [done|]. by rewrite andb_true_r.
Qed.

Lemma length_bit_set d bi : length (bit_set d bi) = length d.
Proof. apply length_alter. Qed.

Lemma first_free_Some d bi n k :
  first_free d bi n = Some k → bi ≤ k < bi + Z.of_nat n ∧ bit_free d k = true.
Proof.
  revert bi. induction n as [|n IH]; intros bi; simpl; [done|]. destruct (bit_free d bi) eqn:E.
  - intros [= <-]. split; [lia|done].
  - intros [? ?]%IH. split; [lia|done].
Qed.

Lemma first_free_None d bi n k :
  first_free d bi n = None → bi ≤ k < bi + Z.of_nat n → bit_free d k = false.
Proof.
  revert bi. induction n as [|n IH]; intros bi; simpl; [lia|]. destruct (bit_free d bi) eqn:E; [done|].
  intros H Hk. destruct (decide (k = bi)) as [->|]; [done|]. apply (IH (bi + 1)); [done|lia].
Qed.

(** ** The layout of a file system *)

(** The first block after the bitmap. *)
Definition datastart (sb : superblock) : Z := sb_bmapstart sb + sb_size sb / BPB + 1.

(** Boot block and superblock, log, inode blocks, bitmap, data blocks. *)
Record layout (start : Z) (sb : superblock) : Prop := MkLayout {
  lo_start : 2 ≤ start;
  lo_log : start + LOGSIZE ≤ sb_inodestart sb;
  lo_count : 0 ≤ sb_ninodes sb;
  lo_inodes : sb_inodestart sb + sb_ninodes sb / IPB + 1 ≤ sb_bmapstart sb;
  lo_data : datastart sb ≤ sb_size sb;
  lo_small : sb_size sb ≤ 8388608;
}.

Definition is_data (sb : superblock) (b : Z) : Prop := datastart sb ≤ b < sb_size sb.
Definition is_bitmap (sb : superblock) (b : Z) : Prop := sb_bmapstart sb ≤ b < datastart sb.

Definition used (sb : superblock) (v : Z → list Z) (b : Z) : bool :=
  negb (bit_free (v (BBLOCK b sb)) (b mod BPB)).

Definition sized (v : Z → list Z) : Prop := ∀ b, length (v b) = 512%nat.

(** What the bitmap says of the blocks that are not file data. *)
Record fs_ok (sb : superblock) (v : Z → list Z) : Prop := MkFsOk {
  fo_sized : sized v;
  fo_meta b : 0 ≤ b < datastart sb → used sb v b = true;
}.

(** The view after [balloc] returned [b]. *)
Definition alloc_view (sb : superblock) (v : Z → list Z) (b : Z) : Z → list Z :=
  <[b := zero_block]> (<[BBLOCK b sb := bit_set (v (BBLOCK b sb)) (b mod BPB)]> v).

(** At least [n] blocks are free. *)
Definition has_free (sb : superblock) (v : Z → list Z) (n : nat) : Prop :=
  ∃ F : gset Z, (n ≤ size F)%nat ∧ ∀ b, b ∈ F → 0 ≤ b < sb_size sb ∧ used sb v b = false.

Lemma has_free_le sb v n m : (m ≤ n)%nat → has_free sb v n → has_free sb v m.
Proof. intros Hm (F & HF & Hf). exists F. split; [lia|done]. Qed.

Lemma sized_insert v b d : sized v → length d = 512%nat → sized (<[b := d]> v).
Proof.
  intros Hv Hd c. destruct (decide (b = c)) as [->|]; [by rewrite fn_lookup_insert|by rewrite fn_lookup_insert_ne].
Qed.

Section layout.
Context (start : Z) (sb : superblock) (L : layout start sb).

Lemma layout_pos : 32 ≤ sb_inodestart sb < sb_bmapstart sb ∧ sb_bmapstart sb < datastart sb.
Proof using L.
  destruct L as [H1 H2 H3 H4 H5 H6]. unfold datastart, IPB, BPB, BSIZE, sizeof_dinode, LOGSIZE, MAXOPBLOCKS in *. 
  change (512 / 64) with 8 in *. dlia.
Qed.

Lemma size_pos : 0 < sb_size sb.
Proof using L. pose proof layout_pos. pose proof (lo_data _ _ L). lia. Qed.

Lemma BBLOCK_bitmap b : 0 ≤ b < sb_size sb → is_bitmap sb (BBLOCK b sb) ∧ BBLOCK b sb = b / BPB + sb_bmapstart sb.
Proof using L.
  intros Hb. pose proof layout_pos as [Hp1 Hp2]. pose proof (lo_small _ _ L). pose proof (lo_data _ _ L).
  assert (0 ≤ b / BPB ≤ sb_size sb / BPB) as Hd by (split; [apply Z.div_pos; [lia|done]|apply Z.div_le_mono; [done|lia]]).
  assert (BBLOCK b sb = b / BPB + sb_bmapstart sb) as ->.
  { apply u32_small. unfold two32. unfold datastart in *. lia. }
  split; [|done]. unfold is_bitmap, datastart. lia.
Qed.

Lemma data_not_bitmap b c : is_data sb b → is_bitmap sb c → b ≠ c.
Proof using. unfold is_data, is_bitmap. lia. Qed.

Lemma data_range b : is_data sb b → 0 ≤ b < sb_size sb.
Proof using L. pose proof layout_pos. unfold is_data. lia. Qed.

Lemma bitmap_range b : is_bitmap sb b → 0 ≤ b < sb_size sb.
Proof using L. pose proof layout_pos. pose proof (lo_data _ _ L). unfold is_bitmap. lia. Qed.

(** Data and bitmap blocks are outside the log and are not the superblock. *)
Lemma upper_home b : sb_inodestart sb ≤ b → home start b ∧ b ≠ 1.
Proof using L. intros Hb. pose proof layout_pos. pose proof (lo_log _ _ L). unfold home. lia. Qed.

Lemma free_is_data v b : fs_ok sb v → 0 ≤ b < sb_size sb → used sb v b = false → is_data sb b.
Proof using.
  intros Hf Hb Hu. unfold is_data. destruct (decide (b < datastart sb)) as [Hlt|]; [|lia].
  rewrite (fo_meta _ _ Hf) in Hu by lia. done.
Qed.

(** Writing a block outside the bitmap does not change what is allocated. *)
Lemma used_insert v b d c : ¬ is_bitmap sb b → 0 ≤ c < sb_size sb → used sb (<[b := d]> v) c = used sb v c.
Proof using L.
  intros Hb Hc. unfold used. rewrite fn_lookup_insert_ne; [done|]. intros ->. by apply Hb, BBLOCK_bitmap.
Qed.

Lemma used_alloc v b c :
  sized v → is_data sb b → 0 ≤ c < sb_size sb → used sb (alloc_view sb v b) c = used sb v c || (c =? b).
Proof using L.
  intros Hv Hb Hc. pose proof (data_range b Hb) as Hb'. destruct (BBLOCK_bitmap b Hb') as [Hbm Eb], (BBLOCK_bitmap c Hc) as [Hcm Ec].
  unfold used, alloc_view. rewrite fn_lookup_insert_ne by (by apply data_not_bitmap).
  destruct (decide (BBLOCK b sb = BBLOCK c sb)) as [E|Hne].
  - rewrite <-E, fn_lookup_insert, bit_free_set, negb_andb, negb_involutive.
    + f_equal. rewrite Eb, Ec in E. unfold BPB, BSIZE in *. destruct (Z.eqb_spec (b mod (512 * 8)) (c mod (512 * 8))), (Z.eqb_spec c b); try done; exfalso; dlia.
    + apply Z.mod_pos_bound. done.
    + apply Z.mod_pos_bound. done.
    + rewrite Hv. unfold BPB, BSIZE. dlia.
  - rewrite fn_lookup_insert_ne by done. destruct (Z.eqb_spec c b) as [->|]; [done|]. by rewrite orb_false_r.
Qed.

Lemma alloc_sized v b : sized v → sized (alloc_view sb v b).
Proof using. intros Hv. apply sized_insert; [|done]. apply sized_insert; [done|]. by rewrite length_bit_set. Qed.

Lemma alloc_other v b c : c ≠ b → ¬ is_bitmap sb c → 0 ≤ b < sb_size sb → alloc_view sb v b c = v c.
Proof using L.
  intros Hc Hcb Hb. unfold alloc_view. rewrite fn_lookup_insert_ne, fn_lookup_insert_ne; [done| |done].
  intros <-. by apply Hcb, BBLOCK_bitmap.
Qed.

Lemma alloc_here v b : alloc_view sb v b b = zero_block.
Proof using. apply fn_lookup_insert. Qed.

Lemma fs_ok_alloc v b : fs_ok sb v → is_data sb b → fs_ok sb (alloc_view sb v b).
Proof using L.
  intros [Hv Hm] Hb. pose proof layout_pos. pose proof (lo_data _ _ L). split; [by apply alloc_sized|]. intros c Hc.
  rewrite used_alloc, Hm by (done || lia). done.
Qed.

Lemma fs_ok_insert v b d : fs_ok sb v → ¬ is_bitmap sb b → length d = 512%nat → fs_ok sb (<[b := d]> v).
Proof using L.
  intros [Hv Hm] Hb Hd. pose proof (lo_data _ _ L). split; [by apply sized_insert|]. intros c Hc.
  rewrite used_insert by (done || lia). by apply Hm.
Qed.

Lemma has_free_alloc v b n : sized v → is_data sb b → has_free sb v (S n) → has_free sb (alloc_view sb v b) n.
Proof using L.
  intros Hv Hb (F & HF & Hf). exists (F ∖ {[b]}). split.
  - pose proof (size_difference_alt F {[b]}) as E. assert (size (F ∩ {[b]}) ≤ 1)%nat.
    { rewrite <-(size_singleton (C:=gset Z) b). apply subseteq_size, intersection_subseteq_r. }
    lia.
  - intros c [Hc Hne%not_elem_of_singleton]%elem_of_difference. destruct (Hf c Hc) as [Hr Hu]. split; [done|].
    rewrite used_alloc, Hu by done. by apply Z.eqb_neq.
Qed.

Lemma has_free_insert v b d n : ¬ is_bitmap sb b → has_free sb v n → has_free sb (<[b := d]> v) n.
Proof using L.
  intros Hb (F & HF & Hf). exists F. split; [done|]. intros c Hc. destruct (Hf c Hc) as [Hr Hu]. by rewrite used_insert.
Qed.

(** ** The blocks of a file *)

(** Slot [k] of a file: the direct addresses, the indirect block (slot 12),
    then the addresses in the indirect block. *)
Definition slot (v : Z → list Z) (a : list Z) (k : nat) : Z :=
  if (k <? 13)%nat then nth k a 0
  else if nth 12 a 0 =? 0 then 0 else rd32 (v (nth 12 a 0)) (4 * (k - 13)).

Definition nslots : nat := 141.

(** The slot of file block [bn]. *)
Definition pos (bn : nat) : nat := if (bn <? 12)%nat then bn else S bn.

(** Byte [i] of the file. *)
Definition fbyte (v : Z → list Z) (a : list Z) (i : nat) : Z :=
  nth (i mod 512) (v (slot v a (pos (i / 512)))) 0.

(** The first [n] bytes. *)
Definition content (v : Z → list Z) (a : list Z) (n : Z) : list Z := fbyte v a <$> seq 0 (Z.to_nat n).

(** The addresses of a file are distinct allocated data blocks. *)
Record slots_ok (v : Z → list Z) (a : list Z) : Prop := MkSlotsOk {
  so_len : length a = 13%nat;
  so_data k : (k < nslots)%nat → slot v a k ≠ 0 → is_data sb (slot v a k) ∧ used sb v (slot v a k) = true;
  so_inj j k : (j < nslots)%nat → (k < nslots)%nat → slot v a j ≠ 0 → slot v a j = slot v a k → j = k;
}.

Definition is_slot (v : Z → list Z) (a : list Z) (b : Z) : Prop :=
  b ≠ 0 ∧ ∃ k, (k < nslots)%nat ∧ slot v a k = b.

(** [v'] and [a'] differ from [v] and [a] in slots that were 0 and now are
    blocks that were free, in the content of the file's own blocks and in
    the bits of the new blocks. *)
Record grows (v : Z → list Z) (a : list Z) (v' : Z → list Z) (a' : list Z) : Prop := MkGrows {
  gr_slot k : (k < nslots)%nat → slot v a k ≠ 0 → slot v' a' k = slot v a k;
  gr_fresh k : (k < nslots)%nat → slot v a k = 0 → slot v' a' k ≠ 0 → used sb v (slot v' a' k) = false;
  gr_used c : 0 ≤ c < sb_size sb → used sb v c = true → used sb v' c = true;
  gr_new c : 0 ≤ c < sb_size sb → used sb v' c = true → used sb v c = true ∨ is_slot v' a' c;
  gr_block c : 0 ≤ c < sb_size sb → used sb v c = true → ¬ is_bitmap sb c → ¬ is_slot v a c → v' c = v c;
}.

Lemma slots_grow_refl v a : grows v a v a.
Proof using. split; auto; congruence. Qed.

Lemma grows_not_slot v a v' a' c :
  grows v a v' a' → used sb v c = true → ¬ is_slot v a c → ¬ is_slot v' a' c.
Proof using.
  intros G Hu Hn (Hc & k & Hk & E). destruct (decide (slot v a k = 0)) as [Hz|Hnz].
  - pose proof (gr_fresh _ _ _ _ G k Hk Hz) as Hf. rewrite E in Hf. rewrite Hf in Hu by done. done.
  - apply Hn. split; [done|]. exists k. split; [done|]. by rewrite <-(gr_slot _ _ _ _ G).
Qed.

Lemma slots_grow_trans v1 a1 v2 a2 v3 a3 :
  slots_ok v3 a3 → grows v1 a1 v2 a2 → grows v2 a2 v3 a3 → grows v1 a1 v3 a3.
Proof using L.
  intros S3 G1 G2. split.
  - intros k Hk Hs. rewrite (gr_slot _ _ _ _ G2 k Hk); [by apply G1|]. by rewrite (gr_slot _ _ _ _ G1).
  - intros k Hk Hz Hnz. destruct (decide (slot v2 a2 k = 0)) as [Hz2|Hnz2].
    + apply not_true_is_false. intros Hu. pose proof (proj1 (so_data _ _ S3 k Hk Hnz)) as Hd.
      apply (gr_used _ _ _ _ G1) in Hu; [|by apply data_range]. by rewrite (gr_fresh _ _ _ _ G2) in Hu.
    + rewrite (gr_slot _ _ _ _ G2) by done. by apply G1.
  - intros c Hc Hu. apply G2; [done|]. by apply G1.
  - intros c Hc Hu. apply (gr_new _ _ _ _ G2) in Hu as [Hu|]; [|by right|done].
    apply (gr_new _ _ _ _ G1) in Hu as [Hu|(Hne & k & Hk & E)]; [by left| |done].
    right. split; [done|]. exists k. split; [done|]. rewrite <-E. apply G2; [done|]. congruence.
  - intros c Hc Hu Hb Hs. rewrite (gr_block _ _ _ _ G2); [by apply G1|done|by apply G1|done|by eapply grows_not_slot].
Qed.

(** One slot gets the free block [b]. *)
Lemma grow_one v a v' a' b k :
  slots_ok v a → is_data sb b → used sb v b = false → (k < nslots)%nat → slot v a k = 0 → length a' = 13%nat →
  slot v' a' k = b → (∀ j, (j < nslots)%nat → j ≠ k → slot v' a' j = slot v a j) →
  (∀ c, 0 ≤ c < sb_size sb → used sb v' c = used sb v c || (c =? b)) →
  (∀ c, ¬ is_bitmap sb c → c ≠ b → ¬ is_slot v a c → v' c = v c) →
  slots_ok v' a' ∧ grows v a v' a'.
Proof using L.
  intros Hs Hb Hu Hk Hz Hlen Ek Ej Eu Ev. pose proof layout_pos as Hpos.
  assert (b ≠ 0) as Hb0 by (unfold is_data in Hb; lia).
  assert (∀ j, (j < nslots)%nat → slot v a j ≠ b) as Hfresh.
  { intros j Hj E. assert (slot v a j ≠ 0) as Hnz by congruence. pose proof (so_data _ _ Hs j Hj Hnz) as [_ H]. congruence. }
  split; split.
  - done.
  - intros j Hj Hnz. destruct (decide (j = k)) as [->|Hne].
    + rewrite Ek, Eu, Z.eqb_refl, orb_true_r by (by apply data_range). done.
    + rewrite Ej in * by done. destruct (so_data _ _ Hs j Hj Hnz) as [Hd Hd']. split; [done|].
      rewrite Eu, Hd' by (by apply data_range). done.
  - intros i j Hi Hj Hnz E. destruct (decide (i = k)) as [->|Hi'], (decide (j = k)) as [->|Hj']; [done| | |].
    + rewrite Ek, Ej in E by done. by destruct (Hfresh j Hj).
    + rewrite Ek, Ej in E by done. by destruct (Hfresh i Hi).
    + rewrite !Ej in * by done. by eapply so_inj.
  - intros j Hj Hnz. apply Ej; [done|]. by intros ->.
  - intros j Hj Hzj Hnz. destruct (decide (j = k)) as [->|Hne]; [by rewrite Ek|]. by rewrite Ej in Hnz.
  - intros c Hc H. by rewrite Eu, H.
  - intros c Hc. rewrite Eu by done. intros [?|E%Z.eqb_eq]%orb_true_iff; [by left|right]. subst c. split; [done|]. by exists k.
  - intros c Hc Huc Hbm Hns. apply Ev; [done| |done]. intros ->. congruence.
Qed.

Lemma slot_direct v a k : (k < 13)%nat → slot v a k = nth k a 0.
Proof using. intros Hk. unfold slot. by rewrite (proj2 (Nat.ltb_lt k 13)). Qed.

Lemma slot_indirect v a k :
  (13 ≤ k)%nat → slot v a k = if nth 12 a 0 =? 0 then 0 else rd32 (v (nth 12 a 0)) (4 * (k - 13)).
Proof using. intros Hk. unfold slot. by rewrite (proj2 (Nat.ltb_ge k 13)). Qed.

Lemma nth_insert (a : list Z) i j x :
  (i < length a)%nat → nth j (<[i := x]> a) 0 = if decide (i = j) then x else nth j a 0.
Proof using.
  intros Hi. rewrite !nth_lookup, list_insert_lookup_iff by done. by case_decide.
Qed.

Lemma rd32_zero o : (o + 4 ≤ 512)%nat → rd32 zero_block o = 0.
Proof using.
  intros Ho. unfold rd32, slice, zero_block. rewrite drop_replicate, take_replicate.
  by replace (4 `min` (512 - o))%nat with 4%nat by lia.
Qed.

(** The indirect block is a block of the file like any other. *)
Lemma indirect_ok v a : slots_ok v a → nth 12 a 0 ≠ 0 → is_data sb (nth 12 a 0) ∧ used sb v (nth 12 a 0) = true.
Proof using. intros Hs Hnz. rewrite <-(slot_direct v a 12) by lia. apply Hs; [unfold nslots; lia|]. by rewrite slot_direct by lia. Qed.

(** The content of the data blocks of a file. *)
Definition keeps (v : Z → list Z) (a : list Z) (v' : Z → list Z) : Prop :=
  ∀ k, (k < nslots)%nat → k ≠ 12%nat → slot v a k ≠ 0 → v' (slot v a k) = v (slot v a k).

Definition fresh (v : Z → list Z) (b : Z) : Prop := is_data sb b ∧ used sb v b = false.

Lemma alloc_slot_block v a b k :
  slots_ok v a → fresh v b → (k < nslots)%nat → slot v a k ≠ 0 → alloc_view sb v b (slot v a k) = v (slot v a k).
Proof using L.
  intros Hs [Hb Hu] Hk Hnz. destruct (so_data _ _ Hs k Hk Hnz) as [Hd Hd'].
  apply alloc_other; [congruence| |by apply data_range]. intros ?. by eapply data_not_bitmap.
Qed.

Lemma alloc_indirect v a b :
  slots_ok v a → fresh v b → nth 12 a 0 ≠ 0 → alloc_view sb v b (nth 12 a 0) = v (nth 12 a 0).
Proof using L.
  intros Hs Hb Hnz. rewrite <-(slot_direct v a 12) in * by lia. apply (alloc_slot_block v a); [done|done|unfold nslots; lia|done].
Qed.

Lemma alloc_rest v b : sized v → fresh v b →
  (∀ c, 0 ≤ c < sb_size sb → used sb (alloc_view sb v b) c = used sb v c || (c =? b)) ∧
  ∀ c, ¬ is_bitmap sb c → c ≠ b → alloc_view sb v b c = v c.
Proof using L.
  intros Hv [Hb Hu]. split; intros c Hc; [by apply used_alloc|]. intros Hne. apply alloc_other; [done|done|by apply data_range].
Qed.

(** [bmap] allocates a direct block. *)
Lemma grow_direct v a b k :
  sized v → slots_ok v a → fresh v b → (k < 12)%nat → slot v a k = 0 →
  slots_ok (alloc_view sb v b) (<[k := b]> a) ∧ grows v a (alloc_view sb v b) (<[k := b]> a) ∧
  keeps v a (alloc_view sb v b) ∧ slot (alloc_view sb v b) (<[k := b]> a) k = b ∧
  ∀ j, (j < nslots)%nat → j ≠ k → slot (alloc_view sb v b) (<[k := b]> a) j = slot v a j.
Proof using L.
  intros Hv Hs Hb Hk Hz. destruct (alloc_rest v b Hv Hb) as [Eu Ev]. pose proof (so_len _ _ Hs) as Hlen.
  assert (slot (alloc_view sb v b) (<[k := b]> a) k = b) as Ek.
  { rewrite slot_direct, nth_insert, decide_True by lia. done. }
  assert (∀ j, (j < nslots)%nat → j ≠ k → slot (alloc_view sb v b) (<[k := b]> a) j = slot v a j) as Ej.
  { intros j Hj Hne. destruct (decide (j < 13)%nat).
    - rewrite !slot_direct, nth_insert, decide_False by lia. done.
    - rewrite !slot_indirect, nth_insert, decide_False by lia. destruct (Z.eqb_spec (nth 12 a 0) 0) as [|Hnz]; [done|].
      by rewrite (alloc_indirect v a). }
  assert (slots_ok (alloc_view sb v b) (<[k := b]> a) ∧ grows v a (alloc_view sb v b) (<[k := b]> a)) as [HS HG].
  { destruct Hb as [Hb Hu]. apply (grow_one _ _ _ _ b k); try done; [unfold nslots; lia|by rewrite length_insert|by intros; apply Ev]. }
  split; [done|]. split; [done|]. split; [|done]. intros j Hj _ Hnz. by apply (alloc_slot_block v a).
Qed.

(** [bmap] allocates the indirect block. *)
Lemma grow_indirect v a b :
  sized v → slots_ok v a → fresh v b → slot v a 12 = 0 →
  slots_ok (alloc_view sb v b) (<[12%nat := b]> a) ∧ grows v a (alloc_view sb v b) (<[12%nat := b]> a) ∧
  keeps v a (alloc_view sb v b) ∧
  ∀ j, (j < nslots)%nat → j ≠ 12%nat → slot (alloc_view sb v b) (<[12%nat := b]> a) j = slot v a j.
Proof using L.
  intros Hv Hs Hb Hz. destruct (alloc_rest v b Hv Hb) as [Eu Ev]. pose proof (so_len _ _ Hs) as Hlen.
  assert (∀ j, (j < nslots)%nat → j ≠ 12%nat → slot (alloc_view sb v b) (<[12%nat := b]> a) j = slot v a j) as Ej.
  { intros j Hj Hne. destruct (decide (j < 13)%nat).
    - rewrite !slot_direct, nth_insert, decide_False by lia. done.
    - rewrite slot_direct in Hz by lia. rewrite !slot_indirect, nth_insert, decide_True, Hz by lia. simpl.
      destruct (Z.eqb_spec b 0); [done|]. rewrite alloc_here. apply rd32_zero. unfold nslots in Hj. lia. }
  assert (slots_ok (alloc_view sb v b) (<[12%nat := b]> a) ∧ grows v a (alloc_view sb v b) (<[12%nat := b]> a)) as [HS HG].
  { destruct Hb as [Hb Hu]. apply (grow_one _ _ _ _ b 12%nat); try done; [unfold nslots; lia|by rewrite length_insert| |by intros; apply Ev].
    rewrite slot_direct, nth_insert, decide_True by lia. done. }
  split; [done|]. split; [done|]. split; [|done]. intros j Hj _ Hnz. by apply (alloc_slot_block v a).
Qed.

(** [bmap] allocates a block listed in the indirect block. *)
Definition list_block (v : Z → list Z) (ind : Z) (k : nat) (b : Z) : Z → list Z :=
  <[ind := wr32 (alloc_view sb v b ind) (4 * (k - 13)) b]> (alloc_view sb v b).

Lemma grow_listed v a b k :
  sized v → slots_ok v a → fresh v b → (13 ≤ k < nslots)%nat → nth 12 a 0 ≠ 0 → slot v a k = 0 →
  slots_ok (list_block v (nth 12 a 0) k b) a ∧ grows v a (list_block v (nth 12 a 0) k b) a ∧
  keeps v a (list_block v (nth 12 a 0) k b) ∧ slot (list_block v (nth 12 a 0) k b) a k = b ∧
  ∀ j, (j < nslots)%nat → j ≠ k → slot (list_block v (nth 12 a 0) k b) a j = slot v a j.
Proof using L.
  intros Hv Hs Hb Hk Hi Hz. destruct (alloc_rest v b Hv Hb) as [Eu Ev]. pose proof (so_len _ _ Hs) as Hlen.
  destruct (indirect_ok v a Hs Hi) as [Hid Hiu]. unfold nslots in Hk.
  pose proof (alloc_indirect v a b Hs Hb Hi) as Ei.
  assert (slot (list_block v (nth 12 a 0) k b) a k = b) as Ek.
  { rewrite slot_indirect by lia. destruct (Z.eqb_spec (nth 12 a 0) 0); [done|]. unfold list_block.
    rewrite fn_lookup_insert, rd32_wr32_eq by (rewrite alloc_sized by done; lia). apply u32_small.
    pose proof layout_pos. pose proof (lo_small _ _ L). destruct Hb as [Hb _]. unfold is_data in Hb. unfold two32. lia. }
  assert (∀ c, nth 12 a 0 ≠ c → list_block v (nth 12 a 0) k b c = alloc_view sb v b c) as El
    by (intros; by apply fn_lookup_insert_ne).
  assert (∀ j, (j < nslots)%nat → j ≠ k → slot (list_block v (nth 12 a 0) k b) a j = slot v a j) as Ej.
  { intros j Hj Hne. unfold nslots in Hj. destruct (decide (j < 13)%nat); [by rewrite !slot_direct|].
    rewrite !slot_indirect by lia. destruct (Z.eqb_spec (nth 12 a 0) 0); [done|]. unfold list_block.
    rewrite fn_lookup_insert, rd32_wr32_ne, Ei; [done|rewrite alloc_sized by done; lia|lia]. }
  assert (slots_ok (list_block v (nth 12 a 0) k b) a ∧ grows v a (list_block v (nth 12 a 0) k b) a) as [HS HG].
  { destruct Hb as [Hb Hu]. apply (grow_one _ _ _ _ b k); try done; [unfold nslots; lia| |].
    - intros c Hc. unfold list_block. rewrite used_insert; [by apply Eu| |done]. intros ?. by eapply data_not_bitmap.
    - intros c Hc Hne Hns. rewrite El; [by apply Ev|]. intros <-. apply Hns. split; [done|]. exists 12%nat.
      split; [unfold nslots; lia|]. by rewrite slot_direct by lia. }
  split; [done|]. split; [done|]. split; [|done]. intros j Hj H12 Hnz. rewrite El; [by apply (alloc_slot_block v a)|].
  rewrite <-(slot_direct v a 12) by lia. intros E. apply H12. symmetry. eapply (so_inj _ _ Hs); [unfold nslots; lia|done| |done].
  by rewrite slot_direct by lia.
Qed.

(** ** Bytes *)

Lemma pos_slot bn : (bn < 140)%nat → (pos bn < nslots)%nat ∧ pos bn ≠ 12%nat.
Proof using. intros H. unfold pos, nslots. destruct (Nat.ltb_spec bn 12); lia. Qed.

Lemma pos_inj i j : pos i = pos j → i = j.
Proof using. unfold pos. destruct (Nat.ltb_spec i 12), (Nat.ltb_spec j 12); lia. Qed.

(** Byte [i] is in an allocated block. *)
Definition mapped (v : Z → list Z) (a : list Z) (i : nat) : Prop :=
  (i < 140 * 512)%nat ∧ slot v a (pos (i / 512)) ≠ 0.

Lemma mapped_slot v a i : mapped v a i → (pos (i / 512) < nslots)%nat ∧ pos (i / 512) ≠ 12%nat.
Proof using. intros [Hi _]. apply pos_slot. apply Nat.Div0.div_lt_upper_bound. lia. Qed.

Lemma mapped_grows v a v' a' i : grows v a v' a' → mapped v a i → mapped v' a' i.
Proof using.
  intros G Hm. destruct (mapped_slot v a i Hm) as [Hs _]. destruct Hm as [Hi Hnz]. split; [done|].
  by rewrite (gr_slot _ _ _ _ G).
Qed.

Lemma fbyte_keeps v a v' a' i : grows v a v' a' → keeps v a v' → mapped v a i → fbyte v' a' i = fbyte v a i.
Proof using.
  intros G Hk Hm. destruct (mapped_slot v a i Hm) as [Hs H12]. destruct Hm as [Hi Hnz].
  unfold fbyte. by rewrite (gr_slot _ _ _ _ G), Hk.
Qed.

(** A data block of the file is overwritten. *)
Lemma overwrite_ok v a k d :
  slots_ok v a → (k < nslots)%nat → k ≠ 12%nat → slot v a k ≠ 0 →
  (∀ j, (j < nslots)%nat → slot (<[slot v a k := d]> v) a j = slot v a j) ∧
  slots_ok (<[slot v a k := d]> v) a ∧ grows v a (<[slot v a k := d]> v) a.
Proof using L.
  intros Hs Hk H12 Hnz. destruct (so_data _ _ Hs k Hk Hnz) as [Hd Hu].
  assert (¬ is_bitmap sb (slot v a k)) as Hnb by (intros ?; by eapply data_not_bitmap).
  assert (∀ j, (j < nslots)%nat → slot (<[slot v a k := d]> v) a j = slot v a j) as Ej.
  { intros j Hj. destruct (decide (j < 13)%nat); [by rewrite !slot_direct|]. rewrite (slot_indirect _ _ j), (slot_indirect v a j) by lia.
    destruct (Z.eqb_spec (nth 12 a 0) 0) as [|Hi]; [done|]. rewrite fn_lookup_insert_ne; [done|].
    intros E. apply H12. eapply (so_inj _ _ Hs); [done|unfold nslots; lia|done|]. by rewrite (slot_direct v a 12) by lia. }
  assert (∀ c, 0 ≤ c < sb_size sb → used sb (<[slot v a k := d]> v) c = used sb v c) as Eu by (intros; by apply used_insert).
  split; [done|]. split; split.
  - apply Hs.
  - intros j Hj. rewrite Ej by done. intros Hjz. destruct (so_data _ _ Hs j Hj Hjz) as [Hjd Hju].
    split; [done|]. rewrite Eu by (by apply data_range). done.
  - intros i j Hi Hj. rewrite !Ej by done. by apply Hs.
  - auto.
  - intros j Hj Hz. by rewrite Ej.
  - intros c Hc. by rewrite Eu.
  - intros c Hc. rewrite Eu by done. by left.
  - intros c Hc _ _ Hns. apply fn_lookup_insert_ne. intros <-. apply Hns. split; [done|]. by exists k.
Qed.

Lemma nth_splice (l bs : list Z) o i :
  (o + length bs ≤ length l)%nat →
  nth i (splice l o bs) 0 = if decide (o ≤ i < o + length bs)%nat then nth (i - o) bs 0 else nth i l 0.
Proof using. intros H. rewrite !nth_lookup, splice_lookup by done. by case_decide. Qed.

Lemma fbyte_overwrite v a bn o bs i :
  sized v → slots_ok v a → (bn < 140)%nat → slot v a (pos bn) ≠ 0 → (o + length bs ≤ 512)%nat → mapped v a i →
  let v' := <[slot v a (pos bn) := splice (v (slot v a (pos bn))) o bs]> v in
  fbyte v' a i = if decide (bn * 512 + o ≤ i < bn * 512 + o + length bs)%nat
                 then nth (i - (bn * 512 + o)) bs 0 else fbyte v a i.
Proof using L.
  intros Hv Hs Hbn Hnz Ho Hm v'. destruct (pos_slot bn Hbn) as [Hk H12]. destruct (mapped_slot v a i Hm) as [Hi _].
  destruct Hm as [Hi' Hiz]. pose proof (Nat.div_mod i 512 ltac:(lia)) as Hdm.
  pose proof (Nat.mod_upper_bound i 512 ltac:(lia)) as Hmb.
  unfold fbyte, v'. rewrite (proj1 (overwrite_ok v a (pos bn) _ Hs Hk H12 Hnz)) by done.
  destruct (decide (bn = i / 512)%nat) as [E|Hne].
  - rewrite <-E, fn_lookup_insert, nth_splice by (rewrite Hv; lia). repeat case_decide; try lia; f_equal; lia.
  - rewrite fn_lookup_insert_ne.
    + rewrite decide_False; [done|]. intros ?. apply Hne. lia.
    + intros E. apply Hne, pos_inj. by eapply (so_inj _ _ Hs).
Qed.

Lemma length_content v a n : length (content v a n) = Z.to_nat n.
Proof using. unfold content. by rewrite length_fmap, length_seq. Qed.

Lemma content_lookup v a n i : (i < Z.to_nat n)%nat → content v a n !! i = Some (fbyte v a i).
Proof using. intros Hi. unfold content. by rewrite list_lookup_fmap, lookup_seq_lt by done. Qed.

Lemma content_ext v a v' a' n :
  (∀ i, (i < Z.to_nat n)%nat → fbyte v' a' i = fbyte v a i) → content v' a' n = content v a n.
Proof using.
  intros H. apply list_fmap_ext. intros j i [-> Hi]%lookup_seq. by apply H.
Qed.

(** [src] written at [off]: the file's content is spliced. *)
Lemma content_splice v a v' a' n (off : nat) src :
  (Z.of_nat off ≤ n) →
  (∀ i, (i < Nat.max (Z.to_nat n) (off + length src))%nat →
    fbyte v' a' i = if decide (off ≤ i < off + length src)%nat then nth (i - off) src 0 else fbyte v a i) →
  content v' a' (Z.max n (Z.of_nat (off + length src))) = splice (content v a n) off src.
Proof using.
  intros Hoff H. set (m := Z.max _ _). assert (Z.to_nat m = Nat.max (Z.to_nat n) (off + length src)) as Em by lia.
  assert (length (splice (content v a n) off src) = Z.to_nat m) as Hl.
  { unfold splice. rewrite !length_app, length_take, length_drop, length_content. lia. }
  apply (nth_ext _ _ 0 0); [by rewrite Hl, length_content|]. intros i Hi. rewrite length_content in Hi.
  transitivity (fbyte v' a' i); [rewrite nth_lookup, content_lookup by done; done|]. rewrite H by lia. rewrite (nth_lookup (splice _ _ _)). unfold splice.
  case_decide as Hd; [|destruct (decide (i < off)%nat)].
  - rewrite lookup_app_r by (rewrite length_take, length_content; lia). rewrite length_take, length_content, Nat.min_l by lia.
    rewrite lookup_app_l by lia. by rewrite <-nth_lookup.
  - rewrite lookup_app_l by (rewrite length_take, length_content; lia). rewrite lookup_take_lt, content_lookup by lia. done.
  - rewrite lookup_app_r by (rewrite length_take, length_content; lia). rewrite length_take, length_content, Nat.min_l by lia.
    rewrite lookup_app_r, lookup_drop, content_lookup by lia. simpl. f_equal. lia.
Qed.

(** ** Files that are not touched *)

(** A file is unchanged when its blocks are. *)
Lemma file_frame v v' a :
  slots_ok v a → (∀ c, is_slot v a c → v' c = v c ∧ used sb v' c = true) →
  (∀ k, (k < nslots)%nat → slot v' a k = slot v a k) ∧ slots_ok v' a ∧
  ∀ i, mapped v a i → mapped v' a i ∧ fbyte v' a i = fbyte v a i.
Proof using.
  intros Hs Hf.
  assert (∀ k, (k < nslots)%nat → slot v a k ≠ 0 → is_slot v a (slot v a k)) as Hk by (intros k Hk Hz; split; [done|by exists k]).
  assert (∀ k, (k < nslots)%nat → slot v' a k = slot v a k) as Ek.
  { intros k Hkn. destruct (decide (k < 13)%nat); [by rewrite !slot_direct|]. rewrite !slot_indirect by lia.
    destruct (Z.eqb_spec (nth 12 a 0) 0) as [|Hi]; [done|]. rewrite <-(slot_direct v a 12) in * by lia.
    by rewrite (proj1 (Hf _ (Hk 12%nat ltac:(unfold nslots; lia) Hi))). }
  split; [done|]. split; [split|].
  - apply Hs.
  - intros k Hkn. rewrite Ek by done. intros Hz. split; [by apply Hs|]. by apply Hf, Hk.
  - intros j k Hj Hkn. rewrite !Ek by done. by apply Hs.
  - intros i Hm. destruct (mapped_slot v a i Hm) as [Hi _]. destruct Hm as [Hr Hz]. unfold mapped, fbyte.
    rewrite Ek by done. split; [done|]. by rewrite (proj1 (Hf _ (Hk _ Hi Hz))).
Qed.

Definition disjoint_files (v : Z → list Z) (a a' : list Z) : Prop := ∀ c, is_slot v a c → ¬ is_slot v a' c.

(** A file that shares no block with one that grows. *)
Lemma grows_frame v a v' a' a2 :
  grows v a v' a' → slots_ok v a2 → disjoint_files v a a2 →
  ∀ c, is_slot v a2 c → v' c = v c ∧ used sb v' c = true.
Proof using L.
  intros G Hs Hd c Hc. pose proof Hc as (Hc0 & k & Hk & E). rewrite <-E in Hc0. destruct (so_data _ _ Hs k Hk Hc0) as [Hdat Hu].
  rewrite E in Hdat, Hu. pose proof (data_range c Hdat) as Hr. split.
  - apply (gr_block _ _ _ _ G); try done; [unfold is_bitmap, is_data in *; lia|]. intros Ha. by destruct (Hd c Ha).
  - by apply G.
Qed.

Lemma is_slot_ext v v' a c : (∀ k, (k < nslots)%nat → slot v' a k = slot v a k) → is_slot v' a c ↔ is_slot v a c.
Proof using. intros E. unfold is_slot. split; intros (Hc & k & Hk & <-); (split; [done|]); exists k; split; auto; by rewrite E. Qed.

Lemma disjoint_grows v a v' a' a2 :
  grows v a v' a' → slots_ok v a2 → disjoint_files v a a2 → disjoint_files v' a' a2.
Proof using L.
  intros G Hs Hd c H1 H2. destruct (file_frame v v' a2 Hs (grows_frame v a v' a' a2 G Hs Hd)) as [Ek _].
  apply (is_slot_ext v v' a2 c Ek) in H2. pose proof H2 as (Hc0 & k & Hk & E). rewrite <-E in Hc0.
  destruct (so_data _ _ Hs k Hk Hc0) as [_ Hu]. rewrite E in Hu. 
  eapply grows_not_slot; [exact G|exact Hu| |exact H1]. intros H3. by destruct (Hd c H3).
Qed.

(** ** The blocks of the inodes *)

Lemma IBLOCK_range i :
  0 ≤ i < sb_ninodes sb → IBLOCK i sb = i / IPB + sb_inodestart sb ∧ sb_inodestart sb ≤ IBLOCK i sb < sb_bmapstart sb.
Proof using L.
  intros Hi. pose proof layout_pos as Hp. pose proof (lo_inodes _ _ L) as Hin. pose proof (lo_small _ _ L). pose proof (lo_data _ _ L).
  assert (IBLOCK i sb = i / IPB + sb_inodestart sb) as E.
  { apply u32_small. unfold IPB, BSIZE, sizeof_dinode, two32 in *. change (512 / 64) with 8 in *. dlia. }
  split; [done|]. rewrite E. unfold IPB, BSIZE, sizeof_dinode in *. change (512 / 64) with 8 in *. dlia.
Qed.

Lemma dinode_off_fits i : 0 ≤ i → (dinode_off i + 64 ≤ 512)%nat.
Proof using. intros Hi. unfold dinode_off, IPB, BSIZE, sizeof_dinode. change (512 / 64) with 8. dlia. Qed.

(** Two inodes in the same block are at different offsets. *)
Lemma dinode_off_ne i j :
  0 ≤ i < sb_ninodes sb → 0 ≤ j < sb_ninodes sb → i ≠ j → IBLOCK i sb = IBLOCK j sb →
  (dinode_off j + 64 ≤ dinode_off i ∨ dinode_off i + 64 ≤ dinode_off j)%nat.
Proof using L.
  intros Hi Hj Hne. rewrite (proj1 (IBLOCK_range i Hi)), (proj1 (IBLOCK_range j Hj)).
  unfold dinode_off, IPB, BSIZE, sizeof_dinode. change (512 / 64) with 8. intros E. dlia.
Qed.
End layout.
