(* ===== verification/Dinode.v ===== *)
(** Dinode: inodes as the 64 bytes of a [struct dinode].

    [dinode_write] and [dinode_read] (of [iupdate] and [ilock]) are inverse
    on inodes whose fields fit, and writing one inode of a block leaves the
    others as they are. *)

From S2P Require Import Prelude Layout State Bytes Fs.

(** ** Slices of splices *)

Lemma slice_slice l o n k m : (k + m ≤ n)%nat → slice (slice l o n) k m = slice l (o + k) m.
Proof.
  intros H. apply list_eq. intros i. rewrite !slice_lookup. case_decide; [|done]. rewrite decide_True by lia.
  f_equal. lia.
Qed.

Lemma splice_splice l o o' b1 b2 :
  o' = (o + length b1)%nat → (o' + length b2 ≤ length l)%nat → splice (splice l o b1) o' b2 = splice l o (b1 ++ b2).
Proof.
  intros -> H. apply list_eq. intros i. rewrite !splice_lookup by (rewrite ?length_splice, ?length_app; lia). rewrite length_app.
  repeat case_decide; try lia; try done.
  - rewrite lookup_app_r by lia. f_equal. lia.
  - by rewrite lookup_app_l by lia.
Qed.

(** ** The bytes of an inode *)

Definition dinode_bytes (x : inode) : list Z :=
  le16 (i_type x) ++ le16 (i_major x) ++ le16 (i_minor x) ++ le16 (i_nlink x) ++ le32 (i_size x) ++
  mjoin (le32 <$> i_addrs x).

Lemma length_addrs_bytes (a : list Z) : length (mjoin (le32 <$> a)) = (4 * length a)%nat.
Proof. induction a as [|y a IH]; [done|]. change (length (le32 y ++ mjoin (le32 <$> a)) = (4 * S (length a))%nat). rewrite length_app, IH. simpl. lia. Qed.

Lemma length_dinode_bytes x : length (i_addrs x) = 13%nat → length (dinode_bytes x) = 64%nat.
Proof. intros H. unfold dinode_bytes. rewrite !length_app, length_addrs_bytes, H. done. Qed.

Lemma dinode_write_splice d o x :
  length (i_addrs x) = 13%nat → (o + 64 ≤ length d)%nat → dinode_write d o x = splice d o (dinode_bytes x).
Proof.
  intros Ha Hd. pose proof (length_addrs_bytes (i_addrs x)) as Hj. rewrite Ha in Hj.
  unfold dinode_write, dinode_bytes, wr16, wr32. set (A := mjoin _) in *. clearbody A.
  rewrite (splice_splice d o _ (le16 (i_type x)) (le16 (i_major x))) by (simpl; lia).
  rewrite (splice_splice d o _ (_ ++ _) (le16 (i_minor x))) by (simpl; lia).
  rewrite (splice_splice d o _ (_ ++ _) (le16 (i_nlink x))) by (simpl; lia).
  rewrite (splice_splice d o _ (_ ++ _) (le32 (i_size x))) by (simpl; lia).
  rewrite (splice_splice d o _ (_ ++ _) A) by (simpl; lia). by rewrite <-!app_assoc.
Qed.

Lemma length_dinode_write d o x :
  length (i_addrs x) = 13%nat → (o + 64 ≤ length d)%nat → length (dinode_write d o x) = length d.
Proof. intros Ha Hd. rewrite dinode_write_splice, length_splice; rewrite ?length_dinode_bytes; done. Qed.

(** What is read depends on the 64 bytes of the inode only. *)
Lemma dinode_read_slice l o l' o' x :
  slice l o 64 = slice l' o' 64 → dinode_read l o x = dinode_read l' o' x.
Proof.
  intros H.
  assert (∀ k, (k + 2 ≤ 64)%nat → rd16 l (o + k) = rd16 l' (o' + k)) as E16.
  { intros k Hk. unfold rd16. rewrite <-(slice_slice l o 64), <-(slice_slice l' o' 64), H by done. done. }
  assert (∀ k, (k + 4 ≤ 64)%nat → rd32 l (o + k) = rd32 l' (o' + k)) as E32.
  { intros k Hk. unfold rd32. rewrite <-(slice_slice l o 64), <-(slice_slice l' o' 64), H by done. done. }
  assert (rd16 l o = rd16 l' o') as E0 by (specialize (E16 0%nat); rewrite !Nat.add_0_r in E16; apply E16; lia).
  assert ((λ k : nat, rd32 l (o + 12 + 4 * k)) <$> seq 0 13 = (λ k : nat, rd32 l' (o' + 12 + 4 * k)) <$> seq 0 13) as Ea.
  { apply list_fmap_ext. intros i k [-> Hk]%lookup_seq. rewrite <-!Nat.add_assoc. apply E32. lia. }
  unfold dinode_read. change (Z.to_nat NDIRECT + 1)%nat with 13%nat. by rewrite Ea, E0, !E16, E32 by lia.
Qed.

Lemma dinode_read_other d o o' x y :
  length (i_addrs x) = 13%nat → (o + 64 ≤ length d)%nat → (o' + 64 ≤ o ∨ o + 64 ≤ o')%nat →
  dinode_read (dinode_write d o x) o' y = dinode_read d o' y.
Proof.
  intros Ha Hd Ho. apply dinode_read_slice. rewrite dinode_write_splice by done.
  apply slice_splice_ne; rewrite length_dinode_bytes; done.
Qed.

Definition is_s16 (z : Z) : Prop := -32768 ≤ z < 32768.

(** The fields of an inode fit the fields of a [struct dinode]. *)
Record dinode_fits (x : inode) : Prop := MkFits {
  df_type : is_s16 (i_type x);
  df_major : is_s16 (i_major x);
  df_minor : is_s16 (i_minor x);
  df_nlink : is_s16 (i_nlink x);
  df_size : is_u32 (i_size x);
  df_len : length (i_addrs x) = 13%nat;
  df_addrs : Forall is_u32 (i_addrs x);
}.

Lemma s16_range z : is_s16 (s16 z).
Proof. unfold is_s16, s16, u16. pose proof (Z.mod_pos_bound z 65536 ltac:(lia)). destruct (Z.ltb_spec (z mod 65536) 32768); lia. Qed.

Lemma s16_u16 z : is_s16 z → s16 (u16 z) = z.
Proof.
  unfold is_s16, s16, u16. intros Hz. rewrite Z.mod_mod by lia.
  destruct (Z.ltb_spec (z mod 65536) 32768); Z.to_euclidean_division_equations; lia.
Qed.

(** An inode written and read back, over the fields that are in memory only. *)
Lemma dinode_roundtrip d o x y :
  dinode_fits x → (o + 64 ≤ length d)%nat →
  dinode_read (dinode_write d o x) o y =
  MkInode (i_dev y) (i_inum y) (i_ref y) (i_lock y) (i_valid y) (i_type x) (i_major x) (i_minor x) (i_nlink x) (i_size x) (i_addrs x).
Proof.
  intros [H1 H2 H3 H4 H5 Ha H6] Hd. pose proof (length_dinode_bytes x Ha) as Hl.
  rewrite dinode_write_splice by done.
  rewrite (dinode_read_slice _ o (dinode_bytes x) 0 y).
  2: { rewrite <-Hl. rewrite slice_splice_eq by lia. unfold slice. rewrite drop_0, take_ge by lia. done. }
  destruct x as [? ? ? ? ? ty ma mi nl sz a]. simpl in *.
  repeat (destruct a as [|? a]; [done|]). destruct a; [|done]. clear Ha Hl Hd.
  repeat match goal with H : Forall _ (_ :: _) |- _ => apply Forall_cons in H as [? ?] end.
  unfold dinode_read, rd16, rd32, slice, dinode_bytes. change (Z.to_nat NDIRECT + 1)%nat with 13%nat. cbn -[of_le u8 u16 s16 Z.div].
  repeat match goal with |- context [of_le [u8 ?z; u8 (?z / 256)]] => change (of_le [u8 z; u8 (z / 256)]) with (of_le (le16 z)) end.
  repeat match goal with |- context [of_le [u8 ?z; u8 (?z / 256); u8 (?z / 65536); u8 (?z / 16777216)]] =>
    change (of_le [u8 z; u8 (z / 256); u8 (z / 65536); u8 (z / 16777216)]) with (of_le (le32 z)) end.
  rewrite !of_le_le16, !of_le_le32. rewrite !s16_u16, !u32_small by done. done.
Qed.
