(* ===== verification/ConsoleDev.v ===== *)
(** ConsoleDev: console input and the console device, the second half of
    [console.c].

    [input] is a ring of INPUT_BUF characters with free-running indices:
    [r] read, [w] written (complete lines), [e] edited. *)

From S2P Require Import Prelude Layout State Spinlock Console Sched Bytes Sleeplock Ports Apic Disk Bio Log Fs.

Definition INPUT_BUF : Z := 128.
(** [C(x)], control-x *)
Definition ctrl (x : Z) : Z := x - 64.

Section console_dev.
Context {ENV : Env} {DRV : DiskDriver}.

Definition get_input {A} (f : input → A) : K A := gets (λ s, f (k_input s)).
Definition set_input (f : input → input) : K unit := modify (upd_k_input f).

Definition in_at (i : input) (k : Z) : Z := nth (Z.to_nat (u32 k mod INPUT_BUF)) (in_buf i) 0.

(** [while(input.e != input.w && input.buf[(input.e-1) % INPUT_BUF] != '\n')] *)
Fixpoint kill_line (fuel : nat) : K unit :=
  i ← get_input (λ i, i);
  if negb (in_e i =? in_w i) && negb (in_at i (in_e i - 1) =? 10) then
    match fuel with
    | O => nofuel
    | S fuel =>
        set_input (upd_in_e (λ e, u32 (e - 1)));;
        consputc BACKSPACE;;
        kill_line fuel
    end
  else mret tt.

(** One character of [consoleintr]; the result tells whether to call
    [procdump]. *)
Definition consoleintr_char (c : Z) : K bool :=
  if c =? ctrl 80 then mret true
  else if c =? ctrl 85 then kill_line (Z.to_nat INPUT_BUF);; mret false
  else if (c =? ctrl 72) || (c =? 127) then
    i ← get_input (λ i, i);
    whenb (negb (in_e i =? in_w i))
      (set_input (upd_in_e (λ e, u32 (e - 1)));;
       consputc BACKSPACE);;
    mret false
  else
    i ← get_input (λ i, i);
    whenb (negb (c =? 0) && (u32 (in_e i - in_r i) <? INPUT_BUF))
      (let c := if c =? 13 then 10 else c in
       set_input (upd_in_buf <[Z.to_nat (in_e i mod INPUT_BUF) := u8 c]>);;
       set_input (upd_in_e (λ e, u32 (e + 1)));;
       consputc c;;
       i ← get_input (λ i, i);
       whenb ((c =? 10) || (c =? ctrl 68) || (in_e i =? u32 (in_r i + INPUT_BUF)))
         (set_input (upd_in_w (λ _, in_e i));;
          wakeup Chan_input));;
    mret false.

(** [while((c = getc()) >= 0)] *)
Fixpoint consoleintr_loop (turns : nat) (getc : K Z) (doprocdump : bool) : K bool :=
  c ← getc;
  if c <? 0 then mret doprocdump else
  match turns with
  | O => nofuel
  | S turns => d ← consoleintr_char c; consoleintr_loop turns getc (doprocdump || d)
  end.

(** [turns] bounds the characters one interrupt delivers. *)
Definition consoleintr (procdump : K unit) (turns : nat) (getc : K Z) : K unit :=
  acquire L_cons;;
  d ← consoleintr_loop turns getc false;
  release L_cons;;
  (* now call procdump() wo. cons.lock held *)
  whenb d procdump.

(** [while(input.r == input.w)]; true when the process was killed. *)
Fixpoint consoleread_wait (n : nat) : K bool :=
  i ← get_input (λ i, i);
  if in_r i =? in_w i then
    p ← myproc;
    pr ← proc_at p;
    if negb (p_killed pr =? 0) then mret true else
    match n with
    | O => nofuel
    | S n => sleep Chan_input (Some L_cons);; consoleread_wait n
    end
  else mret false.

(** [while(n > 0)]: whether the process was killed, and what was stored. *)
Fixpoint consoleread_loop (n : nat) (target : nat) (acc : list Z) : K (bool * list Z) :=
  match n with
  | O => mret (false, acc)
  | S n' =>
      killed ← consoleread_wait env_turns;
      if (killed : bool) then mret (true, acc) else
      i ← get_input (λ i, i);
      let c := in_at i (in_r i) in
      set_input (upd_in_r (λ r, u32 (r + 1)));;
      if c =? ctrl 68 then
        (* Save ^D for next time, to make sure caller gets a 0-byte result. *)
        whenb (n <? target)%nat (set_input (upd_in_r (λ r, u32 (r - 1))));;
        mret (false, acc)
      else if c =? 10 then mret (false, acc ++ [c])
      else consoleread_loop n' target (acc ++ [c])
  end.

(** The return value and the bytes stored at [dst]. *)
Definition consoleread (ip : nat) (n : Z) : K (Z * list Z) :=
  iunlock (Some ip);;
  acquire L_cons;;
  '(killed, l) ← consoleread_loop (Z.to_nat n) (Z.to_nat n) [];
  release L_cons;;
  ilock (Some ip);;
  mret (if (killed : bool) then -1 else Z.of_nat (length l), l).

Definition consolewrite (ip : nat) (buf : list Z) : K Z :=
  iunlock (Some ip);;
  acquire L_cons;;
  consputs (u8 <$> buf);;
  release L_cons;;
  ilock (Some ip);;
  mret (Z.of_nat (length buf)).
End console_dev.

(** The entry of [devsw] is [dev_read] and [dev_write] of [Dir]. *)
Definition consoleinit {DEV : Device} : K unit :=
  initlock L_cons;;
  modify (upd_k_cons_locking (λ _, true));;
  Ioapic.ioapicenable IRQ_KBD 0.
