(* ===== verification/Kbd.v ===== *)
(** Kbd: the keyboard, [kbd.c] and the tables of [kbd.h].

    [kbdgetc] turns the scan codes the controller delivers into characters,
    keeping the modifier keys in [shift].  The theorem says that every ASCII
    character of the keyboard can be typed, and that typing leaves the
    modifiers as they were. *)

From S2P Require Import Prelude Layout State Spinlock Console Sched Ports Disk ConsoleDev.

Definition KBSTATP : Z := 0x64.
Definition KBS_DIB : Z := 0x01.
Definition KBDATAP : Z := 0x60.

Definition NO : Z := 0.
Definition SHIFT : Z := 1.
Definition CTL : Z := 2.
Definition ALT : Z := 4.
Definition CAPSLOCK : Z := 8.
Definition NUMLOCK : Z := 16.
Definition SCROLLLOCK : Z := 32.
Definition E0ESC : Z := 64.

Definition KEY_HOME : Z := 0xE0.
Definition KEY_END : Z := 0xE1.
Definition KEY_UP : Z := 0xE2.
Definition KEY_DN : Z := 0xE3.
Definition KEY_LF : Z := 0xE4.
Definition KEY_RT : Z := 0xE5.
Definition KEY_PGUP : Z := 0xE6.
Definition KEY_PGDN : Z := 0xE7.
Definition KEY_INS : Z := 0xE8.
Definition KEY_DEL : Z := 0xE9.

(** [C(x)] *)
Definition C (x : Z) : Z := x - 64.

(** A [uchar[256]] with its first elements and its designated ones. *)
Definition table (first : list Z) (designated : list (nat * Z)) : list Z :=
  u8 <$> foldl (λ t '(i, v), <[i := v]> t) (first ++ replicate (256 - length first) NO) designated.

Definition shiftcode : list Z :=
  table [] [(0x1D%nat, CTL); (0x2A%nat, SHIFT); (0x36%nat, SHIFT); (0x38%nat, ALT); (0x9D%nat, CTL); (0xB8%nat, ALT)].

Definition togglecode : list Z :=
  table [] [(0x3A%nat, CAPSLOCK); (0x45%nat, NUMLOCK); (0x46%nat, SCROLLLOCK)].

Definition cursor_keys : list (nat * Z) :=
  [(0xC8%nat, KEY_UP); (0xD0%nat, KEY_DN);
   (0xC9%nat, KEY_PGUP); (0xD1%nat, KEY_PGDN);
   (0xCB%nat, KEY_LF); (0xCD%nat, KEY_RT);
   (0x97%nat, KEY_HOME); (0xCF%nat, KEY_END);
   (0xD2%nat, KEY_INS); (0xD3%nat, KEY_DEL)].

Definition keypad : list Z := chars "789-456+1230.".

Definition normalmap : list Z :=
  table ([NO; 0x1B] ++ chars "1234567890-=" ++ [8; 9] ++ chars "qwertyuiop[]" ++ [10; NO] ++
         chars "asdfghjkl;'`" ++ [NO] ++ chars "\zxcvbnm,./" ++ [NO] ++ chars "*" ++ [NO] ++ chars " " ++
         replicate 13 NO ++ keypad)
    ([(0x9C%nat, 10); (0xB5%nat, chr "/")] ++ cursor_keys).

Definition shiftmap : list Z :=
  table ([NO; 0x1B] ++ chars "!@#$%^&*()_+" ++ [8; 9] ++ chars "QWERTYUIOP{}" ++ [10; NO] ++
         chars "ASDFGHJKL:" ++ [34] ++ chars "~" ++ [NO] ++ chars "|ZXCVBNM<>?" ++ [NO] ++ chars "*" ++ [NO] ++ chars " " ++
         replicate 13 NO ++ keypad)
    ([(0x9C%nat, 10); (0xB5%nat, chr "/")] ++ cursor_keys).

Definition ctlmap : list Z :=
  table (replicate 16 NO ++ (C <$> chars "QWERTYUIOP") ++ [NO; NO; 13; NO] ++ (C <$> chars "ASDFGHJKL") ++
         [NO; NO; NO; NO] ++ (C <$> chars "\ZXCVBNM") ++ [NO; NO; C (chr "/"); NO; NO])
    ([(0x9C%nat, 13); (0xB5%nat, C (chr "/"))] ++ cursor_keys).

Definition charcode : list (list Z) := [normalmap; shiftmap; ctlmap; ctlmap].

(** [if(shift & CAPSLOCK)] *)
Definition capslock (shift c : Z) : Z :=
  if Z.land shift CAPSLOCK =? 0 then c
  else if (chr "a" <=? c) && (c <=? chr "z") then c + (chr "A" - chr "a")
  else if (chr "A" <=? c) && (c <=? chr "Z") then c + (chr "a" - chr "A")
  else c.

(** One scan code: the new [shift] and the result; [None] for a read outside
    the tables. *)
Definition key_code (shift data : Z) : option (Z * Z) :=
  if data =? 0xE0 then Some (Z.lor shift E0ESC, 0)
  else if negb (Z.land data 0x80 =? 0) then
    (* Key released *)
    let data := if negb (Z.land shift E0ESC =? 0) then data else Z.land data 0x7F in
    sc ← shiftcode !! Z.to_nat data;
    Some (Z.land shift (u32 (Z.lnot (Z.lor sc E0ESC))), 0)
  else
    let esc := negb (Z.land shift E0ESC =? 0) in
    (* Last character was an E0 escape; or with 0x80 *)
    let data := if esc then Z.lor data 0x80 else data in
    let shift := if esc then Z.land shift (u32 (Z.lnot E0ESC)) else shift in
    sc ← shiftcode !! Z.to_nat data;
    let shift := Z.lor shift sc in
    tc ← togglecode !! Z.to_nat data;
    let shift := Z.lxor shift tc in
    m ← charcode !! Z.to_nat (Z.land shift (Z.lor CTL SHIFT));
    c ← m !! Z.to_nat data;
    Some (shift, capslock shift c).

Section kbd.
Context {DEV : Device}.

Definition kbdgetc : K Z :=
  st ← inb KBSTATP;
  if Z.land st KBS_DIB =? 0 then mret (-1) else
  data ← inb KBDATAP;
  shift ← gets (λ s, k_shift s);
  '(shift, c) ← deref (λ _, key_code shift data);
  modify (upd_k_shift (λ _, shift));;
  mret c.

(** [procdump] lists the processes on control-P. *)
Definition kbdintr (procdump : K unit) : K unit := consoleintr procdump dev_turns kbdgetc.

(** ** Bounds *)

Definition Zseq (n : nat) : list Z := Z.of_nat <$> seq 0 n.

Lemma elem_of_Zseq n z : z ∈ Zseq n ↔ 0 ≤ z < Z.of_nat n.
Proof.
  unfold Zseq. rewrite list_elem_of_fmap. split.
  - intros (k & -> & Hk). apply elem_of_seq in Hk. lia.
  - intros Hz. exists (Z.to_nat z). rewrite elem_of_seq. lia.
Qed.

(** The result of a scan code is a character, the new modifiers fit 7 bits. *)
Definition key_ok (r : option (Z * Z)) : bool :=
  match r with
  | Some (shift, c) => (0 <=? shift) && (shift <? 128) && (0 <=? c) && (c <? 256)
  | None => false
  end.

Lemma key_code_ok shift data : 0 ≤ shift < 128 → 0 ≤ data < 256 → key_ok (key_code shift data) = true.
Proof.
  intros Hs Hd.
  assert (forallb (λ sh, forallb (λ d, key_ok (key_code sh d)) (Zseq 256)) (Zseq 128) = true) as H by by vm_compute.
  rewrite forallb_forall in H. specialize (H shift). rewrite <-list_elem_of_In, elem_of_Zseq in H.
  specialize (H ltac:(lia)). rewrite forallb_forall in H. apply H.
  rewrite <-list_elem_of_In, elem_of_Zseq. lia.
Qed.

(** C29.  Whatever the keyboard controller answers, [kbdgetc] reads inside its
    tables, returns -1 or a character, and keeps the modifier keys in 7 bits. *)
Theorem kbdgetc_in_bounds s :
  0 ≤ k_shift s < 128 →
  ∃ c l sh, kbdgetc s = Ret c (upd_k_shift (λ _, sh) (logged l s)) ∧ -1 ≤ c < 256 ∧ 0 ≤ sh < 128.
Proof.
  intros Hs. unfold kbdgetc. erewrite bind_Ret; [|apply inb_ok]. cbn beta.
  destruct (Z.land _ KBS_DIB =? 0).
  { eexists (-1), _, (k_shift s). split; [|lia]. done. }
  erewrite bind_Ret; [|apply inb_ok]. cbn beta. rewrite logged_logged, bind_gets.
  set (data := u8 (dev_in _ KBDATAP)). assert (0 ≤ data < 256) as Hd by (apply Z.mod_pos_bound; lia).
  pose proof (key_code_ok (k_shift s) data Hs Hd) as Hok.
  change (k_shift (logged _ s)) with (k_shift s).
  destruct (key_code (k_shift s) data) as [[sh c]|] eqn:E; [|done]. simpl in Hok.
  rewrite (bind_deref _ _ _ (sh, c)) by done. msteps.
  eexists c, _, sh. split; [done|]. rewrite !andb_true_iff in Hok. lia.
Qed.
End kbd.

Lemma kbdgetc_in_bounds_witness :
  ∃ c l sh, @kbdgetc {| dev_in _ _ := 0x1f; dev_ins _ _ _ := 0; dev_rd _ _ := 0; dev_turns := 0 |} bss =
    Ret c (upd_k_shift (λ _, sh) (logged l bss)) ∧ -1 ≤ c < 256 ∧ 0 ≤ sh < 128.
Proof. apply kbdgetc_in_bounds. simpl. lia. Defined.

(** ** Typing *)

(** The key of a table that gives [c], below 0x80. *)
Definition key_of (m : list Z) (c : Z) : option Z :=
  Z.of_nat ∘ fst <$> list_find (λ x, x = c) (take 0x80 m).

(** The scan codes of typing [c]: press and release its key, with the left
    shift key when needed. *)
Definition strokes (c : Z) : list Z :=
  match key_of normalmap c, key_of shiftmap c with
  | Some k, _ => [k; k + 0x80]
  | None, Some k => [0x2A; k; k + 0x80; 0xAA]
  | None, None => []
  end.

(** Backspace, tab, newline, escape and the printable characters. *)
Definition typable (c : Z) : bool := (c =? 8) || (c =? 9) || (c =? 10) || (c =? 27) || ((32 <=? c) && (c <? 127)).

(** A keyboard that delivers the scan codes [codes], one per read of its data
    port. *)
Definition is_key_read (e : io) : bool := match e with In p _ => p =? KBDATAP | _ => false end.
Definition delivered (h : list io) : nat := length (List.filter is_key_read h).

Class Keyboard {DEV : Device} (codes : list Z) := {
  kbd_status h : Z.land (u8 (dev_in h KBSTATP)) KBS_DIB = if (delivered h <? length codes)%nat then 1 else 0;
  kbd_data h c : codes !! delivered h = Some c → u8 (dev_in h KBDATAP) = c;
  kbd_turns : (length codes ≤ dev_turns)%nat;
}.

Section typing.
Context {DEV : Device}.

(** The characters an interrupt handler gets until the keyboard is empty,
    keys that give none left out. *)
Fixpoint getchars (turns : nat) : K (list Z) :=
  c ← kbdgetc;
  if c <? 0 then mret [] else
  match turns with
  | O => nofuel
  | S turns => l ← getchars turns; mret (if c =? 0 then l else c :: l)
  end.

(** What the scan codes mean. *)
Fixpoint decode (shift : Z) (codes : list Z) : option (Z * list Z) :=
  match codes with
  | [] => Some (shift, [])
  | d :: codes =>
      '(shift, c) ← key_code shift d;
      '(shift, l) ← decode shift codes;
      Some (shift, if c =? 0 then l else c :: l)
  end.

Lemma decode_app l1 l2 sh1 sh2 sh3 r1 r2 :
  decode sh1 l1 = Some (sh2, r1) → decode sh2 l2 = Some (sh3, r2) → decode sh1 (l1 ++ l2) = Some (sh3, r1 ++ r2).
Proof.
  revert sh1 r1. induction l1 as [|d l1 IH]; intros sh1 r1 H1 H2; simpl in *; [by simplify_eq|].
  destruct (key_code sh1 d) as [[sh c]|]; [|done]. simpl in *.
  destruct (decode sh l1) as [[sh' l]|] eqn:E; [|done]. simpl in H1. simplify_eq.
  rewrite (IH _ _ E H2). simpl. by destruct (c =? 0).
Qed.

Lemma decode_strokes c : 0 ≤ c < 128 → typable c = true → decode 0 (strokes c) = Some (0, [c]).
Proof.
  intros Hc Ht.
  assert (forallb (λ c, implb (typable c) (bool_decide (decode 0 (strokes c) = Some (0, [c])))) (Zseq 128) = true) as H
    by by vm_compute.
  rewrite forallb_forall in H. specialize (H c). rewrite <-list_elem_of_In, elem_of_Zseq, Ht in H.
  specialize (H ltac:(lia)). by apply bool_decide_eq_true in H.
Qed.

Lemma typable_small c : typable c = true → 0 ≤ c < 128.
Proof. unfold typable. rewrite !orb_true_iff, andb_true_iff. lia. Qed.

Lemma decode_text text : Forall (λ c, typable c = true) text → decode 0 (text ≫= strokes) = Some (0, text).
Proof.
  induction 1 as [|c text Hc _ IH]; [done|]. apply (decode_app _ _ 0 0 0 [c] text); [|done].
  apply decode_strokes; [by apply typable_small|done].
Qed.

Lemma key_codes_small c k : typable c = true → k ∈ strokes c → 0 ≤ k < 256.
Proof.
  intros Ht Hk.
  assert (forallb (λ c, implb (typable c) (forallb (λ k, (0 <=? k) && (k <? 256)) (strokes c))) (Zseq 128) = true) as H
    by by vm_compute.
  rewrite forallb_forall in H. specialize (H c). rewrite <-list_elem_of_In, elem_of_Zseq, Ht in H.
  specialize (H (typable_small c Ht)). simpl in H. rewrite forallb_forall in H. specialize (H k).
  rewrite <-list_elem_of_In in H. specialize (H Hk). rewrite andb_true_iff in H. lia.
Qed.

Lemma delivered_app h l : delivered (h ++ l) = (delivered h + delivered l)%nat.
Proof. unfold delivered. by rewrite List.filter_app, length_app. Qed.

Context (codes : list Z) {KBD : Keyboard codes}.

(** One call, with the code [d] waiting. *)
Lemma kbdgetc_code s d sh c :
  codes !! delivered (k_io s) = Some d → key_code (k_shift s) d = Some (sh, c) →
  ∃ m, kbdgetc s = Ret c (upd_k_shift (λ _, sh) (logged m s)) ∧ delivered (k_io s ++ m) = S (delivered (k_io s)).
Proof.
  intros Hd Hk. unfold kbdgetc. erewrite bind_Ret; [|apply inb_ok]. cbn beta.
  rewrite (kbd_status (codes := codes)). destruct (Nat.ltb_spec (delivered (k_io s)) (length codes)) as [_|Hl];
    [|apply lookup_ge_None in Hl; congruence].
  cbn [Z.eqb]. erewrite bind_Ret; [|apply inb_ok]. cbn beta.
  set (st := In KBSTATP _). assert (delivered (k_io s ++ [st]) = delivered (k_io s)) as Hst
    by (rewrite delivered_app; change (delivered [st]) with 0%nat; lia).
  rewrite (kbd_data (codes := codes) _ d) by (by rewrite io_logged, Hst).
  rewrite logged_logged, bind_gets. rewrite (bind_deref _ _ _ (sh, c)) by exact Hk. msteps.
  eexists _. split; [done|]. rewrite app_assoc, delivered_app, Hst. change (delivered [In KBDATAP d]) with 1%nat. lia.
Qed.

Lemma kbdgetc_empty s :
  codes !! delivered (k_io s) = None → ∃ m, kbdgetc s = Ret (-1) (logged m s).
Proof.
  intros Hd. unfold kbdgetc. erewrite bind_Ret; [|apply inb_ok]. cbn beta.
  rewrite (kbd_status (codes := codes)). apply lookup_ge_None in Hd.
  destruct (Nat.ltb_spec (delivered (k_io s)) (length codes)); [lia|]. by eexists.
Qed.

Lemma getchars_ok turns : ∀ s sh l,
  (length codes ≤ delivered (k_io s) + turns)%nat →
  decode (k_shift s) (drop (delivered (k_io s)) codes) = Some (sh, l) → Forall (λ d, 0 ≤ d < 256) codes → 0 ≤ k_shift s < 128 →
  ∃ m, getchars turns s = Ret l (upd_k_shift (λ _, sh) (logged m s)).
Proof.
  induction turns as [|turns IH]; intros s sh l Hn Hdec Hc Hs; cbn [getchars].
  all: destruct (codes !! delivered (k_io s)) as [d|] eqn:E.
  1: apply lookup_lt_Some in E; lia.
  1,3: destruct (kbdgetc_empty s E) as (m & Hm); mrun Hm; rewrite drop_ge in Hdec by (by apply lookup_ge_None);
    simpl in Hdec; simplify_eq; exists m; done.
  rewrite (drop_S _ _ _ E) in Hdec. simpl in Hdec.
  destruct (key_code (k_shift s) d) as [[sh1 c]|] eqn:Ek; [|done]. simpl in Hdec.
  destruct (decode sh1 _) as [[sh2 l']|] eqn:Ed; [|done]. simpl in Hdec. simplify_eq.
  destruct (kbdgetc_code s d sh1 c E Ek) as (m & Hm & Hdl). mrun Hm.
  assert (0 ≤ d < 256) as Hd by (rewrite Forall_lookup in Hc; by eapply Hc).
  pose proof (key_code_ok _ _ Hs Hd) as Hok. rewrite Ek in Hok. simpl in Hok. rewrite !andb_true_iff in Hok.
  destruct (Z.ltb_spec c 0); [lia|].
  destruct (IH (upd_k_shift (λ _, sh1) (logged m s)) sh l') as (m' & Hm'); [..|mrun Hm'].
  - change (k_io _) with (k_io s ++ m). rewrite Hdl. lia.
  - change (k_io _) with (k_io s ++ m). by rewrite Hdl.
  - done.
  - simpl. lia.
  - exists (m ++ m'). unfold mret, M_ret. f_equal. apply kstate_eq; try reflexivity. simpl. by rewrite app_assoc.
Qed.
End typing.


Module KbdExample.
Definition text : list Z := chars "ls | wc > Out".
Definition codes : list Z := text ≫= strokes.
Definition device : Device := {|
  dev_in h p := if p =? KBSTATP then (if (delivered h <? length codes)%nat then 1 else 0)
                else default 0 (codes !! delivered h);
  dev_ins _ _ _ := 0; dev_rd _ _ := 0; dev_turns := 40 |}.

#[export] Instance keyboard : @Keyboard device codes.
Proof.
  split.
  - intros h. simpl. by destruct (_ <? _)%nat.
  - intros h c Hc. simpl. rewrite Hc. simpl.
    assert (Forall (λ c, 0 ≤ c < 256) codes) as Hall
      by (apply (bool_decide_unpack _); by vm_compute).
    rewrite Forall_lookup in Hall. apply Z.mod_small. by eapply Hall.
  - vm_compute. lia.
Qed.
End KbdExample.

