(* ===== verification/Screen.v ===== *)
(** Screen: console output on the hardware, [uart.c] and [cgaputc] and
    [consputc] of [console.c].

    The kernel's [consputc] sends every character to the serial port and to
    the text screen, whose cells are memory and whose cursor is in the
    registers of the display controller.  The abstract screen is a cursor
    and 24 lines of 80 cells; [putc] says what a character does to it. *)

From S2P Require Import Prelude Layout State Mem Spinlock Console Sched Ports Apic Disk ConsoleDev.

(** ** uart.c *)

Module Uart.
Definition COM1 : Z := 0x3f8.

Section uart.
Context {DEV : Device}.

(** [for(i = 0; i < 128 && !(inb(COM1+5) & 0x20); i++) microdelay(10);] *)
Fixpoint uartwait (n : nat) : K unit :=
  match n with
  | O => mret tt
  | S n =>
      v ← inb (COM1 + 5);
      if Z.land v 0x20 =? 0 then Lapic.microdelay 10;; uartwait n else mret tt
  end.

Definition uartputc (c : Z) : K unit :=
  uart ← gets (λ s, k_uart s);
  if negb uart then mret tt else
  uartwait 128;;
  outb COM1 c.

(** [for(p="xv6...\n"; *p; p++) uartputc( *p);] *)
Fixpoint uartputs (l : list Z) : K unit :=
  match l with
  | [] => mret tt
  | c :: l => uartputc c;; uartputs l
  end.

Definition uartinit : K unit :=
  (* Turn off the FIFO *)
  outb (COM1 + 2) 0;;
  (* 9600 baud, 8 data bits, 1 stop bit, parity off. *)
  outb (COM1 + 3) 0x80;;
  outb (COM1 + 0) (115200 / 9600);;
  outb (COM1 + 1) 0;;
  outb (COM1 + 3) 0x03;;
  outb (COM1 + 4) 0;;
  outb (COM1 + 1) 0x01;;
  (* If status is 0xFF, no serial port. *)
  v ← inb (COM1 + 5);
  if v =? 0xFF then mret tt else
  modify (upd_k_uart (λ _, true));;
  (* Acknowledge pre-existing interrupt conditions; enable interrupts. *)
  inb (COM1 + 2);;
  inb (COM1 + 0);;
  Ioapic.ioapicenable IRQ_COM1 0;;
  (* Announce that we're here. *)
  uartputs (chars ("xv6..." +:+ nl)).

Definition uartgetc : K Z :=
  uart ← gets (λ s, k_uart s);
  if negb uart then mret (-1) else
  v ← inb (COM1 + 5);
  if Z.land v 0x01 =? 0 then mret (-1) else
  inb COM1.

Definition uartintr (procdump : K unit) : K unit := consoleintr procdump dev_turns uartgetc.
End uart.
End Uart.

(** ** console.c: the screen *)

Module Cga.
Definition CRTPORT : Z := 0x3d4.
(** CGA memory *)
Definition crt : Z := P2V 0xb8000.

Section cga.
Context {DEV : Device}.

(** [crt[pos] = v], a [ushort] *)
Definition crt_set (pos v : Z) : K unit :=
  modify (upd_k_mem (λ m, store_bytes m (crt + 2 * pos) [u8 v; u8 (v / 256)])).

Definition cgaputc (c : Z) : K unit :=
  (* Cursor position: col + 80*row. *)
  outb CRTPORT 14;;
  hi ← inb (CRTPORT + 1);
  outb CRTPORT 15;;
  lo ← inb (CRTPORT + 1);
  let pos := Z.lor (Z.shiftl hi 8) lo in
  pos ← (if c =? 10 then mret (pos + (80 - Z.rem pos 80))
         else if c =? BACKSPACE then mret (if 0 <? pos then pos - 1 else pos)
         else crt_set pos (Z.lor (Z.land c 0xff) 0x0700);; mret (pos + 1)); (* black on white *)
  if (pos <? 0) || (25 * 80 <? pos) then panic "pos under/overflow" else
  pos ← (if 24 <=? Z.quot pos 80 then (* Scroll up. *)
           modify (upd_k_mem (λ m, memmove m crt (crt + 2 * 80) (2 * (23 * 80))));;
           let pos := pos - 80 in
           modify (upd_k_mem (λ m, memset m (crt + 2 * pos) 0 (u32 (2 * (24 * 80 - pos)))));;
           mret pos
         else mret pos);
  outb CRTPORT 14;;
  outb (CRTPORT + 1) (Z.shiftr pos 8);;
  outb CRTPORT 15;;
  outb (CRTPORT + 1) pos;;
  crt_set pos (Z.lor 32 0x0700).

Definition consputc (c : Z) : K unit :=
  (if c =? BACKSPACE then Uart.uartputc 8;; Uart.uartputc 32;; Uart.uartputc 8 else Uart.uartputc c);;
  cgaputc c.

Fixpoint consputs (l : list Z) : K unit :=
  match l with
  | [] => mret tt
  | c :: l => consputc c;; consputs l
  end.
End cga.
End Cga.

(** ** The abstract screen *)

Module Display.
(** 24 lines of 80 cells, a cell holding the attribute 7 and a character. *)
Definition screen : Type := Z * list Z.

Definition advance (c : Z) (sc : screen) : screen :=
  let '(pos, t) := sc in
  if c =? 10 then (80 * (pos / 80 + 1), t)
  else if c =? BACKSPACE then (Z.max 0 (pos - 1), t)
  else (pos + 1, <[Z.to_nat pos := 0x700 + c mod 256]> t).

Definition scroll (sc : screen) : screen :=
  let '(pos, t) := sc in
  if pos <? 24 * 80 then sc else (pos - 80, drop 80 t ++ replicate 80 0).

(** A blank marks the cursor. *)
Definition putc (sc : screen) (c : Z) : screen :=
  let '(pos, t) := scroll (advance c sc) in (pos, <[Z.to_nat pos := 0x720]> t).

Definition on_screen (sc : screen) : Prop := 0 ≤ sc.1 < 24 * 80 ∧ length sc.2 = 1920%nat.

Lemma advance_bounds c sc : on_screen sc → 0 ≤ (advance c sc).1 ≤ 24 * 80 ∧ length (advance c sc).2 = 1920%nat.
Proof.
  destruct sc as [pos t]. intros [Hp Ht]. simpl in *. unfold advance.
  destruct (c =? 10); [|destruct (c =? BACKSPACE)]; simpl; rewrite ?length_insert; split; try done; try lia.
  assert (pos / 80 < 24) by (apply Z.div_lt_upper_bound; lia). pose proof (Z.div_pos pos 80 ltac:(lia) ltac:(lia)). lia.
Qed.

Lemma putc_on_screen c sc : on_screen sc → on_screen (putc sc c).
Proof.
  intros H. pose proof (advance_bounds c sc H) as [Hp Ht]. unfold putc, scroll.
  destruct (advance c sc) as [pos t]. cbn [fst snd] in *.
  unfold on_screen. change (24 * 80) with 1920 in *. destruct (Z.ltb_spec pos 1920); split; cbn [fst snd]; rewrite ?length_insert, ?length_app, ?length_drop, ?length_replicate; lia.
Qed.

(** The display controller: port 0x3d4 selects a register, 0x3d5 accesses
    it; registers 14 and 15 hold the cursor. *)
Record crtc := MkCrtc { x_index : Z; x_hi : Z; x_lo : Z }.

Definition step (x : crtc) (e : io) : crtc :=
  match e with
  | Out p v =>
      if p =? 0x3d4 then MkCrtc (u8 v) (x_hi x) (x_lo x)
      else if p =? 0x3d5 then
        if x_index x =? 14 then MkCrtc (x_index x) (u8 v) (x_lo x)
        else if x_index x =? 15 then MkCrtc (x_index x) (x_hi x) (u8 v)
        else x
      else x
  | _ => x
  end.

Class CursorDevice {DEV : Device} := {
  x_start : crtc;
  crtc_after (h : list io) : crtc := fold_left step h x_start;
  crtc_hi h : x_index (crtc_after h) = 14 → u8 (dev_in h 0x3d5) = x_hi (crtc_after h);
  crtc_lo h : x_index (crtc_after h) = 15 → u8 (dev_in h 0x3d5) = x_lo (crtc_after h);
}.

Section display.
Context {DEV : Device} {CUR : CursorDevice}.

Definition cursor (h : list io) : Z := 256 * x_hi (crtc_after h) + x_lo (crtc_after h).

(** The cells of the screen. *)
Definition cell (m : gmap Z Z) (k : nat) : Z :=
  ldb m (Cga.crt + 2 * Z.of_nat k) + 256 * ldb m (Cga.crt + 2 * Z.of_nat k + 1).
Definition cells (m : gmap Z Z) : list Z := map (cell m) (seq 0 1920).

Definition screen_of (s : kstate) : screen := (cursor (k_io s), cells (k_mem s)).

(** The characters sent on the serial line. *)
Definition sent (h : list io) : list Z :=
  omap (λ e, match e with Out p v => if p =? Uart.COM1 then Some v else None | _ => None end) h.

Definition serial (c : Z) : list Z := if c =? BACKSPACE then [8; 32; 8] else [u8 c].

(** ** The serial port *)

(** Accesses that leave the display controller alone. *)
Definition away_from_crtc (l : list io) : Prop := ∀ x, fold_left step l x = x.

Lemma sent_app h l : sent (h ++ l) = sent h ++ sent l.
Proof. apply omap_app. Qed.

Lemma uartwait_ok n s :
  ∃ l, Uart.uartwait n s = Ret tt (logged l s) ∧ sent l = [] ∧ away_from_crtc l ∧ (length l ≤ n)%nat.
Proof.
  revert s. induction n as [|n IH]; intros s; cbn [Uart.uartwait].
  { exists []. by rewrite logged_nil. }
  erewrite bind_Ret; [|apply inb_ok]. cbn beta. set (e := In _ _).
  destruct (Z.land _ 0x20 =? 0).
  - unfold Lapic.microdelay. msteps. destruct (IH (logged [e] s)) as (l & Hr & Hs & Ha & Hl).
    exists (e :: l). rewrite Hr, logged_logged. split_and!; [done|done|done|simpl; lia].
  - exists [e]. split_and!; [done|done|done|simpl; lia].
Qed.

Lemma uartputc_ok c s :
  ∃ l, Uart.uartputc c s = Ret tt (logged l s) ∧ sent l = (if k_uart s then [u8 c] else []) ∧ away_from_crtc l.
Proof.
  unfold Uart.uartputc. rewrite bind_gets. destruct (k_uart s); cbn [negb].
  - destruct (uartwait_ok 128 s) as (l & Hr & Hs & Ha & _). mrun Hr. rewrite outb_ok, logged_logged.
    eexists. split_and!; [done|by rewrite sent_app, Hs|]. intros x. by rewrite fold_left_app, Ha.
  - exists []. by rewrite logged_nil.
Qed.

Lemma uart_part c s :
  ∃ l, (if c =? BACKSPACE then Uart.uartputc 8;; Uart.uartputc 32;; Uart.uartputc 8 else Uart.uartputc c) s =
       Ret tt (logged l s) ∧ sent l = (if k_uart s then serial c else []) ∧ away_from_crtc l.
Proof.
  unfold serial. destruct (c =? BACKSPACE); [|apply uartputc_ok].
  destruct (uartputc_ok 8 s) as (l1 & H1 & S1 & A1).
  destruct (uartputc_ok 32 (logged l1 s)) as (l2 & H2 & S2 & A2).
  destruct (uartputc_ok 8 (logged l2 (logged l1 s))) as (l3 & H3 & S3 & A3).
  mrun H1. mrun H2. rewrite H3, !logged_logged. eexists. split_and!; [done| |].
  - rewrite !sent_app, S1, S2, S3. simpl. by destruct (k_uart s).
  - intros x. by rewrite !fold_left_app, A1, A2, A3.
Qed.

(** ** The cells *)

Lemma lookup_cells m k : cells m !! k = if decide (k < 1920)%nat then Some (cell m k) else None.
Proof.
  unfold cells. rewrite list_lookup_fmap. case_decide.
  - by rewrite lookup_seq_lt.
  - rewrite lookup_seq_ge by lia. done.
Qed.

Lemma crt_eq : Cga.crt = 2148237312.
Proof. done. Qed.

Definition outside_crt (m m' : gmap Z Z) : Prop :=
  ∀ x, ¬ (Cga.crt ≤ x < Cga.crt + 2 * 1920) → ldb m' x = ldb m x.

Lemma cells_set m pos v :
  0 ≤ pos < 1920 → 0 ≤ v < 65536 →
  let m' := store_bytes m (Cga.crt + 2 * pos) [u8 v; u8 (v / 256)] in
  cells m' = <[Z.to_nat pos := v]> (cells m) ∧ outside_crt m m'.
Proof.
  intros Hp Hv m'. split.
  - apply list_eq. intros k. rewrite lookup_cells. destruct (decide (k = Z.to_nat pos)) as [->|Hne].
    + rewrite list_lookup_insert_eq by (unfold cells; rewrite length_map, length_seq; lia).
      rewrite decide_True by lia. f_equal. unfold cell, m'. rewrite crt_eq, !ldb_store_bytes. cbn [length].
      rewrite !decide_True by lia. rewrite Z2Nat.id by lia.
      replace (Z.to_nat (2148237312 + 2 * pos - (2148237312 + 2 * pos))) with 0%nat by lia.
      replace (Z.to_nat (2148237312 + 2 * pos + 1 - (2148237312 + 2 * pos))) with 1%nat by lia. cbn [nth].
      unfold u8. rewrite !Zmod_mod. rewrite (Z.mod_small (v / 256)) by (split; [apply Z.div_pos; lia|apply Z.div_lt_upper_bound; lia]).
      pose proof (Z.div_mod v 256 ltac:(lia)). lia.
    + rewrite list_lookup_insert_ne, lookup_cells by done. case_decide; [|done]. f_equal.
      unfold cell, m'. rewrite crt_eq, !ldb_store_bytes. cbn [length].
      rewrite !decide_False by lia. done.
  - intros x Hx. rewrite crt_eq in Hx. unfold m'. rewrite crt_eq, ldb_store_bytes. cbn [length]. by rewrite decide_False by lia.
Qed.

Lemma ldb_memset_zero m dst n x :
  0 ≤ dst < two32 → 0 ≤ n → dst mod 4 = 0 → n mod 4 = 0 →
  ldb (memset m dst 0 n) x = if decide (dst ≤ x < dst + n) then 0 else ldb m x.
Proof.
  intros Hd Hn H4 Hn4. unfold ldb. assert (word_of x mod 4 = 0) as Hw.
  { unfold word_of. rewrite Zminus_mod_idemp_r, Z.sub_diag. done. }
  rewrite ld32_memset_zero by done. pose proof (Z.mod_pos_bound x 4 eq_refl).
  apply Z.mod_divide in H4 as [a ->], Hn4 as [b ->]; try done. unfold word_of in *.
  pose proof (Z.div_mod x 4 ltac:(lia)). repeat case_decide; try lia. by rewrite Z.shiftr_0_l.
Qed.

(** Scrolling up from the end of the last line. *)
Lemma cells_scroll m :
  let m' := memset (memmove m Cga.crt (Cga.crt + 2 * 80) (2 * (23 * 80))) (Cga.crt + 2 * 1840) 0 (u32 (2 * (24 * 80 - 1840))) in
  cells m' = drop 80 (cells m) ++ replicate 80 0 ∧ outside_crt m m'.
Proof.
  intros m'. assert (∀ x, ldb m' x = if decide (2148240992 ≤ x < 2148241152) then 0
    else if decide (2148237312 ≤ x < 2148240992) then ldb m (x + 160) else ldb m x) as Hldb.
  { intros x. unfold m'. rewrite crt_eq. change (u32 (2 * (24 * 80 - 1840))) with 160.
    change (2148237312 + 2 * 1840) with 2148240992. rewrite ldb_memset_zero by (done || unfold two32; lia).
    change (2148240992 + 160) with 2148241152. case_decide; [done|].
    change (2 * (23 * 80)) with 3680. change (2 * 80) with 160. rewrite ldb_memmove by (unfold two32; lia).
    change (2148237312 + 3680) with 2148240992. case_decide; [|done]. f_equal. lia. }
  split.
  - apply list_eq. intros k. rewrite lookup_cells. unfold cell. rewrite !Hldb, crt_eq.
    case_decide as Hk; [|rewrite lookup_ge_None_2; [done|rewrite length_app, length_drop, length_replicate; unfold cells; rewrite length_map, length_seq; lia]].
    destruct (decide (k < 1840)%nat).
    + rewrite lookup_app_l by (rewrite length_drop; unfold cells; rewrite length_map, length_seq; lia).
      rewrite lookup_drop, lookup_cells. repeat first [rewrite decide_False by lia|rewrite decide_True by lia].
      f_equal. unfold cell. rewrite crt_eq. f_equal; [|f_equal]; f_equal; lia.
    + rewrite lookup_app_r by (rewrite length_drop; unfold cells; rewrite length_map, length_seq; lia).
      rewrite length_drop. unfold cells at 1. rewrite length_map, length_seq, lookup_replicate_2 by lia.
      by rewrite !decide_True by lia.
  - intros x Hx. rewrite crt_eq in Hx. rewrite Hldb, !decide_False by lia. done.
Qed.

#[local] Opaque memset memmove store_bytes.

Lemma outside_trans m1 m2 m3 : outside_crt m1 m2 → outside_crt m2 m3 → outside_crt m1 m3.
Proof. intros H1 H2 x Hx. by rewrite H2, H1. Qed.

(** ** The cursor *)

Lemma crtc_after_app h l : crtc_after (h ++ l) = fold_left step l (crtc_after h).
Proof. apply fold_left_app. Qed.

Lemma lor_bytes hi lo : 0 ≤ lo < 256 → Z.lor (Z.shiftl hi 8) lo = 256 * hi + lo.
Proof.
  intros Hl. rewrite Z.lor_comm, <-(Z.lxor_lor lo), <-Z.add_nocarry_lxor;
    [rewrite Z.shiftl_mul_pow2 by lia; change (2 ^ 8) with 256; lia|..];
    apply Z.bits_inj'; intros j Hj; rewrite Z.land_spec, Z.bits_0, Z.shiftl_spec by done;
    (destruct (Z.ltb_spec j 8); [rewrite (Z.testbit_neg_r _ (j - 8)) by lia; apply andb_false_r|];
     rewrite (Z.bits_above_log2 lo); [done|lia|]; destruct (decide (lo = 0)) as [->|]; [simpl; lia|];
     apply Z.log2_lt_pow2; [lia|]; apply Z.lt_le_trans with (2 ^ 8); [lia|apply Z.pow_le_mono_r; lia]).
Qed.

(** Reading the cursor, and writing it. *)
Lemma read_cursor {A} (k : Z → Z → K A) s :
  ∃ l hi lo, (outb Cga.CRTPORT 14;;
        hi ← inb (Cga.CRTPORT + 1);
        outb Cga.CRTPORT 15;;
        lo ← inb (Cga.CRTPORT + 1);
        k hi lo) s = k hi lo (logged l s) ∧ Z.lor (Z.shiftl hi 8) lo = cursor (k_io s) ∧ sent l = [].
Proof.
  mrun (outb_ok Cga.CRTPORT 14 s). erewrite bind_Ret; [|apply inb_ok]. cbn beta.
  erewrite bind_Ret; [|apply outb_ok]. cbn beta. erewrite bind_Ret; [|apply inb_ok]. cbn beta.
  rewrite !logged_logged, !io_logged. change (Cga.CRTPORT + 1) with 0x3d5.
  set (hi := u8 (dev_in (k_io s ++ [Out Cga.CRTPORT (u8 14)]) 0x3d5)).
  set (h := k_io s ++ _). set (lo := u8 (dev_in h 0x3d5)).
  assert (hi = x_hi (crtc_after (k_io s))) as Hhi.
  { unfold hi. rewrite crtc_hi; rewrite crtc_after_app; done. }
  assert (lo = x_lo (crtc_after (k_io s))) as Hlo.
  { unfold lo, h. rewrite crtc_lo; rewrite crtc_after_app; done. }
  eexists _, hi, lo. split; [reflexivity|]. rewrite lor_bytes by (apply Z.mod_pos_bound; lia). by rewrite Hhi, Hlo.
Qed.

Lemma write_cursor pos s :
  0 ≤ pos < 1920 →
  ∃ l, (outb Cga.CRTPORT 14;;
        outb (Cga.CRTPORT + 1) (Z.shiftr pos 8);;
        outb Cga.CRTPORT 15;;
        outb (Cga.CRTPORT + 1) pos;;
        Cga.crt_set pos (Z.lor 32 0x0700)) s =
      Ret tt (upd_k_mem (λ m, store_bytes m (Cga.crt + 2 * pos) [u8 0x720; u8 (0x720 / 256)]) (logged l s)) ∧
    sent l = [] ∧ ∀ h, cursor (h ++ l) = pos.
Proof.
  intros Hp. do 4 (erewrite bind_Ret; [|apply outb_ok]; cbn beta). rewrite !logged_logged.
  eexists. split; [unfold Cga.crt_set, modify; change (Z.lor 32 0x700) with 0x720; reflexivity|].
  split; [done|]. intros h. unfold cursor. rewrite crtc_after_app. cbn -[u8 Z.shiftr Z.mul Z.add].
  unfold u8. rewrite !Zmod_mod, Z.shiftr_div_pow2 by lia. change (2 ^ 8) with 256.
  rewrite (Z.mod_small (pos / 256)) by (split; [apply Z.div_pos; lia|apply Z.div_lt_upper_bound; lia]).
  symmetry. apply Z.div_mod. lia.
Qed.

Lemma land_lor_attr c : Z.lor (Z.land c 0xff) 0x0700 = 0x700 + c mod 256.
Proof.
  change 0xff with (Z.ones 8). rewrite Z.land_ones by lia. change (2 ^ 8) with 256. change 0x700 with (Z.shiftl 7 8).
  rewrite Z.lor_comm, lor_bytes by (apply Z.mod_pos_bound; lia). done.
Qed.

Lemma mem_twice f g s : upd_k_mem f (upd_k_mem g s) = upd_k_mem (λ _, f (g (k_mem s))) s.
Proof. done. Qed.

(** The character itself. *)
Lemma advance_ok {A} c (k : Z → K A) pos s :
  on_screen (pos, cells (k_mem s)) →
  ∃ m', (pos ← (if c =? 10 then mret (pos + (80 - Z.rem pos 80))
                else if c =? BACKSPACE then mret (if 0 <? pos then pos - 1 else pos)
                else Cga.crt_set pos (Z.lor (Z.land c 0xff) 0x0700);; mret (pos + 1)); k pos) s =
        k (advance c (pos, cells (k_mem s))).1 (upd_k_mem (λ _, m') s) ∧
    cells m' = (advance c (pos, cells (k_mem s))).2 ∧ outside_crt (k_mem s) m'.
Proof.
  intros [Hp _]. cbn [fst snd] in Hp. unfold advance. destruct (c =? 10); [|destruct (c =? BACKSPACE)]; cbn [fst snd].
  - exists (k_mem s). split_and!; [|done|done]. rewrite bind_ret.
    replace (pos + (80 - Z.rem pos 80)) with (80 * (pos / 80 + 1)); [done|].
    rewrite Z.rem_mod_nonneg by lia. pose proof (Z.div_mod pos 80 ltac:(lia)). lia.
  - exists (k_mem s). split_and!; [|done|done]. rewrite bind_ret.
    replace (Z.max 0 (pos - 1)) with (if 0 <? pos then pos - 1 else pos); [done|]. destruct (Z.ltb_spec 0 pos); lia.
  - rewrite land_lor_attr. destruct (cells_set (k_mem s) pos (0x700 + c mod 256)) as [Hc Ho]; [lia| |].
    { pose proof (Z.mod_pos_bound c 256 eq_refl). lia. }
    eexists. split; [|split; [exact Hc|exact Ho]]. unfold Cga.crt_set. by msteps.
Qed.

Lemma scroll_ok {A} (k : Z → K A) pos s :
  0 ≤ pos ≤ 1920 →
  ∃ m', (pos ← (if 24 <=? Z.quot pos 80 then
                  modify (upd_k_mem (λ m, memmove m Cga.crt (Cga.crt + 2 * 80) (2 * (23 * 80))));;
                  let pos := pos - 80 in
                  modify (upd_k_mem (λ m, memset m (Cga.crt + 2 * pos) 0 (u32 (2 * (24 * 80 - pos)))));;
                  mret pos
                else mret pos); k pos) s =
        k (scroll (pos, cells (k_mem s))).1 (upd_k_mem (λ _, m') s) ∧
    cells m' = (scroll (pos, cells (k_mem s))).2 ∧ outside_crt (k_mem s) m'.
Proof.
  intros Hp. rewrite Z.quot_div_nonneg by lia. unfold scroll. destruct (Z.ltb_spec pos (24 * 80)); cbn [fst snd].
  - assert (pos / 80 < 24) by (apply Z.div_lt_upper_bound; lia). destruct (Z.leb_spec 24 (pos / 80)); [lia|].
    exists (k_mem s). by rewrite bind_ret.
  - assert (pos = 1920) as -> by lia. change (24 <=? 1920 / 80) with true. cbn beta iota zeta.
    change (1920 - 80) with 1840. destruct (cells_scroll (k_mem s)) as [Hc Ho]. eexists. split; [|split; [exact Hc|exact Ho]].
    msteps. by rewrite mem_twice.
Qed.

Lemma cgaputc_ok c s :
  on_screen (screen_of s) →
  ∃ m' l, Cga.cgaputc c s = Ret tt (upd_k_mem (λ _, m') (logged l s)) ∧
    screen_of (upd_k_mem (λ _, m') (logged l s)) = putc (screen_of s) c ∧ sent l = [] ∧ outside_crt (k_mem s) m'.
Proof.
  intros Hon. pose proof (advance_bounds c _ Hon) as [Hb _].
  pose proof (putc_on_screen c _ Hon) as [Hfin _]. unfold putc in *. unfold Cga.cgaputc.
  edestruct @read_cursor as (l1 & hi & lo & -> & -> & Hs1). cbn zeta.
  edestruct @advance_ok as (m1 & -> & Hm1 & Ho1); [exact Hon|].
  change (cursor (k_io s), cells (k_mem (logged l1 s))) with (screen_of s) in *.
  set (sc1 := advance c (screen_of s)) in *.
  destruct (Z.ltb_spec sc1.1 0); [lia|]. destruct (Z.ltb_spec (25 * 80) sc1.1); [lia|]. cbn [orb].
  edestruct @scroll_ok as (m2 & -> & Hm2 & Ho2); [exact Hb|].
  change (cells (k_mem (upd_k_mem (λ _, m1) (logged l1 s)))) with (cells m1) in *. rewrite Hm1 in *.
  change (k_mem (upd_k_mem (λ _, m1) (logged l1 s))) with m1 in Ho2.
  rewrite <-surjective_pairing in *. destruct (scroll sc1) as [pos t]. cbn [fst snd] in *.
  destruct (write_cursor pos (upd_k_mem (λ _, m2) (upd_k_mem (λ _, m1) (logged l1 s))) Hfin) as (l2 & -> & Hs2 & Hc2).
  destruct (cells_set m2 pos 0x720) as [Hc3 Ho3]; [done|lia|].
  eexists _, (l1 ++ l2). split; [|split; [|split]].
  - rewrite <-logged_logged. reflexivity.
  - unfold screen_of. simpl. rewrite app_assoc, Hc2. rewrite <-Hm2, <-Hc3. done.
  - by rewrite sent_app, Hs1, Hs2.
  - eapply outside_trans, outside_trans; [exact Ho1|exact Ho2|exact Ho3].
Qed.

Lemma consputc_ok c s :
  on_screen (screen_of s) →
  ∃ m' l, Cga.consputc c s = Ret tt (upd_k_mem (λ _, m') (logged l s)) ∧
    screen_of (upd_k_mem (λ _, m') (logged l s)) = putc (screen_of s) c ∧
    sent l = (if k_uart s then serial c else []) ∧ outside_crt (k_mem s) m'.
Proof.
  intros Hon. unfold Cga.consputc. destruct (uart_part c s) as (l1 & Hr1 & Hs1 & Ha1). mrun Hr1.
  assert (screen_of (logged l1 s) = screen_of s) as Hsc.
  { unfold screen_of, cursor. rewrite io_logged, crtc_after_app, Ha1. done. }
  destruct (cgaputc_ok c (logged l1 s)) as (m' & l2 & Hr2 & Hp2 & Hs2 & Ho2); [by rewrite Hsc|].
  exists m', (l1 ++ l2). rewrite Hr2, logged_logged. split_and!; [done| |by rewrite sent_app, Hs1, Hs2, app_nil_r|done].
  by rewrite <-Hsc, <-Hp2, logged_logged.
Qed.

End display.
End Display.

(** A display and a serial port that is always ready. *)
Module DisplayExample.
Import Display.
Definition device : Device := {|
  dev_in h p :=
    if p =? 0x3d5 then
      let x := fold_left step h (MkCrtc 0 0 0) in if x_index x =? 14 then x_hi x else x_lo x
    else 0x20;
  dev_ins _ _ _ := 0; dev_rd _ _ := 0; dev_turns := 0 |}.

Lemma after_bytes h : let x := fold_left step h (MkCrtc 0 0 0) in 0 ≤ x_hi x < 256 ∧ 0 ≤ x_lo x < 256.
Proof.
  induction h as [|e h IH] using rev_ind; [done|]. rewrite fold_left_app. cbn [fold_left]. unfold step at 1 3.
  destruct e; simpl; try done. unfold u8. repeat case_match; simpl; split; try apply IH; apply Z.mod_pos_bound; lia.
Qed.

#[local] Existing Instance device.
#[export] Instance display : CursorDevice.
Proof.
  unshelve econstructor; [exact (MkCrtc 0 0 0)|..]; intros h Hi; simpl; rewrite Hi; simpl;
    apply Z.mod_small, after_bytes.
Defined.

Definition state : kstate := upd_k_uart (λ _, true) bss.
End DisplayExample.

