(* ===== verification/Path.v ===== *)
(** Path: splitting path names, [skipelem] of [fs.c]. *)

From S2P Require Import Prelude Layout Bytes CString.

(** ['/'] *)
Definition slash : Z := 47.

(** [while( *path == '/') path++;] *)
Fixpoint skip_slashes (path : list Z) : option (list Z) :=
  match path with
  | [] => None
  | c :: t => if c =? slash then skip_slashes t else Some path
  end.

(** [while( *path != '/' && *path != 0) path++;]: the bytes passed over, and
    the new [path]. *)
Fixpoint take_elem (path : list Z) : option (list Z * list Z) :=
  match path with
  | [] => None
  | c :: t =>
      if negb (c =? slash) && negb (c =? 0) then
        '(e, r) ← take_elem t; Some (c :: e, r)
      else Some ([], path)
  end.

(** The new contents of [name], a buffer of DIRSIZ bytes, and the rest of
    the path; [Some None] is a NULL result, [None] a read past the end. *)
Definition skipelem (path name : list Z) : option (option (list Z * list Z)) :=
  path ← skip_slashes path;
  c ← head path;
  if c =? 0 then Some None else
  '(s, path) ← take_elem path;
  let name :=
    if (Z.to_nat DIRSIZ <=? length s)%nat then splice name 0 (take (Z.to_nat DIRSIZ) s)
    else splice name 0 (s ++ [0]) in
  path ← skip_slashes path;
  Some (Some (path, name)).
