(* ===== verification/Dir.v ===== *)
(** Dir: file contents, directories and path lookup, the second half of
    [fs.c].

    A destination buffer is returned as a list of bytes, a source buffer is
    passed as one. *)

From S2P Require Import Prelude Layout State Spinlock Console Sched Bytes CString Path Sleeplock Disk Bio Log Fs ConsoleDev.

Section dir.
Context {ENV : Env} {DRV : DiskDriver}.

(** A pure computation that may read outside an object. *)
Definition lift {A} (o : option A) : K A := match o with Some a => mret a | None => undef end.

(** ** Content *)

(** [devsw]: only the console is registered, by [consoleinit]. *)
Definition CONSOLE : Z := 1.
Definition devsw_read (major : Z) : option (nat → Z → K (Z * list Z)) :=
  if (major <? 0) || (NDEV <=? major) then None
  else if major =? CONSOLE then Some consoleread else None.
Definition devsw_write (major : Z) : option (nat → list Z → K Z) :=
  if (major <? 0) || (NDEV <=? major) then None
  else if major =? CONSOLE then Some consolewrite else None.

(** [for(tot=0; tot<n; tot+=m, off+=m, dst+=m)]: the bytes stored at [dst] *)
Fixpoint readi_loop (fuel : nat) (ip : nat) (tot off n : Z) (acc : list Z) : K (list Z) :=
  if tot <? n then
    match fuel with
    | O => nofuel
    | S fuel =>
        x ← inode_at ip;
        addr ← bmap ip (off / BSIZE);
        bp ← bread (i_dev x) addr;
        let m := Z.min (n - tot) (BSIZE - off mod BSIZE) in
        b ← buf_at bp;
        let bs := slice (b_data b) (Z.to_nat (off mod BSIZE)) (Z.to_nat m) in
        brelse bp;;
        readi_loop fuel ip (tot + m) (off + m) n (acc ++ bs)
    end
  else mret acc.

(** The return value and the bytes stored at [dst]. *)
Definition readi (ip : nat) (off n : Z) : K (Z * list Z) :=
  x ← inode_at ip;
  if i_type x =? T_DEV then
    match devsw_read (i_major x) with
    | None => mret (-1, [])
    | Some read => read ip n
    end
  else
  if (i_size x <? off) || (u32 (off + n) <? off) then mret (-1, []) else
  let n := if i_size x <? u32 (off + n) then i_size x - off else n in
  bs ← readi_loop (Z.to_nat (n / BSIZE + 2)) ip 0 off n [];
  mret (n, bs).

(** [for(tot=0; tot<n; tot+=m, off+=m, src+=m)]: the final [off] *)
Fixpoint writei_loop (fuel : nat) (ip : nat) (tot off n : Z) (src : list Z) : K Z :=
  if tot <? n then
    match fuel with
    | O => nofuel
    | S fuel =>
        x ← inode_at ip;
        addr ← bmap ip (off / BSIZE);
        bp ← bread (i_dev x) addr;
        let m := Z.min (n - tot) (BSIZE - off mod BSIZE) in
        set_data bp (λ d, splice d (Z.to_nat (off mod BSIZE)) (take (Z.to_nat m) src));;
        log_write bp;;
        brelse bp;;
        writei_loop fuel ip (tot + m) (off + m) n (drop (Z.to_nat m) src)
    end
  else mret off.

Definition writei (ip : nat) (src : list Z) (off : Z) : K Z :=
  let n := Z.of_nat (length src) in
  x ← inode_at ip;
  if i_type x =? T_DEV then
    match devsw_write (i_major x) with
    | None => mret (-1)
    | Some write => write ip src
    end
  else
  if (i_size x <? off) || (u32 (off + n) <? off) then mret (-1) else
  if MAXFILE * BSIZE <? u32 (off + n) then mret (-1) else
  off ← writei_loop (Z.to_nat (n / BSIZE + 2)) ip 0 off n src;
  x ← inode_at ip;
  whenb ((0 <? n) && (i_size x <? off))
    (set_inode ip (upd_i_size (λ _, off));;
     iupdate ip);;
  mret n.

(** ** Directories *)

Definition namecmp (s t : list Z) : option Z := strncmp s t (Z.to_nat DIRSIZ).

(** A [struct dirent] in its 16 bytes. *)
Definition de_inum (de : list Z) : Z := rd16 de 0.
Definition de_name (de : list Z) : list Z := slice de 2 (Z.to_nat DIRSIZ).

(** The entry and its offset, which [dirlookup] stores in [*poff]. *)
Fixpoint dirlookup_loop (fuel : nat) (dp : nat) (name : list Z) (off : Z) : K (option (nat * Z)) :=
  x ← inode_at dp;
  if off <? i_size x then
    match fuel with
    | O => nofuel
    | S fuel =>
        '(r, de) ← readi dp off sizeof_dirent;
        if negb (r =? sizeof_dirent) then panic "dirlookup read" else
        if de_inum de =? 0 then dirlookup_loop fuel dp name (u32 (off + sizeof_dirent)) else
        c ← lift (namecmp name (de_name de));
        if c =? 0 then
          (* entry matches path element *)
          ip ← iget (i_dev x) (de_inum de);
          mret (Some (ip, off))
        else dirlookup_loop fuel dp name (u32 (off + sizeof_dirent))
    end
  else mret None.

Definition dirlookup (dp : nat) (name : list Z) : K (option (nat * Z)) :=
  x ← inode_at dp;
  if negb (i_type x =? T_DIR) then panic "dirlookup not DIR" else
  dirlookup_loop (Z.to_nat (i_size x / sizeof_dirent + 1)) dp name 0.

(** The offset of an empty [dirent], or the end of the directory, and the
    last bytes read into [de]. *)
Fixpoint dirlink_loop (fuel : nat) (dp : nat) (off : Z) (de : list Z) : K (Z * list Z) :=
  x ← inode_at dp;
  if off <? i_size x then
    match fuel with
    | O => nofuel
    | S fuel =>
        '(r, de) ← readi dp off sizeof_dirent;
        if negb (r =? sizeof_dirent) then panic "dirlink read" else
        if de_inum de =? 0 then mret (off, de)
        else dirlink_loop fuel dp (off + sizeof_dirent) de
    end
  else mret (off, de).

Definition dirlink (dp : nat) (name : list Z) (inum : Z) : K Z :=
  (* Check that name is not present. *)
  r ← dirlookup dp name;
  match r with
  | Some (ip, _) => iput ip;; mret (-1)
  | None =>
      (* Look for an empty dirent. *)
      x ← inode_at dp;
      '(off, de) ← dirlink_loop (Z.to_nat (i_size x / sizeof_dirent + 1)) dp 0 (replicate (Z.to_nat sizeof_dirent) 0);
      n ← lift (strncpy name (Z.to_nat DIRSIZ));
      let de := wr16 (splice de 2 n) 0 inum in
      w ← writei dp de off;
      if negb (w =? sizeof_dirent) then panic "dirlink" else
      mret 0
  end.

(** ** Paths *)

(** [while((path = skipelem(path, name)) != 0)]: the inode, NULL being
    [None], and the contents of [name]. *)
Fixpoint namex_loop (fuel : nat) (ip : nat) (path : list Z) (parent : bool) (name : list Z) : K (option nat * list Z) :=
  e ← lift (skipelem path name);
  match e with
  | Some (path, name) =>
      match fuel with
      | O => nofuel
      | S fuel =>
          ilock (Some ip);;
          x ← inode_at ip;
          if negb (i_type x =? T_DIR) then iunlockput ip;; mret (None, name) else
          c ← lift (head path);
          if parent && (c =? 0) then
            (* Stop one level early. *)
            iunlock (Some ip);;
            mret (Some ip, name)
          else
          next ← dirlookup ip name;
          match next with
          | None => iunlockput ip;; mret (None, name)
          | Some (next, _) => iunlockput ip;; namex_loop fuel next path parent name
          end
      end
  | None => if parent then iput ip;; mret (None, name) else mret (Some ip, name)
  end.

Definition namex (path : list Z) (parent : bool) (name : list Z) : K (option nat * list Z) :=
  c ← lift (head path);
  ip ← (if c =? slash then iget ROOTDEV ROOTINO
        else p ← myproc; pr ← proc_at p; cwd ← lift (p_cwd pr); idup cwd);
  namex_loop (length path) ip path parent name.

(** [name] is an uninitialised local buffer. *)
Definition namei (path : list Z) : K (option nat) :=
  '(ip, _) ← namex path false (replicate (Z.to_nat DIRSIZ) 0);
  mret ip.

Definition nameiparent (path name : list Z) : K (option nat * list Z) := namex path true name.
End dir.
