(* ===== verification/FsSpec.v ===== *)
(** FsSpec: reading and writing files.

    The operations of [fs.c] on blocks and file contents, run inside a
    transaction: [balloc], [bzero], [bmap], [iupdate], [readi] and [writei],
    specified on the files of [Inode] - a file is the sequence of its bytes,
    [readi] returns a part of it and [writei] splices bytes into it. *)

From S2P Require Import Prelude Layout State Spinlock Sched Bytes Sleeplock Ready Disk Bio Lru Bcache BcacheSpec Log LogSpec Crash Transaction Fs Inode ConsoleDev Dir.

Lemma length_filter_split {A} (P : A → Prop) `{!∀ x, Decision (P x)} (l : list A) :
  (length l = length (filter P l) + length (filter (λ x, ¬ P x) l))%nat.
Proof.
  induction l as [|x l IH]; [done|]. rewrite !filter_cons. destruct (decide (P x)), (decide (¬ P x)); simpl; (lia || tauto).
Qed.

Lemma length_filter_mono {A} (P Q : A → Prop) `{!∀ x, Decision (P x)} `{!∀ x, Decision (Q x)} (l : list A) :
  (∀ x, P x → Q x) → (length (filter P l) ≤ length (filter Q l))%nat.
Proof.
  intros HPQ. induction l as [|x l IH]; [done|]. rewrite !filter_cons. destruct (decide (P x)), (decide (Q x)); simpl; try lia. naive_solver.
Qed.

Section fsspec.
Context {ENV : Env} {DRV : DiskDriver} {OK : DiskDriverOk DRV}.
Context (start lsz : Z) (sb : superblock) (L : layout start sb).
Context (Hfit : sb_size sb ≤ disk_size) (Hlsz : lsz ≤ LOGSIZE).

(** ** Blocks in a transaction *)

(** In a transaction that has written the blocks [B], with the blocks [H] held. *)
Record mid (s : kstate) (v : Z → list Z) (H : gmap Z nat) (B : list Z) : Prop := MkMid {
  md_cache : cache s v H (list_to_set B);
  md_op : in_op start lsz B (k_log s);
  md_nodup : NoDup B;
  md_blocks b : b ∈ B → 0 ≤ b < disk_size ∧ home start b ∧ b ≠ 1;
  md_sb : k_sb s = sb;
}.

(** Room for [n] more blocks in the cache and in the log. *)
Definition room (n : nat) (H : gmap Z nat) (B : list Z) : Prop :=
  (size H + length B + n < bhead)%nat ∧ Z.of_nat (length B + n) < lsz.

Lemma room_le n m H B : (m ≤ n)%nat → room n H B → room m H B.
Proof using. unfold room. lia. Qed.

Lemma room_add n b H B : room (S n) H B → room n H (add_block b B).
Proof using. unfold room. pose proof (add_block_length b B). lia. Qed.

(** Blocks that file-system code writes in a transaction. *)
Definition loggable (b : Z) : Prop := sb_inodestart sb ≤ b < sb_size sb.

Lemma loggable_range b : loggable b → 0 ≤ b < disk_size.
Proof using L Hfit. pose proof (layout_pos _ _ L). unfold loggable. lia. Qed.

Lemma data_loggable b : is_data sb b → loggable b.
Proof using L. pose proof (layout_pos _ _ L). unfold is_data, loggable. lia. Qed.

Lemma bitmap_loggable b : is_bitmap sb b → loggable b.
Proof using L. pose proof (layout_pos _ _ L). pose proof (lo_data _ _ L). unfold is_bitmap, loggable. lia. Qed.

Lemma log_step_sb s s' : log_step s s' → k_sb s' = k_sb s.
Proof using. by intros (b & h & d & l & ->). Qed.

Lemma log_step_inodes s s' : log_step s s' → k_inodes s' = k_inodes s.
Proof using. by intros (b & h & d & l & ->). Qed.

Lemma mid_sized s v H B : mid s v H B → sized v.
Proof using. intros Hm b. by eapply cache_len, Hm. Qed.

Lemma mid_ext s v v' H B : (∀ b, v b = v' b) → mid s v H B → mid s v' H B.
Proof using. intros Hv [H1 H2 H3 H4 H5]. split; try done. by eapply cache_ext. Qed.

Lemma mid_read s v H B b :
  mid s v H B → H !! b = None → 0 ≤ b < disk_size → room 0 H B →
  ∃ i x s', bread 1 b s = Ret i s' ∧ log_step s s' ∧ k_disk s' = k_disk s ∧ mid s' v (<[b := i]> H) B ∧
    k_bufs s' !! i = Some x ∧ b_data x = v b ∧ (b ∈ B ∨ v b = disk_block (k_disk s) b).
Proof using.
  intros [Hc Ho Hn HB Hsb] Hb Hr [Hroom _].
  destruct (bread_ok s v H _ b Hc Hb Hr) as (i & s' & R & S & K & C).
  { right. pose proof (size_union_alt (C:=gset Z) (dom H) (list_to_set B)) as E.
    pose proof (size_difference_alt (C:=gset Z) (list_to_set B) (dom H)) as E'. 
    rewrite size_dom in E. rewrite (size_list_to_set B Hn) in E'. lia. }
  destruct (cache_held _ _ _ _ b i C) as (x & Hx & Hd & _); [apply lookup_insert_eq|].
  exists i, x, s'. split; [done|]. split; [by apply bio_log_step|]. split; [done|]. split; [split|split; [done|split; [done|]]].
  - done.
  - by rewrite (bio_step_log _ _ S).
  - done.
  - done.
  - by rewrite (log_step_sb s s') by (by apply bio_log_step).
  - destruct (decide (b ∈ B)); [by left|right]. eapply cache_clean; [done|done|]. by rewrite elem_of_list_to_set.
Qed.

Lemma mid_write s v H B b i f :
  mid s v H B → H !! b = Some i → length (f (v b)) = 512%nat → loggable b → room 1 H B →
  ∃ s1 s', set_data i f s = Ret tt s1 ∧ log_write i s1 = Ret tt s' ∧ log_step s s' ∧ k_disk s' = k_disk s ∧
    mid s' (<[b := f (v b)]> v) H (add_block b B).
Proof using L Hfit Hlsz.
  intros [Hc Ho Hn HB Hsb] Hb Hf Hl [Hroom Hroom'].
  destruct (set_data_ok s v H _ b i f Hc Hb Hf) as (s1 & R1 & B1 & K1 & C1).
  destruct (log_write_ok s1 _ _ _ b i start lsz B C1 Hb) as (s2 & R2 & B2 & K2 & C2 & O2);
    [by rewrite (bio_step_log _ _ B1)|lia|lia|].
  exists s1, s2. split; [done|]. split; [done|]. split; [etrans; [by apply bio_log_step|done]|split; [by rewrite K2|split]].
  - by rewrite add_block_set in C2.
  - done.
  - by apply add_block_nodup.
  - intros b' [Hb'| ->]%add_block_spec; [by apply HB|]. split; [by apply loggable_range|]. by eapply upper_home, Hl.
  - rewrite (log_step_sb _ _ B2), (log_step_sb s s1) by (by apply bio_log_step). done.
Qed.

Lemma mid_release s v H B b i :
  mid s v H B → H !! b = Some i → b ∈ B ∨ v b = disk_block (k_disk s) b →
  ∃ s', brelse i s = Ret tt s' ∧ log_step s s' ∧ k_disk s' = k_disk s ∧ mid s' v (delete b H) B.
Proof using.
  intros [Hc Ho Hn HB Hsb] Hb Hcl. destruct (brelse_ok s v H _ b i Hc Hb) as (s' & R & S & K & C).
  { destruct Hcl; [left|by right]. by apply elem_of_list_to_set. }
  exists s'. split; [done|]. split; [by apply bio_log_step|]. split; [done|]. split; try done.
  - by rewrite (bio_step_log _ _ S).
  - by rewrite (log_step_sb s s') by (by apply bio_log_step).
Qed.

(** [bread], change the data, [log_write], [brelse]. *)
Lemma mid_update s v H B b f :
  mid s v H B → H !! b = None → length (f (v b)) = 512%nat → loggable b → room 2 H B →
  ∃ s', (∀ A (k : K A), (bp ← bread 1 b; set_data bp f;; log_write bp;; brelse bp;; k) s = k s') ∧
    log_step s s' ∧ k_disk s' = k_disk s ∧ mid s' (<[b := f (v b)]> v) H (add_block b B).
Proof using L Hfit Hlsz.
  intros Hm Hb Hf Hl Hr.
  destruct (mid_read s v H B b Hm Hb (loggable_range b Hl) ltac:(unfold room in *; lia)) as (i & x & s1 & R1 & S1 & K1 & M1 & _).
  destruct (mid_write s1 v _ B b i f M1 (lookup_insert_eq _ _ _) Hf Hl) as (s2' & s2 & R2 & R2' & S2 & K2 & M2).
  { unfold room in *. rewrite map_size_insert_None by done. lia. }
  destruct (mid_release s2 _ _ _ b i M2 (lookup_insert_eq _ _ _)) as (s3 & R3 & S3 & K3 & M3).
  { left. apply add_block_spec. by right. }
  exists s3. split; [|split; [by etrans; [|etrans]|split; [congruence|]]].
  - intros A k. mrun R1. mrun R2. mrun R2'. by mrun R3.
  - by rewrite delete_insert_id in M3.
Qed.

Lemma bzero_ok s v H B b :
  mid s v H B → H !! b = None → loggable b → room 2 H B →
  ∃ s', bzero 1 b s = Ret tt s' ∧ log_step s s' ∧ k_disk s' = k_disk s ∧ mid s' (<[b := zero_block]> v) H (add_block b B).
Proof using L Hfit Hlsz.
  intros Hm Hb Hl Hr. destruct (mid_update s v H B b (λ _, zero_block) Hm Hb eq_refl Hl Hr) as (s' & R & S & K & M).
  exists s'. split; [|done]. unfold bzero.
  rewrite <-(R unit (mret tt) : _ = Ret tt s'). unfold mbind, M_bind. destruct (bread 1 b s); try done. destruct (set_data a _ s0); try done.
  destruct (log_write a s1); try done. by destruct (brelse a s2) as [[] ?| | | | |].
Qed.

(** ** [balloc] *)

(** The held blocks are blocks of files. *)
Definition held_ok (v : Z → list Z) (H : gmap Z nat) : Prop :=
  ∀ b i, H !! b = Some i → is_data sb b ∧ used sb v b = true.

Lemma held_bitmap v H b : held_ok v H → is_bitmap sb b → H !! b = None.
Proof using.
  intros Hh Hb. apply eq_None_not_Some. intros [i Hi]. destruct (Hh b i Hi) as [Hd _]. by eapply data_not_bitmap.
Qed.

Lemma held_free v H b : held_ok v H → used sb v b = false → H !! b = None.
Proof using. intros Hh Hb. apply eq_None_not_Some. intros [i Hi]. destruct (Hh b i Hi) as [_ Hu]. congruence. Qed.

(** The bitmap block that holds the bits from [b] on. *)
Lemma bit_block b k :
  0 ≤ b → b mod BPB = 0 → 0 ≤ k < BPB → b + k < sb_size sb →
  BBLOCK (b + k) sb = BBLOCK b sb ∧ (b + k) mod BPB = k.
Proof using.
  intros Hb Hm Hk Hs. unfold BBLOCK, BPB, BSIZE in *. split; [|dlia]. do 2 f_equal. dlia.
Qed.

Lemma balloc_loop_ok fuel s v H B b :
  mid s v H B → fs_ok sb v → held_ok v H → room 3 H B → 0 ≤ b → b mod BPB = 0 →
  (∃ c, b ≤ c < sb_size sb ∧ used sb v c = false) → sb_size sb ≤ b + Z.of_nat fuel * BPB →
  ∃ c s', balloc_loop fuel 1 b s = Ret c s' ∧ fresh sb v c ∧ log_step s s' ∧ k_disk s' = k_disk s ∧
    mid s' (alloc_view sb v c) H (add_block c (add_block (BBLOCK c sb) B)).
Proof using L Hfit Hlsz.
  revert s b. induction fuel as [|fuel IH]; intros s b Hm Hf Hh Hr Hb Hmod (c & Hc & Hcu) Hfuel; [lia|].
  simpl. rewrite bind_gets, (md_sb _ _ _ _ Hm). destruct (Z.ltb_spec b (sb_size sb)); [|lia].
  destruct (BBLOCK_bitmap _ _ L b ltac:(lia)) as [Hbm _].
  destruct (mid_read s v H B (BBLOCK b sb) Hm (held_bitmap _ _ _ Hh Hbm) (loggable_range _ (bitmap_loggable _ Hbm)))
    as (i & x & s1 & R1 & S1 & K1 & M1 & Hx & Hd & Hcl); [by eapply room_le; [|exact Hr]; lia|].
  mrun R1. rewrite (bind_buf_at _ _ _ _ Hx), Hd.
  assert (Hsz : base.size (<[BBLOCK b sb := i]> H) = S (base.size H)) by (by apply map_size_insert_None, (held_bitmap v)).
  destruct (first_free _ _ _) as [bi|] eqn:E.
  - apply first_free_Some in E as [Hbi Hfree].
    destruct (bit_block b bi Hb Hmod ltac:(lia) ltac:(lia)) as [Eb Em].
    assert (used sb v (b + bi) = false) as Hu by (unfold used; by rewrite Eb, Em, Hfree).
    assert (is_data sb (b + bi)) as Hdata by (by apply (free_is_data _ v); [|lia|]).
    destruct (mid_write s1 v _ B (BBLOCK b sb) i (λ d, bit_set d bi) M1 (lookup_insert_eq _ _ _)) as (s2' & s2 & R2 & R2' & S2 & K2 & M2).
    { rewrite length_bit_set. by apply Hf. }
    { by apply bitmap_loggable. }
    { unfold room in *. lia. }
    mrun R2. mrun R2'. destruct (mid_release s2 _ _ _ _ i M2 (lookup_insert_eq _ _ _)) as (s3 & R3 & S3 & K3 & M3).
    { left. apply add_block_spec. by right. }
    mrun R3. rewrite delete_insert_id in M3 by (by apply (held_bitmap v)).
    destruct (bzero_ok s3 _ H _ (b + bi) M3) as (s4 & R4 & S4 & K4 & M4);
      [by eapply held_free|by apply data_loggable|by apply room_add|].
    mrun R4. exists (b + bi), s4. split; [done|]. split; [done|].
    split; [by etrans; [|etrans; [|etrans]]|]. split; [congruence|]. unfold alloc_view. by rewrite Eb, Em.
  - destruct (mid_release s1 _ _ _ _ i M1 (lookup_insert_eq _ _ _)) as (s2 & R2 & S2 & K2 & M2); [by rewrite K1|].
    mrun R2. rewrite delete_insert_id in M2 by (by apply (held_bitmap v)).
    assert (b + BPB ≤ c) as Hcb.
    { apply Z.nlt_ge. intros Hlt. pose proof (first_free_None _ _ _ (c - b) E ltac:(lia)) as Hn.
      destruct (bit_block b (c - b) Hb Hmod ltac:(lia) ltac:(lia)) as [Eb Em]. replace (b + (c - b)) with c in * by lia.
      unfold used in Hcu. by rewrite Eb, Em, Hn in Hcu. }
    destruct (IH s2 (b + BPB) M2 Hf Hh Hr) as (c' & s' & R & Hfr & S & K & M).
    + unfold BPB, BSIZE in *. lia.
    + unfold BPB, BSIZE in *. dlia.
    + exists c. split; [lia|done].
    + lia.
    + exists c', s'. rewrite R. split; [done|]. split; [done|]. split; [by etrans; [|etrans]|]. split; [congruence|done].
Qed.

Lemma balloc_ok s v H B :
  mid s v H B → fs_ok sb v → held_ok v H → room 3 H B → has_free sb v 1 →
  ∃ c s', balloc 1 s = Ret c s' ∧ fresh sb v c ∧ log_step s s' ∧ k_disk s' = k_disk s ∧
    mid s' (alloc_view sb v c) H (add_block c (add_block (BBLOCK c sb) B)).
Proof using L Hfit Hlsz.
  intros Hm Hf Hh Hr (F & HF & Hfree). unfold balloc. rewrite bind_gets, (md_sb _ _ _ _ Hm). pose proof (size_pos _ _ L).
  apply balloc_loop_ok; try done.
  - assert (F ≠ ∅) as [c Hc]%set_choose_L by (intros ->; by rewrite size_empty in HF; lia).
    exists c. by apply Hfree.
  - unfold BPB, BSIZE. rewrite Z2Nat.id by dlia. dlia.
Qed.

(** ** Inodes in memory *)

(** [s'] differs from [s] in the buffers, the disk, the log and the inodes only. *)
Definition fs_step (s s' : kstate) : Prop := ∃ js, log_step (upd_k_inodes (λ _, js) s) s'.

#[export] Instance fs_step_pre : PreOrder fs_step.
Proof using.
  split.
  - intros s. by exists (k_inodes s), (k_bufs s), (k_bhead s), (k_disk s), (k_log s).
  - intros s s1 s2 (j & b & h & d & l & ->) (j' & b' & h' & d' & l' & ->). by exists j', b', h', d', l'.
Qed.

Lemma log_fs_step s s' : log_step s s' → fs_step s s'.
Proof using. intros (b & h & d & l & ->). by exists (k_inodes s), b, h, d, l. Qed.

Lemma inode_fs_step f s : fs_step s (upd_k_inodes f s).
Proof using. by exists (f (k_inodes s)), (k_bufs s), (k_bhead s), (k_disk s), (k_log s). Qed.

Lemma cache_frame s s' v H T :
  k_cpu s' = k_cpu s → k_locks s' = k_locks s → k_procs s' = k_procs s → k_bufs s' = k_bufs s → k_bhead s' = k_bhead s →
  k_disk s' = k_disk s → cache s v H T → cache s' v H T.
Proof using.
  intros E1 E2 E3 E4 E5 E6 (Hs & C & [H1 [ord H2] H3 H4] & Ha). split; [by apply (ready_frame s)|]. exists C.
  split; [|by rewrite E6]. split; rewrite ?E4; try done. exists ord. eapply same_links_lru; [|exact H2].
  unfold same_links, bnext, bprev. by rewrite E4, E5.
Qed.

Lemma cache_upd_inodes f s v H T : cache s v H T → cache (upd_k_inodes f s) v H T.
Proof using. by apply cache_frame. Qed.

Lemma mid_upd_inodes f s v H B : mid s v H B → mid (upd_k_inodes f s) v H B.
Proof using. intros [H1 H2 H3 H4 H5]. split; try done. by apply cache_upd_inodes. Qed.

Lemma mid_bio s s' v H B : mid s v H B → bio_step s s' → cache s' v H (list_to_set B) → mid s' v H B.
Proof using.
  intros [H1 H2 H3 H4 H5] Hb Hc. split; try done; [by rewrite (bio_step_log _ _ Hb)|].
  by rewrite (log_step_sb s s') by (by apply bio_log_step).
Qed.

Lemma bind_inode_at {A} ip x (f : inode → K A) s : k_inodes s !! ip = Some x → (inode_at ip ≫= f) s = f x s.
Proof using. apply (bind_deref (λ s, k_inodes s !! ip)). Qed.

Lemma bind_addr_at {A} x k (f : Z → K A) s :
  (k < length (i_addrs x))%nat → (addr_at x k ≫= f) s = f (nth k (i_addrs x) 0) s.
Proof using.
  intros Hk. apply (bind_deref (λ _, i_addrs x !! k)). rewrite nth_lookup. by destruct (lookup_lt_is_Some_2 _ _ Hk) as [y ->].
Qed.

Lemma set_addr_run ip x k b s :
  k_inodes s !! ip = Some x →
  set_addr ip k b s = Ret tt (upd_k_inodes <[ip := upd_i_addrs (λ _, <[k := b]> (i_addrs x)) x]> s).
Proof using.
  intros Hx. unfold set_addr, set_inode, modify. f_equal. unfold upd_k_inodes. f_equal.
  apply list_eq. intros j. rewrite list_lookup_alter, list_insert_lookup_iff by (by eapply lookup_lt_Some).
  case_decide as E; [subst j; by rewrite Hx|done].
Qed.

(** ** Reading *)

Lemma cache_peek s v T b :
  cache s v ∅ T → (size T < bhead)%nat → 0 ≤ b < disk_size →
  ∃ i x s1 s2, bread 1 b s = Ret i s1 ∧ k_bufs s1 !! i = Some x ∧ b_data x = v b ∧ brelse i s1 = Ret tt s2 ∧
    bio_step s s1 ∧ bio_step s s2 ∧ k_disk s2 = k_disk s ∧ cache s2 v ∅ T.
Proof using.
  intros Hc HT Hb. destruct (bread_ok s v ∅ T b Hc (lookup_empty _) Hb) as (i & s1 & R1 & B1 & K1 & C1).
  { right. by rewrite dom_empty_L, (left_id_L ∅ (∪)). }
  destruct (cache_held _ _ _ _ b i C1) as (x & Hx & Hd & _); [apply lookup_insert_eq|].
  destruct (brelse_ok s1 v _ T b i C1) as (s2 & R2 & B2 & K2 & C2); [apply lookup_insert_eq| |].
  { destruct (decide (b ∈ T)); [by left|right]. rewrite K1. by apply (cache_clean s v ∅ T). }
  exists i, x, s1, s2. rewrite delete_insert_id in C2 by done.
  split_and!; try done; [by etrans|congruence].
Qed.

Lemma bmap_read s v T ip x (bn : nat) :
  cache s v ∅ T → (size T < bhead)%nat → k_inodes s !! ip = Some x → i_dev x = 1 → slots_ok sb v (i_addrs x) →
  (bn < 140)%nat → slot v (i_addrs x) (pos bn) ≠ 0 →
  ∃ s', bmap ip (Z.of_nat bn) s = Ret (slot v (i_addrs x) (pos bn)) s' ∧ bio_step s s' ∧ k_disk s' = k_disk s ∧ cache s' v ∅ T.
Proof using L Hfit.
  intros Hc HT Hx Hdev Hs Hbn Hnz. pose proof (so_len _ _ _ Hs) as Hlen. unfold bmap. rewrite (bind_inode_at _ x) by done.
  unfold NDIRECT, NINDIRECT, BSIZE. change (512 / 4) with 128. revert Hnz. unfold pos. destruct (Nat.ltb_spec bn 12); intros Hnz.
  - rewrite (proj2 (Z.ltb_lt _ _)), Nat2Z.id, bind_addr_at by lia. rewrite slot_direct in * by lia.
    destruct (Z.eqb_spec (nth bn (i_addrs x) 0) 0); [done|]. by exists s.
  - rewrite (proj2 (Z.ltb_ge _ _)) by lia. rewrite (proj2 (Z.ltb_lt _ _)) by lia. rewrite bind_addr_at by lia.
    rewrite slot_indirect in * by lia. change (Z.to_nat 12) with 12%nat.
    destruct (Z.eqb_spec (nth 12 (i_addrs x) 0) 0) as [|Hi]; [done|]. rewrite bind_ret, Hdev.
    destruct (indirect_ok _ v _ Hs Hi) as [Hd _].
    destruct (cache_peek s v T (nth 12 (i_addrs x) 0) Hc HT) as (i & y & s1 & s2 & R1 & Hy & Hyd & R2 & _ & B2 & K2 & C2).
    { by apply loggable_range, data_loggable. }
    mrun R1. rewrite (bind_buf_at _ _ _ _ Hy), Hyd.
    replace (Z.to_nat (Z.of_nat bn - 12)) with (S bn - 13)%nat by lia.
    rewrite (proj2 (Z.eqb_neq _ _) Hnz), bind_ret. mrun R2. by exists s2.
Qed.

(** The bytes of a file that are in the same block. *)
Lemma same_block (o j : nat) :
  (o mod 512 + j < 512)%nat → ((o + j) / 512 = o / 512)%nat ∧ ((o + j) mod 512 = o mod 512 + j)%nat.
Proof using.
  intros H. pose proof (Nat.div_mod o 512 ltac:(lia)) as E. split.
  - symmetry. apply (Nat.div_unique _ _ _ (o mod 512 + j)); lia.
  - symmetry. apply (Nat.mod_unique _ _ (o / 512)); lia.
Qed.

Lemma to_nat_mod off : 0 ≤ off → Z.to_nat (off mod 512) = (Z.to_nat off mod 512)%nat.
Proof using. intros H. rewrite Z2Nat.inj_mod by lia. done. Qed.

(** [readi_loop] returns the bytes from [off] on. *)
Lemma readi_loop_ok fuel s v T ip x (tot off n : Z) acc :
  cache s v ∅ T → (size T < bhead)%nat → k_inodes s !! ip = Some x → i_dev x = 1 → slots_ok sb v (i_addrs x) →
  0 ≤ tot → 0 ≤ off → (∀ i, Z.of_nat i < off + (n - tot) → off ≤ Z.of_nat i → mapped v (i_addrs x) i) →
  (tot < n → n - tot ≤ Z.of_nat fuel * 512 - off mod 512) →
  ∃ s', readi_loop fuel ip tot off n acc s =
      Ret (acc ++ (fbyte v (i_addrs x) <$> seq (Z.to_nat off) (Z.to_nat (n - tot)))) s' ∧
    bio_step s s' ∧ k_disk s' = k_disk s ∧ cache s' v ∅ T.
Proof using L Hfit.
  revert s tot off acc. induction fuel as [|fuel IH]; intros s tot off acc Hc HT Hx Hdev Hs Htot Hoff Hmap Hfuel; simpl.
  { destruct (Z.ltb_spec tot n); [exfalso; dlia|]. exists s. split; [|done].
    replace (Z.to_nat (n - tot)) with 0%nat by lia. by rewrite app_nil_r. }
  destruct (Z.ltb_spec tot n) as [Hlt|Hge]; cycle 1.
  { exists s. split; [|done]. replace (Z.to_nat (n - tot)) with 0%nat by lia. by rewrite app_nil_r. }
  rewrite (bind_inode_at _ x) by done. unfold BSIZE in *.
  assert (mapped v (i_addrs x) (Z.to_nat off)) as Hm by (apply Hmap; lia).
  assert (off / 512 = Z.of_nat (Z.to_nat off / 512)) as Ebn by (rewrite Nat2Z.inj_div, Z2Nat.id by lia; done).
  destruct (mapped_slot v _ _ Hm) as [Hsl _]. destruct Hm as [Hmr Hnz].
  destruct (bmap_read s v T ip x (Z.to_nat off / 512) Hc HT Hx Hdev Hs) as (s1 & R1 & B1 & K1 & C1);
    [apply Nat.Div0.div_lt_upper_bound; lia|done|].
  rewrite Ebn. mrun R1. rewrite Hdev. destruct (so_data _ _ _ Hs _ Hsl Hnz) as [Hd _].
  destruct (cache_peek s1 v T _ C1 HT (loggable_range _ (data_loggable _ Hd))) as (i & y & s2 & s3 & R2 & Hy & Hyd & R3 & _ & B3 & K3 & C3).
  mrun R2. rewrite (bind_buf_at _ _ _ _ Hy), Hyd. mrun R3.
  set (m := Z.min (n - tot) (512 - off mod 512)).
  assert (0 < m) as Hmpos by (unfold m; dlia).
  assert (k_inodes s3 = k_inodes s) as Ei.
  { rewrite (log_step_inodes s1 s3), (log_step_inodes s s1) by (by apply bio_log_step). done. }
  destruct (IH s3 (tot + m) (off + m) (acc ++ slice (v (slot v (i_addrs x) (pos (Z.to_nat off / 512)))) (Z.to_nat (off mod 512)) (Z.to_nat m)))
    as (s' & R & S & K & C); try done.
  - by rewrite Ei.
  - lia.
  - lia.
  - intros j Hj1 Hj2. apply Hmap; lia.
  - unfold m in *. destruct (Z.min_spec (n - tot) (512 - off mod 512)) as [[? ->]|[? ->]].
    + lia.
    + replace (off + (512 - off mod 512)) with ((off / 512 + 1) * 512) by dlia. rewrite Z.mod_mul by lia. lia.
  - exists s'. rewrite R. split; [|split; [by etrans; [|etrans]|split; [congruence|done]]].
    f_equal. rewrite <-app_assoc. f_equal.
    replace (Z.to_nat (n - tot)) with (Z.to_nat m + Z.to_nat (n - (tot + m)))%nat by lia.
    rewrite seq_app, fmap_app. f_equal; [|do 2 f_equal; lia].
    apply list_eq. intros j. rewrite slice_lookup, list_lookup_fmap. case_decide as Hj.
    + rewrite lookup_seq_lt by done. simpl. unfold fbyte.
      pose proof (Z.mod_pos_bound off 512 ltac:(lia)).
      assert (Z.to_nat off mod 512 + j < 512)%nat as Hb by (rewrite <-to_nat_mod by lia; unfold m in Hj; lia).
      destruct (same_block _ _ Hb) as [-> ->]. rewrite nth_lookup, to_nat_mod by lia.
      destruct (lookup_lt_is_Some_2 (v (slot v (i_addrs x) (pos (Z.to_nat off / 512)))) (Z.to_nat off mod 512 + j)) as [z Hz];
        [rewrite (cache_len _ _ _ _ _ Hc); lia|by rewrite Hz].
    + rewrite lookup_seq_ge by lia. done.
Qed.

(** A regular file or directory whose inode is in memory and valid. *)
Record inode_ok (v : Z → list Z) (x : inode) : Prop := MkInodeOk {
  ik_dev : i_dev x = 1;
  ik_type : i_type x ≠ T_DEV;
  ik_inum : 0 ≤ i_inum x < sb_ninodes sb;
  ik_slots : slots_ok sb v (i_addrs x);
  ik_size : 0 ≤ i_size x ≤ MAXFILE * BSIZE;
  ik_mapped i : Z.of_nat i < i_size x → mapped v (i_addrs x) i;
}.

(** The bytes of the file. *)
Definition contents (v : Z → list Z) (x : inode) : list Z := content v (i_addrs x) (i_size x).

Lemma length_file v x : length (contents v x) = Z.to_nat (i_size x).
Proof using. apply length_content. Qed.

(** What [readi] returns for a file of content [l]. *)
Definition read_result (l : list Z) (off n : Z) : Z * list Z :=
  if (Z.of_nat (length l) <? off) || (two32 <=? off + n) then (-1, [])
  else let bs := slice l (Z.to_nat off) (Z.to_nat n) in (Z.of_nat (length bs), bs).

Lemma seq_slice v a m (off n : nat) :
  (off + n ≤ Z.to_nat m)%nat → fbyte v a <$> seq off n = slice (content v a m) off n.
Proof using.
  intros H. apply list_eq. intros j. rewrite slice_lookup, list_lookup_fmap. case_decide.
  - rewrite lookup_seq_lt, content_lookup by lia. done.
  - by rewrite lookup_seq_ge by lia.
Qed.

Lemma readi_ok s v T ip x off n :
  cache s v ∅ T → (size T < bhead)%nat → k_inodes s !! ip = Some x → inode_ok v x → is_u32 off → is_u32 n →
  ∃ s', readi ip off n s = Ret (read_result (contents v x) off n) s' ∧
    bio_step s s' ∧ k_disk s' = k_disk s ∧ cache s' v ∅ T.
Proof using L Hfit.
  intros Hc HT Hx [Hdev Hty _ Hs [Hsz Hsz'] Hmap] Hoff Hn. unfold is_u32 in *. unfold readi. rewrite (bind_inode_at _ x) by done.
  rewrite (proj2 (Z.eqb_neq _ _) Hty). unfold read_result. rewrite length_file, Z2Nat.id by lia.
  assert ((u32 (off + n) <? off) = (two32 <=? off + n)) as ->.
  { destruct (Z.leb_spec two32 (off + n)).
    - apply Z.ltb_lt. unfold u32, two32 in *. dlia.
    - apply Z.ltb_ge. rewrite u32_small by lia. lia. }
  destruct (Z.ltb_spec (i_size x) off), (Z.leb_spec two32 (off + n)); simpl; try (by exists s).
  rewrite u32_small by lia. set (n' := if i_size x <? off + n then i_size x - off else n).
  assert (n' = Z.min n (i_size x - off)) as En by (unfold n'; destruct (Z.ltb_spec (i_size x) (off + n)); lia).
  destruct (readi_loop_ok (Z.to_nat (n' / BSIZE + 2)) s v T ip x 0 off n' [] Hc HT Hx Hdev Hs) as (s' & R & S & K & C).
  - lia.
  - lia.
  - intros i Hi _. apply Hmap. lia.
  - intros Hpos. unfold BSIZE. dlia.
  - mrun R. exists s'. split; [|done]. rewrite Z.sub_0_r, (seq_slice _ _ (i_size x)) by lia. simpl.
    assert (slice (content v (i_addrs x) (i_size x)) (Z.to_nat off) (Z.to_nat n') = slice (contents v x) (Z.to_nat off) (Z.to_nat n)) as ->.
    { unfold contents, slice. destruct (decide (n' = n)) as [->|Hne]; [done|].
      rewrite !take_ge; [done|rewrite length_drop, length_content; lia..]. }
    f_equal. f_equal. unfold slice. rewrite length_take, length_drop, length_file. lia.
Qed.

(** ** The blocks a transaction logs *)

(** The number of bitmap blocks. *)
Definition nbitmap : nat := Z.to_nat (datastart sb - sb_bmapstart sb).

(** The logged blocks besides the bitmap and the file's indirect block. *)
Definition weight (a : list Z) (B : list Z) : nat :=
  length (filter (λ b, ¬ is_bitmap sb b ∧ (nth 12 a 0 = 0 ∨ b ≠ nth 12 a 0)) B).

Lemma length_weight a B : NoDup B → (length B ≤ weight a B + nbitmap + 1)%nat.
Proof using.
  intros Hn. unfold weight. set (P := λ b, ¬ is_bitmap sb b ∧ (nth 12 a 0 = 0 ∨ b ≠ nth 12 a 0)).
  rewrite (length_filter_split P B).
  assert (length (filter (λ b, ¬ P b) B) ≤ length (nth 12 a 0%Z :: seqZ (sb_bmapstart sb) (datastart sb - sb_bmapstart sb)))%nat as Hl.
  { apply NoDup_incl_length; [by apply NoDup_ListNoDup, NoDup_filter|]. intros b Hb%list_elem_of_In.
    apply list_elem_of_filter in Hb as [Hb _]. apply list_elem_of_In, elem_of_cons. unfold P, is_bitmap in Hb.
    destruct (decide (b = nth 12 a 0)); [by left|right; apply elem_of_seqZ]. clear -Hb n. lia. }
  simpl in Hl. rewrite length_seqZ in Hl. unfold nbitmap. lia.
Qed.

Lemma weight_add a b B : (weight a (add_block b B) ≤ S (weight a B))%nat.
Proof using.
  unfold weight, add_block. case_decide; [lia|]. rewrite filter_app, length_app, filter_cons. case_decide; simpl; lia.
Qed.

Lemma weight_add_free a b B : is_bitmap sb b ∨ nth 12 a 0 ≠ 0 ∧ b = nth 12 a 0 → weight a (add_block b B) = weight a B.
Proof using.
  intros H. unfold weight, add_block. case_decide; [done|]. rewrite filter_app, length_app, filter_cons, decide_False; [simpl; lia|].
  clear L. intros [? ?]. tauto.
Qed.

Lemma weight_le a b B : (weight a B ≤ weight a (add_block b B))%nat.
Proof using. unfold weight, add_block. case_decide; [lia|]. rewrite filter_app, length_app. lia. Qed.

(** Room for [n] more blocks besides the bitmap and the indirect block. *)
Definition wroom (n : nat) (a : list Z) (B : list Z) : Prop :=
  (weight a B + nbitmap + 1 + n < bhead)%nat ∧ Z.of_nat (weight a B + nbitmap + 1 + n) < lsz.

Lemma wroom_room n a B : NoDup B → wroom n a B → room n ∅ B.
Proof using. intros Hn [H1 H2]. pose proof (length_weight a B Hn). unfold room. rewrite map_size_empty. lia. Qed.

Lemma weight_mono a a' B : nth 12 a 0 = 0 ∨ nth 12 a' 0 = nth 12 a 0 → (weight a' B ≤ weight a B)%nat.
Proof using.
  intros H. apply length_filter_mono. clear L. intros b. destruct H as [E|E]; [|rewrite E]; tauto.
Qed.

Lemma add_block_again b B : b ∈ B → add_block b B = B.
Proof using. intros H. unfold add_block. by rewrite decide_True. Qed.

(** ** [bmap] *)

(** The indirect block may still have to be allocated. *)
Definition spare (a : list Z) : nat := if nth 12 a 0 =? 0 then 1 else 0.

(** What [bmap] leaves: [n] is the number of blocks still needed. *)
Record bmapped (s : kstate) (v : Z → list Z) (ip : nat) (x : inode) (B : list Z) (bn n : nat)
    (s' : kstate) (v' : Z → list Z) (a' B' : list Z) : Prop := MkBmapped {
  bm_step : fs_step s s';
  bm_disk : k_disk s' = k_disk s;
  bm_mid : mid s' v' ∅ B';
  bm_fs : fs_ok sb v';
  bm_inode : k_inodes s' = <[ip := upd_i_addrs (λ _, a') x]> (k_inodes s);
  bm_slots : slots_ok sb v' a';
  bm_grows : grows sb v (i_addrs x) v' a';
  bm_keeps : keeps v (i_addrs x) v';
  bm_here : slot v' a' (pos bn) ≠ 0;
  bm_weight : (weight a' (add_block (slot v' a' (pos bn)) B') ≤ S (weight (i_addrs x) B))%nat;
  bm_free : has_free sb v' (spare a' + n);
  bm_same : slot v (i_addrs x) (pos bn) ≠ 0 → a' = i_addrs x;
}.

Lemma upd_addrs_id x : upd_i_addrs (λ _, i_addrs x) x = x.
Proof using. by destruct x. Qed.

Lemma bmapped_refl s v ip x B bn n :
  mid s v ∅ B → fs_ok sb v → k_inodes s !! ip = Some x → slots_ok sb v (i_addrs x) → slot v (i_addrs x) (pos bn) ≠ 0 →
  has_free sb v (spare (i_addrs x) + n) → bmapped s v ip x B bn n s v (i_addrs x) B.
Proof using.
  intros Hm Hf Hx Hs Hnz Hfr. split; try done; [|by apply slots_grow_refl|apply weight_add]. by rewrite upd_addrs_id, list_insert_id.
Qed.

(** The second half of [bmap]'s indirect case: entry [k] of the indirect block. *)
Definition bmap_listed (dev ind : Z) (k : nat) : K Z :=
  bp ← bread dev ind;
  b ← buf_at bp;
  let addr := rd32 (b_data b) (4 * k) in
  addr ← (if addr =? 0 then
            addr ← balloc dev;
            set_data bp (λ d, wr32 d (4 * k) addr);;
            log_write bp;;
            mret addr
          else mret addr);
  brelse bp;;
  mret addr.

Lemma bmap_listed_ok s v a B bn n :
  mid s v ∅ B → fs_ok sb v → slots_ok sb v a → nth 12 a 0 ≠ 0 → (12 ≤ bn < 140)%nat → has_free sb v (S n) → room 5 ∅ B →
  ∃ s' v' B', bmap_listed 1 (nth 12 a 0) (bn - 12) s = Ret (slot v' a (pos bn)) s' ∧ log_step s s' ∧
    k_disk s' = k_disk s ∧ mid s' v' ∅ B' ∧ fs_ok sb v' ∧ slots_ok sb v' a ∧ grows sb v a v' a ∧ keeps v a v' ∧
    slot v' a (pos bn) ≠ 0 ∧ (weight a (add_block (slot v' a (pos bn)) B') ≤ S (weight a B))%nat ∧ has_free sb v' n.
Proof using L Hfit Hlsz.
  intros Hm Hf Hs Hi Hbn Hfr Hr. destruct (indirect_ok _ v a Hs Hi) as [Hid Hiu]. set (ind := nth 12 a 0) in *.
  assert (pos bn = S bn) as Epos by (unfold pos; by rewrite (proj2 (Nat.ltb_ge _ _)) by lia).
  assert (slot v a (S bn) = rd32 (v ind) (4 * (bn - 12))) as Eslot.
  { rewrite slot_indirect by lia. fold ind. rewrite (proj2 (Z.eqb_neq _ _) Hi). by replace (S bn - 13)%nat with (bn - 12)%nat by lia. }
  destruct (mid_read s v ∅ B ind Hm (lookup_empty _) (loggable_range _ (data_loggable _ Hid)))
    as (i & x & s1 & R1 & S1 & K1 & M1 & Hx & Hd & Hcl); [by eapply room_le; [|exact Hr]; lia|].
  unfold bmap_listed. mrun R1. rewrite (bind_buf_at _ _ _ _ Hx), Hd, <-Eslot.
  destruct (Z.eqb_spec (slot v a (S bn)) 0) as [Hz|Hnz].
  - assert (held_ok v (<[ind := i]> ∅)) as Hh by (intros b j [[<- _]|[_ []%lookup_empty_Some]]%lookup_insert_Some; done).
    assert (base.size (<[ind := i]> ∅ : gmap Z nat) = 1%nat) as Hsz by (by rewrite map_size_insert_None, map_size_empty).
    destruct (balloc_ok s1 v _ B M1 Hf Hh) as (c & s2 & R2 & Hc & S2 & K2 & M2).
    { unfold room in *. rewrite Hsz. rewrite map_size_empty in Hr. lia. }
    { eapply has_free_le; [|exact Hfr]. lia. }
    rewrite bind_bind. mrun R2. rewrite bind_bind.
    pose proof (add_block_length c (add_block (BBLOCK c sb) B)) as Hl1. pose proof (add_block_length (BBLOCK c sb) B) as Hl2.
    destruct (mid_write s2 _ _ _ ind i (λ d, wr32 d (4 * (bn - 12)) c) M2 (lookup_insert_eq _ _ _)) as (s3' & s3 & R3 & R3' & S3 & K3 & M3).
    { rewrite length_wr32 by (rewrite alloc_sized by apply Hf; lia). by apply alloc_sized, Hf. }
    { by apply data_loggable. }
    { unfold room in *. rewrite Hsz. rewrite map_size_empty in Hr. lia. }
    mrun R3. rewrite bind_bind. mrun R3'. rewrite bind_ret. destruct (mid_release s3 _ _ _ ind i M3 (lookup_insert_eq _ _ _)) as (s4 & R4 & S4 & K4 & M4).
    { left. apply add_block_spec. by right. }
    mrun R4. rewrite delete_insert_id in M4 by done.
    destruct (grow_listed _ _ L v a c (S bn) ltac:(by apply Hf) Hs Hc ltac:(unfold nslots; lia) Hi Hz) as (G1 & G2 & G3 & G4 & _).
    fold ind in G1, G2, G3, G4. unfold list_block in G1, G2, G3, G4. replace (S bn - 13)%nat with (bn - 12)%nat in * by lia.
    eexists s4, (<[ind := wr32 (alloc_view sb v c ind) (4 * (bn - 12)) c]> (alloc_view sb v c)), _. rewrite Epos, G4. split; [done|]. split; [by etrans; [|etrans; [|etrans]]|]. split; [congruence|]. split; [done|].
    pose proof (add_block_length ind (add_block c (add_block (BBLOCK c sb) B))) as Hl3. destruct Hc as [Hc Hcu].
    assert (¬ is_bitmap sb ind) as Hnb by (clear -Hid; unfold is_bitmap, is_data in *; lia).
    split_and!; try done.
    + apply (fs_ok_insert _ _ L); [by apply (fs_ok_alloc _ _ L)|done|]. rewrite length_wr32; rewrite alloc_sized by apply Hf; [done|lia].
    + pose proof (layout_pos _ _ L). unfold is_data in Hc. lia.
    + rewrite add_block_again by (rewrite !add_block_spec; auto). rewrite weight_add_free by auto.
      etrans; [apply weight_add|]. rewrite weight_add_free; [done|]. left. apply (BBLOCK_bitmap _ _ L). by apply (data_range _ _ L).
    + apply (has_free_insert _ _ L); [done|]. apply (has_free_alloc _ _ L); [by apply Hf|done|done].
  - rewrite bind_ret. destruct (mid_release s1 _ _ _ ind i M1 (lookup_insert_eq _ _ _)) as (s2 & R2 & S2 & K2 & M2).
    { by rewrite K1. }
    mrun R2. rewrite delete_insert_id in M2 by done. exists s2, v, B. rewrite Epos.
    split_and!; try done; [by etrans|congruence|by apply slots_grow_refl|apply weight_add|]. eapply has_free_le; [|exact Hfr]. lia.
Qed.

(** A direct slot that is 0. *)
Lemma bmap_direct_ok s v ip x B (bn n : nat) :
  mid s v ∅ B → fs_ok sb v → k_inodes s !! ip = Some x → slots_ok sb v (i_addrs x) → (bn < 12)%nat →
  slot v (i_addrs x) bn = 0 → has_free sb v (spare (i_addrs x) + S n) → room 7 ∅ B →
  ∃ s' v' a' B', (addr ← balloc 1; set_addr ip bn addr;; mret addr) s = Ret (slot v' a' (pos bn)) s' ∧
    bmapped s v ip x B bn n s' v' a' B'.
Proof using L Hfit Hlsz.
  intros Hm Hf Hx Hs Hlt Hz Hfr Hr. pose proof (so_len _ _ _ Hs) as Hlen.
  assert (pos bn = bn) as Epos by (unfold pos; by rewrite (proj2 (Nat.ltb_lt _ _))).
  destruct (balloc_ok s v ∅ B Hm Hf) as (c & s1 & R1 & Hc & S1 & K1 & M1).
  { by intros ? ? ?%lookup_empty_Some. }
  { by eapply room_le; [|exact Hr]; lia. }
  { eapply has_free_le; [|exact Hfr]. lia. }
  mrun R1. mrun (set_addr_run ip x bn c s1 ltac:(by rewrite (log_step_inodes _ _ S1))).
  destruct (grow_direct _ _ L v _ c bn ltac:(by apply Hf) Hs Hc ltac:(lia) Hz) as (G1 & G2 & G3 & G4 & _).
  eexists _, (alloc_view sb v c), (<[bn := c]> (i_addrs x)), _. rewrite Epos, G4. split; [done|].
  destruct Hc as [Hc Hcu]. pose proof (layout_pos _ _ L).
  pose proof (add_block_length c (add_block (BBLOCK c sb) B)) as Hl1. pose proof (add_block_length (BBLOCK c sb) B) as Hl2.
  split; try done; simpl.
  - etrans; [by apply log_fs_step|apply inode_fs_step].
  - by apply mid_upd_inodes.
  - by apply (fs_ok_alloc _ _ L).
  - by rewrite (log_step_inodes _ _ S1).
  - rewrite Epos, G4. unfold is_data in Hc. lia.
  - rewrite Epos, G4, add_block_again by (rewrite !add_block_spec; auto). etrans; [apply weight_add|].
    rewrite weight_add_free by (left; apply (BBLOCK_bitmap _ _ L); by apply (data_range _ _ L)).
    apply le_n_S, weight_mono. right. by rewrite nth_insert, decide_False by lia.
  - assert (spare (<[bn := c]> (i_addrs x)) = spare (i_addrs x)) as ->.
    { unfold spare. by rewrite nth_insert, decide_False by lia. }
    apply (has_free_alloc _ _ L); [by apply Hf|done|]. eapply has_free_le; [|exact Hfr]. lia.
  - by rewrite Epos.
Qed.

(** A block of the indirect part when the indirect block is missing. *)
Lemma bmap_indirect_ok s v ip x B (bn n : nat) :
  mid s v ∅ B → fs_ok sb v → k_inodes s !! ip = Some x → slots_ok sb v (i_addrs x) → (12 ≤ bn < 140)%nat →
  nth 12 (i_addrs x) 0 = 0 → has_free sb v (2 + n) → room 7 ∅ B →
  ∃ s' v' a' B', (addr ← balloc 1; set_addr ip 12 addr;; bmap_listed 1 addr (bn - 12)) s = Ret (slot v' a' (pos bn)) s' ∧
    bmapped s v ip x B bn n s' v' a' B'.
Proof using L Hfit Hlsz.
  intros Hm Hf Hx Hs Hbn Hz Hfr Hr. pose proof (so_len _ _ _ Hs) as Hlen.
  destruct (balloc_ok s v ∅ B Hm Hf) as (c & s1 & R1 & Hc & S1 & K1 & M1).
  { by intros ? ? ?%lookup_empty_Some. }
  { by eapply room_le; [|exact Hr]; lia. }
  { eapply has_free_le; [|exact Hfr]. lia. }
  mrun R1. mrun (set_addr_run ip x 12 c s1 ltac:(by rewrite (log_step_inodes _ _ S1))).
  destruct (grow_indirect _ _ L v _ c ltac:(by apply Hf) Hs Hc) as (G1 & G2 & G3 & _); [by rewrite slot_direct by lia|].
  pose proof (add_block_length c (add_block (BBLOCK c sb) B)) as Hl1. pose proof (add_block_length (BBLOCK c sb) B) as Hl2.
  destruct Hc as [Hc Hcu]. assert (c ≠ 0) as Hc0 by (pose proof (layout_pos _ _ L); unfold is_data in Hc; lia).
  assert (nth 12 (<[12%nat := c]> (i_addrs x)) 0 = c) as E12 by (by rewrite nth_insert, decide_True by lia).
  destruct (bmap_listed_ok (upd_k_inodes <[ip := upd_i_addrs (λ _, <[12%nat := c]> (i_addrs x)) x]> s1) (alloc_view sb v c)
     (<[12%nat := c]> (i_addrs x)) (add_block c (add_block (BBLOCK c sb) B)) bn n)
    as (s' & v' & B' & R & S & K & M & F & Sl & G & Kp & Nz & Lg & Fr); [by apply mid_upd_inodes|by apply (fs_ok_alloc _ _ L)| | | | | |].
  - done.
  - by rewrite E12.
  - lia.
  - apply (has_free_alloc _ _ L); [by apply Hf|done|]. eapply has_free_le; [|exact Hfr]. lia.
  - unfold room in *. lia.
  - rewrite E12 in R. eexists s', v', _, B'. split; [exact R|]. split; try done.
    + etrans; [by apply log_fs_step|]. etrans; [apply inode_fs_step|by apply log_fs_step].
    + by rewrite K.
    + rewrite (log_step_inodes _ _ S). simpl. by rewrite (log_step_inodes _ _ S1).
    + by eapply (slots_grow_trans _ _ L).
    + intros k Hk Hk12 Hknz. rewrite <-(gr_slot _ _ _ _ _ G2 k Hk Hknz), Kp, (gr_slot _ _ _ _ _ G2), G3; try done.
      by rewrite (gr_slot _ _ _ _ _ G2).
    + etrans; [exact Lg|]. rewrite weight_add_free by (right; by rewrite E12).
      rewrite weight_add_free by (left; apply (BBLOCK_bitmap _ _ L); by apply (data_range _ _ L)).
      apply le_n_S, weight_mono. by left.
    + unfold spare. by rewrite E12, (proj2 (Z.eqb_neq _ _) Hc0).
    + unfold pos. rewrite (proj2 (Nat.ltb_ge _ _)), slot_indirect, Hz by lia. done.
Qed.

Lemma bmap_ok s v ip x B (bn n : nat) :
  mid s v ∅ B → fs_ok sb v → k_inodes s !! ip = Some x → i_dev x = 1 → slots_ok sb v (i_addrs x) → (bn < 140)%nat →
  has_free sb v (spare (i_addrs x) + S n) → room 7 ∅ B →
  ∃ s' v' a' B', bmap ip (Z.of_nat bn) s = Ret (slot v' a' (pos bn)) s' ∧ bmapped s v ip x B bn n s' v' a' B'.
Proof using L Hfit Hlsz.
  intros Hm Hf Hx Hdev Hs Hbn Hfr Hr. pose proof (so_len _ _ _ Hs) as Hlen. unfold bmap. rewrite (bind_inode_at _ x) by done.
  unfold NDIRECT, NINDIRECT, BSIZE. change (512 / 4) with 128. rewrite Hdev. destruct (decide (bn < 12)%nat) as [Hlt|Hge].
  - rewrite (proj2 (Z.ltb_lt _ _)), Nat2Z.id, bind_addr_at by lia. rewrite <-(slot_direct v) by lia.
    destruct (Z.eqb_spec (slot v (i_addrs x) bn) 0) as [Hz|Hnz]; [by apply bmap_direct_ok|].
    assert (pos bn = bn) as Epos by (unfold pos; by rewrite (proj2 (Nat.ltb_lt _ _))).
    exists s, v, (i_addrs x), B. rewrite Epos. split; [done|]. apply bmapped_refl; try done; [by rewrite Epos|].
    eapply has_free_le; [|exact Hfr]. lia.
  - rewrite (proj2 (Z.ltb_ge _ _)) by lia. rewrite (proj2 (Z.ltb_lt _ _)) by lia. rewrite bind_addr_at by lia.
    change (Z.to_nat 12) with 12%nat. replace (Z.to_nat (Z.of_nat bn - 12)) with (bn - 12)%nat by lia.
    destruct (Z.eqb_spec (nth 12 (i_addrs x) 0) 0) as [Hz|Hnz].
    + assert (spare (i_addrs x) = 1%nat) as Esp by (unfold spare; by rewrite Hz). rewrite Esp in Hfr.
      destruct (bmap_indirect_ok s v ip x B bn n Hm Hf Hx Hs ltac:(lia) Hz Hfr Hr) as (s' & v' & a' & B' & R & Hb).
      exists s', v', a', B'. split; [|done]. rewrite <-R. unfold mbind, M_bind. by destruct (balloc 1 s).
    + rewrite bind_ret. assert (spare (i_addrs x) = 0%nat) as Esp by (unfold spare; by rewrite (proj2 (Z.eqb_neq _ _) Hnz)).
      rewrite Esp in Hfr.
      destruct (bmap_listed_ok s v (i_addrs x) B bn n Hm Hf Hs Hnz ltac:(lia) Hfr) as (s' & v' & B' & R & S & K & M & F & Sl & G & Kp & Nz & Lg & Fr).
      { by eapply room_le; [|exact Hr]; lia. }
      exists s', v', (i_addrs x), B'. split; [exact R|]. split; try done; [by apply log_fs_step| |by rewrite Esp].
      by rewrite upd_addrs_id, (log_step_inodes _ _ S), list_insert_id.
Qed.

(** ** Writing *)

(** Byte [i] after [src] was written at [off]. *)
Definition over (old : nat → Z) (off : nat) (src : list Z) (i : nat) : Z :=
  if decide (off ≤ i < off + length src)%nat then nth (i - off) src 0 else old i.

(** What writing [src] at [off] leaves. *)
Record written (s : kstate) (v : Z → list Z) (ip : nat) (x : inode) (B : list Z) (off : nat) (src : list Z) (cnt : nat)
    (s' : kstate) (v' : Z → list Z) (a' B' : list Z) : Prop := MkWritten {
  wr_step : fs_step s s';
  wr_disk : k_disk s' = k_disk s;
  wr_mid : mid s' v' ∅ B';
  wr_fs : fs_ok sb v';
  wr_inode : k_inodes s' = <[ip := upd_i_addrs (λ _, a') x]> (k_inodes s);
  wr_slots : slots_ok sb v' a';
  wr_grows : grows sb v (i_addrs x) v' a';
  wr_bytes i : mapped v (i_addrs x) i ∨ (off ≤ i < off + length src)%nat →
    fbyte v' a' i = over (fbyte v (i_addrs x)) off src i;
  wr_mapped i : (off ≤ i < off + length src)%nat → mapped v' a' i;
  wr_weight : (weight a' B' ≤ weight (i_addrs x) B + cnt)%nat;
  wr_same : (∀ i, (off ≤ i < off + length src)%nat → mapped v (i_addrs x) i) → a' = i_addrs x;
}.

Lemma written_nil s v ip x B off :
  mid s v ∅ B → fs_ok sb v → k_inodes s !! ip = Some x → slots_ok sb v (i_addrs x) →
  written s v ip x B off [] 0 s v (i_addrs x) B.
Proof using.
  intros Hm Hf Hx Hs. split; try done; [|by apply slots_grow_refl| | |lia].
  - by rewrite upd_addrs_id, list_insert_id.
  - intros i _. unfold over. simpl. by rewrite decide_False by lia.
  - simpl. lia.
Qed.

(** A block of [src], then the rest. *)
Lemma written_app s v ip x B off src1 src2 c1 c2 s1 v1 a1 B1 s2 v2 a2 B2 :
  (ip < length (k_inodes s))%nat →
  written s v ip x B off src1 c1 s1 v1 a1 B1 →
  written s1 v1 ip (upd_i_addrs (λ _, a1) x) B1 (off + length src1) src2 c2 s2 v2 a2 B2 →
  written s v ip x B off (src1 ++ src2) (c1 + c2) s2 v2 a2 B2.
Proof using L.
  intros Hip [A1 A2 A3 A4 A5 A6 A7 A8 A9 A10 A11] [C1 C2 C3 C4 C5 C6 C7 C8 C9 C10 C11]. simpl in *.
  split; try done.
  - by etrans.
  - congruence.
  - rewrite C5, A5, list_insert_insert_eq. by destruct x.
  - by eapply (slots_grow_trans _ _ L).
  - intros i Hi. rewrite length_app in Hi. unfold over in *. rewrite length_app.
    destruct (decide (off + length src1 ≤ i < off + length src1 + length src2)%nat) as [Hd|Hd].
    + rewrite C8, !decide_True by (tauto || lia). rewrite app_nth2 by lia. f_equal. lia.
    + assert (mapped v1 a1 i) as Hm1.
      { destruct Hi as [Hi|Hi]; [by eapply mapped_grows|]. apply A9. lia. }
      rewrite C8, decide_False by (tauto || lia). rewrite A8 by (destruct Hi; [by left|right; lia]).
      repeat case_decide; try lia. by rewrite app_nth1 by lia.
  - intros i Hi. rewrite length_app in Hi. destruct (decide (i < off + length src1)%nat); [|apply C9; lia].
    eapply mapped_grows; [done|]. apply A9. lia.
  - lia.
  - intros Hall. rewrite length_app in Hall. rewrite C11; [apply A11; intros; apply Hall; lia|].
    intros i Hi. eapply mapped_grows; [done|]. apply Hall. lia.
Qed.

(** One round of the loop of [writei]. *)
Lemma write_block_ok s v ip x B (off n : nat) src :
  mid s v ∅ B → fs_ok sb v → k_inodes s !! ip = Some x → i_dev x = 1 → slots_ok sb v (i_addrs x) →
  (off < 140 * 512)%nat → (off mod 512 + length src ≤ 512)%nat → src ≠ [] → has_free sb v (spare (i_addrs x) + S n) → wroom 7 (i_addrs x) B →
  ∃ s' v' a' B', (∀ A (k : K A), (addr ← bmap ip (Z.of_nat (off / 512)); bp ← bread 1 addr;
      set_data bp (λ d, splice d (off mod 512) src);; log_write bp;; brelse bp;; k) s = k s') ∧
    written s v ip x B off src 1 s' v' a' B' ∧ has_free sb v' (spare a' + n).
Proof using L Hfit Hlsz.
  intros Hm Hf Hx Hdev Hs Hoff Hsrc Hne Hfr Hr. set (bn := (off / 512)%nat). set (o := (off mod 512)%nat) in *.
  assert (off = bn * 512 + o)%nat as Eoff by (unfold bn, o; pose proof (Nat.div_mod off 512 ltac:(lia)); lia).
  assert (bn < 140)%nat as Hbn by (apply Nat.Div0.div_lt_upper_bound; lia).
  assert (0 < length src ∧ o < 512)%nat as Ho by (unfold o; destruct src; [done|]; simpl; pose proof (Nat.mod_upper_bound off 512); lia).
  clearbody bn o.
  destruct (bmap_ok s v ip x B bn n Hm Hf Hx Hdev Hs Hbn Hfr (wroom_room _ _ _ (md_nodup _ _ _ _ Hm) Hr)) as (s1 & v1 & a1 & B1 & R1 & [A1 A2 A3 A4 A5 A6 A7 A8 A9 A10 A11 A12]).
  destruct (pos_slot bn Hbn) as [Hp Hp12]. destruct (so_data _ _ _ A6 _ Hp A9) as [Hd Hu].
  destruct (mid_update s1 v1 ∅ B1 (slot v1 a1 (pos bn)) (λ d, splice d o src) A3 (lookup_empty _)) as (s2 & R2 & S2 & K2 & M2).
  { rewrite length_splice; rewrite (fo_sized _ _ A4); [done|lia]. }
  { by apply data_loggable. }
  { pose proof (weight_le a1 (slot v1 a1 (pos bn)) B1). apply (wroom_room _ a1); [apply A3|]. unfold wroom in *. lia. }
  assert (¬ is_bitmap sb (slot v1 a1 (pos bn))) as Hnb by (unfold is_bitmap, is_data in *; lia).
  destruct (overwrite_ok _ _ L v1 a1 (pos bn) (splice (v1 (slot v1 a1 (pos bn))) o src) A6 Hp Hp12 A9) as (E1 & E2 & E3).
  eexists s2, _, a1, _. split; [intros C k; mrun R1; by rewrite R2|]. split; [|by apply (has_free_insert _ _ L)].
  assert (∀ i, (off ≤ i < off + length src)%nat → mapped v1 a1 i) as Hnew.
  { intros i Hi. assert (i / 512 = bn)%nat as Ei by (symmetry; apply (Nat.div_unique _ _ _ (i - bn * 512)); lia).
    split; [lia|by rewrite Ei]. }
  split; try done.
  - etrans; [done|by apply log_fs_step].
  - congruence.
  - apply (fs_ok_insert _ _ L); [done|done|]. rewrite length_splice; rewrite (fo_sized _ _ A4); [done|lia].
  - by rewrite (log_step_inodes _ _ S2).
  - by eapply (slots_grow_trans _ _ L).
  - intros i Hi. assert (mapped v1 a1 i) as Hi1 by (destruct Hi; [by eapply mapped_grows|by apply Hnew]).
    rewrite (fbyte_overwrite _ _ L v1 a1 bn o src i) by (done || apply A4 || lia). rewrite <-Eoff. unfold over.
    case_decide as Hc; [done|]. destruct Hi as [Hi|]; [|done]. by eapply fbyte_keeps.
  - intros i Hi. eapply mapped_grows; [done|]. by apply Hnew.
  - lia.
  - intros Hall. apply A12. destruct (Hall off ltac:(lia)) as [_ Hnz].
    replace (off / 512)%nat with bn in Hnz; [done|]. apply (Nat.div_unique _ _ _ o); lia.
Qed.

Lemma writei_loop_ok cnt e fuel s v ip x B (tot off n : nat) src :
  mid s v ∅ B → fs_ok sb v → k_inodes s !! ip = Some x → i_dev x = 1 → slots_ok sb v (i_addrs x) →
  length src = (n - tot)%nat → (tot ≤ n)%nat → (off + length src ≤ 140 * 512)%nat →
  (tot < n → off mod 512 + length src ≤ cnt * 512)%nat → (cnt ≤ fuel)%nat →
  has_free sb v (spare (i_addrs x) + (cnt + e)) → wroom (cnt + 7) (i_addrs x) B →
  ∃ s' v' a' B' c, writei_loop fuel ip (Z.of_nat tot) (Z.of_nat off) (Z.of_nat n) src s = Ret (Z.of_nat (off + length src)) s' ∧
    written s v ip x B off src c s' v' a' B' ∧ (c ≤ cnt)%nat ∧ has_free sb v' (spare a' + e).
Proof using L Hfit Hlsz.
  revert cnt s v x B tot off src. induction fuel as [|fuel IH]; intros cnt s v x B tot off src Hm Hf Hx Hdev Hs Hlen Htot Hmax Hcnt Hfuel Hfr Hr;
    simpl; (destruct (Z.ltb_spec (Z.of_nat tot) (Z.of_nat n)); [|
      assert (src = []) as -> by (apply nil_length_inv; lia); exists s, v, (i_addrs x), B, 0%nat;
      split; [simpl; do 2 f_equal; lia|split; [by apply written_nil|split; [lia|]]]; eapply has_free_le; [|exact Hfr]; lia]).
  { lia. }
  rewrite (bind_inode_at _ x) by done. unfold BSIZE. rewrite Hdev.
  destruct cnt as [|cnt]; [lia|]. pose proof (Nat.mod_upper_bound off 512 ltac:(lia)) as Hmb.
  pose proof (Nat.div_mod off 512 ltac:(lia)) as Hdm.
  set (m := Nat.min (n - tot) (512 - off mod 512)).
  assert (Z.of_nat off mod 512 = Z.of_nat (off mod 512)) as Emod by (by rewrite Nat2Z.inj_mod).
  assert (Z.of_nat off / 512 = Z.of_nat (off / 512)) as Ediv by (by rewrite Nat2Z.inj_div).
  replace (Z.min (Z.of_nat n - Z.of_nat tot) (512 - Z.of_nat off mod 512)) with (Z.of_nat m)
    by (unfold m; lia).
  rewrite Ediv, Emod, !Nat2Z.id.
  assert (length (take m src) = m) as Hl1 by (rewrite length_take; lia).
  destruct (write_block_ok s v ip x B off (cnt + e) (take m src) Hm Hf Hx Hdev Hs) as (s1 & v1 & a1 & B1 & R1 & W1 & F1).
  { lia. }
  { lia. }
  { intros E. rewrite E in Hl1. simpl in Hl1. lia. }
  { eapply has_free_le; [|exact Hfr]. lia. }
  { unfold wroom in *. lia. }
  cbv zeta. rewrite R1, <-!Nat2Z.inj_add.
  destruct (IH cnt s1 v1 (upd_i_addrs (λ _, a1) x) B1 (tot + m)%nat (off + m)%nat (drop m src)) as (s2 & v2 & a2 & B2 & c & R2 & W2 & Hc2 & Hf2).
  - apply W1.
  - apply W1.
  - rewrite (wr_inode _ _ _ _ _ _ _ _ _ _ _ _ W1). by eapply list_insert_lookup_eq.
  - done.
  - apply W1.
  - rewrite length_drop. lia.
  - lia.
  - rewrite length_drop. lia.
  - intros Hlt. rewrite length_drop. replace ((off + m) mod 512)%nat with 0%nat; [lia|].
    symmetry. replace (off + m)%nat with ((off / 512 + 1) * 512)%nat by lia. apply Nat.Div0.mod_mul.
  - lia.
  - done.
  - pose proof (wr_weight _ _ _ _ _ _ _ _ _ _ _ _ W1). unfold wroom in *. simpl. lia.
  - exists s2, v2, a2, B2, (1 + c)%nat. split; [rewrite R2; do 2 f_equal; rewrite length_drop; lia|]. split; [|split; [lia|done]].
    rewrite <-(take_drop m src). eapply written_app; [by eapply lookup_lt_Some|exact W1|by rewrite Hl1].
Qed.
End fsspec.
