(* ===== verification/FileIO.v ===== *)
(** FileIO: [writei] and [readi] as operations on files.

    [writei] splices bytes into a file and leaves every other file as it is;
    [readi] then returns the new content.  [Filewrite] runs the write between
    [begin_op] and [end_op] and across crashes. *)

From S2P Require Import Prelude Layout State Spinlock Sched Bytes Sleeplock Ready Disk Bio Lru Bcache BcacheSpec Log LogSpec Crash Transaction Fs Inode Dinode ConsoleDev Dir FsSpec.

Section fileio.
Context {ENV : Env} {DRV : DiskDriver} {OK : DiskDriverOk DRV}.
Context (start lsz : Z) (sb : superblock) (L : layout start sb).
Context (Hfit : sb_size sb ≤ disk_size) (Hlsz : lsz ≤ LOGSIZE).

#[local] Notation mid := (mid start lsz sb).
#[local] Notation inode_ok := (inode_ok sb).
#[local] Notation room := (room lsz).

(** ** [iupdate] *)

(** The inode as the disk has it. *)
Definition on_disk (v : Z → list Z) (x : inode) : inode :=
  dinode_read (v (IBLOCK (i_inum x) sb)) (dinode_off (i_inum x)) x.

(** The inode in memory is the one on the disk. *)
Definition synced (v : Z → list Z) (x : inode) : Prop := on_disk v x = x.

(** The view after [iupdate]. *)
Definition update_view (v : Z → list Z) (x : inode) : Z → list Z :=
  <[IBLOCK (i_inum x) sb := dinode_write (v (IBLOCK (i_inum x) sb)) (dinode_off (i_inum x)) x]> v.

Lemma length_update v x :
  sized v → length (i_addrs x) = 13%nat → 0 ≤ i_inum x →
  length (dinode_write (v (IBLOCK (i_inum x) sb)) (dinode_off (i_inum x)) x) = 512%nat.
Proof using.
  intros Hv Ha Hi. rewrite length_dinode_write; [by apply Hv|done|]. rewrite Hv. by apply dinode_off_fits.
Qed.

Lemma iupdate_ok s v ip x B :
  mid s v ∅ B → k_inodes s !! ip = Some x → i_dev x = 1 → 0 ≤ i_inum x < sb_ninodes sb → length (i_addrs x) = 13%nat →
  room 2 ∅ B →
  ∃ s', iupdate ip s = Ret tt s' ∧ log_step s s' ∧ k_disk s' = k_disk s ∧
    mid s' (update_view v x) ∅ (add_block (IBLOCK (i_inum x) sb) B).
Proof using L Hfit Hlsz.
  intros Hm Hx Hdev Hi Ha Hr. destruct (IBLOCK_range _ _ L _ Hi) as [_ Hib]. pose proof (layout_pos _ _ L). pose proof (lo_data _ _ L).
  assert (loggable sb (IBLOCK (i_inum x) sb)) as Hlog by (unfold loggable; lia).
  destruct (mid_read start lsz sb s v ∅ B _ Hm (lookup_empty _) (loggable_range _ _ L Hfit _ Hlog))
    as (i & y & s1 & R1 & S1 & K1 & M1 & _); [by eapply room_le; [|exact Hr]; lia|].
  destruct (mid_write _ _ _ L Hfit Hlsz s1 v _ B _ i (λ d, dinode_write d (dinode_off (i_inum x)) x) M1 (lookup_insert_eq _ _ _))
    as (s2' & s2 & R2 & R2' & S2 & K2 & M2); [|done| |].
  { apply length_update; [by eapply mid_sized|done|lia]. }
  { unfold room in *. rewrite map_size_insert_None by done. lia. }
  destruct (mid_release _ _ _ s2 _ _ _ _ i M2 (lookup_insert_eq _ _ _)) as (s3 & R3 & S3 & K3 & M3).
  { left. apply add_block_spec. by right. }
  exists s3. split; [|split; [by etrans; [|etrans]|split; [congruence|by rewrite delete_insert_id in M3]]].
  unfold iupdate. rewrite (bind_inode_at _ x), bind_gets, (md_sb _ _ _ _ _ _ _ Hm), Hdev by done. mrun R1.
  rewrite (bind_inode_at _ x) by (by rewrite (log_step_inodes _ _ S1)). mrun R2. by mrun R2'.
Qed.

(** Writing an inode changes no file's blocks. *)
Lemma update_frame v x a :
  0 ≤ i_inum x < sb_ninodes sb → slots_ok sb v a → ∀ c, is_slot v a c → update_view v x c = v c ∧ used sb (update_view v x) c = true.
Proof using L.
  intros Hi Hs c (Hc0 & k & Hk & E). rewrite <-E in Hc0. destruct (so_data _ _ _ Hs k Hk Hc0) as [Hd Hu]. rewrite E in Hd, Hu.
  destruct (IBLOCK_range _ _ L _ Hi) as [_ Hib]. pose proof (layout_pos _ _ L). split.
  - apply fn_lookup_insert_ne. unfold is_data in Hd. lia.
  - unfold update_view. rewrite (used_insert _ _ L); [done|unfold is_bitmap; lia|by apply (data_range _ _ L)].
Qed.

Lemma update_fs_ok v x : fs_ok sb v → 0 ≤ i_inum x < sb_ninodes sb → length (i_addrs x) = 13%nat → fs_ok sb (update_view v x).
Proof using L.
  intros Hf Hi Ha. destruct (IBLOCK_range _ _ L _ Hi) as [_ Hib].
  apply (fs_ok_insert _ _ L); [done|unfold is_bitmap; lia|apply length_update; [apply Hf|done|lia]].
Qed.

Lemma slots_u32 v a : slots_ok sb v a → Forall is_u32 a.
Proof using L.
  intros Hs. pose proof (so_len _ _ _ Hs) as Hl. apply Forall_lookup. intros k z Hk.
  assert (k < 13)%nat as Hk13 by (rewrite <-Hl; by eapply lookup_lt_Some).
  assert (slot v a k = z) as E by (rewrite slot_direct, nth_lookup, Hk by done; done).
  destruct (decide (z = 0)) as [->|Hne]; [done|]. rewrite <-E in *.
  destruct (so_data _ _ _ Hs k ltac:(unfold nslots; lia) Hne) as [Hd _].
  pose proof (layout_pos _ _ L). pose proof (lo_small _ _ L). unfold is_data in Hd. unfold is_u32, two32. lia.
Qed.

(** The fields that come from the disk fit; the new size and addresses do too. *)
Lemma synced_fits v x v' n a :
  synced v x → slots_ok sb v' a → is_u32 n → dinode_fits (upd_i_size (λ _, n) (upd_i_addrs (λ _, a) x)).
Proof using L.
  intros Hy Hs Hn. unfold synced, on_disk in Hy.
  split; simpl; try (rewrite <-Hy; apply s16_range); [done|apply Hs|by eapply slots_u32].
Qed.

Lemma synced_update v x : sized v → dinode_fits x → 0 ≤ i_inum x → synced (update_view v x) x.
Proof using.
  intros Hv Hf Hi. unfold synced, on_disk, update_view. rewrite fn_lookup_insert, dinode_roundtrip; [by destruct x|done|].
  rewrite Hv. by apply dinode_off_fits.
Qed.

(** The other inodes on the disk. *)
Lemma on_disk_update v x y :
  sized v → length (i_addrs x) = 13%nat → 0 ≤ i_inum x < sb_ninodes sb → 0 ≤ i_inum y < sb_ninodes sb → i_inum x ≠ i_inum y →
  on_disk (update_view v x) y = on_disk v y.
Proof using L.
  intros Hv Ha Hx Hy Hne. unfold on_disk, update_view.
  destruct (decide (IBLOCK (i_inum x) sb = IBLOCK (i_inum y) sb)) as [E|]; [|by rewrite fn_lookup_insert_ne].
  rewrite <-E, fn_lookup_insert, dinode_read_other; [done|done|rewrite Hv; apply dinode_off_fits; lia|].
  by apply (dinode_off_ne _ _ L).
Qed.

Lemma grows_low v a v1 a1 b :
  fs_ok sb v → slots_ok sb v a → grows sb v a v1 a1 → 0 ≤ b < sb_bmapstart sb → v1 b = v b.
Proof using L.
  intros Hf Hs G Hb. pose proof (layout_pos _ _ L). pose proof (lo_data _ _ L).
  apply (gr_block _ _ _ _ _ G); [lia|apply Hf; lia|unfold is_bitmap; lia|].
  intros (Hc0 & k & Hk & E). rewrite <-E in Hc0. destruct (so_data _ _ _ Hs k Hk Hc0) as [Hd _]. rewrite E in Hd.
  unfold is_data in Hd. lia.
Qed.

Lemma on_disk_grows v a v' a' x :
  fs_ok sb v → slots_ok sb v a → grows sb v a v' a' → 0 ≤ i_inum x < sb_ninodes sb → on_disk v' x = on_disk v x.
Proof using L.
  intros Hf Hs G Hi. destruct (IBLOCK_range _ _ L _ Hi) as [_ Hib]. pose proof (layout_pos _ _ L).
  unfold on_disk. by rewrite (grows_low v a v' a') by (done || lia).
Qed.

(** ** [writei] *)

Lemma inode_frame v v' x :
  inode_ok v x → (∀ c, is_slot v (i_addrs x) c → v' c = v c ∧ used sb v' c = true) → inode_ok v' x ∧ contents v' x = contents v x.
Proof using.
  intros [H1 H2 H3 H4 H5 H6] Hf. destruct (file_frame sb v v' _ H4 Hf) as (_ & Hs & Hb). split.
  - split; try done. intros i Hi. by apply Hb, H6.
  - apply content_ext. intros i Hi. apply Hb, H6. lia.
Qed.

(** The number of blocks that [n] bytes at [off] are in. *)
Definition nblk (off n : nat) : nat := ((off mod 512 + n + 511) / 512)%nat.

(** Writing [src] at [off] of the file [x], in memory at [ip]: [x'] is the inode afterwards. *)
Record wrote (s : kstate) (v : Z → list Z) (ip : nat) (x : inode) (off : nat) (src : list Z)
    (s' : kstate) (v' : Z → list Z) (x' : inode) : Prop := MkWrote {
  wt_step : fs_step s s';
  wt_disk : k_disk s' = k_disk s;
  wt_inodes : k_inodes s' = <[ip := x']> (k_inodes s);
  wt_fs : fs_ok sb v';
  wt_ok : inode_ok v' x';
  wt_same : x' = upd_i_size (λ _, i_size x') (upd_i_addrs (λ _, i_addrs x') x);
  wt_file : contents v' x' = splice (contents v x) off src;
  wt_synced : synced v' x';
  wt_low b : 0 ≤ b < sb_inodestart sb → v' b = v b;
  wt_others y : inode_ok v y → i_inum x ≠ i_inum y → disjoint_files v (i_addrs x) (i_addrs y) →
    inode_ok v' y ∧ contents v' y = contents v y ∧ on_disk v' y = on_disk v y ∧ disjoint_files v' (i_addrs x') (i_addrs y);
}.

Lemma wrote_others v a v1 a1 y :
  fs_ok sb v → slots_ok sb v a → grows sb v a v1 a1 → inode_ok v y → disjoint_files v a (i_addrs y) →
  inode_ok v1 y ∧ contents v1 y = contents v y ∧ on_disk v1 y = on_disk v y ∧ disjoint_files v1 a1 (i_addrs y).
Proof using L.
  intros Hf Hs G Hy Hd. pose proof (ik_slots _ _ _ Hy) as Hsy.
  destruct (inode_frame v v1 y Hy (grows_frame _ _ L v a v1 a1 _ G Hsy Hd)) as [H1 H2].
  split; [done|]. split; [done|]. split; [apply (on_disk_grows v a v1 a1); [done|done|done|apply Hy]|by eapply (disjoint_grows _ _ L)].
Qed.

(** The write does not pass the end of the file. *)
Lemma wrote_inside s v ip x B off src c s1 v1 a1 B1 :
  k_inodes s !! ip = Some x → fs_ok sb v → inode_ok v x → synced v x → Z.of_nat (off + length src) ≤ i_size x →
  written start lsz sb s v ip x B off src c s1 v1 a1 B1 → wrote s v ip x off src s1 v1 x.
Proof using L.
  intros Hx Hf Hok Hy Hend W.
  assert (∀ i, (off ≤ i < off + length src)%nat → mapped v (i_addrs x) i) as Hall by (intros i Hi; apply (ik_mapped _ _ _ Hok); lia).
  pose proof (wr_same _ _ _ _ _ _ _ _ _ _ _ _ _ _ _ W Hall) as ->.
  destruct W as [W1 W2 W3 W4 W5 W6 W7 W8 W9 W10 _]. rewrite upd_addrs_id in W5. pose proof Hok as [O1 O2 O3 O4 O5 O6].
  split; try done.
  - split; try done. intros i Hi. eapply mapped_grows; [done|]. by apply O6.
  - unfold contents. replace (i_size x) with (Z.max (i_size x) (Z.of_nat (off + length src))) at 1 by lia.
    apply content_splice; [lia|]. intros i Hi. rewrite W8; [done|]. left. apply O6. lia.
  - unfold synced. by rewrite (on_disk_grows v (i_addrs x) v1 (i_addrs x)).
  - intros b Hb. pose proof (layout_pos _ _ L). by rewrite (grows_low v (i_addrs x) v1 (i_addrs x)) by (done || lia).
  - intros y Hy' _ Hd. by eapply wrote_others.
Qed.

(** The write extends the file: [iupdate] follows. *)
Lemma wrote_past s v ip x B off src c s1 v1 a1 B1 s2 :
  let x' := upd_i_size (λ _, Z.of_nat (off + length src)) (upd_i_addrs (λ _, a1) x) in
  k_inodes s !! ip = Some x → fs_ok sb v → inode_ok v x → synced v x → Z.of_nat off ≤ i_size x →
  i_size x < Z.of_nat (off + length src) ≤ MAXFILE * BSIZE →
  written start lsz sb s v ip x B off src c s1 v1 a1 B1 →
  log_step (upd_k_inodes <[ip := x']> s1) s2 → k_disk s2 = k_disk s1 →
  wrote s v ip x off src s2 (update_view v1 x') x'.
Proof using L.
  intros x' Hx Hf Hok Hy Hoff Hend [W1 W2 W3 W4 W5 W6 W7 W8 W9 W10 _] S2 K2. pose proof Hok as [O1 O2 O3 O4 O5 O6].
  assert (∀ i, Z.of_nat i < i_size x' → mapped v1 a1 i) as Hmap.
  { intros i Hi. simpl in Hi. destruct (decide (off ≤ i)%nat); [apply W9; lia|]. eapply mapped_grows; [done|]. apply O6. lia. }
  assert (inode_ok v1 x') as Hok1 by (split; try done; simpl; lia).
  assert (length (i_addrs x') = 13%nat) as Ha by apply W6.
  assert (dinode_fits x') as Hfit'.
  { apply (synced_fits v x v1); [done|done|]. unfold MAXFILE, NDIRECT, NINDIRECT, BSIZE, is_u32, two32 in *.
    change (512 / 4) with 128 in *. lia. }
  destruct (inode_frame v1 (update_view v1 x') x' Hok1 (update_frame v1 x' _ O3 W6)) as [Hok2 Efile].
  split; try done.
  - etrans; [done|]. etrans; [apply inode_fs_step|by apply log_fs_step].
  - congruence.
  - rewrite (log_step_inodes _ _ S2). simpl. by rewrite W5, list_insert_insert_eq.
  - by apply update_fs_ok.
  - rewrite Efile. unfold contents. simpl. replace (Z.of_nat (off + length src)) with (Z.max (i_size x) (Z.of_nat (off + length src))) by lia.
    apply content_splice; [lia|]. intros i Hi. rewrite W8; [done|]. destruct (decide (i < off)%nat); [left; apply O6|right]; lia.
  - apply synced_update; [apply W4|done|apply O3].
  - intros b Hb. pose proof (layout_pos _ _ L). destruct (IBLOCK_range _ _ L _ O3) as [_ Hib].
    unfold update_view. rewrite fn_lookup_insert_ne by (change (i_inum x') with (i_inum x); lia).
    by rewrite (grows_low v (i_addrs x) v1 a1) by (done || lia).
  - intros y Hy' Hne Hd. destruct (wrote_others v (i_addrs x) v1 a1 y) as (H1 & H2 & H3 & H4); try done.
    destruct (inode_frame v1 (update_view v1 x') y H1 (update_frame v1 x' _ O3 (ik_slots _ _ _ H1))) as [H5 H6].
    split; [done|]. split; [by rewrite H6|]. split.
    + rewrite on_disk_update; [done|apply W4|done|done|apply Hy'|done].
    + intros c0 Hc1 Hc2.
      destruct (file_frame sb v1 (update_view v1 x') a1 W6 (update_frame v1 x' _ O3 W6)) as [E1 _].
      destruct (file_frame sb v1 (update_view v1 x') _ (ik_slots _ _ _ H1) (update_frame v1 x' _ O3 (ik_slots _ _ _ H1))) as [E2 _].
      apply (H4 c0); [by apply (is_slot_ext _ _ _ _ E1)|by apply (is_slot_ext _ _ _ _ E2)].
Qed.

Lemma writei_ok e s v ip x B off src :
  mid s v ∅ B → fs_ok sb v → k_inodes s !! ip = Some x → inode_ok v x → synced v x →
  Z.of_nat off ≤ i_size x → Z.of_nat (off + length src) ≤ MAXFILE * BSIZE →
  has_free sb v (spare (i_addrs x) + (nblk off (length src) + e)) → wroom lsz sb (nblk off (length src) + 7) (i_addrs x) B →
  ∃ s' v' x' B', writei ip src (Z.of_nat off) s = Ret (Z.of_nat (length src)) s' ∧ wrote s v ip x off src s' v' x' ∧
    mid s' v' ∅ B' ∧ (weight sb (i_addrs x') B' ≤ weight sb (i_addrs x) B + nblk off (length src) + 1)%nat ∧
    has_free sb v' (spare (i_addrs x') + e).
Proof using L Hfit Hlsz.
  intros Hm Hf Hx Hok Hy Hoff Hend Hfr Hr. set (n := length src) in *. set (cnt := nblk off n) in *.
  assert (MAXFILE * BSIZE = 71680) as EM by done.
  pose proof (Nat.mod_upper_bound off 512 ltac:(lia)) as Hmb.
  assert (off mod 512 + n ≤ cnt * 512 ∧ cnt * 512 ≤ off mod 512 + n + 511)%nat as [Hcnt Hcnt'].
  { unfold cnt, nblk. pose proof (Nat.div_mod (off mod 512 + n + 511) 512 ltac:(lia)) as E.
    pose proof (Nat.mod_upper_bound (off mod 512 + n + 511) 512 ltac:(lia)). lia. }
  destruct (writei_loop_ok _ _ _ L Hfit Hlsz cnt e (Z.to_nat (Z.of_nat n / BSIZE + 2)) s v ip x B 0 off n src)
    as (s1 & v1 & a1 & B1 & c & R1 & W1 & Hc & Hfr1); try done; fold n; try lia.
  - apply Hok.
  - apply Hok.
  - unfold BSIZE. dlia.
  - unfold writei. fold n. rewrite (bind_inode_at _ x) by done. rewrite (proj2 (Z.eqb_neq _ _) (ik_type _ _ _ Hok)).
    rewrite (proj2 (Z.ltb_ge _ _) Hoff), u32_small by (unfold two32; lia).
    rewrite (proj2 (Z.ltb_ge _ _)) by lia. simpl. rewrite (proj2 (Z.ltb_ge _ _)) by lia.
    change (Z.of_nat 0) with 0 in R1. mrun R1.
    assert (k_inodes s1 !! ip = Some (upd_i_addrs (λ _, a1) x)) as Hx1.
    { rewrite (wr_inode _ _ _ _ _ _ _ _ _ _ _ _ _ _ _ W1). by eapply list_insert_lookup_eq. }
    rewrite (bind_inode_at _ _ _ _ Hx1). pose proof (wr_weight _ _ _ _ _ _ _ _ _ _ _ _ _ _ _ W1) as Hlog. fold n.
    destruct (Z.ltb_spec (i_size (upd_i_addrs (λ _, a1) x)) (Z.of_nat (off + n))) as [Hlt|Hge]; simpl in *; cycle 1.
    { rewrite andb_false_r. exists s1, v1, x, B1. split; [done|]. split; [by eapply wrote_inside|]. split; [apply W1|].
      rewrite (wr_same _ _ _ _ _ _ _ _ _ _ _ _ _ _ _ W1) in Hlog, Hfr1; [split; [lia|done]|..].
      all: intros i Hi; apply (ik_mapped _ _ _ Hok); fold n in Hi; lia. }
    rewrite (proj2 (Z.ltb_lt _ _)) by lia. simpl. rewrite !bind_bind. unfold set_inode. rewrite bind_modify.
    set (x' := upd_i_size (λ _, Z.of_nat (off + n)) (upd_i_addrs (λ _, a1) x)).
    assert (upd_k_inodes (alter (upd_i_size (λ _, Z.of_nat (off + n))) ip) s1 = upd_k_inodes <[ip := x']> s1) as ->.
    { unfold upd_k_inodes. f_equal. apply list_eq. intros j. rewrite list_lookup_alter, list_insert_lookup_iff by (by eapply lookup_lt_Some).
      case_decide as E; [subst j; by rewrite Hx1|done]. }
    destruct (iupdate_ok (upd_k_inodes <[ip := x']> s1) v1 ip x' B1) as (s2 & R2 & S2 & K2 & M2).
    + by apply mid_upd_inodes, W1.
    + simpl. by eapply list_insert_lookup_eq.
    + apply Hok.
    + apply Hok.
    + apply W1.
    + apply (wroom_room lsz sb _ a1); [apply W1|]. unfold wroom in *. lia.
    + mrun R2. exists s2, (update_view v1 x'), x', (add_block (IBLOCK (i_inum x') sb) B1). split; [done|].
      split; [by eapply wrote_past|]. split; [done|]. pose proof (weight_add sb a1 (IBLOCK (i_inum x') sb) B1). change (i_addrs x') with a1.
      split; [lia|]. destruct (IBLOCK_range _ _ L _ (ik_inum _ _ _ Hok)) as [_ Hib].
      apply (has_free_insert _ _ L); [|done]. change (i_inum x') with (i_inum x). unfold is_bitmap. lia.
Qed.

(** The requests [writei] refuses. *)
Lemma writei_refuses s ip x off src :
  k_inodes s !! ip = Some x → i_type x ≠ T_DEV → is_u32 off → Z.of_nat (length src) < two32 → is_u32 (i_size x) →
  i_size x < off ∨ MAXFILE * BSIZE < off + Z.of_nat (length src) →
  writei ip src off s = Ret (-1) s.
Proof using.
  intros Hx Hty Hoff Hsrc Hsz Hbad. unfold is_u32 in *. unfold writei. rewrite (bind_inode_at _ x) by done.
  rewrite (proj2 (Z.eqb_neq _ _) Hty). destruct (Z.ltb_spec (i_size x) off) as [|Hge]; [done|].
  destruct Hbad as [?|Hbad]; [lia|]. simpl. destruct (Z.ltb_spec (u32 (off + Z.of_nat (length src))) off) as [|Hge2]; [done|].
  rewrite u32_small; [by rewrite (proj2 (Z.ltb_lt _ _) Hbad)|]. unfold u32, two32 in *. dlia.
Qed.

(** C6.  File contents.  In a transaction, [writei] of [src] at offset [off]
    of a file splices [src] into the file's bytes - allocating the direct and
    indirect blocks it needs, growing the size and writing the inode to its
    block when the end moves - and changes no file that shares no block with
    it.  Whatever range is then read with [readi], the bytes returned are
    those of the new content, clipped at its end. *)
Theorem writei_readi s v ip x B off src :
  mid s v ∅ B → fs_ok sb v → k_inodes s !! ip = Some x → inode_ok v x → synced v x →
  Z.of_nat off ≤ i_size x → Z.of_nat (off + length src) ≤ MAXFILE * BSIZE →
  has_free sb v (spare (i_addrs x) + nblk off (length src)) →
  wroom lsz sb (nblk off (length src) + 7) (i_addrs x) B →
  ∃ s' v' x' B', writei ip src (Z.of_nat off) s = Ret (Z.of_nat (length src)) s' ∧ wrote s v ip x off src s' v' x' ∧
    mid s' v' ∅ B' ∧
    ∀ o n, is_u32 o → is_u32 n → ∃ s'', readi ip o n s' = Ret (read_result (splice (contents v x) off src) o n) s''.
Proof using L Hfit Hlsz.
  intros Hm Hf Hx Hok Hy Hoff Hend Hfr Hr.
  destruct (writei_ok 0 s v ip x B off src) as (s' & v' & x' & B' & R & W & M & Hw & _); try done.
  { by rewrite Nat.add_0_r. }
  exists s', v', x', B'. split; [done|]. split; [done|]. split; [done|]. intros o n Ho Hn.
  destruct (readi_ok _ _ L Hfit s' v' (list_to_set B') ip x' o n) as (s'' & R' & _).
  - apply M.
  - rewrite (size_list_to_set B') by apply M. pose proof (length_weight sb (i_addrs x') B' (md_nodup _ _ _ _ _ _ _ M)).
    unfold wroom in Hr. lia.
  - rewrite (wt_inodes _ _ _ _ _ _ _ _ _ W). by eapply list_insert_lookup_eq.
  - apply W.
  - done.
  - done.
  - exists s''. by rewrite R', (wt_file _ _ _ _ _ _ _ _ _ W).
Qed.

(** ** Views that agree on the files *)

(** The views agree on inodes, bitmap and data blocks. *)
Definition agree (v v' : Z → list Z) : Prop := ∀ b, sb_inodestart sb ≤ b < sb_size sb → v' b = v b.

Lemma home_agree v v' : (∀ b, home start b → v' b = v b) → agree v v'.
Proof using L. intros H b Hb. apply H. apply (upper_home _ _ L). lia. Qed.

Lemma used_agree v v' c : agree v v' → 0 ≤ c < sb_size sb → used sb v' c = used sb v c.
Proof using L.
  intros H Hc. unfold used. rewrite H; [done|]. apply bitmap_loggable with (start := start); [done|]. by apply (BBLOCK_bitmap _ _ L).
Qed.

Lemma fs_ok_agree v v' : agree v v' → sized v' → fs_ok sb v → fs_ok sb v'.
Proof using L.
  intros H Hv [_ Hm]. pose proof (lo_data _ _ L). split; [done|]. intros b Hb. rewrite (used_agree v) by (done || lia). by apply Hm.
Qed.

Lemma has_free_agree v v' n : agree v v' → has_free sb v n → has_free sb v' n.
Proof using L.
  intros H (F & HF & Hf). exists F. split; [done|]. intros b Hb. destruct (Hf b Hb) as [Hr Hu]. split; [done|].
  by rewrite (used_agree v).
Qed.

Lemma inode_agree v v' x : agree v v' → inode_ok v x → inode_ok v' x ∧ contents v' x = contents v x.
Proof using L.
  intros H Hok. apply inode_frame; [done|]. intros c (Hc0 & k & Hk & E). rewrite <-E in *.
  destruct (so_data _ _ _ (ik_slots _ _ _ Hok) k Hk Hc0) as [Hd Hu]. rewrite (used_agree v) by (done || by apply (data_range _ _ L)).
  split; [|done]. apply H. by apply (data_loggable _ _ L).
Qed.

Lemma on_disk_agree v v' x : agree v v' → 0 ≤ i_inum x < sb_ninodes sb → on_disk v' x = on_disk v x.
Proof using L.
  intros H Hi. destruct (IBLOCK_range _ _ L _ Hi) as [_ Hib]. pose proof (layout_pos _ _ L). pose proof (lo_data _ _ L).
  unfold on_disk. rewrite H by lia. done.
Qed.

(** The file as the blocks of the disk have it. *)
Definition file_on (v : Z → list Z) (x : inode) : list Z := contents v (on_disk v x).

Lemma file_on_agree v v' x : agree v v' → inode_ok v x → synced v x → file_on v' x = contents v x.
Proof using L.
  intros H Hok Hy. unfold file_on. rewrite (on_disk_agree v) by (done || apply Hok). rewrite Hy. by apply inode_agree.
Qed.
End fileio.

(** ** An instance *)

Module FileExample.
Export FsExample.
(** 60 blocks: the log at 2, inodes at 32, the bitmap at 34, data from 35. *)
Definition sb : superblock := MkSuperblock 60 25 8 30 2 32 34.
(** Inode 1, an empty file, in memory and on the disk. *)
Definition ino : inode := MkInode 1 1 1 (MkSleeplock false 0) true T_FILE 0 0 1 0 (replicate 13 0).
Definition bitmap : list Z := [255; 255; 255; 255; 7] ++ replicate 507 0.
Definition image : disk :=
  MkDisk (<[1 := wr32 zero_block 16 2]> (<[32 := dinode_write zero_block 64 ino]> {[34 := bitmap]})) [].
Definition view : Z → list Z := disk_block image.

(** In a transaction that has written nothing. *)
Definition state : kstate :=
  upd_k_inodes (λ _, [ino]) (upd_k_sb (λ _, sb)
    (upd_k_log (λ _, MkLog 2 30 1 false 1 (MkLogheader 0 (replicate 30 0))) (started image))).

Lemma view_sized : sized view.
Proof.
  intros b. unfold view, disk_block, image, d_blocks. destruct (decide (b = 1)) as [->|]; [by vm_compute|].
  destruct (decide (b = 32)) as [->|]; [by vm_compute|]. destruct (decide (b = 34)) as [->|]; [by vm_compute|].
  by rewrite !lookup_insert_ne, lookup_singleton_ne by done.
Qed.

Lemma sb_layout : layout 2 sb.
Proof. split; by vm_compute. Qed.

Lemma view_fs : fs_ok sb view.
Proof.
  split; [apply view_sized|]. intros b Hb. change (datastart sb) with 35 in Hb.
  assert (forallb (used sb view) (seqZ 0 35) = true) as Hall by (by vm_compute).
  rewrite forallb_forall in Hall. apply Hall, list_elem_of_In, elem_of_seqZ. lia.
Qed.

Lemma view_slots : slots_ok sb view (i_addrs ino).
Proof.
  assert (∀ k, slot view (i_addrs ino) k = 0) as E.
  { intros k. unfold slot. destruct (k <? 13)%nat eqn:Hk; [|done]. apply Nat.ltb_lt in Hk.
    change (i_addrs ino) with (replicate 13 0). by do 13 (destruct k as [|k]; [done|]); lia. }
  split; [done|..]; intros j; intros; by rewrite ?E in *.
Qed.

Lemma view_inode : inode_ok sb view ino.
Proof.
  split; try done; [apply view_slots|]. intros i Hi. change (i_size ino) with 0 in Hi. lia.
Qed.

Lemma view_synced : synced sb view ino.
Proof. by vm_compute. Qed.

Lemma view_free n : (n ≤ 25)%nat → has_free sb view n.
Proof.
  intros Hn. exists (list_to_set (seqZ 35 25)). split.
  - rewrite size_list_to_set by apply NoDup_seqZ. by rewrite length_seqZ.
  - intros b Hb%elem_of_list_to_set. assert (forallb (λ b, negb (used sb view b)) (seqZ 35 25) = true) as Hall by (by vm_compute).
    rewrite forallb_forall in Hall. pose proof (Hall b ltac:(by apply list_elem_of_In)) as Hu. apply elem_of_seqZ in Hb.
    split; [change (sb_size sb) with 60; lia|]. by apply negb_true_iff in Hu.
Qed.

Lemma state_mid : mid 2 30 sb state view ∅ [].
Proof.
  destruct (started_cache image view_sized) as (_ & _ & Hc). split.
  - apply (cache_frame (started image)); [reflexivity..|exact Hc].
  - split; [split|split| | |]; reflexivity.
  - apply NoDup_nil_2.
  - by intros b ?%elem_of_nil.
  - reflexivity.
Qed.

Lemma sb_fits : sb_size sb ≤ disk_size.
Proof. apply Z.leb_le. by vm_compute. Qed.

Lemma writei_readi_witness :
  ∃ s' v' x' B', writei 0 [104; 105; 10] (Z.of_nat 0) state = Ret (Z.of_nat 3) s' ∧
    wrote sb state view 0 ino 0 [104; 105; 10] s' v' x' ∧ mid 2 30 sb s' v' ∅ B' ∧
    ∀ o n, is_u32 o → is_u32 n →
      ∃ s'', readi 0 o n s' = Ret (read_result (splice (contents view ino) 0 [104; 105; 10]) o n) s''.
Proof.
  apply (writei_readi 2 30 sb sb_layout sb_fits ltac:(by vm_compute) state view 0 ino [] 0 [104; 105; 10]).
  - exact state_mid.
  - exact view_fs.
  - reflexivity.
  - exact view_inode.
  - exact view_synced.
  - reflexivity.
  - vm_compute. discriminate.
  - apply view_free. apply Nat.leb_le. reflexivity.
  - split; [apply Nat.ltb_lt|]; reflexivity.
Defined.
End FileExample.
