(* ===== verification/Mkfs.v ===== *)
(** Mkfs: [mkfs.c], the host program that builds the disk image.

    The image is a map from sector numbers to sectors.  [exit(1)] and a
    failed [assert] stop the program: they are the outcome [Panic] with a
    message.  The diagnostics that [mkfs] prints on its way are left out.
    The host runs on an x86, whose byte order is that of the image; what its
    files hold and whether its writes succeed is a parameter. *)

From S2P Require Import Prelude Layout State Bytes CString Disk Log LogSpec Fs Inode Dinode ConsoleDev Dir FsSpec FileIO.

(** The host: the results of the calls of [read] on a file until it returns
    no more bytes, [None] if the file cannot be opened, and the sectors that
    can be written. *)
Class Host := {
  host_open : list Z → option (list (list Z));
  host_creat : list Z → bool;
  host_write : Z → bool;
}.

(** The variables of the program. *)
Record mkfs := MkMkfs {
  mk_img : gmap Z (list Z);    (** the file [fsfd] *)
  mk_sb : superblock;
  mk_freeinode : Z;
  mk_freeblock : Z;
}.

Definition upd_mk_img (f : gmap Z (list Z) → gmap Z (list Z)) (s : mkfs) : mkfs :=
  MkMkfs (f (mk_img s)) (mk_sb s) (mk_freeinode s) (mk_freeblock s).
Definition upd_mk_sb (f : superblock → superblock) (s : mkfs) : mkfs :=
  MkMkfs (mk_img s) (f (mk_sb s)) (mk_freeinode s) (mk_freeblock s).
Definition upd_mk_freeinode (f : Z → Z) (s : mkfs) : mkfs :=
  MkMkfs (mk_img s) (mk_sb s) (f (mk_freeinode s)) (mk_freeblock s).
Definition upd_mk_freeblock (f : Z → Z) (s : mkfs) : mkfs :=
  MkMkfs (mk_img s) (mk_sb s) (mk_freeinode s) (f (mk_freeblock s)).

Notation MK := (M mkfs).

(** ** Constants *)

Definition NINODES : Z := 200.
Definition nbitmap : Z := FSSIZE / (BSIZE * 8) + 1.
Definition ninodeblocks : Z := NINODES / IPB + 1.
Definition nlog : Z := LOGSIZE.

Section mkfs.
Context {HOST : Host}.

Definition exit1 {A} (msg : string) : MK A := panic msg.
Definition assert_ (b : bool) : MK unit := if b then mret tt else panic "assertion failed".

(** ** Byte order *)

(** The bytes of [y] are stored one by one and read back as a number. *)
Definition xshort (x : Z) : Z := of_le [u8 x; u8 (Z.shiftr x 8)].
Definition xint (x : Z) : Z := of_le [u8 x; u8 (Z.shiftr x 8); u8 (Z.shiftr x 16); u8 (Z.shiftr x 24)].

(** ** Sectors *)

Definition wsect (sec : Z) (buf : list Z) : MK unit :=
  if host_write sec then modify (upd_mk_img <[sec := buf]>) else exit1 "write".

(** [read] returns less than [BSIZE] behind the end of the image. *)
Definition rsect (sec : Z) : MK (list Z) :=
  r ← gets (λ s, mk_img s !! sec);
  match r with Some buf => mret buf | None => exit1 "read" end.

(** ** Inodes: a [struct dinode] is its 64 bytes *)

Definition winode (inum : Z) (ip : list Z) : MK unit :=
  sb ← gets mk_sb;
  let bn := IBLOCK inum sb in
  buf ← rsect bn;
  wsect bn (splice buf (dinode_off inum) ip).

Definition rinode (inum : Z) : MK (list Z) :=
  sb ← gets mk_sb;
  let bn := IBLOCK inum sb in
  buf ← rsect bn;
  mret (slice buf (dinode_off inum) (Z.to_nat sizeof_dinode)).

(** [din.type], [din.nlink], [din.size], [din.addrs[k]] *)
Definition din_size (din : list Z) : Z := rd32 din 8.
Definition din_addr (din : list Z) (k : nat) : Z := rd32 din (12 + 4 * k).
Definition set_din_addr (din : list Z) (k : nat) (b : Z) : list Z := wr32 din (12 + 4 * k) b.

Definition ialloc (type : Z) : MK Z :=
  inum ← gets mk_freeinode;
  modify (upd_mk_freeinode (λ i, u32 (i + 1)));;
  let din := replicate (Z.to_nat sizeof_dinode) 0 in
  let din := wr16 din 0 (xshort type) in
  let din := wr16 din 6 (xshort 1) in
  let din := wr32 din 8 (xint 0) in
  winode inum din;;
  mret inum.

(** [for(i = 0; i < used; i++) buf[i/8] = buf[i/8] | (0x1 << (i%8));] *)
Fixpoint mark_used (n : nat) (i : Z) (buf : list Z) : list Z :=
  match n with
  | O => buf
  | S n => mark_used n (i + 1) (bit_set buf i)
  end.

Definition balloc (used : Z) : MK unit :=
  assert_ (used <? BSIZE * 8);;
  let buf := mark_used (Z.to_nat used) 0 zero_block in
  sb ← gets mk_sb;
  wsect (sb_bmapstart sb) buf.

(** [freeblock++] *)
Definition next_block : MK Z :=
  b ← gets mk_freeblock;
  modify (upd_mk_freeblock (λ b, u32 (b + 1)));;
  mret b.

(** The sector of file block [fbn], and the inode with the addresses that were added. *)
Definition file_sector (din : list Z) (fbn : Z) : MK (list Z * Z) :=
  if fbn <? NDIRECT then
    din ← (if xint (din_addr din (Z.to_nat fbn)) =? 0 then
             b ← next_block;
             mret (set_din_addr din (Z.to_nat fbn) (xint b))
           else mret din);
    mret (din, xint (din_addr din (Z.to_nat fbn)))
  else
    din ← (if xint (din_addr din (Z.to_nat NDIRECT)) =? 0 then
             b ← next_block;
             mret (set_din_addr din (Z.to_nat NDIRECT) (xint b))
           else mret din);
    indirect ← rsect (xint (din_addr din (Z.to_nat NDIRECT)));
    let k := Z.to_nat (fbn - NDIRECT) in
    indirect ← (if rd32 indirect (4 * k) =? 0 then
                  b ← next_block;
                  let indirect := wr32 indirect (4 * k) (xint b) in
                  wsect (xint (din_addr din (Z.to_nat NDIRECT))) indirect;;
                  mret indirect
                else mret indirect);
    mret (din, xint (rd32 indirect (4 * k))).

(** [while(n > 0)]: [p] is the rest of the buffer, the result the inode and the offset. *)
Fixpoint iappend_loop (fuel : nat) (din : list Z) (off : Z) (p : list Z) : MK (list Z * Z) :=
  let n := Z.of_nat (length p) in
  if 0 <? n then
    match fuel with
    | O => nofuel
    | S fuel =>
        let fbn := off / BSIZE in
        assert_ (fbn <? MAXFILE);;
        '(din, x) ← file_sector din fbn;
        let n1 := Z.min n ((fbn + 1) * BSIZE - off) in
        buf ← rsect x;
        wsect x (splice buf (Z.to_nat (off - fbn * BSIZE)) (take (Z.to_nat n1) p));;
        iappend_loop fuel din (u32 (off + n1)) (drop (Z.to_nat n1) p)
    end
  else mret (din, off).

Definition iappend (inum : Z) (p : list Z) : MK unit :=
  din ← rinode inum;
  let off := xint (din_size din) in
  '(din, off) ← iappend_loop (length p) din off p;
  winode inum (wr32 din 8 (xint off)).

(** ** [main] *)

(** A [struct dirent]: [bzero], the inode number and the name. *)
Definition dirent (inum : Z) (name : list Z) : list Z := le16 (xshort inum) ++ name.

(** [strcpy(de.name, s)] and [strncpy(de.name, s, DIRSIZ)] into the zeroed entry. *)
Definition name_cpy (s : list Z) : list Z := s ++ replicate (Z.to_nat DIRSIZ - length s) 0.

(** [while((cc = read(fd, buf, sizeof(buf))) > 0) iappend(inum, buf, cc);] *)
Fixpoint append_all (inum : Z) (chunks : list (list Z)) : MK unit :=
  match chunks with
  | [] => mret tt
  | c :: chunks => iappend inum c;; append_all inum chunks
  end.

(** One round of [for(i = 2; i < argc; i++)]. *)
Definition add_file (rootino : Z) (arg : list Z) : MK unit :=
  assert_ (negb (bool_decide (chr "/" ∈ arg)));;
  match host_open arg with
  | None => exit1 "open"
  | Some chunks =>
      let arg := match arg with c :: rest => if c =? chr "_" then rest else arg | [] => arg end in
      inum ← ialloc T_FILE;
      match strncpy (arg ++ [0]) (Z.to_nat DIRSIZ) with
      | None => undef
      | Some name =>
          iappend rootino (dirent inum name);;
          append_all inum chunks
      end
  end.

Fixpoint add_files (rootino : Z) (args : list (list Z)) : MK unit :=
  match args with
  | [] => mret tt
  | a :: args => add_file rootino a;; add_files rootino args
  end.

(** [memmove(buf, &sb, sizeof(sb))] into a zeroed block *)
Definition super_block (sb : superblock) : list Z :=
  splice zero_block 0 (mjoin (le32 <$> [sb_size sb; sb_nblocks sb; sb_ninodes sb; sb_nlog sb;
                                         sb_logstart sb; sb_inodestart sb; sb_bmapstart sb])).

(** [main] with the name of the image and the names of the files. *)
Definition main (args : list (list Z)) : MK unit :=
  match args with
  | [] => exit1 "Usage: mkfs fs.img files..."
  | img :: files =>
      assert_ (BSIZE mod sizeof_dinode =? 0);;
      assert_ (BSIZE mod sizeof_dirent =? 0);;
      if negb (host_creat img) then exit1 "open" else
      let nmeta := 2 + nlog + ninodeblocks + nbitmap in
      let nblocks := FSSIZE - nmeta in
      modify (upd_mk_sb (λ _, MkSuperblock (xint FSSIZE) (xint nblocks) (xint NINODES) (xint nlog)
                                (xint 2) (xint (2 + nlog)) (xint (2 + nlog + ninodeblocks))));;
      modify (upd_mk_freeblock (λ _, nmeta));;
      for_ (Z.to_nat FSSIZE) 0 (λ i, wsect i zero_block);;
      sb ← gets mk_sb;
      wsect 1 (super_block sb);;
      rootino ← ialloc T_DIR;
      assert_ (rootino =? ROOTINO);;
      iappend rootino (dirent rootino (name_cpy (chars ".")));;
      iappend rootino (dirent rootino (name_cpy (chars "..")));;
      add_files rootino files;;
      (* fix size of root inode dir *)
      din ← rinode rootino;
      let off := xint (din_size din) in
      let off := u32 ((off / BSIZE + 1) * BSIZE) in
      winode rootino (wr32 din 8 (xint off));;
      used ← gets mk_freeblock;
      balloc used
  end.

(** The state when the program starts, with an empty image. *)
Definition begin : mkfs := MkMkfs ∅ (MkSuperblock 0 0 0 0 0 0 0) 1 0.
End mkfs.
