(* ===== verification/MkfsSpec.v ===== *)
(** MkfsSpec: the image that [mkfs] builds is a file system the kernel can
    read.

    [mkfs] hands out blocks in order and writes the bitmap at the end.  The
    proofs follow the image with the bitmap it will get ([gv]); on this view
    the files are those of [Inode], so the lemmas about the kernel's files
    apply to the files [mkfs] fills. *)

From S2P Require Import Prelude Layout State Bytes CString Disk Log LogSpec Fs Inode Dinode ConsoleDev Dir FsSpec FileIO Mkfs.

(** ** Byte order *)

Lemma xint_id x : xint x = u32 x.
Proof.
  rewrite <-of_le_le32. unfold xint, le32. rewrite !Z.shiftr_div_pow2 by lia. done.
Qed.

Lemma xshort_id x : xshort x = u16 x.
Proof. rewrite <-of_le_le16. unfold xshort, le16. rewrite !Z.shiftr_div_pow2 by lia. done. Qed.

(** ** Views that are equal block by block *)

Section ext.
Context (start : Z) (sb : superblock) (v v' : Z → list Z) (E : ∀ b, v' b = v b).

Lemma slot_ext a k : slot v' a k = slot v a k.
Proof using E. unfold slot. by rewrite E. Qed.

Lemma used_ext b : used sb v' b = used sb v b.
Proof using E. unfold used. by rewrite E. Qed.

Lemma slots_ok_ext a : slots_ok sb v a → slots_ok sb v' a.
Proof using E.
  intros [H1 H2 H3]. split; [done| |]; intros j; intros; rewrite ?slot_ext, ?used_ext in *; auto.
Qed.

Lemma grows_ext u a0 a : grows sb u a0 v a → grows sb u a0 v' a.
Proof using E.
  intros [H1 H2 H3 H4 H5]. split; intros k; intros; rewrite ?slot_ext, ?used_ext, ?E in *; auto.
  destruct (H4 k) as [?|(? & j & ? & ?)]; [done|done|by left|right]. split; [done|]. exists j. by rewrite slot_ext.
Qed.

Lemma keeps_ext u a : keeps u a v → keeps u a v'.
Proof using E. intros H k. rewrite E. apply H. Qed.
End ext.

(** ** The bitmap *)

Lemma length_mark_used n i buf : length (mark_used n i buf) = length buf.
Proof. revert i buf. induction n as [|n IH]; intros i buf; [done|]. simpl. by rewrite IH, length_bit_set. Qed.

Lemma mark_used_S n i buf : mark_used (S n) i buf = bit_set (mark_used n i buf) (i + Z.of_nat n).
Proof.
  revert i buf. induction n as [|n IH]; intros i buf; [simpl; by rewrite Z.add_0_r|].
  change (mark_used (S (S n)) i buf) with (mark_used (S n) (i + 1) (bit_set buf i)). rewrite IH. simpl. f_equal. lia.
Qed.

Lemma bit_free_zero bi : 0 ≤ bi < 4096 → bit_free zero_block bi = true.
Proof.
  intros Hb. unfold bit_free. rewrite nth_lookup. unfold zero_block. rewrite lookup_replicate_2 by dlia. by rewrite Z.land_0_l.
Qed.

Lemma mark_used_free n bi : (n ≤ 4096)%nat → 0 ≤ bi < 4096 → bit_free (mark_used n 0 zero_block) bi = (Z.of_nat n <=? bi).
Proof.
  intros Hn Hb. induction n as [|n IH]; [rewrite bit_free_zero by done; symmetry; apply Z.leb_le; lia|].
  rewrite mark_used_S, Z.add_0_l, bit_free_set, IH by (rewrite ?length_mark_used; try (unfold zero_block; rewrite length_replicate); dlia || lia).
  destruct (Z.leb_spec (Z.of_nat n) bi), (Z.eqb_spec (Z.of_nat n) bi), (Z.leb_spec (Z.of_nat (S n)) bi); simpl; lia || done.
Qed.

(** ** The image while it is built *)

(** The superblock [main] computes. *)
Definition the_sb : superblock := MkSuperblock 1000 941 200 30 2 32 58.

Lemma the_layout : layout 2 the_sb.
Proof. split; by vm_compute. Qed.

(** What the sectors hold, and the same with the bitmap of the blocks handed out. *)
Definition vw (s : mkfs) (b : Z) : list Z := default zero_block (mk_img s !! b).
Definition gv (s : mkfs) : Z → list Z := <[58 := mark_used (Z.to_nat (mk_freeblock s)) 0 zero_block]> (vw s).

Record core (s : mkfs) : Prop := MkCore {
  co_sb : mk_sb s = the_sb;
  co_img b : 0 ≤ b < 1000 → mk_img s !! b = Some (vw s b);
  co_sized : sized (vw s);
  co_free : 59 ≤ mk_freeblock s ≤ 1000;
  co_zero b : mk_freeblock s ≤ b < 1000 → vw s b = zero_block;
}.

Lemma gv_vw s b : b ≠ 58 → gv s b = vw s b.
Proof. intros H. by apply fn_lookup_insert_ne. Qed.

Lemma gv_sized s : core s → sized (gv s).
Proof. intros Hc. apply sized_insert; [apply Hc|]. by rewrite length_mark_used. Qed.

Lemma BBLOCK_58 b : 0 ≤ b < 1000 → BBLOCK b the_sb = 58.
Proof. intros Hb. destruct (BBLOCK_bitmap _ _ the_layout b Hb) as [_ ->]. unfold BPB, BSIZE. simpl. dlia. Qed.

(** The blocks handed out are those below [freeblock]. *)
Lemma gv_used s b : core s → 0 ≤ b < 1000 → used the_sb (gv s) b = (b <? mk_freeblock s).
Proof.
  intros Hc Hb. pose proof (co_free _ Hc). unfold used. rewrite BBLOCK_58 by done. unfold gv. rewrite fn_lookup_insert.
  unfold BPB, BSIZE. rewrite Z.mod_small by lia. rewrite mark_used_free by lia. rewrite Z2Nat.id by lia.
  destruct (Z.leb_spec (mk_freeblock s) b), (Z.ltb_spec b (mk_freeblock s)); done || lia.
Qed.

Lemma gv_fs s : core s → fs_ok the_sb (gv s).
Proof.
  intros Hc. pose proof (co_free _ Hc). split; [by apply gv_sized|]. intros b Hb. change (datastart the_sb) with 59 in Hb.
  rewrite gv_used by (done || lia). apply Z.ltb_lt. lia.
Qed.

Section build.
Context {HOST : Host} (Hw : ∀ sec, 0 ≤ sec < 1000 → host_write sec = true).

Lemma rsect_run s b : core s → 0 ≤ b < 1000 → rsect b s = Ret (vw s b) s.
Proof using. intros Hc Hb. unfold rsect. rewrite bind_gets, (co_img _ Hc b Hb). done. Qed.

Lemma wsect_run s b d : 0 ≤ b < 1000 → wsect b d s = Ret tt (upd_mk_img <[b := d]> s).
Proof using Hw. intros Hb. unfold wsect. by rewrite Hw. Qed.

Lemma vw_insert s b d c : vw (upd_mk_img <[b := d]> s) c = <[b := d]> (vw s) c.
Proof using.
  unfold vw. simpl. destruct (decide (b = c)) as [->|]; [by rewrite lookup_insert_eq, fn_lookup_insert|].
  by rewrite lookup_insert_ne, fn_lookup_insert_ne.
Qed.

(** Writing a block that is handed out, other than the bitmap. *)
Lemma core_write s b d :
  core s → 0 ≤ b < mk_freeblock s → length d = 512%nat → core (upd_mk_img <[b := d]> s).
Proof using.
  intros [H1 H2 H3 H4 H5] Hb Hd. split; try done.
  - intros c Hc. rewrite vw_insert. simpl. destruct (decide (b = c)) as [->|]; [by rewrite lookup_insert_eq, fn_lookup_insert|].
    rewrite lookup_insert_ne, fn_lookup_insert_ne by done. by apply H2.
  - intros c. rewrite vw_insert. by apply sized_insert.
  - intros c Hc. simpl in Hc. rewrite vw_insert, fn_lookup_insert_ne by lia. by apply H5.
Qed.

Lemma gv_write s b d c : b ≠ 58 → gv (upd_mk_img <[b := d]> s) c = <[b := d]> (gv s) c.
Proof using.
  intros Hb. unfold gv. simpl. destruct (decide (c = 58)) as [->|Hc].
  - by rewrite fn_lookup_insert, fn_lookup_insert_ne, fn_lookup_insert.
  - rewrite (fn_lookup_insert_ne _ 58) by done. rewrite vw_insert. destruct (decide (b = c)) as [->|].
    + by rewrite !fn_lookup_insert.
    + by rewrite !fn_lookup_insert_ne.
Qed.

(** [freeblock++] is an allocation. *)
Definition bumped (s : mkfs) : mkfs := upd_mk_freeblock (λ _, mk_freeblock s + 1) s.

Lemma next_block_run s : core s → mk_freeblock s < 1000 → next_block s = Ret (mk_freeblock s) (bumped s).
Proof using.
  intros Hc Hf. pose proof (co_free _ Hc). unfold next_block. rewrite bind_gets, bind_modify. unfold mret, M_ret. f_equal.
  unfold bumped, upd_mk_freeblock. f_equal. apply u32_small. unfold two32. lia.
Qed.

Lemma next_block_fresh s : core s → mk_freeblock s < 1000 → fresh the_sb (gv s) (mk_freeblock s).
Proof using.
  intros Hc Hf. pose proof (co_free _ Hc). split; [split; [|done]; change (datastart the_sb) with 59; lia|].
  rewrite gv_used by (done || lia). apply Z.ltb_irrefl.
Qed.

Lemma core_bumped s : core s → mk_freeblock s < 1000 → core (bumped s).
Proof using. intros [H1 H2 H3 H4 H5] Hf. split; try done; simpl; [lia|]. intros b Hb. apply H5. lia. Qed.

Lemma gv_bumped s c : core s → mk_freeblock s < 1000 → gv (bumped s) c = alloc_view the_sb (gv s) (mk_freeblock s) c.
Proof using.
  intros Hc Hf. pose proof (co_free _ Hc). unfold alloc_view. rewrite BBLOCK_58 by lia.
  destruct (decide (c = mk_freeblock s)) as [->|Hne].
  - rewrite fn_lookup_insert, gv_vw by lia. by apply (co_zero s Hc).
  - rewrite fn_lookup_insert_ne by done. destruct (decide (c = 58)) as [->|Hc58].
    + rewrite fn_lookup_insert. unfold gv. rewrite !fn_lookup_insert. simpl.
      replace (Z.to_nat (mk_freeblock s + 1)) with (S (Z.to_nat (mk_freeblock s))) by lia.
      rewrite mark_used_S, Z.add_0_l, Z2Nat.id by lia. unfold BPB, BSIZE. by rewrite Z.mod_small by lia.
    + rewrite fn_lookup_insert_ne by done. by rewrite !gv_vw.
Qed.

(** ** The addresses in an inode *)

Definition addrs_of (din : list Z) : list Z := (λ k, din_addr din k) <$> seq 0 13.

Lemma nth_addrs din k : (k < 13)%nat → nth k (addrs_of din) 0 = din_addr din k.
Proof using. intros Hk. unfold addrs_of. by rewrite nth_lookup, list_lookup_fmap, lookup_seq_lt by done. Qed.

Lemma addrs_set din k b :
  length din = 64%nat → (k < 13)%nat → is_u32 b → addrs_of (set_din_addr din k b) = <[k := b]> (addrs_of din).
Proof using.
  intros Hd Hk Hb. apply list_eq. intros j. rewrite list_insert_lookup_iff by (unfold addrs_of; by rewrite length_fmap, length_seq).
  unfold addrs_of. rewrite !list_lookup_fmap. destruct (decide (j < 13)%nat) as [Hj|Hj]; cycle 1.
  { rewrite lookup_seq_ge by lia. simpl. case_decide; [lia|done]. }
  rewrite lookup_seq_lt by done. simpl. unfold din_addr, set_din_addr. case_decide as E.
  - subst j. rewrite rd32_wr32_eq by lia. by rewrite u32_small.
  - by rewrite rd32_wr32_ne by lia.
Qed.

Lemma length_set_addr din k b : length din = 64%nat → (k < 13)%nat → length (set_din_addr din k b) = 64%nat.
Proof using. intros Hd Hk. unfold set_din_addr. by rewrite length_wr32 by lia. Qed.

Lemma take_set_addr din k b : length din = 64%nat → (k < 13)%nat → take 12 (set_din_addr din k b) = take 12 din.
Proof using.
  intros Hd Hk. unfold set_din_addr, wr32, splice. rewrite take_app_le by (rewrite length_take; lia). by rewrite take_take, Nat.min_l by lia.
Qed.

(** [xint] of a block address *)
Lemma xint_slot v a k : slots_ok the_sb v a → (k < nslots)%nat → xint (slot v a k) = slot v a k.
Proof using.
  intros Hs Hk. rewrite xint_id. apply u32_small. destruct (decide (slot v a k = 0)) as [->|Hnz]; [done|].
  destruct (so_data _ _ _ Hs k Hk Hnz) as [[H1 H2] _]. change (datastart the_sb) with 59 in H1. change (sb_size the_sb) with 1000 in H2.
  unfold two32. lia.
Qed.

Lemma free_u32 s : core s → is_u32 (mk_freeblock s).
Proof using. intros Hc. pose proof (co_free _ Hc). unfold is_u32, two32. lia. Qed.

(** ** [file_sector] *)

(** The inode [din] and the image after addresses have been added to the slots [K]. *)
Record added (s : mkfs) (din : list Z) (K : nat → Prop) (n : Z) (s' : mkfs) (din' : list Z) : Prop := MkAdded {
  ad_core : core s';
  ad_free : mk_freeblock s' = mk_freeblock s + n;
  ad_inode : mk_freeinode s' = mk_freeinode s;
  ad_len : length din' = 64%nat;
  ad_head : take 12 din' = take 12 din;
  ad_slots : slots_ok the_sb (gv s') (addrs_of din');
  ad_grows : grows the_sb (gv s) (addrs_of din) (gv s') (addrs_of din');
  ad_keeps : keeps (gv s) (addrs_of din) (gv s');
  ad_nz k : (k < nslots)%nat → slot (gv s') (addrs_of din') k ≠ 0 ↔ slot (gv s) (addrs_of din) k ≠ 0 ∨ K k;
  ad_zero k : (k < nslots)%nat → k ≠ 12%nat → slot (gv s) (addrs_of din) k = 0 → slot (gv s') (addrs_of din') k ≠ 0 →
    gv s' (slot (gv s') (addrs_of din') k) = zero_block;
}.

Lemma added_refl s din (K : nat → Prop) :
  core s → length din = 64%nat → slots_ok the_sb (gv s) (addrs_of din) →
  (∀ k, K k → slot (gv s) (addrs_of din) k ≠ 0) → added s din K 0 s din.
Proof using.
  intros Hc Hl Hs HK. split; try done; [lia|by apply slots_grow_refl|]. intros k Hk. split; [by left|intros [?|?]; auto].
Qed.

Lemma added_trans s din K n s1 din1 K1 n1 s2 din2 :
  added s din K n s1 din1 → added s1 din1 K1 n1 s2 din2 → added s din (λ k, K k ∨ K1 k) (n + n1) s2 din2.
Proof using.
  intros [A1 A2 A3 A4 A5 A6 A7 A8 A9 A10] [C1 C2 C3 C4 C5 C6 C7 C8 C9 C10]. split; try done.
  - lia.
  - congruence.
  - congruence.
  - by eapply (slots_grow_trans _ _ the_layout).
  - intros k Hk H12 Hnz. rewrite <-(gr_slot _ _ _ _ _ A7 k Hk Hnz), C8, (gr_slot _ _ _ _ _ A7), A8; try done.
    by rewrite (gr_slot _ _ _ _ _ A7).
  - intros k Hk. rewrite C9, A9 by done. tauto.
  - intros k Hk H12 Hz Hnz. destruct (decide (slot (gv s1) (addrs_of din1) k = 0)); [by apply C10|].
    rewrite (gr_slot _ _ _ _ _ C7), C8 by done. by apply A10.
Qed.

(** The address of slot [k] of the inode is filled if it is 0. *)
Definition ensure_addr (din : list Z) (k : nat) : MK (list Z) :=
  if xint (din_addr din k) =? 0 then b ← next_block; mret (set_din_addr din k (xint b)) else mret din.

Lemma ensure_addr_ok s din k :
  core s → length din = 64%nat → slots_ok the_sb (gv s) (addrs_of din) → (k < 13)%nat →
  let n := if slot (gv s) (addrs_of din) k =? 0 then 1 else 0 in
  mk_freeblock s + n ≤ 1000 →
  ∃ s' din', ensure_addr din k s = Ret din' s' ∧ added s din (λ j, j = k) n s' din'.
Proof using.
  intros Hc Hl Hs Hk n Hn. unfold ensure_addr. rewrite <-nth_addrs, <-(slot_direct (gv s)), xint_slot by (done || unfold nslots; lia).
  unfold n in *. destruct (Z.eqb_spec (slot (gv s) (addrs_of din) k) 0) as [Hz|Hnz].
  2: { exists s, din. split; [done|]. apply added_refl; [done..|]. by intros ? ->. }
  mrun (next_block_run s Hc ltac:(lia)). pose proof (next_block_fresh s Hc ltac:(lia)) as Hfr.
  rewrite xint_id, u32_small by (by apply free_u32). eexists _, _. split; [done|].
  pose proof (gv_sized s Hc) as Hsz.
  assert (slots_ok the_sb (alloc_view the_sb (gv s) (mk_freeblock s)) (<[k := mk_freeblock s]> (addrs_of din)) ∧
    grows the_sb (gv s) (addrs_of din) (alloc_view the_sb (gv s) (mk_freeblock s)) (<[k := mk_freeblock s]> (addrs_of din)) ∧
    keeps (gv s) (addrs_of din) (alloc_view the_sb (gv s) (mk_freeblock s)) ∧
    ∀ j, (j < nslots)%nat → j ≠ k →
      slot (alloc_view the_sb (gv s) (mk_freeblock s)) (<[k := mk_freeblock s]> (addrs_of din)) j = slot (gv s) (addrs_of din) j)
    as (G1 & G2 & G3 & G4).
  { destruct (decide (k = 12)%nat) as [->|Hk12].
    - destruct (grow_indirect _ _ the_layout (gv s) _ _ Hsz Hs Hfr Hz) as (? & ? & ? & ?). done.
    - destruct (grow_direct _ _ the_layout (gv s) _ _ k Hsz Hs Hfr ltac:(lia) Hz) as (? & ? & ? & _ & ?). done. }
  pose proof (addrs_set din k _ Hl Hk (free_u32 s Hc)) as Ea. pose proof (co_free _ Hc).
  split; rewrite ?Ea.
  - apply core_bumped; [done|lia].
  - done.
  - done.
  - by apply length_set_addr.
  - by apply take_set_addr.
  - eapply slots_ok_ext; [|exact G1]. intros; by apply gv_bumped; [|lia].
  - eapply grows_ext; [|exact G2]. intros; by apply gv_bumped; [|lia].
  - eapply keeps_ext; [|exact G3]. intros; by apply gv_bumped; [|lia].
  - intros j Hj. rewrite (slot_ext (alloc_view the_sb (gv s) (mk_freeblock s))) by (intros; by apply gv_bumped; [|lia]).
    destruct (decide (j = k)) as [->|Hne].
    + rewrite slot_direct, nth_insert, decide_True by (done || rewrite (so_len _ _ _ Hs); lia). split; [by right|lia].
    + rewrite G4 by done. split; [by left|by intros [?|?]].
  - intros j Hj _ Hjz. rewrite (slot_ext (alloc_view the_sb (gv s) (mk_freeblock s))) by (intros; by apply gv_bumped; [|lia]).
    destruct (decide (j = k)) as [->|Hne]; [|by rewrite G4]. intros _.
    rewrite slot_direct, nth_insert, decide_True by (done || rewrite (so_len _ _ _ Hs); lia).
    rewrite gv_bumped by (done || lia). apply fn_lookup_insert.
Qed.

(** Entry [k] of the indirect block. *)
Definition list_entry (ind : Z) (k : nat) : MK Z :=
  indirect ← rsect ind;
  indirect ← (if rd32 indirect (4 * k) =? 0 then
                b ← next_block;
                let indirect := wr32 indirect (4 * k) (xint b) in
                wsect ind indirect;;
                mret indirect
              else mret indirect);
  mret (xint (rd32 indirect (4 * k))).

Lemma list_entry_pair (din : list Z) ind k s :
  (indirect ← rsect ind;
   indirect ← (if rd32 indirect (4 * k) =? 0 then
                 b ← next_block;
                 let indirect := wr32 indirect (4 * k) (xint b) in
                 wsect ind indirect;;
                 mret indirect
               else mret indirect);
   mret (din, xint (rd32 indirect (4 * k)))) s = (x ← list_entry ind k; mret (din, x)) s.
Proof using.
  unfold list_entry, mbind, M_bind. destruct (rsect ind s) as [buf s0| | | | |]; try done.
  destruct (rd32 buf (4 * k) =? 0); [|done]. destruct (next_block s0); try done. by destruct (wsect ind _ s1).
Qed.

Lemma list_entry_ok s din bn :
  core s → length din = 64%nat → slots_ok the_sb (gv s) (addrs_of din) → nth 12 (addrs_of din) 0 ≠ 0 → (12 ≤ bn < 140)%nat →
  let n := if slot (gv s) (addrs_of din) (S bn) =? 0 then 1 else 0 in
  mk_freeblock s + n ≤ 1000 →
  ∃ s', list_entry (nth 12 (addrs_of din) 0) (bn - 12) s = Ret (slot (gv s') (addrs_of din) (S bn)) s' ∧
    added s din (λ j, j = S bn) n s' din.
Proof using Hw.
  intros Hc Hl Hs Hi Hbn n Hn. destruct (indirect_ok _ _ _ Hs Hi) as [Hid Hiu]. pose proof (co_free _ Hc) as Hfree.
  set (a := addrs_of din) in *. set (ind := nth 12 a 0) in *.
  assert (59 ≤ ind < mk_freeblock s) as Hir.
  { unfold is_data in Hid. change (datastart the_sb) with 59 in Hid. change (sb_size the_sb) with 1000 in Hid.
    rewrite gv_used in Hiu by (done || lia). apply Z.ltb_lt in Hiu. lia. }
  assert (∀ u, slot u a (S bn) = rd32 (u ind) (4 * (bn - 12))) as Eslot.
  { intros u. rewrite slot_indirect by lia. fold ind. rewrite (proj2 (Z.eqb_neq _ _) Hi). by replace (S bn - 13)%nat with (bn - 12)%nat by lia. }
  unfold list_entry. mrun (rsect_run s ind Hc ltac:(lia)). rewrite <-(gv_vw s ind) by lia. rewrite <-(Eslot (gv s)). unfold n in *.
  destruct (Z.eqb_spec (slot (gv s) a (S bn)) 0) as [Hz|Hnz].
  2: { rewrite bind_ret. exists s. rewrite <-Eslot, xint_slot by (done || unfold nslots; lia). split; [done|].
       apply added_refl; [done..|]. by intros ? ->. }
  rewrite bind_bind. mrun (next_block_run s Hc ltac:(lia)). rewrite bind_bind, xint_id, u32_small by (by apply free_u32).
  mrun (wsect_run (bumped s) ind (wr32 (gv s ind) (4 * (bn - 12)) (mk_freeblock s)) ltac:(lia)). rewrite bind_ret.
  pose proof (next_block_fresh s Hc ltac:(lia)) as Hfr. pose proof (gv_sized s Hc) as Hsz.
  destruct (grow_listed _ _ the_layout (gv s) a _ (S bn) Hsz Hs Hfr ltac:(unfold nslots; lia) Hi Hz) as (G1 & G2 & G3 & G4 & G5).
  set (s' := upd_mk_img _ _).
  assert (∀ c, gv s' c = list_block the_sb (gv s) ind (S bn) (mk_freeblock s) c) as Eg.
  { intros c. unfold s', list_block. rewrite gv_write by lia. rewrite (alloc_indirect _ _ the_layout (gv s) a) by done. fold ind.
    replace (S bn - 13)%nat with (bn - 12)%nat by lia. destruct (decide (ind = c)) as [<-|Hne].
    - by rewrite !fn_lookup_insert.
    - rewrite !fn_lookup_insert_ne by done. apply gv_bumped; [done|lia]. }
  exists s'. rewrite (slot_ext (list_block the_sb (gv s) ind (S bn) (mk_freeblock s))) by done. fold ind in G4. rewrite G4. split.
  { rewrite rd32_wr32_eq by (rewrite Hsz; lia). rewrite u32_small by (by apply free_u32). by rewrite xint_id, u32_small by (by apply free_u32). }
  split; try done.
  - apply core_write; [apply core_bumped; [done|lia]|simpl; lia|]. rewrite length_wr32; rewrite Hsz; [done|lia].
  - eapply slots_ok_ext; [|exact G1]. done.
  - eapply grows_ext; [|exact G2]. done.
  - eapply keeps_ext; [|exact G3]. done.
  - intros j Hj. rewrite (slot_ext (list_block the_sb (gv s) ind (S bn) (mk_freeblock s))) by done.
    fold a. destruct (decide (j = S bn)) as [->|Hne]; [rewrite G4; split; [by right|lia]|].
    fold ind in G5. rewrite G5 by done. split; [by left|by intros [?|?]].
  - intros j Hj _ Hjz. rewrite (slot_ext (list_block the_sb (gv s) ind (S bn) (mk_freeblock s))), Eg by done.
    fold a. destruct (decide (j = S bn)) as [->|Hne]; [|fold ind in G5; by rewrite G5]. intros _. rewrite G4. unfold list_block.
    rewrite fn_lookup_insert_ne by lia. apply fn_lookup_insert.
Qed.

(** The slots that the write at file block [bn] fills. *)
Definition filled (bn k : nat) : Prop := k = pos bn ∨ (12 ≤ bn)%nat ∧ k = 12%nat.

(** The number of blocks it takes. *)
Definition takes (v : Z → list Z) (a : list Z) (bn : nat) : Z :=
  (if (12 <=? bn)%nat && (slot v a 12 =? 0) then 1 else 0) + (if slot v a (pos bn) =? 0 then 1 else 0).

Lemma added_ext s din (K K' : nat → Prop) n s' din' : (∀ k, K k ↔ K' k) → added s din K n s' din' → added s din K' n s' din'.
Proof using. intros E [A1 A2 A3 A4 A5 A6 A7 A8 A9 A10]. split; try done. intros k Hk. rewrite A9 by done. by rewrite E. Qed.

Lemma file_sector_ok s din bn :
  core s → length din = 64%nat → slots_ok the_sb (gv s) (addrs_of din) → (bn < 140)%nat →
  mk_freeblock s + takes (gv s) (addrs_of din) bn ≤ 1000 →
  ∃ s' din', file_sector din (Z.of_nat bn) s = Ret (din', slot (gv s') (addrs_of din') (pos bn)) s' ∧
    added s din (filled bn) (takes (gv s) (addrs_of din) bn) s' din'.
Proof using Hw.
  intros Hc Hl Hs Hbn Hn. unfold file_sector, takes, pos, filled, NDIRECT in *. change (Z.to_nat 12) with 12%nat.
  destruct (Nat.leb_spec 12 bn) as [Hge|Hlt]; cbn [andb] in *.
  - rewrite (proj2 (Nat.ltb_ge bn 12)), (proj2 (Z.ltb_ge _ _)) in * by lia. fold (ensure_addr din 12).
    destruct (ensure_addr_ok s din 12 Hc Hl Hs ltac:(lia)) as (s1 & din1 & R1 & A1).
    { destruct (slot (gv s) (addrs_of din) (S bn) =? 0); lia. }
    mrun R1. pose proof A1 as [C1 C2 C3 C4 C5 C6 C7 C8 C9 _].
    assert (slot (gv s1) (addrs_of din1) 12 ≠ 0) as Hi by (apply C9; [unfold nslots; lia|by right]).
    assert (slot (gv s1) (addrs_of din1) (S bn) = 0 ↔ slot (gv s) (addrs_of din) (S bn) = 0) as Eq.
    { pose proof (C9 (S bn) ltac:(unfold nslots; lia)) as E.
      destruct (decide (slot (gv s1) (addrs_of din1) (S bn) = 0)), (decide (slot (gv s) (addrs_of din) (S bn) = 0)); try tauto.
      destruct (proj1 E n) as [?|?]; [done|lia]. }
    rewrite <-nth_addrs, <-(slot_direct (gv s1)), xint_slot by (done || unfold nslots; lia).
    rewrite slot_direct in * by lia. replace (Z.to_nat (Z.of_nat bn - 12)) with (bn - 12)%nat by lia.
    destruct (list_entry_ok s1 din1 bn C1 C4 C6 Hi ltac:(lia)) as (s2 & R2 & A2).
    { rewrite C2. destruct (Z.eqb_spec (slot (gv s1) (addrs_of din1) (S bn)) 0), (Z.eqb_spec (slot (gv s) (addrs_of din) (S bn)) 0); tauto || lia. }
    exists s2, din1. split.
    + rewrite list_entry_pair. by mrun R2.
    + eapply added_ext; [|replace (if slot (gv s) (addrs_of din) (S bn) =? 0 then 1 else 0) with
        (if slot (gv s1) (addrs_of din1) (S bn) =? 0 then 1 else 0);
        [exact (added_trans _ _ _ _ _ _ _ _ _ _ A1 A2)|]].
      * intros k. unfold pos. rewrite (proj2 (Nat.ltb_ge bn 12)) by lia. clear -Hge. intuition lia.
      * destruct (Z.eqb_spec (slot (gv s1) (addrs_of din1) (S bn)) 0), (Z.eqb_spec (slot (gv s) (addrs_of din) (S bn)) 0); tauto.
  - rewrite (proj2 (Nat.ltb_lt bn 12)), (proj2 (Z.ltb_lt _ _)), Nat2Z.id in * by lia. fold (ensure_addr din bn).
    destruct (ensure_addr_ok s din bn Hc Hl Hs ltac:(lia)) as (s1 & din1 & R1 & A1); [lia|].
    mrun R1. exists s1, din1. split.
    + rewrite <-nth_addrs, <-(slot_direct (gv s1)), xint_slot; [done|apply A1|unfold nslots; lia|lia|lia].
    + rewrite Z.add_0_l. eapply added_ext; [|exact A1]. intros k. unfold pos. rewrite (proj2 (Nat.ltb_lt bn 12)) by lia.
      clear -Hlt. intuition lia.
Qed.

(** ** [iappend_loop] *)

(** The blocks of a file of [off] bytes: exactly those its bytes are in. *)
Definition tight (v : Z → list Z) (a : list Z) (off : nat) : Prop :=
  (∀ bn, (bn < 140)%nat → slot v a (pos bn) ≠ 0 ↔ (bn * 512 < off)%nat) ∧ (slot v a 12 ≠ 0 ↔ (12 * 512 < off)%nat).

(** The rest of the last block is 0. *)
Definition zero_tail (v : Z → list Z) (a : list Z) (n : nat) : Prop := ∀ i, (n ≤ i)%nat → mapped v a i → fbyte v a i = 0.

(** How many blocks that is. *)
Definition nb (n : nat) : Z := Z.of_nat ((n + 511) / 512) + (if (12 * 512 <? n)%nat then 1 else 0).

Lemma tight_mapped v a off i : tight v a off → (i < off)%nat → (i < 140 * 512)%nat → mapped v a i.
Proof using.
  intros [Ht _] Hi Hr. split; [done|]. pose proof (Nat.div_mod i 512 ltac:(lia)). apply Ht; [apply Nat.Div0.div_lt_upper_bound; lia|lia].
Qed.

Lemma nb_mono m n : (m ≤ n)%nat → nb m ≤ nb n.
Proof using.
  intros H. unfold nb. pose proof (Nat.Div0.div_le_mono (m + 511) (n + 511) 512 ltac:(lia)).
  destruct (Nat.ltb_spec (12 * 512) m), (Nat.ltb_spec (12 * 512) n); lia.
Qed.

Lemma nb_step off n :
  (0 < n)%nat → (off mod 512 + n ≤ 512)%nat →
  nb (off + n) = nb off + (if (off =? 12 * 512)%nat then 1 else 0) + (if (off mod 512 =? 0)%nat then 1 else 0).
Proof using.
  intros Hn Ho. unfold nb. pose proof (Nat.div_mod off 512 ltac:(lia)) as Hdm.
  assert ((off + n + 511) / 512 = off / 512 + 1)%nat as -> by (symmetry; apply (Nat.div_unique _ _ _ (off mod 512 + n - 1)); lia).
  assert (Z.of_nat ((off + 511) / 512) = Z.of_nat (off / 512) + (if (off mod 512 =? 0)%nat then 0 else 1)) as ->.
  { destruct (Nat.eqb_spec (off mod 512) 0) as [E|E].
    - replace ((off + 511) / 512)%nat with (off / 512)%nat; [lia|]. apply (Nat.div_unique _ _ _ 511); lia.
    - replace ((off + 511) / 512)%nat with (off / 512 + 1)%nat; [lia|]. apply (Nat.div_unique _ _ _ (off mod 512 - 1)); lia. }
  destruct (Nat.eqb_spec (off mod 512) 0), (Nat.eqb_spec off (12 * 512)), (Nat.ltb_spec (12 * 512) (off + n)), (Nat.ltb_spec (12 * 512) off); lia.
Qed.

Lemma takes_tight v a off n :
  tight v a off → (off < 140 * 512)%nat → (0 < n)%nat → (off mod 512 + n ≤ 512)%nat →
  takes v a (off / 512) = nb (off + n) - nb off.
Proof using.
  intros [T1 T2] Hr Hn Ho. rewrite nb_step by done. pose proof (Nat.div_mod off 512 ltac:(lia)) as Hdm.
  pose proof (T1 (off / 512)%nat ltac:(apply Nat.Div0.div_lt_upper_bound; lia)) as T3. unfold takes.
  assert ((12 <=? off / 512)%nat && (slot v a 12 =? 0) = (off =? 12 * 512)%nat) as ->.
  { destruct (Nat.leb_spec 12 (off / 512)), (Z.eqb_spec (slot v a 12) 0) as [E|E], (Nat.eqb_spec off (12 * 512)); simpl; try done; exfalso.
    - apply n0. apply Nat.le_antisymm; [|lia]. apply Nat.nlt_ge. intros ?. by apply T2.
    - apply T2 in E. lia.
    - lia.
    - lia. }
  assert ((slot v a (pos (off / 512)) =? 0) = (off mod 512 =? 0)%nat) as ->; [|lia].
  destruct (Z.eqb_spec (slot v a (pos (off / 512))) 0) as [E|E], (Nat.eqb_spec (off mod 512) 0); try done; exfalso.
  - by apply T3; [lia|].
  - apply T3 in E. lia.
Qed.

(** [src] has been appended at [off], the end of the file. *)
Record appended (s : mkfs) (din : list Z) (off : nat) (src : list Z) (s' : mkfs) (din' : list Z) : Prop := MkAppended {
  ap_core : core s';
  ap_free : mk_freeblock s' = mk_freeblock s + nb (off + length src) - nb off;
  ap_inode : mk_freeinode s' = mk_freeinode s;
  ap_len : length din' = 64%nat;
  ap_head : take 12 din' = take 12 din;
  ap_slots : slots_ok the_sb (gv s') (addrs_of din');
  ap_grows : grows the_sb (gv s) (addrs_of din) (gv s') (addrs_of din');
  ap_tight : tight (gv s') (addrs_of din') (off + length src);
  ap_bytes i : (i < off + length src)%nat → fbyte (gv s') (addrs_of din') i = over (fbyte (gv s) (addrs_of din)) off src i;
  ap_zero : zero_tail (gv s) (addrs_of din) off → zero_tail (gv s') (addrs_of din') (off + length src);
}.

Lemma appended_nil s din off :
  core s → length din = 64%nat → slots_ok the_sb (gv s) (addrs_of din) → tight (gv s) (addrs_of din) off → appended s din off [] s din.
Proof using.
  intros Hc Hl Hs Ht. split; try done; simpl; rewrite ?Nat.add_0_r; [lia|by apply slots_grow_refl|done| |done].
  intros i Hi. unfold over. simpl. by rewrite decide_False by lia.
Qed.

Lemma appended_app s din off src1 src2 s1 din1 s2 din2 :
  appended s din off src1 s1 din1 → appended s1 din1 (off + length src1) src2 s2 din2 → appended s din off (src1 ++ src2) s2 din2.
Proof using.
  intros [A1 A2 A3 A4 A5 A6 A7 A8 A9 A10] [C1 C2 C3 C4 C5 C6 C7 C8 C9 C10]. split; rewrite ?length_app, ?Nat.add_assoc; try done.
  - lia.
  - congruence.
  - congruence.
  - by eapply (slots_grow_trans _ _ the_layout).
  - intros i Hi. rewrite C9 by done. unfold over. rewrite length_app. destruct (decide (off + length src1 ≤ i)%nat).
    + rewrite !decide_True, app_nth2 by lia. f_equal. lia.
    + rewrite decide_False, A9 by lia. unfold over. repeat case_decide; try lia. by rewrite app_nth1 by lia.
  - rewrite <-Nat.add_assoc in *. auto.
Qed.

(** One round of the loop. *)
Lemma append_block_ok s din off src :
  core s → length din = 64%nat → slots_ok the_sb (gv s) (addrs_of din) → tight (gv s) (addrs_of din) off →
  (off < 140 * 512)%nat → src ≠ [] → (off mod 512 + length src ≤ 512)%nat →
  mk_freeblock s + nb (off + length src) - nb off ≤ 1000 →
  ∃ s' din', (∀ A (k : list Z → MK A), ('(din, x) ← file_sector din (Z.of_nat (off / 512)); buf ← rsect x;
      wsect x (splice buf (off mod 512) src);; k din) s = k din' s') ∧ appended s din off src s' din'.
Proof using Hw.
  intros Hc Hl Hs Ht Hoff Hne Hsrc Hfree. set (bn := (off / 512)%nat). set (o := (off mod 512)%nat) in *.
  assert (0 < length src)%nat as Hpos by (destruct src; [done|simpl; lia]).
  assert (off = bn * 512 + o)%nat as Eoff by (unfold bn, o; pose proof (Nat.div_mod off 512 ltac:(lia)); lia).
  assert (bn < 140)%nat as Hbn by (apply Nat.Div0.div_lt_upper_bound; lia).
  pose proof (takes_tight _ _ off (length src) Ht Hoff Hpos Hsrc) as Etk. fold bn in Etk.
  destruct (file_sector_ok s din bn Hc Hl Hs Hbn) as (s1 & din1 & R1 & [A1 A2 A3 A4 A5 A6 A7 A8 A9 A10]); [lia|].
  destruct (pos_slot bn Hbn) as [Hp Hp12].
  assert (slot (gv s1) (addrs_of din1) (pos bn) ≠ 0) as Hnz by (apply A9; [done|right; by left]).
  destruct (so_data _ _ _ A6 _ Hp Hnz) as [Hd Hu]. pose proof (co_free _ A1) as Hf1.
  unfold is_data in Hd. change (datastart the_sb) with 59 in Hd. change (sb_size the_sb) with 1000 in Hd.
  rewrite gv_used in Hu by (done || lia). apply Z.ltb_lt in Hu. set (x := slot (gv s1) (addrs_of din1) (pos bn)) in *.
  set (s2 := upd_mk_img <[x := splice (vw s1 x) o src]> s1).
  assert (∀ c, gv s2 c = <[x := splice (gv s1 x) o src]> (gv s1) c) as Eg by (intros c; unfold s2; by rewrite gv_write, (gv_vw s1 x) by lia).
  destruct (overwrite_ok _ _ the_layout (gv s1) (addrs_of din1) (pos bn) (splice (gv s1 x) o src) A6 Hp Hp12 Hnz) as (E1 & E2 & E3).
  fold x in E1, E2, E3. exists s2, din1. split.
  { intros A k. mrun R1. mrun (rsect_run s1 x A1 ltac:(lia)). by mrun (wsect_run s1 x (splice (vw s1 x) o src) ltac:(lia)). }
  assert (tight (gv s2) (addrs_of din1) (off + length src)) as Ht2.
  { split.
    - intros j Hj. rewrite (slot_ext _ _ Eg), E1, A9 by (apply pos_slot; lia). rewrite (proj1 Ht) by done. unfold filled.
      split; [intros [?|[->%pos_inj|[? E]]]; [lia|lia|by destruct (pos_slot j Hj)]|]. intros Hlt.
      destruct (decide (j = bn)) as [->|]; [right; by left|left; lia].
    - rewrite (slot_ext _ _ Eg), E1, A9, (proj2 Ht) by (unfold nslots; lia). unfold filled.
      split; [intros [?|[E|[? _]]]; [lia| |lia]|]. 
      + by rewrite <-E in Hp12.
      + intros Hlt. destruct (decide (12 ≤ bn)%nat); [right; right; done|left; lia]. }
  assert (∀ i, mapped (gv s2) (addrs_of din1) i →
    fbyte (gv s2) (addrs_of din1) i = over (fbyte (gv s1) (addrs_of din1)) off src i) as Hover.
  { intros i [Hr Hz]. transitivity (fbyte (<[x := splice (gv s1 x) o src]> (gv s1)) (addrs_of din1) i).
    { unfold fbyte. by rewrite (slot_ext _ _ Eg), Eg. }
    rewrite (slot_ext _ _ Eg), E1 in Hz by (apply pos_slot, Nat.Div0.div_lt_upper_bound; lia).
    pose proof (fbyte_overwrite _ _ the_layout (gv s1) (addrs_of din1) bn o src i (gv_sized s1 A1) A6 Hbn Hnz ltac:(lia) (conj Hr Hz)) as Ew.
    cbv zeta in Ew. fold x in Ew. by rewrite Ew, <-Eoff. }
  split; try done.
  - apply core_write; [done|lia|]. rewrite length_splice; rewrite (co_sized _ A1); [done|lia].
  - simpl. lia.
  - by eapply slots_ok_ext.
  - eapply (grows_ext _ _ _ Eg), (slots_grow_trans _ _ the_layout); done.
  - intros i Hi. pose proof (tight_mapped _ _ _ i Ht2 Hi ltac:(lia)) as Hm. rewrite Hover by done.
    unfold over. destruct (decide (off ≤ i < off + length src)%nat); [done|]. eapply fbyte_keeps; [exact A7|exact A8|]. apply (tight_mapped _ _ off); [done|lia|lia].
  - intros Hz i Hi Hm. rewrite Hover by done. unfold over. rewrite decide_False by lia.
    destruct (decide (slot (gv s) (addrs_of din) (pos (i / 512)) = 0)) as [E|E].
    + unfold fbyte. destruct (mapped_slot _ _ i Hm) as [Hk Hk12]. rewrite A10; [by rewrite nth_lookup; destruct (zero_block !! _) eqn:El; [apply lookup_replicate in El as [-> _]|]|done..|].
      destruct Hm as [_ Hm]. by rewrite (slot_ext _ _ Eg), E1 in Hm.
    + assert (mapped (gv s) (addrs_of din) i) as Hm' by (split; [apply Hm|done]).
      erewrite fbyte_keeps; [apply (Hz i ltac:(lia) Hm')|exact A7|exact A8|exact Hm'].
Qed.

Lemma iappend_loop_ok fuel s din off src :
  core s → length din = 64%nat → slots_ok the_sb (gv s) (addrs_of din) → tight (gv s) (addrs_of din) off →
  (off + length src ≤ 140 * 512)%nat → (length src ≤ fuel)%nat → mk_freeblock s + nb (off + length src) - nb off ≤ 1000 →
  ∃ s' din', iappend_loop fuel din (Z.of_nat off) src s = Ret (din', Z.of_nat (off + length src)) s' ∧ appended s din off src s' din'.
Proof using Hw.
  revert s din off src. induction fuel as [|fuel IH]; intros s din off src Hc Hl Hs Ht Hoff Hfuel Hfree; cbn [iappend_loop].
  all: destruct (Z.ltb_spec 0 (Z.of_nat (length src))) as [Hlt|Hge]; [|
    assert (src = []) as -> by (apply nil_length_inv; lia); exists s, din; simpl; rewrite Nat.add_0_r; split; [done|]; by apply appended_nil].
  { lia. }
  pose proof (Nat.mod_upper_bound off 512 ltac:(lia)) as Hmb. pose proof (Nat.div_mod off 512 ltac:(lia)) as Hdm.
  unfold BSIZE. assert (Z.of_nat off / 512 = Z.of_nat (off / 512)) as -> by (by rewrite Nat2Z.inj_div).
  assert (off / 512 < 140)%nat as Hbn by (apply Nat.Div0.div_lt_upper_bound; lia).
  unfold assert_. change MAXFILE with 140. rewrite (proj2 (Z.ltb_lt _ _)) by lia. rewrite bind_ret. cbv zeta.
  set (m := Nat.min (length src) (512 - off mod 512)).
  replace (Z.min (Z.of_nat (length src)) ((Z.of_nat (off / 512) + 1) * 512 - Z.of_nat off)) with (Z.of_nat m) by lia.
  replace (Z.to_nat (Z.of_nat off - Z.of_nat (off / 512) * 512)) with (off mod 512)%nat by lia. rewrite Nat2Z.id.
  assert (length (take m src) = m) as Hm by (rewrite length_take; lia).
  assert (nb (off + m) ≤ nb (off + length src)) as Hmono by (apply nb_mono; lia).
  destruct (append_block_ok s din off (take m src) Hc Hl Hs Ht) as (s1 & din1 & R1 & A1); rewrite ?Hm; try lia.
  { intros E. rewrite E in Hm. simpl in Hm. lia. }
  rewrite u32_small by (unfold two32; lia). rewrite R1, <-Nat2Z.inj_add.
  pose proof A1 as [C1 C2 C3 C4 C5 C6 C7 C8 _ _]. rewrite Hm in C2, C8.
  destruct (IH s1 din1 (off + m)%nat (drop m src) C1 C4 C6 C8) as (s2 & din2 & R2 & A2); rewrite ?length_drop.
  - lia.
  - lia.
  - rewrite C2. replace (off + m + (length src - m))%nat with (off + length src)%nat by lia. lia.
  - exists s2, din2. split.
    + rewrite R2, length_drop. do 3 f_equal. lia.
    + rewrite <-(take_drop m src). eapply appended_app; [exact A1|]. by rewrite Hm.
Qed.
End build.
