(* ===== verification/MkfsImage.v ===== *)
(** MkfsImage: the inodes, directories and files of the image. *)

From S2P Require Import Prelude Layout State Bytes CString Disk Log LogSpec Fs Inode Dinode ConsoleDev Dir FsSpec FileIO Mkfs MkfsSpec.

(** ** Inodes on the image *)

(** The bytes of an inode, and the inode that [ilock] reads from them. *)
Definition din_of (v : Z → list Z) (i : Z) : list Z := slice (v (IBLOCK i the_sb)) (dinode_off i) 64.
Definition blank (i : Z) : inode := MkInode 1 i 0 (MkSleeplock false 0) false 0 0 0 0 0 [].
Definition ino (v : Z → list Z) (i : Z) : inode := on_disk the_sb v (blank i).

Lemma ino_din v i : ino v i = dinode_read (din_of v i) 0 (blank i).
Proof.
  apply dinode_read_slice. unfold din_of. rewrite slice_slice by lia. by rewrite Nat.add_0_r.
Qed.

Lemma addrs_ino v i : i_addrs (ino v i) = addrs_of (din_of v i).
Proof. by rewrite ino_din. Qed.

Lemma size_ino v i : i_size (ino v i) = din_size (din_of v i).
Proof. by rewrite ino_din. Qed.

Lemma type_ino v i : i_type (ino v i) = s16 (rd16 (din_of v i) 0).
Proof. by rewrite ino_din. Qed.

Lemma nlink_ino v i : i_nlink (ino v i) = s16 (rd16 (din_of v i) 6).
Proof. by rewrite ino_din. Qed.

Lemma ino_ext v v' i : din_of v' i = din_of v i → ino v' i = ino v i.
Proof. intros E. by rewrite !ino_din, E. Qed.

(** The number of an inode the image has room for. *)
Definition is_inum (i : Z) : Prop := 0 ≤ i < 200.

Lemma inum_block i : is_inum i → 32 ≤ IBLOCK i the_sb < 58.
Proof. intros Hi. by destruct (IBLOCK_range _ _ the_layout i Hi) as [_ ?]. Qed.

Lemma length_din v i : sized v → is_inum i → length (din_of v i) = 64%nat.
Proof. intros Hv Hi. apply length_slice. rewrite Hv. apply dinode_off_fits. apply Hi. Qed.

(** Fields in the first 12 bytes. *)
Lemma head_field din din' k : take 12 din' = take 12 din → (k + 2 ≤ 12)%nat → rd16 din' k = rd16 din k.
Proof.
  intros E Hk. unfold rd16. assert (∀ d, slice d k 2 = slice (take 12 d) k 2) as Es.
  { intros d. apply list_eq. intros i. rewrite !slice_lookup. case_decide; [|done]. by rewrite lookup_take_lt by lia. }
  by rewrite (Es din'), (Es din), E.
Qed.

Lemma wr32_addrs din x : length din = 64%nat → addrs_of (wr32 din 8 x) = addrs_of din.
Proof.
  intros Hd. unfold addrs_of. apply list_fmap_ext. intros i k [-> Hk]%lookup_seq. unfold din_addr. rewrite rd32_wr32_ne by lia. done.
Qed.

Lemma wr32_field din x k : length din = 64%nat → (k + 2 ≤ 8)%nat → rd16 (wr32 din 8 x) k = rd16 din k.
Proof. intros Hd Hk. unfold rd16, wr32. rewrite slice_splice_ne; [done|simpl; lia|lia]. Qed.

Section build.
Context {HOST : Host} (Hw : ∀ sec, 0 ≤ sec < 1000 → host_write sec = true).

(** ** Reading and writing inodes *)

Lemma rinode_run s i : core s → is_inum i → rinode i s = Ret (din_of (gv s) i) s.
Proof using.
  intros Hc Hi. pose proof (inum_block i Hi). unfold rinode. rewrite bind_gets, (co_sb _ Hc). cbv zeta.
  mrun (rsect_run s (IBLOCK i the_sb) Hc ltac:(lia)). unfold din_of. by rewrite gv_vw by lia.
Qed.

(** The image after an inode was written. *)
Record inode_written (s : mkfs) (i : Z) (din : list Z) (s' : mkfs) : Prop := MkInodeWritten {
  iw_core : core s';
  iw_free : mk_freeblock s' = mk_freeblock s;
  iw_inode : mk_freeinode s' = mk_freeinode s;
  iw_here : din_of (gv s') i = din;
  iw_other j : is_inum j → j ≠ i → din_of (gv s') j = din_of (gv s) j;
  iw_data c : is_data the_sb c → gv s' c = gv s c;
  iw_super : gv s' 1 = gv s 1;
}.

Lemma winode_ok s i din :
  core s → is_inum i → length din = 64%nat → ∃ s', winode i din s = Ret tt s' ∧ inode_written s i din s'.
Proof using Hw.
  intros Hc Hi Hl. pose proof (inum_block i Hi) as Hib. pose proof (co_free _ Hc). unfold winode. rewrite bind_gets, (co_sb _ Hc). cbv zeta.
  mrun (rsect_run s (IBLOCK i the_sb) Hc ltac:(lia)). rewrite wsect_run by (done || lia). eexists. split; [done|].
  pose proof (dinode_off_fits i (proj1 Hi)) as Hof. pose proof (co_sized _ Hc) as Hsz.
  assert (∀ c, gv (upd_mk_img <[IBLOCK i the_sb := splice (vw s (IBLOCK i the_sb)) (dinode_off i) din]> s) c =
    <[IBLOCK i the_sb := splice (gv s (IBLOCK i the_sb)) (dinode_off i) din]> (gv s) c) as Eg.
  { intros c. by rewrite gv_write, (gv_vw s (IBLOCK i the_sb)) by lia. }
  split; try done.
  - apply core_write; [done|lia|]. rewrite length_splice; rewrite Hsz; [done|lia].
  - unfold din_of. rewrite Eg, fn_lookup_insert. rewrite <-Hl at 1. apply slice_splice_eq. rewrite (gv_sized s Hc). lia.
  - intros j Hj Hne. unfold din_of. rewrite Eg. destruct (decide (IBLOCK i the_sb = IBLOCK j the_sb)) as [E|]; [|by rewrite fn_lookup_insert_ne].
    rewrite <-E, fn_lookup_insert. apply slice_splice_ne; [rewrite (gv_sized s Hc); lia|]. rewrite Hl.
    destruct (dinode_off_ne _ _ the_layout i j Hi Hj (not_eq_sym Hne) E); lia.
  - intros c Hcd. rewrite Eg, fn_lookup_insert_ne; [done|]. unfold is_data in Hcd. change (datastart the_sb) with 59 in Hcd. lia.
  - rewrite Eg, fn_lookup_insert_ne; [done|lia].
Qed.

(** Files are not changed by writing an inode. *)
Lemma inode_written_frame s i din s' a :
  core s → inode_written s i din s' → slots_ok the_sb (gv s) a →
  ∀ c, is_slot (gv s) a c → gv s' c = gv s c ∧ used the_sb (gv s') c = true.
Proof using.
  intros Hc [W1 W2 W3 W4 W5 W6 _] Hs c (Hc0 & k & Hk & E). rewrite <-E in *. destruct (so_data _ _ _ Hs k Hk Hc0) as [Hd Hu].
  split; [by apply W6|]. unfold is_data in Hd. change (datastart the_sb) with 59 in Hd. change (sb_size the_sb) with 1000 in Hd.
  rewrite gv_used in * by (done || lia). by rewrite W2.
Qed.

Lemma tight_ext v v' a off : (∀ k, (k < nslots)%nat → slot v' a k = slot v a k) → tight v a off → tight v' a off.
Proof using.
  intros E [T1 T2]. split; [|rewrite E by (unfold nslots; lia); done]. intros bn Hbn. rewrite E by (by apply pos_slot). by apply T1.
Qed.

(** ** The file system while it grows *)

(** A file with exactly the blocks it needs, 0 behind its end. *)
Record file_ok (v : Z → list Z) (x : inode) : Prop := MkFileOk {
  fi_type : i_type x ≠ T_DEV;
  fi_size : 0 ≤ i_size x ≤ 71680;
  fi_slots : slots_ok the_sb v (i_addrs x);
  fi_tight : tight v (i_addrs x) (Z.to_nat (i_size x));
  fi_zero : zero_tail v (i_addrs x) (Z.to_nat (i_size x));
}.

Record inv (s : mkfs) : Prop := MkInv {
  iv_core : core s;
  iv_super : superblock_of (gv s 1) = the_sb;
  iv_count : 1 ≤ mk_freeinode s ≤ 200;
  iv_file i : 1 ≤ i < mk_freeinode s → file_ok (gv s) (ino (gv s) i);
  iv_disj i j : 1 ≤ i < mk_freeinode s → 1 ≤ j < mk_freeinode s → i ≠ j →
    disjoint_files (gv s) (i_addrs (ino (gv s) i)) (i_addrs (ino (gv s) j));
}.

Definition bytes_of (s : mkfs) (i : Z) : list Z := contents (gv s) (ino (gv s) i).

(** The inode is one the kernel accepts. *)
Lemma file_inode_ok v i : 1 ≤ i < 200 → file_ok v (ino v i) → inode_ok the_sb v (ino v i).
Proof using.
  intros Hi [F1 F2 F3 F4 F5]. split; try done.
  - simpl. lia.
  - intros k Hk. eapply tight_mapped; [exact F4|lia|lia].
Qed.

(** The blocks of a file did not change. *)
Definition unmoved (v v' : Z → list Z) (x : inode) : Prop := ∀ c, is_slot v (i_addrs x) c → v' c = v c ∧ used the_sb v' c = true.

Lemma file_ok_frame v v' x :
  file_ok v x → unmoved v v' x →
  file_ok v' x ∧ contents v' x = contents v x ∧ ∀ c, is_slot v' (i_addrs x) c ↔ is_slot v (i_addrs x) c.
Proof using.
  intros [F1 F2 F3 F4 F5] Hu. destruct (file_frame the_sb v v' _ F3 Hu) as (E1 & E2 & E3). split; [split; try done|split].
  - by eapply tight_ext.
  - intros i Hi [Hr Hm]. rewrite E1 in Hm by (by apply pos_slot, Nat.Div0.div_lt_upper_bound). rewrite (proj2 (E3 i (conj Hr Hm))). by apply F5.
  - apply content_ext. intros i Hi. apply E3. eapply tight_mapped; [exact F4|lia|lia].
  - intros c. by apply is_slot_ext.
Qed.

(** A step that changes inode [i], or makes it, and no other file. *)
Lemma inv_step s s' i :
  inv s → core s' → gv s' 1 = gv s 1 → 1 ≤ mk_freeinode s' ≤ 200 →
  (∀ j, 1 ≤ j < mk_freeinode s' → j = i ∨ j ≠ i ∧ 1 ≤ j < mk_freeinode s) →
  file_ok (gv s') (ino (gv s') i) →
  (∀ j, 1 ≤ j < mk_freeinode s → j ≠ i → din_of (gv s') j = din_of (gv s) j ∧ unmoved (gv s) (gv s') (ino (gv s) j) ∧
     ∀ c, is_slot (gv s') (i_addrs (ino (gv s') i)) c → ¬ is_slot (gv s) (i_addrs (ino (gv s) j)) c) →
  inv s' ∧ ∀ j, 1 ≤ j < mk_freeinode s → j ≠ i → ino (gv s') j = ino (gv s) j ∧ bytes_of s' j = bytes_of s j.
Proof using.
  intros Hi Hc' H1 Hcnt' Hcase Hf Hoth.
  assert (∀ j, 1 ≤ j < mk_freeinode s → j ≠ i → ino (gv s') j = ino (gv s) j ∧ file_ok (gv s') (ino (gv s) j) ∧ bytes_of s' j = bytes_of s j ∧
    ∀ c, is_slot (gv s') (i_addrs (ino (gv s) j)) c ↔ is_slot (gv s) (i_addrs (ino (gv s) j)) c) as Hk.
  { intros j Hj Hne. destruct (Hoth j Hj Hne) as (E1 & E2 & _). pose proof (ino_ext _ _ _ E1) as Ei.
    destruct (file_ok_frame _ _ _ (iv_file _ Hi j Hj) E2) as (F1 & F2 & F3). unfold bytes_of. by rewrite Ei. }
  split; [split|].
  - done.
  - rewrite H1. by apply iv_super.
  - done.
  - intros j [->|[Hne Hj]]%Hcase; [done|]. by destruct (Hk j Hj Hne) as (-> & ? & _).
  - intros j k [->|[Hj Hj']]%Hcase [->|[Hk1 Hk2]]%Hcase Hjk; [done| | |].
    + destruct (Hk k Hk2 Hk1) as (-> & _ & _ & E), (Hoth k Hk2 Hk1) as (_ & _ & Hd). intros c Hc1 Hc2. by destruct (Hd c Hc1); apply E.
    + destruct (Hk j Hj' Hj) as (-> & _ & _ & E), (Hoth j Hj' Hj) as (_ & _ & Hd). intros c Hc1 Hc2. by destruct (Hd c Hc2); apply E.
    + destruct (Hk j Hj' Hj) as (-> & _ & _ & Ej), (Hk k Hk2 Hk1) as (-> & _ & _ & Ek). intros c Hc1%Ej Hc2%Ek. by apply (iv_disj _ Hi j k Hj' Hk2 Hjk c).
  - intros j Hj Hne. by destruct (Hk j Hj Hne) as (? & _ & ? & _).
Qed.

(** ** [iappend] *)

(** [p] was appended to file [i] and nothing else changed. *)
Record iappended (s : mkfs) (i : Z) (p : list Z) (s' : mkfs) : Prop := MkIappended {
  ia_inv : inv s';
  ia_inode : mk_freeinode s' = mk_freeinode s;
  ia_free : mk_freeblock s' = mk_freeblock s + nb (Z.to_nat (i_size (ino (gv s) i)) + length p) - nb (Z.to_nat (i_size (ino (gv s) i)));
  ia_size : i_size (ino (gv s') i) = i_size (ino (gv s) i) + Z.of_nat (length p);
  ia_bytes : bytes_of s' i = bytes_of s i ++ p;
  ia_type : i_type (ino (gv s') i) = i_type (ino (gv s) i);
  ia_nlink : i_nlink (ino (gv s') i) = i_nlink (ino (gv s) i);
  ia_other j : 1 ≤ j < mk_freeinode s → j ≠ i → ino (gv s') j = ino (gv s) j ∧ bytes_of s' j = bytes_of s j;
}.

Lemma iappend_run s i p :
  inv s → 1 ≤ i < mk_freeinode s → i_size (ino (gv s) i) + Z.of_nat (length p) ≤ 71680 →
  mk_freeblock s + nb (Z.to_nat (i_size (ino (gv s) i)) + length p) - nb (Z.to_nat (i_size (ino (gv s) i))) ≤ 1000 →
  ∃ s1 din1 s2, iappend i p s = Ret tt s2 ∧
    appended s (din_of (gv s) i) (Z.to_nat (i_size (ino (gv s) i))) p s1 din1 ∧
    inode_written s1 i (wr32 din1 8 (i_size (ino (gv s) i) + Z.of_nat (length p))) s2.
Proof using Hw.
  intros Hi Hr Hsz Hfree. pose proof (iv_count _ Hi) as Hcnt. pose proof (iv_core _ Hi) as Hc. pose proof (fi_size _ _ (iv_file _ Hi i Hr)) as Hs0.
  assert (is_inum i) as Hin by (unfold is_inum; lia). set (n := i_size (ino (gv s) i)) in *.
  unfold iappend. mrun (rinode_run s i Hc Hin). rewrite <-size_ino, xint_id. fold n. rewrite u32_small by (unfold two32; lia).
  destruct (iappend_loop_ok Hw (length p) s (din_of (gv s) i) (Z.to_nat n) p) as (s1 & din1 & R1 & A1).
  - done.
  - apply length_din; [by apply gv_sized|done].
  - rewrite <-addrs_ino. by apply fi_slots, iv_file.
  - rewrite <-addrs_ino. by apply fi_tight, iv_file.
  - lia.
  - lia.
  - done.
  - rewrite Z2Nat.id in R1 by lia. mrun R1. rewrite xint_id, u32_small by (unfold two32; lia).
    destruct (winode_ok s1 i (wr32 din1 8 (Z.of_nat (Z.to_nat n + length p)))) as (s2 & R2 & W2).
    + apply A1.
    + done.
    + rewrite length_wr32; rewrite (ap_len _ _ _ _ _ _ A1); [done|lia].
    + exists s1, din1, s2. split; [exact R2|]. split; [done|]. by replace (n + Z.of_nat (length p)) with (Z.of_nat (Z.to_nat n + length p)) by lia.
Qed.

(** The other files, through the two steps. *)
Lemma iappend_frame s i p s1 din1 din2 s2 j :
  inv s → 1 ≤ i < mk_freeinode s → 1 ≤ j < mk_freeinode s → j ≠ i →
  appended s (din_of (gv s) i) (Z.to_nat (i_size (ino (gv s) i))) p s1 din1 → inode_written s1 i din2 s2 →
  din_of (gv s2) j = din_of (gv s) j ∧
  unmoved (gv s) (gv s2) (ino (gv s) j) ∧
  ∀ c, is_slot (gv s1) (addrs_of din1) c → ¬ is_slot (gv s) (i_addrs (ino (gv s) j)) c.
Proof using.
  intros Hi Hri Hrj Hne A1 W2. pose proof (iv_count _ Hi) as Hcnt. pose proof (iv_core _ Hi) as Hc.
  pose proof (fi_slots _ _ (iv_file _ Hi i Hri)) as Hsi. pose proof (fi_slots _ _ (iv_file _ Hi j Hrj)) as Hsj. pose proof (iv_disj _ Hi i j Hri Hrj (not_eq_sym Hne)) as Hd.
  rewrite addrs_ino in Hsi, Hd. pose proof (ap_grows _ _ _ _ _ _ A1) as G.
  assert (is_inum j) as Hin by (unfold is_inum; lia). pose proof (inum_block j Hin) as Hib.
  destruct (file_frame the_sb (gv s) (gv s1) _ Hsj (grows_frame _ _ the_layout _ _ _ _ _ G Hsj Hd)) as (Ek & Hs1 & _).
  split; [|split].
  - rewrite (iw_other _ _ _ _ W2 j Hin Hne). unfold din_of. f_equal.
    by apply (grows_low _ _ the_layout (gv s) (addrs_of (din_of (gv s) i)) _ (addrs_of din1)); [apply gv_fs|done|done|simpl; lia].
  - intros c Hcs. destruct (grows_frame _ _ the_layout _ _ _ _ _ G Hsj Hd c Hcs) as [E1 U1].
    destruct (inode_written_frame s1 i din2 s2 _ (ap_core _ _ _ _ _ _ A1) W2 Hs1 c) as [E2 U2]; [by apply (is_slot_ext (gv s))|].
    by rewrite E2.
  - intros c H1 H2. eapply (disjoint_grows _ _ the_layout); [exact G|exact Hsj|exact Hd|exact H1|]. by apply (is_slot_ext (gv s)).
Qed.

Lemma iappend_ok s i p :
  inv s → 1 ≤ i < mk_freeinode s → i_size (ino (gv s) i) + Z.of_nat (length p) ≤ 71680 →
  mk_freeblock s + nb (Z.to_nat (i_size (ino (gv s) i)) + length p) - nb (Z.to_nat (i_size (ino (gv s) i))) ≤ 1000 →
  ∃ s', iappend i p s = Ret tt s' ∧ iappended s i p s'.
Proof using Hw.
  intros Hi Hr Hsz Hfree. destruct (iappend_run s i p Hi Hr Hsz Hfree) as (s1 & din1 & s2 & R & A1 & W2).
  exists s2. split; [done|]. pose proof (iv_count _ Hi) as Hcnt. pose proof (fi_size _ _ (iv_file _ Hi i Hr)) as Hs0.
  set (n := i_size (ino (gv s) i)) in *. pose proof A1 as [C1 C2 C3 C4 C5 C6 C7 C8 C9 C10]. pose proof W2 as [D1 D2 D3 D4 D5 D6 D7].
  assert (i_addrs (ino (gv s2) i) = addrs_of din1) as Ea by (rewrite addrs_ino, D4; by apply wr32_addrs).
  assert (i_size (ino (gv s2) i) = n + Z.of_nat (length p)) as Es.
  { rewrite size_ino, D4. unfold din_size. rewrite rd32_wr32_eq by lia. apply u32_small. unfold two32. lia. }
  assert (i_type (ino (gv s2) i) = i_type (ino (gv s) i)) as Et.
  { by rewrite !type_ino, D4, wr32_field, (head_field (din_of (gv s) i)) by (done || lia). }
  destruct (file_frame the_sb (gv s1) (gv s2) _ C6 (inode_written_frame s1 i _ s2 _ C1 W2 C6)) as (Ek & Hs2 & Hb2).
  assert (gv s2 1 = gv s 1) as E1.
  { rewrite D7. apply (grows_low _ _ the_layout (gv s) (addrs_of (din_of (gv s) i)) _ (addrs_of din1)); [apply gv_fs, iv_core, Hi| |done|simpl; lia].
    rewrite <-addrs_ino. apply fi_slots, iv_file; done. }
  destruct (inv_step s s2 i Hi D1 E1) as [Hi2 Hoth].
  - rewrite D3, C3. done.
  - intros j. rewrite D3, C3. destruct (decide (j = i)); [by left|by right].
  - split.
    + rewrite Et. by apply (fi_type (gv s)), iv_file.
    + lia.
    + by rewrite Ea.
    + rewrite Ea, Es. replace (Z.to_nat (n + Z.of_nat (length p))) with (Z.to_nat n + length p)%nat by lia. by eapply tight_ext.
    + rewrite Ea, Es. intros k Hk [Hr' Hm]. rewrite Ek in Hm by (by apply pos_slot, Nat.Div0.div_lt_upper_bound). rewrite (proj2 (Hb2 k (conj Hr' Hm))).
      apply C10; [|lia|done]. rewrite <-addrs_ino. apply (fi_zero _ _ (iv_file _ Hi i Hr)).
  - intros j Hj Hne. destruct (iappend_frame s i p s1 din1 _ s2 j Hi Hr Hj Hne A1 W2) as (F1 & F2 & F3). split; [done|]. split; [done|].
    intros c Hc. rewrite Ea in Hc. by apply F3, (is_slot_ext _ _ _ _ Ek).
  - split; try done.
    + by rewrite D3, C3.
    + by rewrite D2, C2.
    + unfold bytes_of, contents. rewrite Es, Ea, addrs_ino. fold n.
      replace (n + Z.of_nat (length p)) with (Z.max n (Z.of_nat (Z.to_nat n + length p))) by lia.
      rewrite (content_splice (gv s) (addrs_of (din_of (gv s) i)) _ _ n (Z.to_nat n) p); [|lia|].
      * unfold splice. rewrite take_ge, drop_ge, app_nil_r by (rewrite length_content; lia). done.
      * intros k Hk. rewrite (proj2 (Hb2 k (tight_mapped _ _ _ k C8 ltac:(lia) ltac:(lia)))). apply C9. lia.
    + by rewrite !nlink_ino, D4, wr32_field, (head_field (din_of (gv s) i)) by (done || lia).
Qed.

(** ** [ialloc] *)

Record ialloced (s : mkfs) (ty : Z) (s' : mkfs) : Prop := MkIalloced {
  il_inv : inv s';
  il_inode : mk_freeinode s' = mk_freeinode s + 1;
  il_free : mk_freeblock s' = mk_freeblock s;
  il_type : i_type (ino (gv s') (mk_freeinode s)) = ty;
  il_nlink : i_nlink (ino (gv s') (mk_freeinode s)) = 1;
  il_size : i_size (ino (gv s') (mk_freeinode s)) = 0;
  il_other j : 1 ≤ j < mk_freeinode s → ino (gv s') j = ino (gv s) j ∧ bytes_of s' j = bytes_of s j;
}.

(** The inode [ialloc] writes. *)
Definition new_din (ty : Z) : list Z := wr32 (wr16 (wr16 (replicate 64 0) 0 (xshort ty)) 6 (xshort 1)) 8 (xint 0).

Lemma new_din_fields ty :
  ty = T_DIR ∨ ty = T_FILE →
  length (new_din ty) = 64%nat ∧ s16 (rd16 (new_din ty) 0) = ty ∧ s16 (rd16 (new_din ty) 6) = 1 ∧ din_size (new_din ty) = 0 ∧
  addrs_of (new_din ty) = replicate 13 0.
Proof using. by intros [->| ->]; vm_compute. Qed.

Lemma slot_none v k : slot v (replicate 13 0) k = 0.
Proof using.
  unfold slot. destruct (Nat.ltb_spec k 13) as [Hk|Hk]; [|done]. by rewrite nth_lookup, lookup_replicate_2.
Qed.

Lemma empty_file v : slots_ok the_sb v (replicate 13 0) ∧ tight v (replicate 13 0) 0 ∧ zero_tail v (replicate 13 0) 0 ∧ ∀ c, ¬ is_slot v (replicate 13 0) c.
Proof using.
  split; [|split; [|split]].
  - split; [done|..]; intros j; intros; by rewrite ?slot_none in *.
  - split; [intros bn Hbn|]; rewrite slot_none; split; (done || lia).
  - intros i _ [_ Hm]. by rewrite slot_none in Hm.
  - intros c (Hc & k & _ & E). rewrite slot_none in E. congruence.
Qed.

Lemma ialloc_ok s ty :
  inv s → ty = T_DIR ∨ ty = T_FILE → mk_freeinode s < 200 →
  ∃ s', ialloc ty s = Ret (mk_freeinode s) s' ∧ ialloced s ty s'.
Proof using Hw.
  intros Hi Hty Hfree. pose proof (iv_count _ Hi) as Hcnt. pose proof (iv_core _ Hi) as Hc. set (i := mk_freeinode s) in *.
  destruct (new_din_fields ty Hty) as (N1 & N2 & N3 & N4 & N5).
  unfold ialloc. rewrite bind_gets, bind_modify. fold i. change (Z.to_nat sizeof_dinode) with 64%nat. fold (new_din ty).
  set (s1 := upd_mk_freeinode (λ i, u32 (i + 1)) s). assert (core s1) as Hc1 by (by destruct Hc).
  destruct (winode_ok s1 i (new_din ty) Hc1) as (s' & R & W); [unfold is_inum; lia|done|]. mrun R. exists s'. split; [done|].
  pose proof W as [D1 D2 D3 D4 D5 D6 D7]. change (mk_freeblock s1) with (mk_freeblock s) in D2. change (gv s1) with (gv s) in *.
  assert (mk_freeinode s' = i + 1) as Ei by (rewrite D3; apply u32_small; unfold two32; lia).
  assert (i_addrs (ino (gv s') i) = replicate 13 0) as Ea by (by rewrite addrs_ino, D4).
  assert (i_size (ino (gv s') i) = 0) as Es by (by rewrite size_ino, D4).
  destruct (empty_file (gv s')) as (E1 & E2 & E3 & E4).
  destruct (inv_step s s' i Hi D1 D7) as [Hi2 Hoth].
  - lia.
  - intros j. rewrite Ei. fold i. lia.
  - split; rewrite ?Ea, ?Es; try done. rewrite type_ino, D4, N2. by destruct Hty as [->| ->].
  - intros j Hj Hne. split; [apply D5; unfold is_inum; fold i in Hj; lia|]. split.
    + exact (inode_written_frame s1 i _ s' _ Hc1 W (fi_slots _ _ (iv_file _ Hi j Hj))).
    + rewrite Ea. by intros c ?%E4.
  - split; try done; fold i.
    + by rewrite type_ino, D4.
    + by rewrite nlink_ino, D4.
    + intros j Hj. apply Hoth; [done|lia].
Qed.
End build.
