(* ===== verification/MkfsMain.v ===== *)
(** MkfsMain: what [mkfs] leaves in the image.  [append_all], one file,
    all files and [main] of [mkfs.c], from the lemmas on [ialloc] and
    [iappend] in [MkfsImage]. *)
From S2P Require Import Prelude Layout State Bytes CString Disk Log LogSpec Fs Inode Dinode ConsoleDev Dir FsSpec FileIO Mkfs MkfsSpec MkfsImage.

(** The name of the entry for a file of the command line: the [_] of the user programs is dropped. *)
Definition base (arg : list Z) : list Z :=
  match arg with c :: rest => if c =? chr "_" then rest else arg | [] => arg end.

(** Its directory entry. *)
Definition entry (inum : Z) (arg : list Z) : list Z :=
  dirent inum (take 14 (base arg) ++ replicate (14 - length (base arg)) 0).

(** The entries of files with consecutive inodes. *)
Fixpoint entries (inum : Z) (args : list (list Z)) : list Z :=
  match args with
  | [] => []
  | a :: args => entry inum a ++ entries (inum + 1) args
  end.

(** The entries [.] and [..]. *)
Definition dots : list Z := dirent 1 (name_cpy (chars ".")) ++ dirent 1 (name_cpy (chars "..")).

Lemma length_entry i a : length (entry i a) = 16%nat.
Proof. unfold entry, dirent. rewrite !length_app, length_take, length_replicate. change (length (le16 (xshort i))) with 2%nat. lia. Qed.

Lemma length_entries i args : length (entries i args) = (16 * length args)%nat.
Proof. revert i. induction args as [|a args IH]; intros i; cbn [entries length]; [done|]. rewrite length_app, length_entry, IH. lia. Qed.

Lemma strncpy_base arg : 0 ∉ arg → strncpy (base arg ++ [0]) 14 = Some (take 14 (base arg) ++ replicate (14 - length (base arg)) 0).
Proof.
  intros H. assert (0 ∉ base arg) as Hb. { unfold base. destruct arg as [|c r]; [done|]. destruct (c =? chr "_"); set_solver. }
  assert (terminated (base arg ++ [0])) as Ht by (unfold terminated; set_solver). rewrite strncpy_cstr by (by left).
  assert (cstr (base arg ++ [0]) = base arg) as ->; [|done]. clear H Ht. induction (base arg) as [|c l IH]; [done|]. cbn [cstr app].
  rewrite (proj2 (Z.eqb_neq c 0)) by set_solver. f_equal. set_solver.
Qed.

Section main.
Context {HOST : Host} (Hw : ∀ sec, 0 ≤ sec < 1000 → host_write sec = true).

(** The bytes of a file of the command line. *)
Definition data_of (arg : list Z) : list Z := mjoin (default [] (host_open arg)).

(** A file [mkfs] can add. *)
Definition arg_ok (arg : list Z) : Prop :=
  (chr "/" ∉ arg) ∧ (0 ∉ arg) ∧ is_Some (host_open arg) ∧ Z.of_nat (length (data_of arg)) ≤ 71680.

(** The blocks the files take. *)
Fixpoint blocks_of (args : list (list Z)) : Z :=
  match args with
  | [] => 0
  | a :: args => nb (length (data_of a)) + blocks_of args
  end.

Lemma nb_pos n : 0 ≤ nb n.
Proof using. pose proof (nb_mono 0 n ltac:(lia)). by change (nb 0) with 0 in *. Qed.

Lemma blocks_pos args : 0 ≤ blocks_of args.
Proof using. induction args as [|a args IH]; cbn [blocks_of]; [done|]. pose proof (nb_pos (length (data_of a))). lia. Qed.

(** ** [append_all] *)

Lemma iappended_nil s i : inv s → iappended s i [] s.
Proof using. intros Hi. split; try done; simpl; rewrite ?Nat.add_0_r, ?app_nil_r; lia || done. Qed.

Lemma iappended_app s i p s1 q s2 :
  inv s → 1 ≤ i < mk_freeinode s → iappended s i p s1 → iappended s1 i q s2 → iappended s i (p ++ q) s2.
Proof using.
  intros Hi Hr [A1 A2 A3 A4 A5 A6 A7 A8] [B1 B2 B3 B4 B5 B6 B7 B8]. pose proof (fi_size _ _ (iv_file _ Hi i Hr)) as Hsz.
  split; rewrite ?length_app; try congruence.
  - rewrite B3, A3, A4. set (n := i_size _) in *.
    replace (Z.to_nat (n + Z.of_nat (length p))) with (Z.to_nat n + length p)%nat by lia. rewrite Nat.add_assoc. lia.
  - rewrite B4, A4. lia.
  - by rewrite B5, A5, app_assoc.
  - intros j Hj Hne. destruct (A8 j Hj Hne) as [<- <-]. apply B8; [by rewrite A2|done].
Qed.

Lemma append_all_ok chunks s i :
  let n := i_size (ino (gv s) i) in let m := length (mjoin chunks) in
  inv s → 1 ≤ i < mk_freeinode s → n + Z.of_nat m ≤ 71680 → mk_freeblock s + nb (Z.to_nat n + m) - nb (Z.to_nat n) ≤ 1000 →
  ∃ s', append_all i chunks s = Ret tt s' ∧ iappended s i (mjoin chunks) s'.
Proof using Hw.
  revert s. induction chunks as [|p chunks IH]; intros s n m Hi Hr Hsz Hfree; unfold m in *.
  { exists s. split; [done|]. by apply iappended_nil. }
  change (mjoin (p :: chunks)) with (p ++ mjoin chunks) in *. rewrite length_app in *. pose proof (fi_size _ _ (iv_file _ Hi i Hr)) as Hn. fold n in Hn.
  pose proof (nb_mono (Z.to_nat n + length p) (Z.to_nat n + (length p + length (mjoin chunks))) ltac:(lia)) as Hmono.
  destruct (iappend_ok Hw s i p Hi Hr) as (s1 & R1 & A1); [fold n; lia|fold n; lia|]. cbn [append_all]. mrun R1.
  pose proof A1 as [C1 C2 C3 C4 C5 C6 C7 C8]. fold n in C3, C4.
  destruct (IH s1 C1) as (s2 & R2 & A2).
  - by rewrite C2.
  - rewrite C4. lia.
  - rewrite C3, C4. replace (Z.to_nat (n + Z.of_nat (length p))) with (Z.to_nat n + length p)%nat by lia. rewrite Nat.add_assoc in *. lia.
  - exists s2. split; [done|]. by eapply iappended_app.
Qed.

(** ** The files *)

(** The files [args] have been added to the root directory, with the next inodes. *)
Record files_added (s : mkfs) (args : list (list Z)) (s' : mkfs) : Prop := MkFilesAdded {
  fa_inv : inv s';
  fa_inode : mk_freeinode s' = mk_freeinode s + Z.of_nat (length args);
  fa_free : mk_freeblock s' = mk_freeblock s + nb (Z.to_nat (i_size (ino (gv s) 1)) + 16 * length args) - nb (Z.to_nat (i_size (ino (gv s) 1))) +
              blocks_of args;
  fa_size : i_size (ino (gv s') 1) = i_size (ino (gv s) 1) + 16 * Z.of_nat (length args);
  fa_bytes : bytes_of s' 1 = bytes_of s 1 ++ entries (mk_freeinode s) args;
  fa_type : i_type (ino (gv s') 1) = i_type (ino (gv s) 1);
  fa_nlink : i_nlink (ino (gv s') 1) = i_nlink (ino (gv s) 1);
  fa_file k a : args !! k = Some a →
    let i := mk_freeinode s + Z.of_nat k in
    i_type (ino (gv s') i) = T_FILE ∧ i_nlink (ino (gv s') i) = 1 ∧ bytes_of s' i = data_of a;
  fa_other j : 2 ≤ j < mk_freeinode s → ino (gv s') j = ino (gv s) j ∧ bytes_of s' j = bytes_of s j;
}.

Lemma files_added_nil s : inv s → files_added s [] s.
Proof using. intros Hi. split; try done; simpl; rewrite ?Nat.add_0_r, ?app_nil_r; lia || done. Qed.

Lemma files_added_cons s a s1 args s2 :
  inv s → 2 ≤ mk_freeinode s → files_added s [a] s1 → files_added s1 args s2 → files_added s (a :: args) s2.
Proof using.
  intros Hi Hge [A1 A2 A3 A4 A5 A6 A7 A8 A9] [B1 B2 B3 B4 B5 B6 B7 B8 B9]. pose proof (fi_size _ _ (iv_file _ Hi 1 ltac:(lia))) as Hsz.
  cbn [entries length blocks_of] in *. rewrite app_nil_r in A5. split; cbn [entries length blocks_of]; try congruence.
  - lia.
  - rewrite B3, A3, A4. set (n := i_size _) in *.
    replace (Z.to_nat (n + 16 * Z.of_nat 1) + 16 * length args)%nat with (Z.to_nat n + 16 * S (length args))%nat by lia.
    replace (Z.to_nat (n + 16 * Z.of_nat 1)) with (Z.to_nat n + 16 * 1)%nat by lia. lia.
  - lia.
  - rewrite B5, A5, A2, <-app_assoc. done.
  - intros [|k] x Hx.
    + injection Hx as ->. specialize (A8 0%nat x eq_refl). specialize (B9 (mk_freeinode s + Z.of_nat 0) ltac:(lia)). cbv zeta in *.
      destruct B9 as [-> ->]. done.
    + specialize (B8 k x Hx). cbv zeta in *. rewrite A2 in B8.
      by replace (mk_freeinode s + Z.of_nat (S k)) with (mk_freeinode s + Z.of_nat 1 + Z.of_nat k) by lia.
  - intros j Hj. destruct (A9 j Hj) as [<- <-]. apply B9. lia.
Qed.

Lemma add_file_ok s a :
  let n := i_size (ino (gv s) 1) in
  inv s → 2 ≤ mk_freeinode s < 200 → arg_ok a → n + 16 ≤ 71680 →
  mk_freeblock s + nb (Z.to_nat n + 16) - nb (Z.to_nat n) + nb (length (data_of a)) ≤ 1000 →
  ∃ s', add_file 1 a s = Ret tt s' ∧ files_added s [a] s'.
Proof using Hw.
  intros n Hi Hfi (Hsl & Hnul & (chunks & Hopen) & Hlen) Hn Hfree. set (i := mk_freeinode s) in *.
  assert (data_of a = mjoin chunks) as Ed by (unfold data_of; by rewrite Hopen). pose proof (nb_pos (length (data_of a))) as Hpos.
  unfold add_file. rewrite bool_decide_eq_false_2 by done. unfold assert_ at 1. cbn [negb]. rewrite bind_ret, Hopen. fold (base a).
  destruct (ialloc_ok Hw s T_FILE Hi (or_intror eq_refl) ltac:(lia)) as (s1 & R1 & [L1 L2 L3 L4 L5 L6 L7]). fold i in R1, L2, L4, L5, L6, L7. mrun R1.
  change (Z.to_nat DIRSIZ) with 14%nat. rewrite strncpy_base by done. fold (entry i a).
  destruct (L7 1 ltac:(lia)) as [Er1 Eb1].
  destruct (iappend_ok Hw s1 1 (entry i a) L1) as (s2 & R2 & [A1 A2 A3 A4 A5 A6 A7 A8]); rewrite ?L2, ?Er1, ?L3, ?length_entry; try (fold n; lia).
  rewrite Er1, ?length_entry in *. fold n in A3, A4. mrun R2. destruct (A8 i ltac:(lia) ltac:(lia)) as [Ei2 Ebi2].
  assert (i_size (ino (gv s2) i) = 0) as Ez by (by rewrite Ei2).
  destruct (append_all_ok chunks s2 i A1) as (s3 & R3 & [C1 C2 C3 C4 C5 C6 C7 C8]); rewrite ?Ez, ?A2, ?L2, ?A3, ?L3, <-?Ed; try lia.
  { change (nb (Z.to_nat 0)) with 0. change (Z.to_nat 0) with 0%nat. rewrite Nat.add_0_l. lia. }
  rewrite Ez, <-Ed in *. change (nb (Z.to_nat 0)) with 0 in C3. change (Z.to_nat 0) with 0%nat in C3. rewrite Nat.add_0_l in C3.
  exists s3. split; [exact R3|]. destruct (C8 1 ltac:(lia) ltac:(lia)) as [Er3 Eb3].
  split; cbn [entries length blocks_of]; fold i n; rewrite ?Er3, ?Eb3; try (done || congruence || lia).
  - change (16 * 1)%nat with 16%nat. lia.
  - rewrite A5, Eb1, app_nil_r. done.
  - intros [|k] x Hx; [|done]. injection Hx as <-. cbv zeta. rewrite Z.add_0_r. rewrite C6, C7, C5, Ei2, L4, L5. split; [done|]. split; [done|].
    rewrite Ebi2. unfold bytes_of, contents. rewrite L6. done.
  - intros j Hj. destruct (L7 j ltac:(lia)) as [<- <-], (A8 j ltac:(lia) ltac:(lia)) as [<- <-]. apply C8; lia.
Qed.

Lemma add_files_ok args s :
  let n := i_size (ino (gv s) 1) in
  inv s → 2 ≤ mk_freeinode s → mk_freeinode s + Z.of_nat (length args) ≤ 200 → Forall arg_ok args → n + 16 * Z.of_nat (length args) ≤ 71680 →
  mk_freeblock s + nb (Z.to_nat n + 16 * length args) - nb (Z.to_nat n) + blocks_of args ≤ 1000 →
  ∃ s', add_files 1 args s = Ret tt s' ∧ files_added s args s'.
Proof using Hw.
  revert s. induction args as [|a args IH]; intros s n Hi Hge Hle Hargs Hn Hfree.
  { exists s. split; [done|]. by apply files_added_nil. }
  apply Forall_cons in Hargs as [Ha Hargs]. cbn [length blocks_of add_files] in *. pose proof (blocks_pos args) as Hpos.
  pose proof (fi_size _ _ (iv_file _ Hi 1 ltac:(lia))) as Hsz. fold n in Hsz.
  pose proof (nb_mono (Z.to_nat n + 16) (Z.to_nat n + 16 * S (length args)) ltac:(lia)) as Hmono.
  destruct (add_file_ok s a Hi) as (s1 & R1 & F1); try (fold n; done || lia). mrun R1. pose proof F1 as [A1 A2 A3 A4 _ _ _ _ _].
  cbn [length blocks_of] in *. fold n in A3, A4.
  destruct (IH s1 A1) as (s2 & R2 & F2); try lia; [done|..].
  - rewrite A3, A4. replace (Z.to_nat (n + 16 * Z.of_nat 1) + 16 * length args)%nat with (Z.to_nat n + 16 * S (length args))%nat by lia.
    replace (Z.to_nat (n + 16 * Z.of_nat 1)) with (Z.to_nat n + 16 * 1)%nat by lia. lia.
  - exists s2. split; [done|]. by eapply files_added_cons.
Qed.

(** ** Formatting *)

(** The state after the loop that zeroes the image. *)
Definition zeroed (n : Z) (s : mkfs) : Prop :=
  mk_sb s = the_sb ∧ mk_freeinode s = 1 ∧ mk_freeblock s = 59 ∧ ∀ b, mk_img s !! b = if decide (0 ≤ b < n) then Some zero_block else None.

Lemma zero_loop_ok s : zeroed 0 s → ∃ s', for_ (Z.to_nat FSSIZE) 0 (λ i, wsect i zero_block) s = Ret tt s' ∧ zeroed 1000 s'.
Proof using Hw.
  intros Hs. destruct (for_inv zeroed (λ i, wsect i zero_block) (Z.to_nat FSSIZE) 0) with s as ([] & s' & R & Hz); [|done|by exists s'].
  intros i Hi t (H1 & H2 & H3 & H4). change (0 + Z.of_nat (Z.to_nat FSSIZE)) with 1000 in Hi.
  exists tt, (upd_mk_img <[i := zero_block]> t). split; [by apply wsect_run|]. split; [done|]. split; [done|]. split; [done|].
  intros b. simpl. destruct (decide (i = b)) as [->|Hne].
  - by rewrite lookup_insert_eq, decide_True by lia.
  - rewrite lookup_insert_ne, H4 by done. repeat case_decide; done || lia.
Qed.

Lemma formatted_ok s : zeroed 1000 s → ∃ s', wsect 1 (super_block the_sb) s = Ret tt s' ∧ inv s' ∧ mk_freeinode s' = 1 ∧ mk_freeblock s' = 59.
Proof using Hw.
  intros (H1 & H2 & H3 & H4). exists (upd_mk_img <[1 := super_block the_sb]> s). split; [by apply wsect_run|].
  assert (∀ b, vw s b = zero_block) as Hz by (intros b; unfold vw; rewrite H4; by case_decide).
  split; [|done]. split; simpl; try (rewrite ?H2; done || lia).
  - apply core_write; [|rewrite H3; lia|done]. split; rewrite ?H3; try done || lia.
    + intros b Hb. by rewrite Hz, H4, decide_True.
    + intros b. by rewrite Hz.
  - rewrite gv_write, fn_lookup_insert by done. by vm_compute.
Qed.

(** ** The size of the root directory *)

Lemma round_blocks n bn : (n mod 512 ≠ 0)%nat → (bn * 512 < n)%nat ↔ (bn * 512 < (n / 512 + 1) * 512)%nat.
Proof using. intros Hn. pose proof (Nat.div_mod n 512 ltac:(lia)). pose proof (Nat.mod_upper_bound n 512 ltac:(lia)). nia. Qed.

(** Rounding the size of inode [i] up to the end of its last block. *)
Lemma round_size_ok s i :
  let n := Z.to_nat (i_size (ino (gv s) i)) in let m := Z.of_nat ((n / 512 + 1) * 512) in
  inv s → 1 ≤ i < mk_freeinode s → (n mod 512 ≠ 0)%nat →
  ∃ s', winode i (wr32 (din_of (gv s) i) 8 m) s = Ret tt s' ∧ inv s' ∧ mk_freeinode s' = mk_freeinode s ∧ mk_freeblock s' = mk_freeblock s ∧
    i_type (ino (gv s') i) = i_type (ino (gv s) i) ∧ i_nlink (ino (gv s') i) = i_nlink (ino (gv s) i) ∧
    bytes_of s' i = bytes_of s i ++ replicate (512 - n mod 512) 0 ∧
    ∀ j, 1 ≤ j < mk_freeinode s → j ≠ i → ino (gv s') j = ino (gv s) j ∧ bytes_of s' j = bytes_of s j.
Proof using Hw.
  intros n m Hi Hr Hn. pose proof (iv_count _ Hi) as Hcnt. pose proof (iv_core _ Hi) as Hc. pose proof (iv_file _ Hi i Hr) as [F1 F2 F3 F4 F5].
  fold n in F4, F5. assert (is_inum i) as Hin by (unfold is_inum; lia). pose proof (length_din (gv s) i (gv_sized s Hc) Hin) as Hl.
  destruct (winode_ok Hw s i (wr32 (din_of (gv s) i) 8 m) Hc Hin) as (s' & R & W); [by rewrite length_wr32 by lia|].
  exists s'. split; [done|]. pose proof W as [D1 D2 D3 D4 D5 D6 D7].
  pose proof (Nat.div_mod n 512 ltac:(lia)) as Hdm. pose proof (Nat.mod_upper_bound n 512 ltac:(lia)) as Hub.
  assert (n / 512 < 140)%nat as Hb by (apply Nat.Div0.div_lt_upper_bound; lia).
  assert (i_addrs (ino (gv s') i) = i_addrs (ino (gv s) i)) as Ea by (rewrite !addrs_ino, D4; by apply wr32_addrs).
  assert (i_size (ino (gv s') i) = m) as Es.
  { rewrite size_ino, D4. unfold din_size. rewrite rd32_wr32_eq by lia. apply u32_small. unfold two32. lia. }
  assert (i_type (ino (gv s') i) = i_type (ino (gv s) i)) as Et by (by rewrite !type_ino, D4, wr32_field by (done || lia)).
  destruct (file_frame the_sb (gv s) (gv s') _ F3 (inode_written_frame s i _ s' _ Hc W F3)) as (E1 & E2 & E3).
  destruct (inv_step s s' i Hi D1 D7) as [Hi2 Hoth].
  - by rewrite D3.
  - intros j. rewrite D3. destruct (decide (j = i)); [by left|by right].
  - split; rewrite ?Ea, ?Es, ?Et; unfold m; rewrite ?Nat2Z.id; try done || lia.
    + destruct F4 as [T1 T2]. split.
      * intros bn Hbn. rewrite E1 by (by apply pos_slot). rewrite T1 by done. by apply round_blocks.
      * rewrite E1, T2 by (unfold nslots; lia). by apply round_blocks.
    + intros k Hk [Hkr Hm]. rewrite E1 in Hm by (by apply pos_slot, Nat.Div0.div_lt_upper_bound).
      rewrite (proj2 (E3 k (conj Hkr Hm))). apply F5; [lia|done].
  - intros j Hj Hne. split; [apply D5; unfold is_inum; lia|]. split.
    + exact (inode_written_frame s i _ s' _ Hc W (fi_slots _ _ (iv_file _ Hi j Hj))).
    + rewrite Ea. intros c Hc1 Hc2. apply (iv_disj _ Hi i j Hr Hj (not_eq_sym Hne) c); [by apply (is_slot_ext _ _ _ _ E1)|done].
  - split; [done|]. split; [done|]. split; [done|]. split; [done|].
    split; [by rewrite !nlink_ino, D4, wr32_field by (done || lia)|]. split; [|done].
    unfold bytes_of, contents, content. rewrite Ea, Es. fold n. unfold m. rewrite Nat2Z.id.
    replace ((n / 512 + 1) * 512)%nat with (n + (512 - n mod 512))%nat by lia. rewrite seq_app, fmap_app. f_equal.
    + apply list_fmap_ext. intros ? k [-> Hk]%lookup_seq. apply E3. eapply tight_mapped; [exact F4|lia|lia].
    + symmetry. apply replicate_as_elem_of. split; [by rewrite length_fmap, length_seq|]. intros x (k & -> & Hk%elem_of_seq)%list_elem_of_fmap.
      assert (mapped (gv s) (i_addrs (ino (gv s) i)) k) as Hm.
      { split; [lia|]. apply F4; [apply Nat.Div0.div_lt_upper_bound; lia|]. apply round_blocks; [done|].
        assert (k / 512 < n / 512 + 1)%nat by (apply Nat.Div0.div_lt_upper_bound; lia). nia. }
      rewrite (proj2 (E3 k Hm)). by apply F5; [lia|].
Qed.

(** ** [main] *)

(** The image holds the files [args] and a root directory that lists them. *)
Record image (v : Z → list Z) (args : list (list Z)) : Prop := MkImage {
  im_super : superblock_of (v 1) = the_sb;
  im_fs : fs_ok the_sb v;
  im_used b : 0 ≤ b < 1000 → used the_sb v b = (b <? 59 + nb (16 * (2 + length args)) + blocks_of args);
  im_inode i : 1 ≤ i < 2 + Z.of_nat (length args) → inode_ok the_sb v (ino v i);
  im_disj i j : 1 ≤ i < 2 + Z.of_nat (length args) → 1 ≤ j < 2 + Z.of_nat (length args) → i ≠ j →
    disjoint_files v (i_addrs (ino v i)) (i_addrs (ino v j));
  im_root : i_type (ino v 1) = T_DIR ∧ i_nlink (ino v 1) = 1 ∧
    contents v (ino v 1) = dots ++ entries 2 args ++ replicate (512 - 16 * (2 + length args) mod 512) 0;
  im_file k a : args !! k = Some a →
    let x := ino v (2 + Z.of_nat k) in i_type x = T_FILE ∧ i_nlink x = 1 ∧ contents v x = data_of a;
}.

(** Everything fits: 200 inodes and 941 blocks. *)
Definition fits (args : list (list Z)) : Prop :=
  Forall arg_ok args ∧ (length args ≤ 198)%nat ∧ nb (16 * (2 + length args)) + blocks_of args ≤ 941.

(** [balloc] writes the bitmap. *)
Lemma mkfs_balloc_ok s : core s → ∃ s', balloc (mk_freeblock s) s = Ret tt s' ∧ ∀ b, vw s' b = gv s b.
Proof using Hw.
  intros Hc. pose proof (co_free _ Hc). unfold balloc, assert_. rewrite (proj2 (Z.ltb_lt (mk_freeblock s) (BSIZE * 8))) by (unfold BSIZE; lia). rewrite bind_ret. cbv zeta.
  rewrite bind_gets, (co_sb _ Hc). change (sb_bmapstart the_sb) with 58. rewrite (wsect_run Hw) by lia. eexists. split; [done|].
  intros b. by rewrite vw_insert.
Qed.

(** The root directory with its first two entries. *)
Record rooted (s : mkfs) : Prop := MkRooted {
  ro_inv : inv s;
  ro_inode : mk_freeinode s = 2;
  ro_free : mk_freeblock s = 60;
  ro_type : i_type (ino (gv s) 1) = T_DIR;
  ro_nlink : i_nlink (ino (gv s) 1) = 1;
  ro_size : i_size (ino (gv s) 1) = 32;
  ro_bytes : bytes_of s 1 = dots;
}.

Lemma root_ok s :
  inv s → mk_freeinode s = 1 → mk_freeblock s = 59 →
  ∃ s', (∀ A (k : Z → MK A), (rootino ← ialloc T_DIR; assert_ (rootino =? ROOTINO);;
      iappend rootino (dirent rootino (name_cpy (chars ".")));; iappend rootino (dirent rootino (name_cpy (chars "..")));; k rootino) s = k 1 s') ∧
    rooted s'.
Proof using Hw.
  intros Hi H1 H2. destruct (ialloc_ok Hw s T_DIR Hi (or_introl eq_refl) ltac:(lia)) as (s1 & R1 & [L1 L2 L3 L4 L5 L6 L7]). rewrite H1 in *.
  destruct (iappend_ok Hw s1 1 (dirent 1 (name_cpy (chars "."))) L1) as (s2 & R2 & [A1 A2 A3 A4 A5 A6 A7 A8]);
    [rewrite L2; lia|by rewrite L6|by rewrite L3, L6, H2|].
  rewrite L6, L3, H2, L2 in *. change (mk_freeblock s2 = 60) in A3. change (i_size (ino (gv s2) 1) = 16) in A4.
  destruct (iappend_ok Hw s2 1 (dirent 1 (name_cpy (chars ".."))) A1) as (s3 & R3 & [B1 B2 B3 B4 B5 B6 B7 B8]);
    [rewrite A2; lia|by rewrite A4|by rewrite A3, A4|].
  rewrite A3, A4 in *. exists s3. split.
  { intros A k. mrun R1. change (assert_ (1 =? ROOTINO)) with (mret tt : MK unit). rewrite bind_ret. mrun R2. by mrun R3. }
  split; try congruence; [by rewrite B2, A2|by rewrite B3|by rewrite B4|]. rewrite B5, A5. unfold bytes_of at 1, contents. by rewrite L6.
Qed.

(** The view of the finished image is the one the proofs use. *)
Lemma image_view s args v :
  inv s → (∀ b, v b = gv s b) → mk_freeinode s = 2 + Z.of_nat (length args) →
  mk_freeblock s = 59 + nb (16 * (2 + length args)) + blocks_of args →
  (i_type (ino (gv s) 1) = T_DIR ∧ i_nlink (ino (gv s) 1) = 1 ∧
    bytes_of s 1 = dots ++ entries 2 args ++ replicate (512 - 16 * (2 + length args) mod 512) 0) →
  (∀ k a, args !! k = Some a → let i := 2 + Z.of_nat k in
    i_type (ino (gv s) i) = T_FILE ∧ i_nlink (ino (gv s) i) = 1 ∧ bytes_of s i = data_of a) →
  image v args.
Proof using.
  intros Hi Ev Hn Hb Hroot Hfile. pose proof (iv_count _ Hi) as Hcnt. pose proof (gv_fs s (iv_core _ Hi)) as [Hsz Hu].
  assert (∀ i, ino v i = ino (gv s) i) as Ei by (intros i; apply ino_ext; unfold din_of; by rewrite Ev).
  assert (∀ b, used the_sb v b = used the_sb (gv s) b) as Eu by (intros b; unfold used; by rewrite Ev).
  assert (∀ i, 1 ≤ i < mk_freeinode s → file_ok v (ino (gv s) i) ∧ contents v (ino (gv s) i) = bytes_of s i ∧
    ∀ c, is_slot v (i_addrs (ino (gv s) i)) c ↔ is_slot (gv s) (i_addrs (ino (gv s) i)) c) as Hk.
  { intros i Hr. pose proof (iv_file _ Hi i Hr) as Hf. apply file_ok_frame; [done|]. intros c (Hc & k & Hk & <-).
    rewrite Ev, Eu. split; [done|]. by apply (so_data _ _ _ (fi_slots _ _ Hf)). }
  split.
  - rewrite Ev. by apply iv_super.
  - split; [intros b; by rewrite Ev|]. intros b Hr. rewrite Eu. by apply Hu.
  - intros b Hr. rewrite Eu, <-Hb. apply gv_used; [apply Hi|done].
  - intros i Hr. apply file_inode_ok; [lia|]. rewrite Ei. by apply Hk; rewrite Hn.
  - intros i j Hri Hrj Hne. rewrite !Ei. rewrite <-Hn in *. intros c H1%(proj2 (proj2 (Hk i Hri))) H2%(proj2 (proj2 (Hk j Hrj))).
    by apply (iv_disj _ Hi i j Hri Hrj Hne c).
  - rewrite Ei. by destruct (Hk 1 ltac:(lia)) as (_ & -> & _).
  - intros k a Ha. pose proof (lookup_lt_Some _ _ _ Ha). cbv zeta. rewrite Ei.
    destruct (Hk (2 + Z.of_nat k) ltac:(lia)) as (_ & -> & _). by apply Hfile.
Qed.

(** The last steps: the size of the root directory and the bitmap. *)
Lemma finish_ok s args s1 :
  rooted s → files_added s args s1 → ((2 + length args) mod 32 ≠ 0)%nat →
  ∃ s', (din ← rinode 1;
         let off := xint (din_size din) in
         let off := u32 ((off / BSIZE + 1) * BSIZE) in
         winode 1 (wr32 din 8 (xint off));;
         used ← gets mk_freeblock;
         balloc used) s1 = Ret tt s' ∧ image (vw s') args.
Proof using Hw.
  intros [G1 G2 G3 G4 G5 G6 G7] [F1 F2 F3 F4 F5 F6 F7 F8 F9] Hmod. rewrite G2, G4, G5, G6, G7 in *.
  pose proof (iv_core _ F1) as Hc. pose proof (iv_count _ F1) as Hcnt.
  assert (Z.to_nat (i_size (ino (gv s1) 1)) = (16 * (2 + length args))%nat) as En by (rewrite F4; lia).
  destruct (round_size_ok s1 1 F1 ltac:(lia)) as (s2 & R2 & I2 & N2 & B2 & T2 & L2 & C2 & O2).
  { rewrite En. replace 512%nat with (16 * 32)%nat by lia. rewrite Nat.Div0.mul_mod_distr_l. lia. }
  rewrite En in R2, C2. destruct (mkfs_balloc_ok s2 (iv_core _ I2)) as (s3 & R3 & E3). exists s3. split.
  - mrun (rinode_run s1 1 Hc ltac:(unfold is_inum; lia)). cbv zeta. rewrite <-size_ino, !xint_id. rewrite (u32_small (i_size _)) by (rewrite F4; unfold two32; lia).
    replace (u32 (u32 ((i_size (ino (gv s1) 1) / BSIZE + 1) * BSIZE))) with (Z.of_nat ((16 * (2 + length args) / 512 + 1) * 512)).
    { mrun R2. rewrite bind_gets. done. }
    rewrite F4. unfold BSIZE. replace (32 + 16 * Z.of_nat (length args)) with (Z.of_nat (16 * (2 + length args))) by lia.
    assert (16 * (2 + length args) / 512 < 10)%nat by (apply Nat.Div0.div_lt_upper_bound; lia).
    change 512 with (Z.of_nat 512). rewrite <-Nat2Z.inj_div.
    set (q := (16 * (2 + length args) / 512)%nat) in *. clearbody q.
    rewrite (u32_small ((Z.of_nat q + 1) * Z.of_nat 512)), u32_small; unfold is_u32, two32; lia.
  - rewrite <-En in C2. apply (image_view s2); try done.
    + by rewrite N2.
    + rewrite B2, F3, G3. change (nb (Z.to_nat 32)) with 1. change (Z.to_nat 32 + 16 * length args)%nat with (32 + 16 * length args)%nat.
      replace (32 + 16 * length args)%nat with (16 * (2 + length args))%nat by lia. lia.
    + rewrite T2, L2, C2, F6, F7, F5, En, <-app_assoc. done.
    + intros k a Hk. destruct (F8 k a Hk) as (H1 & H2 & H3). apply lookup_lt_Some in Hk. cbv zeta. destruct (O2 (2 + Z.of_nat k) ltac:(lia) ltac:(lia)) as [-> ->]. done.
Qed.

End main.

(** ** A small image *)
Module MkfsExample.
(** Two files, [README] with 600 bytes that two reads return, and [_sh] with 3. *)
Definition host : Host := {|
  host_open name :=
    if decide (name = chars "README") then Some [replicate 512 65; replicate 88 66]
    else if decide (name = chars "_sh") then Some [[1; 2; 3]] else None;
  host_creat _ := true;
  host_write _ := true |}.

Definition args : list (list Z) := [chars "README"; chars "_sh"].

End MkfsExample.
