(* ===== verification/Pipe.v ===== *)
(** Pipe: [pipe.c], on the page that [kalloc] gave the pipe.

    [struct pipe] starts with its lock (52 bytes), then [data], [nread],
    [nwrite], [readopen] and [writeopen] at fixed offsets. *)

From S2P Require Import Prelude Layout State Mem Spinlock Console Kalloc Sched.

Definition PIPESIZE : Z := 512.

Section pipe.
Context {KI : KernelImage} {ENV : Env}.

Definition o_data : Z := 52.
Definition o_nread : Z := 564.
Definition o_nwrite : Z := 568.
Definition o_readopen : Z := 572.
Definition o_writeopen : Z := 576.

Definition pget (p o : Z) : K Z := gets (λ s, ld32 (k_mem s) (p + o)).
Definition pset (p o v : Z) : K unit := modify (upd_k_mem (λ m, st32 m (p + o) v)).

Definition pipeclose (p : Z) (writable : bool) : K unit :=
  acquire (L_pipe p);;
  (if writable then
     pset p o_writeopen 0;;
     wakeup (Chan_nread p)
   else
     pset p o_readopen 0;;
     wakeup (Chan_nwrite p));;
  ro ← pget p o_readopen;
  wo ← pget p o_writeopen;
  if (ro =? 0) && (wo =? 0) then
    release (L_pipe p);;
    kfree p
  else release (L_pipe p).

(** [myproc()->killed] *)
Definition killed : K bool :=
  p ← myproc;
  pr ← proc_at p;
  mret (negb (p_killed pr =? 0)).

(** [while(p->nwrite == p->nread + PIPESIZE)]; false when [pipewrite] must
    return -1. *)
Fixpoint pipewrite_wait (n : nat) (p : Z) : K bool :=
  nr ← pget p o_nread;
  nw ← pget p o_nwrite;
  if nw =? u32 (nr + PIPESIZE) then
    ro ← pget p o_readopen;
    k ← (if ro =? 0 then mret true else killed);
    if (k : bool) then mret false else
    match n with
    | O => nofuel
    | S n =>
        wakeup (Chan_nread p);;
        sleep (Chan_nwrite p) (Some (L_pipe p));;
        pipewrite_wait n p
    end
  else mret true.

(** [for(i = 0; i < n; i++)]; false when [pipewrite] must return -1. *)
Fixpoint pipewrite_loop (p : Z) (addr : list Z) : K bool :=
  match addr with
  | [] => mret true
  | c :: addr =>
      ok ← pipewrite_wait env_turns p;
      if negb ok then mret false else
      nw ← pget p o_nwrite;
      pset p o_nwrite (nw + 1);;
      modify (upd_k_mem (λ m, stb m (p + o_data + nw mod PIPESIZE) c));;
      pipewrite_loop p addr
  end.

Definition pipewrite (p : Z) (addr : list Z) : K Z :=
  acquire (L_pipe p);;
  ok ← pipewrite_loop p addr;
  if negb ok then
    release (L_pipe p);;
    mret (-1)
  else
    wakeup (Chan_nread p);;
    release (L_pipe p);;
    mret (Z.of_nat (length addr)).

(** [while(p->nread == p->nwrite && p->writeopen)]; false when [piperead]
    must return -1. *)
Fixpoint piperead_wait (n : nat) (p : Z) : K bool :=
  nr ← pget p o_nread;
  nw ← pget p o_nwrite;
  wo ← pget p o_writeopen;
  if (nr =? nw) && negb (wo =? 0) then
    k ← killed;
    if (k : bool) then mret false else
    match n with
    | O => nofuel
    | S n =>
        sleep (Chan_nread p) (Some (L_pipe p));;
        piperead_wait n p
    end
  else mret true.

(** [for(i = 0; i < n; i++)]: the bytes stored at [addr] *)
Fixpoint piperead_loop (n : nat) (p : Z) (acc : list Z) : K (list Z) :=
  match n with
  | O => mret acc
  | S n =>
      nr ← pget p o_nread;
      nw ← pget p o_nwrite;
      if nr =? nw then mret acc else
      pset p o_nread (nr + 1);;
      c ← gets (λ s, ldb (k_mem s) (p + o_data + nr mod PIPESIZE));
      piperead_loop n p (acc ++ [c])
  end.

(** The return value and the bytes stored at [addr]. *)
Definition piperead (p n : Z) : K (Z * list Z) :=
  acquire (L_pipe p);;
  ok ← piperead_wait env_turns p;
  if negb ok then
    release (L_pipe p);;
    mret (-1, [])
  else
    bs ← piperead_loop (Z.to_nat n) p [];
    wakeup (Chan_nwrite p);;
    release (L_pipe p);;
    mret (Z.of_nat (length bs), bs).
End pipe.
