(* ===== verification/PipeSpec.v ===== *)
(** PipeSpec: a pipe is a queue of bytes.

    [pipe_at m p q]: the ring buffer of the pipe at [p] holds the bytes [q].
    Its indices count all bytes ever written and read modulo 2^32, and as 512
    divides 2^32 the positions stay consistent when they wrap around.  The
    theorem runs [pipewrite] against a reader that runs whenever the writer
    sleeps. *)
From S2P Require Import Prelude Layout State Mem Spinlock Console Kalloc Sched Sleeplock Ready Ports Disk Ide IdeSpec Pipe.

(** ** The ring buffer *)

Record pipe_at (m : gmap Z Z) (p : Z) (q : list Z) : Prop := MkPipeAt {
  pa_room : (length q ≤ 512)%nat;
  pa_nwrite : ld32 m (p + o_nwrite) = u32 (ld32 m (p + o_nread) + Z.of_nat (length q));
  pa_data i c : q !! i = Some c → ldb m (p + o_data + (ld32 m (p + o_nread) + Z.of_nat i) mod PIPESIZE) = c;
}.

Lemma u32_mod_512 x : u32 x mod 512 = x mod 512.
Proof. unfold u32, two32. change 4294967296 with (8388608 * 512). rewrite Z.mul_comm. by rewrite Z.rem_mul_r, Z.mul_comm, Z_mod_plus_full, Z.mod_mod by lia. Qed.

Lemma u32_same x i j : 0 ≤ i ≤ 512 → 0 ≤ j ≤ 512 → u32 (x + i) = u32 (x + j) → i = j.
Proof. unfold u32, two32. intros Hi Hj E. pose proof (Z.div_mod (x + i) 4294967296). pose proof (Z.div_mod (x + j) 4294967296). lia. Qed.

Lemma pipe_full m p q : pipe_at m p q → (ld32 m (p + o_nwrite) =? u32 (ld32 m (p + o_nread) + PIPESIZE)) = bool_decide (length q = 512%nat).
Proof.
  intros [H1 H2 H3]. rewrite H2. unfold PIPESIZE. apply eq_true_iff_eq. rewrite Z.eqb_eq, bool_decide_eq_true.
  split; [intros E%u32_same; lia|intros ->; done].
Qed.

Lemma pipe_empty m p q : pipe_at m p q → (ld32 m (p + o_nread) =? ld32 m (p + o_nwrite)) = bool_decide (q = []).
Proof.
  intros [H1 H2 H3]. rewrite H2. apply eq_true_iff_eq. rewrite Z.eqb_eq, bool_decide_eq_true.
  rewrite <-(u32_small (ld32 m (p + o_nread))) at 1 by apply ld32_range. rewrite <-(Z.add_0_r (ld32 m (p + o_nread))) at 1.
  split; [intros E%u32_same; [|lia..]; apply nil_length_inv; lia|by intros ->].
Qed.

(** The bytes are apart from the other fields. *)
Lemma data_word p k o : p mod 4 = 0 → 0 ≤ k < 512 → o_nread ≤ o → word_of (p + o_data + k) ≠ p + o.
Proof. unfold word_of, o_data, o_nread. intros Hp Hk Ho. pose proof (Z.mod_pos_bound (p + 52 + k) 4). lia. Qed.

Lemma ldb_field m p k o v : p mod 4 = 0 → 0 ≤ k < 512 → o_nread ≤ o → ldb (st32 m (p + o) v) (p + o_data + k) = ldb m (p + o_data + k).
Proof. intros. apply ldb_same_word, ld32_st32_ne. apply not_eq_sym. by apply data_word. Qed.

Lemma pipe_push m p q c :
  p mod 4 = 0 → pipe_at m p q → (length q < 512)%nat → 0 ≤ c < 256 →
  let nw := ld32 m (p + o_nwrite) in
  pipe_at (stb (st32 m (p + o_nwrite) (nw + 1)) (p + o_data + nw mod PIPESIZE) c) p (q ++ [c]).
Proof.
  intros Hp [H1 H2 H3] Hq Hc nw. set (a := p + o_data + nw mod PIPESIZE). set (nr := ld32 m (p + o_nread)) in *.
  assert (nw mod PIPESIZE = (nr + Z.of_nat (length q)) mod 512) as Em by (unfold nw; rewrite H2; apply u32_mod_512).
  assert (∀ o, o_nread ≤ o → word_of a ≠ p + o) as Hw by (intros o; apply data_word; [done|apply Z.mod_pos_bound; done]).
  assert (ld32 (stb (st32 m (p + o_nwrite) (nw + 1)) a c) (p + o_nread) = nr) as Er.
  { rewrite stb_word_ne by (by apply Hw). apply ld32_st32_ne. unfold o_nwrite, o_nread. lia. }
  split.
  - rewrite length_app. simpl. lia.
  - rewrite Er, stb_word_ne by (by apply Hw). rewrite ld32_st32_eq. unfold nw. rewrite H2, length_app. simpl.
    rewrite u32_add_l. f_equal. lia.
  - rewrite Er. intros i x Hx. rewrite ldb_stb. apply lookup_app_Some in Hx as [Hx|[Hi Hx]].
    + pose proof (lookup_lt_Some _ _ _ Hx). rewrite decide_False; [rewrite ldb_field; [by apply H3|done|apply Z.mod_pos_bound; done|done]|].
      unfold a. rewrite Em. unfold PIPESIZE. intros E. apply Z.add_cancel_l in E.
      pose proof (Z.div_mod (nr + Z.of_nat (length q)) 512). pose proof (Z.div_mod (nr + Z.of_nat i) 512). lia.
    + apply list_lookup_singleton_Some in Hx as [Hi' ->]. assert (i = length q) as -> by lia.
      rewrite decide_True by (unfold a; by rewrite Em). unfold u8. by apply Z.mod_small.
Qed.

Lemma pipe_pop m p q c :
  p mod 4 = 0 → pipe_at m p (c :: q) →
  let nr := ld32 m (p + o_nread) in
  ldb (st32 m (p + o_nread) (nr + 1)) (p + o_data + nr mod PIPESIZE) = c ∧ pipe_at (st32 m (p + o_nread) (nr + 1)) p q.
Proof.
  intros Hp [H1 H2 H3] nr. fold nr in H2, H3. simpl in H1.
  assert (∀ x, ldb (st32 m (p + o_nread) (nr + 1)) (p + o_data + x mod PIPESIZE) = ldb m (p + o_data + x mod PIPESIZE)) as Ed.
  { intros x. by apply ldb_field; [|apply Z.mod_pos_bound|]. }
  split; [|split].
  - rewrite Ed. specialize (H3 0%nat c eq_refl). by rewrite Z.add_0_r in H3.
  - lia.
  - rewrite ld32_st32_ne by (unfold o_nwrite, o_nread; lia). rewrite ld32_st32_eq, H2, u32_add_l. f_equal. simpl. lia.
  - intros i x Hx. rewrite ld32_st32_eq, Ed. specialize (H3 (S i) x Hx). rewrite <-H3. do 2 f_equal. unfold PIPESIZE.
    rewrite <-Zplus_mod_idemp_l, u32_mod_512, Zplus_mod_idemp_l. f_equal. lia.
Qed.

Lemma pipe_at_field m p q o v : p mod 4 = 0 → o_nwrite < o → pipe_at m p q → pipe_at (st32 m (p + o) v) p q.
Proof.
  intros Hp Ho [H1 H2 H3]. unfold o_nwrite in Ho. split; [done|..]; rewrite !(ld32_st32_ne _ (p + o)) by (unfold o_nwrite, o_nread; lia); [done|].
  intros i x Hx. rewrite ldb_field; [by apply H3|done|by apply Z.mod_pos_bound|unfold o_nread; lia].
Qed.

(** ** Reading and writing without waiting *)

Section ops.
Context {ENV : Env}.

Lemma piperead_loop_ok n p : ∀ s q acc,
  p mod 4 = 0 → pipe_at (k_mem s) p q →
  ∃ s', piperead_loop n p acc s = Ret (acc ++ take n q) s' ∧ s' = upd_k_mem (λ _, k_mem s') s ∧ pipe_at (k_mem s') p (drop n q) ∧
    ∀ o, o_nwrite ≤ o → ld32 (k_mem s') (p + o) = ld32 (k_mem s) (p + o).
Proof.
  induction n as [|n IH]; intros s q acc Hp Hq; cbn [piperead_loop].
  { exists s. rewrite take_0, drop_0, app_nil_r. split; [done|]. split; [by apply kstate_eq|done]. }
  unfold pget at 1 2. rewrite !bind_gets, (pipe_empty _ _ _ Hq). destruct q as [|c q].
  { exists s. rewrite take_nil, drop_nil, app_nil_r. split; [done|]. split; [by apply kstate_eq|done]. }
  rewrite bool_decide_eq_false_2 by done. unfold pset. msteps. destruct (pipe_pop _ _ _ _ Hp Hq) as [Ec Hq'].
  set (s1 := upd_k_mem _ s). destruct (IH s1 q (acc ++ [c]) Hp Hq') as (s' & R & E & Hp' & Ho).
  exists s'. split; [|split; [|split]].
  - change (k_mem s1) with (st32 (k_mem s) (p + o_nread) (ld32 (k_mem s) (p + o_nread) + 1)). rewrite Ec, R, <-app_assoc. done.
  - rewrite E. by apply kstate_eq.
  - done.
  - intros o Hge. rewrite Ho by done. unfold s1. simpl. apply ld32_st32_ne. unfold o_nwrite, o_nread in *. lia.
Qed.

(** [piperead] on a pipe that is not empty, or that no one writes to any more. *)
Lemma piperead_ok p n s q :
  p mod 4 = 0 → cpu_wf (k_cpu s) → k_locks s = ∅ → pipe_at (k_mem s) p q → q ≠ [] ∨ ld32 (k_mem s) (p + o_writeopen) = 0 →
  ∃ m', let bs := take (Z.to_nat n) q in
    piperead p n s = Ret (Z.of_nat (length bs), bs) (upd_k_mem (λ _, m') (upd_k_procs (map (wake (Some (Chan_nwrite p)))) (sync s))) ∧
    pipe_at m' p (drop (Z.to_nat n) q) ∧ ∀ o, o_nwrite ≤ o → ld32 m' (p + o) = ld32 (k_mem s) (p + o).
Proof.
  intros Hp Hwf Hl Hq Hne.
  destruct (piperead_loop_ok (Z.to_nat n) p (locked (L_pipe p) s) q [] Hp Hq) as (s1 & R1 & E1 & Hq1 & Ho1). exists (k_mem s1).
  split; [|done]. unfold piperead. mrun (acquire_ok (L_pipe p) s ltac:(by rewrite Hl)).
  assert (piperead_wait env_turns p (locked (L_pipe p) s) = Ret true (locked (L_pipe p) s)) as Rw.
  { destruct env_turns; cbn [piperead_wait]; unfold pget; rewrite !bind_gets, (pipe_empty _ _ q) by done.
    all: destruct Hne as [Hne|Hne]; [by rewrite bool_decide_eq_false_2|]; change (k_mem (locked (L_pipe p) s)) with (k_mem s);
      rewrite Hne; by rewrite andb_false_r. }
  mrun Rw. cbn [negb]. mrun R1. rewrite E1.
  erewrite bind_Ret; [|apply wakeup_ok; [by apply push_wf|simpl; rewrite Hl; by rewrite lookup_insert_ne]]. cbn beta.
  erewrite bind_Ret; [|apply (release_ok _ _ (k_cpu s)); [done|simpl; by apply cpu_sync_push|simpl; apply lookup_insert_eq]].
  cbn beta. unfold mret, M_ret. f_equal. apply kstate_eq; try reflexivity. simpl. rewrite Hl. by rewrite delete_insert_eq, delete_empty.
Qed.

(** The two cases of the wait for room. *)
Lemma wait_room k p s q : pipe_at (k_mem s) p q → length q ≠ 512%nat → pipewrite_wait k p s = Ret true s.
Proof.
  intros Hq Hne. destruct k; cbn [pipewrite_wait]; unfold pget; rewrite !bind_gets, (pipe_full _ _ _ Hq).
  all: by rewrite bool_decide_eq_false_2.
Qed.

Lemma wait_full k p s q :
  pipe_at (k_mem s) p q → length q = 512%nat → ld32 (k_mem s) (p + o_readopen) ≠ 0 → killed s = Ret false s →
  pipewrite_wait (S k) p s = (wakeup (Chan_nread p);; sleep (Chan_nwrite p) (Some (L_pipe p));; pipewrite_wait k p) s.
Proof.
  intros Hq He Ho Hk. cbn [pipewrite_wait]. unfold pget. rewrite !bind_gets, (pipe_full _ _ _ Hq), bool_decide_eq_true_2 by done.
  rewrite bind_gets, (proj2 (Z.eqb_neq _ _)) by done. by mrun Hk.
Qed.
End ops.

(** ** A writer and a reader *)

(** Process [r] runs while the writer sleeps: it reads up to [n] bytes from
    the pipe and shows them on the console.  It never has to wait itself. *)
Definition alone : Env := {| env_resume _ := None; env_run _ _ := None; env_turns := 0 |}.

Definition reader (p n : Z) : K unit :=
  r ← @piperead alone p n;
  modify (upd_k_console (λ l, l ++ r.2)).

Definition turn (r : nat) (s : kstate) : kstate := upd_k_cpu (upd_c_proc (λ _, Some r)) (away s).

Definition reader_env (p : Z) (r : nat) (n : Z) : Env := {|
  env_resume s :=
    match reader p n (turn r s), c_proc (k_cpu s) with
    | Ret _ s', Some w =>
        pr ← k_procs s' !! w;
        if bool_decide (p_state pr = RUNNABLE) then Some (resumed w s s') else None
    | _, _ => None
    end;
  env_run _ _ := None;
  env_turns := 1;
|}.

Section stream.
Context {KI : KernelImage} (p : Z) (r w : nat) (n : Z) (c : cpu).
Context (Hp : p mod 4 = 0) (Hn : 0 < n) (Hwf : cpu_wf c) (H0 : c_ncli c = 0) (Hw : c_proc c = Some w).
#[local] Instance the_env : Env := reader_env p r n.

(** The writer inside [pipewrite], with [q] in the pipe. *)
Record writing (s : kstate) (q : list Z) : Prop := MkWriting {
  wr_cpu : k_cpu s = push c;
  wr_locks : k_locks s = {[L_pipe p := c_id c]};
  wr_proc : ∃ pr, k_procs s !! w = Some pr ∧ p_state pr = RUNNING ∧ p_killed pr = 0;
  wr_pipe : pipe_at (k_mem s) p q;
  wr_open : ld32 (k_mem s) (p + o_readopen) ≠ 0;
}.

Lemma wake_running ch pr : p_state pr = RUNNING → wake ch pr = pr.
Proof using. intros H. unfold wake. by rewrite H. Qed.

Lemma wakeup_writing ch s q :
  writing s q → ∃ s', wakeup ch s = Ret tt s' ∧ writing s' q ∧ k_mem s' = k_mem s ∧ k_console s' = k_console s.
Proof using Hwf.
  intros [W1 W2 (pr & W3 & W4 & W5) W6 W7]. eexists. split; [apply wakeup_ok; [rewrite W1; by apply push_wf|by rewrite W2]|].
  split; [split|split]; try done.
  - simpl. rewrite W1. by apply cpu_sync_push.
  - exists pr. split; [|done]. simpl. rewrite list_lookup_fmap, W3. simpl. by rewrite wake_running.
Qed.

(** The reader's turn. *)
Lemma resume_reads s q :
  writing s q → q ≠ [] →
  ∃ s', env_resume (asleep (Chan_nwrite p) (L_pipe p) w c s) = Some s' ∧ k_cpu s' = push c ∧ k_locks s' = {[L_ptable := c_id c]} ∧
    (∃ pr, k_procs s' !! w = Some pr ∧ p_state pr = RUNNING ∧ p_killed pr = 0) ∧ pipe_at (k_mem s') p (drop (Z.to_nat n) q) ∧
    ld32 (k_mem s') (p + o_readopen) ≠ 0 ∧ k_console s' = k_console s ++ take (Z.to_nat n) q.
Proof using Hp Hwf Hw.
  intros [W1 W2 (pr & W3 & W4 & W5) W6 W7] Hq. set (s2 := asleep _ _ w c s).
  pose proof (asleep_locks (Chan_nwrite p) (L_pipe p) w c s W1 ltac:(done) W2 : k_locks s2 = _) as Hl2.
  set (f := upd_p_state (λ _, SLEEPING) (upd_p_chan (λ _, Some (Chan_nwrite p)) pr)).
  assert (k_procs s2 !! w = Some f) as Hpr2 by (simpl; by rewrite !list_lookup_alter_eq, W3).
  destruct (@piperead_ok alone p n (turn r s2) q) as (m' & R & Q & O); [done| | |exact W6|by left|].
  { destruct Hwf. split; simpl; lia. }
  { change (delete L_ptable (k_locks s2) = ∅). by rewrite Hl2, delete_singleton_eq. }
  assert (wake (Some (Chan_nwrite p)) f = upd_p_state (λ _, RUNNABLE) f) as Ew by (unfold wake; by rewrite !bool_decide_eq_true_2).
  eexists. split; [|split_and!].
  - unfold env_resume, the_env, reader_env, reader. rewrite (bind_Ret _ _ _ _ _ R). change (c_proc (k_cpu s2)) with (c_proc c). rewrite Hw.
    unfold modify. cbn [k_procs upd_k_console upd_k_mem upd_k_procs sync upd_k_cpu turn away upd_k_locks]. 
    rewrite list_lookup_fmap, Hpr2. cbn [fmap option_fmap option_map mbind option_bind]. rewrite Ew, bool_decide_eq_true_2 by done. reflexivity.
  - done.
  - exact Hl2.
  - eexists. split; [|split]; [simpl; rewrite list_lookup_alter_eq, list_lookup_fmap; change (alter _ _ (alter _ _ _)) with (k_procs s2); rewrite Hpr2; simpl; by rewrite Ew| |]; done.
  - exact Q.
  - change (ld32 m' (p + o_readopen) ≠ 0). by rewrite O.
  - done.
Qed.

Lemma killed_writing s q : writing s q → killed s = Ret false s.
Proof using Hwf Hw.
  intros [W1 W2 (pr & W3 & W4 & W5) W6 W7]. unfold killed. mrun (myproc_pushed s c Hwf W1). unfold proc_at.
  rewrite (bind_deref _ _ _ pr) by (by rewrite Hw). by rewrite W5.
Qed.

(** Waiting for room. *)
Lemma pipewrite_wait_ok s q :
  writing s q →
  ∃ s' k, pipewrite_wait env_turns p s = Ret true s' ∧ writing s' (drop k q) ∧ (length (drop k q) < 512)%nat ∧
    k_console s' = k_console s ++ take k q.
Proof using Hp Hn Hwf H0 Hw.
  intros W. pose proof W as [W1 W2 W3 W4 W5]. pose proof (pa_room _ _ _ W4) as Hroom.
  destruct (decide (length q = 512%nat)) as [Hq|Hq]; cycle 1.
  { exists s, 0%nat. rewrite (wait_room _ _ _ q), drop_0, take_0, app_nil_r by done. split_and!; (done || lia). }
  change env_turns with 1%nat. rewrite (wait_full 0 p s q W4 Hq W5 (killed_writing s q W)).
  destruct (wakeup_writing (Chan_nread p) s q W) as (s1 & Rk & Wk & Mk & Kk). mrun Rk.
  destruct (resume_reads s1 q Wk) as (s2 & R2 & C2 & L2 & P2 & Q2 & O2 & K2); [by intros ->|].
  destruct (wr_proc _ _ Wk) as (pr & Hpr & _).
  pose proof (sleep_ok (Chan_nwrite p) (L_pipe p) s1 s2 c w pr Hwf H0 (wr_cpu _ _ Wk) ltac:(done) (wr_locks _ _ Wk) Hw Hpr R2 C2 L2) as Rs.
  mrun Rs. set (s3 := awake _ w c s2).
  assert (writing s3 (drop (Z.to_nat n) q)) as W3'.
  { split.
    - by apply push_sync.
    - simpl. by rewrite L2, delete_singleton_eq, insert_empty.
    - destruct P2 as (pr2 & A1 & A2 & A3). exists (upd_p_chan (λ _, None) pr2). split; [simpl; by rewrite list_lookup_alter_eq, A1|done].
    - done.
    - done. }
  exists s3, (Z.to_nat n). rewrite (wait_room _ _ _ _ (wr_pipe _ _ W3')) by (rewrite length_drop; lia).
  split_and!; [done|done|rewrite length_drop; lia|]. rewrite <-Kk. done.
Qed.

Lemma pipewrite_loop_ok addr : ∀ s q,
  writing s q → Forall (λ x, 0 ≤ x < 256) addr →
  ∃ s' q' shown, pipewrite_loop p addr s = Ret true s' ∧ writing s' q' ∧ k_console s' = k_console s ++ shown ∧ shown ++ q' = q ++ addr.
Proof using Hp Hn Hwf H0 Hw.
  induction addr as [|x addr IH]; intros s q W Ha; cbn [pipewrite_loop].
  { exists s, q, []. by rewrite !app_nil_r. }
  apply Forall_cons in Ha as [Hx Ha]. destruct (pipewrite_wait_ok s q W) as (s1 & k & R1 & W1 & Hroom & K1). mrun R1. cbn [negb].
  unfold pget, pset. msteps. set (s2 := upd_k_mem _ (upd_k_mem _ s1)).
  assert (writing s2 (drop k q ++ [x])) as W2.
  { destruct W1 as [A1 A2 A3 A4 A5]. split; try done; [by apply pipe_push|]. unfold s2. simpl.
    rewrite stb_word_ne, ld32_st32_ne; [done|unfold o_readopen, o_nwrite; lia|]. apply data_word; [done|by apply Z.mod_pos_bound|done]. }
  destruct (IH s2 _ W2 Ha) as (s' & q' & shown & R & W' & K & E). exists s', q', (take k q ++ shown).
  split; [exact R|]. split; [done|]. split; [rewrite K; change (k_console s2) with (k_console s1); by rewrite K1, app_assoc|].
  rewrite <-!app_assoc, E, <-app_assoc, app_assoc, take_drop. done.
Qed.

(** The writer outside [pipewrite]. *)
Record outside (s : kstate) (q : list Z) : Prop := MkOutside {
  ou_cpu : k_cpu s = c;
  ou_locks : k_locks s = ∅;
  ou_proc : ∃ pr, k_procs s !! w = Some pr ∧ p_state pr = RUNNING ∧ p_killed pr = 0;
  ou_pipe : pipe_at (k_mem s) p q;
  ou_open : ld32 (k_mem s) (p + o_readopen) ≠ 0;
}.

Lemma enter s q : outside s q → acquire (L_pipe p) s = Ret tt (locked (L_pipe p) s) ∧ writing (locked (L_pipe p) s) q.
Proof using.
  intros [W1 W2 W3 W4 W5]. split; [apply acquire_ok; by rewrite W2|]. split; try done; simpl; [by rewrite W1|by rewrite W2, W1].
Qed.

Lemma leave s q :
  cpu_sync c = c → writing s q → ∃ s', release (L_pipe p) s = Ret tt s' ∧ outside s' q ∧ k_mem s' = k_mem s ∧ k_console s' = k_console s.
Proof using Hwf.
  intros Hsy [W1 W2 W3 W4 W5]. eexists. split; [apply (release_ok _ _ c); [done|done|rewrite W2; apply lookup_singleton_eq]|].
  split; [split|split]; try done. simpl. by rewrite W2, delete_singleton_eq.
Qed.

Lemma pipewrite_ok addr s q :
  cpu_sync c = c → outside s q → Forall (λ x, 0 ≤ x < 256) addr →
  ∃ s' q' shown, pipewrite p addr s = Ret (Z.of_nat (length addr)) s' ∧ outside s' q' ∧ k_console s' = k_console s ++ shown ∧
    shown ++ q' = q ++ addr.
Proof using Hp Hn Hwf H0 Hw.
  intros Hsy O Ha. destruct (enter s q O) as [R1 W1]. destruct (pipewrite_loop_ok addr _ q W1 Ha) as (s2 & q' & shown & R2 & W2 & K2 & E2).
  destruct (wakeup_writing (Chan_nread p) s2 q' W2) as (s3 & R3 & W3 & _ & K3). destruct (leave s3 q' Hsy W3) as (s4 & R4 & O4 & _ & K4).
  exists s4, q', shown. split; [unfold pipewrite; mrun R1; mrun R2; cbn [negb]; mrun R3; by mrun R4|]. split; [done|]. split; [by rewrite K4, K3|done].
Qed.

(** Closing the write end while the read end is open. *)
Lemma pipeclose_ok s q :
  cpu_sync c = c → outside s q →
  ∃ s', pipeclose p true s = Ret tt s' ∧ outside s' q ∧ ld32 (k_mem s') (p + o_writeopen) = 0 ∧ k_console s' = k_console s.
Proof using Hp Hwf.
  intros Hsy O. destruct (enter s q O) as [R1 W1]. unfold pipeclose. mrun R1. unfold pset, pget. rewrite bind_bind, bind_modify.
  set (s1 := upd_k_mem (λ m, st32 m (p + o_writeopen) 0) (locked (L_pipe p) s)).
  assert (writing s1 q) as W2.
  { destruct W1 as [A1 A2 A3 A4 A5]. split; try done; simpl.
    - by apply pipe_at_field.
    - rewrite ld32_st32_ne; [done|unfold o_writeopen, o_readopen; lia]. }
  destruct (wakeup_writing (Chan_nread p) s1 q W2) as (s2 & R2 & W3 & M2 & K2). destruct (leave s2 q Hsy W3) as (s3 & R3 & O3 & M3 & K3).
  mrun R2. rewrite !bind_gets, (proj2 (Z.eqb_neq _ _)) by apply W3. cbn [andb]. exists s3. split; [done|]. split; [done|].
  rewrite M3, M2, K3, K2. split; [unfold s1; simpl; by rewrite ld32_st32_eq|done].
Qed.

(** [piperead] by the process itself. *)
Lemma last_read k s q :
  cpu_sync c = c → outside s q → ld32 (k_mem s) (p + o_writeopen) = 0 →
  ∃ s', let bs := take (Z.to_nat k) q in
    piperead p k s = Ret (Z.of_nat (length bs), bs) s' ∧ outside s' (drop (Z.to_nat k) q) ∧ ld32 (k_mem s') (p + o_writeopen) = 0 ∧
    k_console s' = k_console s.
Proof using Hp Hwf.
  intros Hsy [O1 O2 (pr & O3 & O4 & O5) O6 O7] Hz. destruct (piperead_ok p k s q Hp) as (m' & R & Q & F); [by rewrite O1|done|done|by right|].
  eexists. cbv zeta in *. split; [exact R|]. split; [split|split]; try done; simpl.
  - by rewrite O1.
  - exists pr. split; [|done]. rewrite list_lookup_fmap, O3. simpl. by rewrite wake_running.
  - by rewrite F.
  - by rewrite F.
Qed.

End stream.

(** C8.  A pipe carries the bytes of its writer to its reader, each once and
    in order, however many there are.  The writer writes [addr] to a pipe
    that holds [q], sleeping whenever the ring buffer is full; process [r]
    then reads up to [n] bytes at a time and shows them on the console; the
    writer closes its end, and the rest is read.  The write returns the
    number of its bytes; what was shown followed by what the last read
    returned is [q] followed by [addr]; the next read reports the end of the
    stream.  The indices of the buffer may wrap around at 2^32. *)
Theorem pipe_carries_stream `{KI : KernelImage} p r n s w pr q addr :
  p mod 4 = 0 → 0 < n → idle s w pr → p_state pr = RUNNING → p_killed pr = 0 →
  pipe_at (k_mem s) p q → ld32 (k_mem s) (p + o_readopen) ≠ 0 → Forall (λ x, 0 ≤ x < 256) addr →
  let ENV := reader_env p r n in
  ∃ s' rest,
    (i ← pipewrite p addr;
     pipeclose p true;;
     last ← piperead p PIPESIZE;
     eof ← piperead p PIPESIZE;
     mret (i, last, eof)) s = Ret (Z.of_nat (length addr), (Z.of_nat (length rest), rest), (0, [])) s' ∧
    ∃ shown, k_console s' = k_console s ++ shown ∧ shown ++ rest = q ++ addr.
Proof.
  intros Hp Hn [I1 I2 I3 I4 I5 I6] Hr Hk Hq Ho Ha ENV.
  assert (outside p w (k_cpu s) s q) as O by (split; try done; by exists pr).
  destruct (pipewrite_ok p r w n (k_cpu s) Hp Hn I1 I3 I5 addr s q I2 O Ha) as (s1 & rest & shown & R1 & O1 & K1 & E1). mrun R1.
  destruct (pipeclose_ok p w (k_cpu s) Hp I1 s1 rest I2 O1) as (s2 & R2 & O2 & Z2 & K2). mrun R2.
  pose proof (pa_room _ _ _ (ou_pipe _ _ _ _ _ O2)) as Hroom. unfold PIPESIZE.
  destruct (last_read p r w n (k_cpu s) Hp I1 512 s2 rest I2 O2 Z2) as (s3 & R3 & O3 & Z3 & K3). rewrite take_ge in R3 by (simpl; lia). mrun R3.
  rewrite drop_ge in O3 by (simpl; lia).
  destruct (last_read p r w n (k_cpu s) Hp I1 512 s3 [] I2 O3 Z3) as (s4 & R4 & O4 & Z4 & K4). mrun R4.
  exists s4, rest. split; [done|]. exists shown. split; [by rewrite K4, K3, K2|done].
Qed.

(** ** A pipe that wraps around *)
Module PipeExample.
(** The pipe at 0x80500000 is empty, 10 bytes before its indices wrap. *)
Definition pipe : Z := 0x80500000.
Definition mem : gmap Z Z :=
  {[ pipe + o_nread := 4294967286; pipe + o_nwrite := 4294967286; pipe + o_readopen := 1; pipe + o_writeopen := 1 ]}.

Definition writer : proc := upd_p_state (λ _, RUNNING) proc0.
Definition state : kstate :=
  upd_k_mem (λ _, mem) (upd_k_cpu (upd_c_proc (λ _, Some 0%nat)) (upd_k_procs (λ l, <[0%nat := writer]> l) bss)).

(** 1500 bytes, three times the size of the buffer; the reader takes 100 at a time. *)
Definition text : list Z := (λ i, Z.of_nat i mod 251) <$> seq 0 1500.

Lemma pipe_carries_stream_witness :
  let ENV := reader_env pipe 1 100 in let KI := kernel_sym in
  ∃ s' rest,
    (i ← pipewrite pipe text;
     pipeclose pipe true;;
     last ← piperead pipe PIPESIZE;
     eof ← piperead pipe PIPESIZE;
     mret (i, last, eof)) state = Ret (1500, (Z.of_nat (length rest), rest), (0, [])) s' ∧
    ∃ shown, k_console s' = [] ++ shown ∧ shown ++ rest = text.
Proof.
  apply (@pipe_carries_stream kernel_sym pipe 1 100 state 0 writer [] text).
  - done.
  - done.
  - split; try done; simpl; lia.
  - done.
  - done.
  - split; [simpl; lia|by vm_compute|done].
  - by vm_compute.
  - apply Forall_fmap, Forall_true. intros i. simpl. pose proof (Z.mod_pos_bound (Z.of_nat i) 251). lia.
Defined.
End PipeExample.
