(* ===== verification/File.v ===== *)
(** File: the open-file table of [file.c], and [pipealloc] of [pipe.c]. *)

From S2P Require Import Prelude Layout State Mem Spinlock Console Kalloc Sched Bytes Sleeplock Disk Bio Log Fs ConsoleDev Dir Pipe.

Section file.
Context {KI : KernelImage} {ENV : Env} {DRV : DiskDriver}.

Definition file_at (f : nat) : K file := deref (λ s, k_files s !! f).
Definition set_file (f : nat) (g : file → file) : K unit := modify (upd_k_files (alter g f)).

Definition fileinit : K unit := initlock L_ftable.

(** [for(f = ftable.file; f < ftable.file + NFILE; f++)] *)
Fixpoint file_scan (l : list file) (i : nat) : option nat :=
  match l with
  | [] => None
  | x :: l => if f_ref x =? 0 then Some i else file_scan l (S i)
  end.

Definition filealloc : K (option nat) :=
  acquire L_ftable;;
  r ← gets (λ s, file_scan (k_files s) 0);
  match r with
  | Some f =>
      set_file f (upd_f_ref (λ _, 1));;
      release L_ftable;;
      mret (Some f)
  | None =>
      release L_ftable;;
      mret None
  end.

Definition filedup (f : nat) : K nat :=
  acquire L_ftable;;
  x ← file_at f;
  if f_ref x <? 1 then panic "filedup" else
  set_file f (upd_f_ref (Z.add 1));;
  release L_ftable;;
  mret f.

Definition fileclose (f : nat) : K unit :=
  acquire L_ftable;;
  x ← file_at f;
  if f_ref x <? 1 then panic "fileclose" else
  set_file f (upd_f_ref (λ r, r - 1));;
  ff ← file_at f;
  if 0 <? f_ref ff then release L_ftable else
  set_file f (upd_f_ref (λ _, 0));;
  set_file f (upd_f_type (λ _, FD_NONE));;
  release L_ftable;;
  match f_type ff with
  | FD_PIPE => pipeclose (f_pipe ff) (f_writable ff)
  | FD_INODE =>
      begin_op;;
      ip ← lift (f_ip ff);
      iput ip;;
      end_op
  | FD_NONE => mret tt
  end.

(** The return value and what is stored at [st]. *)
Definition filestat (f : nat) : K (Z * option stat) :=
  x ← file_at f;
  match f_type x with
  | FD_INODE =>
      ilock (f_ip x);;
      ip ← lift (f_ip x);
      st ← stati ip;
      iunlock (f_ip x);;
      mret (0, Some st)
  | _ => mret (-1, None)
  end.

(** The return value and the bytes stored at [addr]. *)
Definition fileread (f : nat) (n : Z) : K (Z * list Z) :=
  x ← file_at f;
  if negb (f_readable x) then mret (-1, []) else
  match f_type x with
  | FD_PIPE => piperead (f_pipe x) n
  | FD_INODE =>
      ilock (f_ip x);;
      ip ← lift (f_ip x);
      x ← file_at f;
      '(r, bs) ← readi ip (f_off x) (u32 n);
      whenb (0 <? r) (set_file f (upd_f_off (λ o, u32 (o + r))));;
      iunlock (Some ip);;
      mret (r, bs)
  | FD_NONE => panic "fileread"
  end.

(** [max] of [filewrite] *)
Definition write_max : Z := (LOGSIZE - 1 - 1 - 2) / 2 * 512.

(** [while(i < n)]; [addr] holds the bytes from [addr + i] on, and the
    result is the final [i]. *)
Fixpoint filewrite_loop (fuel : nat) (f ip : nat) (i n : Z) (addr : list Z) : K Z :=
  if i <? n then
    match fuel with
    | O => nofuel
    | S fuel =>
        let n1 := n - i in
        let n1 := if write_max <? n1 then write_max else n1 in
        begin_op;;
        ilock (Some ip);;
        x ← file_at f;
        r ← writei ip (take (Z.to_nat n1) addr) (f_off x);
        whenb (0 <? r) (set_file f (upd_f_off (λ o, u32 (o + r))));;
        iunlock (Some ip);;
        end_op;;
        if r <? 0 then mret i else
        if negb (r =? n1) then panic "short filewrite" else
        filewrite_loop fuel f ip (i + r) n (drop (Z.to_nat r) addr)
    end
  else mret i.

Definition filewrite (f : nat) (addr : list Z) : K Z :=
  let n := Z.of_nat (length addr) in
  x ← file_at f;
  if negb (f_writable x) then mret (-1) else
  match f_type x with
  | FD_PIPE => pipewrite (f_pipe x) addr
  | FD_INODE =>
      ip ← lift (f_ip x);
      i ← filewrite_loop (Z.to_nat (n / write_max + 1)) f ip 0 n addr;
      mret (if i =? n then n else -1)
  | FD_NONE => panic "filewrite"
  end.

(** ** [pipealloc] *)

(** The code after the label [bad]; [p] is 0 on every jump to it. *)
Definition pipealloc_bad (f0 f1 : option nat) : K (option (nat * nat)) :=
  match f0 with Some f => fileclose f | None => mret tt end;;
  match f1 with Some f => fileclose f | None => mret tt end;;
  mret None.

(** [None] is the return value -1. *)
Definition pipealloc : K (option (nat * nat)) :=
  f0 ← filealloc;
  match f0 with
  | None => pipealloc_bad None None
  | Some a =>
      f1 ← filealloc;
      match f1 with
      | None => pipealloc_bad (Some a) None
      | Some b =>
          p ← kalloc;
          if p =? 0 then pipealloc_bad (Some a) (Some b) else
          pset p o_readopen 1;;
          pset p o_writeopen 1;;
          pset p o_nwrite 0;;
          pset p o_nread 0;;
          initlock (L_pipe p);;
          set_file a (upd_f_type (λ _, FD_PIPE));;
          set_file a (upd_f_readable (λ _, true));;
          set_file a (upd_f_writable (λ _, false));;
          set_file a (upd_f_pipe (λ _, p));;
          set_file b (upd_f_type (λ _, FD_PIPE));;
          set_file b (upd_f_readable (λ _, false));;
          set_file b (upd_f_writable (λ _, true));;
          set_file b (upd_f_pipe (λ _, p));;
          mret (Some (a, b))
      end
  end.
End file.
