(* ===== verification/Filewrite.v ===== *)
(** Filewrite: [filewrite] across crashes.

    [filewrite] splits a request into chunks, each in a transaction of its
    own.  The theorem follows the chunks: the call leaves the file with all
    of the bytes, and if the machine stops on the way, the file that recovery
    leaves has a prefix of them. *)

From S2P Require Import Prelude Layout State Mem Spinlock Console Kalloc Sched Bytes Sleeplock Ready Disk Bio Lru Bcache BcacheSpec Log LogSpec Crash Transaction Fs Inode Dinode ConsoleDev Dir FsSpec FileIO Pipe File.

Section filewrite.
Context {KI : KernelImage} {ENV : Env} {DRV : DiskDriver} {OK : DiskDriverOk DRV}.
Context (start lsz : Z) (sb : superblock) (L : layout start sb).
Context (Hfit : sb_size sb ≤ disk_size) (Hlay : layout_ok start lsz).

#[local] Notation mid := (mid start lsz sb).
#[local] Notation inode_ok := (inode_ok sb).

Lemma lsz_fits : lsz ≤ LOGSIZE.
Proof using Hlay. apply Hlay. Qed.

(** ** Locking the inode *)

Lemma mid_upd_files f s v H B : mid s v H B → mid (upd_k_files f s) v H B.
Proof using. intros [H1 H2 H3 H4 H5]. split; try done. by eapply (cache_frame s). Qed.

Lemma alter_insert {A} (g : A → A) (l : list A) i x : l !! i = Some x → alter g i l = <[i := g x]> l.
Proof using.
  intros Hx. apply list_eq. intros j. rewrite list_lookup_alter, list_insert_lookup_iff by (by eapply lookup_lt_Some).
  case_decide as E; [subst j; by rewrite Hx|done].
Qed.

Definition with_lock (lk : sleeplock) (x : inode) : inode := upd_i_lock (λ _, lk) x.

Lemma ilock_run s ip x :
  ready s → k_inodes s !! ip = Some x → 1 ≤ i_ref x → i_valid x = true → sl_locked (i_lock x) = false →
  ilock (Some ip) s = Ret tt (upd_k_inodes <[ip := with_lock (MkSleeplock true (mypid s)) x]> s).
Proof using.
  intros Hs Hx Href Hv Hl. unfold ilock. rewrite (bind_inode_at _ x) by done. rewrite (proj2 (Z.ltb_ge _ _)) by lia.
  assert (sl_get (SL_inode ip) s = Some (i_lock x)) as Hg by (simpl; by rewrite Hx).
  mrun (acquiresleep_run _ _ _ Hs Hg Hl). simpl.
  assert (upd_k_inodes (alter (upd_i_lock (λ _, MkSleeplock true (mypid s))) ip) s =
    upd_k_inodes <[ip := with_lock (MkSleeplock true (mypid s)) x]> s) as ->.
  { unfold upd_k_inodes. f_equal. by apply alter_insert. }
  erewrite bind_inode_at by (simpl; by eapply list_insert_lookup_eq). simpl. by rewrite Hv.
Qed.

Lemma iunlock_run s ip x :
  ready s → k_inodes s !! ip = Some x → 1 ≤ i_ref x → sl_locked (i_lock x) = true →
  iunlock (Some ip) s = Ret tt (upd_k_inodes <[ip := with_lock (MkSleeplock false 0) x]> s).
Proof using.
  intros Hs Hx Href Hl. assert (sl_get (SL_inode ip) s = Some (i_lock x)) as Hg by (simpl; by rewrite Hx).
  unfold iunlock. mrun (holdingsleep_run _ _ _ Hs Hg). rewrite Hl. simpl. rewrite (bind_inode_at _ x) by done.
  rewrite (proj2 (Z.ltb_ge _ _)) by lia. rewrite (releasesleep_run _ _ Hs). simpl. f_equal. unfold upd_k_inodes. f_equal. by apply alter_insert.
Qed.

(** Locks are not part of a file. *)
Lemma inode_ok_lock v lk x : inode_ok v x → inode_ok v (with_lock lk x).
Proof using. by intros []. Qed.

Lemma on_disk_lock v lk x : on_disk sb v (with_lock lk x) = with_lock lk (on_disk sb v x).
Proof using. by destruct x. Qed.

Lemma synced_lock v lk x : synced sb v x → synced sb v (with_lock lk x).
Proof using. unfold synced. intros H. by rewrite on_disk_lock, H. Qed.

(** ** One chunk *)

(** Between system calls, with file [f] open on the inode at [ip]. *)
Record open_file (s : kstate) (v : Z → list Z) (f ip : nat) (fl : file) (x : inode) : Prop := MkOpenFile {
  of_idle : fs_idle start lsz s v;
  of_sb : k_sb s = sb;
  of_fs : fs_ok sb v;
  of_inode : k_inodes s !! ip = Some x;
  of_ok : inode_ok v x;
  of_synced : synced sb v x;
  of_lock : sl_locked (i_lock x) = false;
  of_valid : i_valid x = true;
  of_ref : 1 ≤ i_ref x;
  of_file : k_files s !! f = Some fl;
}.

(** The body of the loop of [filewrite], with the rest of the loop as [k]. *)
Definition write_chunk {A} (f ip : nat) (src : list Z) (k : Z → K A) : K A :=
  begin_op;;
  ilock (Some ip);;
  x ← file_at f;
  r ← writei ip src (f_off x);
  whenb (0 <? r) (set_file f (upd_f_off (λ o, u32 (o + r))));;
  iunlock (Some ip);;
  end_op;;
  k r.

Lemma mid_mid_txn s v B : mid s v ∅ B → mid_txn start lsz s v B.
Proof using. by intros []. Qed.

Lemma fs_step_files s s' : fs_step s s' → k_files s' = k_files s.
Proof using. by intros (j & b & h & d & l & ->). Qed.

(** The chunk fits the log and the cache. *)
Definition chunk_fits (off n : nat) : Prop :=
  (nblk off n + nbitmap sb + 8 < bhead)%nat ∧ Z.of_nat (nblk off n + nbitmap sb + 8) < lsz.

(** A crash at any point of the disk writes [W], and any number of crashes
    during recovery: [initlog] leaves an empty log, and the file on the disk
    has a content that satisfies [P]. *)
Definition crash_between (d : disk) (W : writes) (x : inode) (P : list Z → Prop) : Prop :=
  ∀ i d' r, rtc recovery_crash (apply_writes (take i W) d) d' → booted d' r →
    ∃ r', initlog 1 r = Ret tt r' ∧ hdr_n (disk_block (k_disk r') start) = 0 ∧ P (file_on sb (disk_block (k_disk r')) x).

Lemma chunk_mid s v f ip fl x off src e :
  open_file s v f ip fl x → f_off fl = Z.of_nat off → Z.of_nat off ≤ i_size x →
  Z.of_nat (off + length src) ≤ MAXFILE * BSIZE → (0 < length src)%nat → chunk_fits off (length src) →
  has_free sb v (spare (i_addrs x) + (nblk off (length src) + e)) →
  ∃ s1 v1 x1 B, (∀ A (k : Z → K A), write_chunk f ip src k s = (end_op;; k (Z.of_nat (length src))) s1) ∧
    mid s1 v1 ∅ B ∧ (length B < Z.to_nat lsz)%nat ∧ k_disk s1 = k_disk s ∧ fs_ok sb v1 ∧
    k_inodes s1 !! ip = Some x1 ∧ inode_ok v1 x1 ∧ synced sb v1 x1 ∧ sl_locked (i_lock x1) = false ∧ i_valid x1 = true ∧
    1 ≤ i_ref x1 ∧ i_inum x1 = i_inum x ∧ k_files s1 !! f = Some (upd_f_off (λ o, u32 (o + Z.of_nat (length src))) fl) ∧
    contents v1 x1 = splice (contents v x) off src ∧ (∀ b, 0 ≤ b < sb_inodestart sb → v1 b = v b) ∧
    has_free sb v1 (spare (i_addrs x1) + e).
Proof using L Hfit Hlay.
  intros [O1 O2 O3 O4 O5 O6 O7 O8 O9 O10] Eoff Hoff Hend Hpos [Hc1 Hc2] Hfr.
  destruct (begin_txn start lsz s v O1) as [R0 [M1 M2 M3 M4]]. set (s0 := upd_k_log _ s) in *.
  assert (mid s0 v ∅ []) as M0 by done. pose proof (ilock_run s0 ip x (proj1 M1) O4 O9 O8 O7) as R1.
  set (x0 := with_lock _ x) in R1. set (s1 := upd_k_inodes _ s0) in R1.
  destruct (writei_ok start lsz sb L Hfit lsz_fits e s1 v ip x0 [] off src) as (s2 & v2 & x2 & B2 & R2 & W2 & M2' & Hw & Hf2); try done.
  { by apply mid_upd_inodes. }
  { simpl. by eapply list_insert_lookup_eq. }
  { by apply inode_ok_lock. }
  { by apply synced_lock. }
  { unfold wroom, weight. rewrite filter_nil. simpl. lia. }
  destruct W2 as [A1 A2 A3 A4 A5 A6 A7 A8 A9 A10]. pose proof (fs_step_files _ _ A1) as Ef. simpl in Ef.
  set (s3 := upd_k_files (alter (upd_f_off (λ o, u32 (o + Z.of_nat (length src)))) f) s2).
  assert (mid s3 v2 ∅ B2) as M3' by (by apply mid_upd_files).
  assert (k_inodes s3 !! ip = Some x2) as Hx2 by (simpl; rewrite A3; simpl; eapply list_insert_lookup_eq, list_insert_lookup_eq, O4).
  assert (sl_locked (i_lock x2) = true ∧ i_valid x2 = true ∧ i_ref x2 = i_ref x ∧ i_inum x2 = i_inum x) as (E1 & E2 & E3 & E4) by (by rewrite A6).
  pose proof (iunlock_run s3 ip x2 (proj1 (md_cache _ _ _ _ _ _ _ M3')) Hx2 ltac:(lia) E1) as R3.
  exists (upd_k_inodes <[ip := with_lock (MkSleeplock false 0) x2]> s3), v2, (with_lock (MkSleeplock false 0) x2), B2.
  split.
  { intros A k. unfold write_chunk. mrun R0. mrun R1. unfold file_at.
    rewrite (bind_deref (λ s, k_files s !! f) _ s1 fl) by done. rewrite Eoff. mrun R2.
    rewrite (proj2 (Z.ltb_lt _ _)) by lia. rewrite bind_whenb. unfold set_file. rewrite bind_modify. fold s3. by mrun R3. }
  split; [by apply mid_upd_inodes|]. split.
  { pose proof (length_weight sb (i_addrs x2) B2 (md_nodup _ _ _ _ _ _ _ M3')). unfold weight in Hw at 2. rewrite filter_nil in Hw. simpl in Hw. lia. }
  split; [exact A2|]. split; [done|]. split; [by eapply list_insert_lookup_eq|]. split; [by apply inode_ok_lock|].
  split; [by apply synced_lock|]. split; [done|]. split; [done|]. split; [simpl; lia|]. split; [done|].
  split; [simpl; by rewrite list_lookup_alter_eq, Ef, O10|]. split; [done|]. by split.
Qed.

Lemma chunk_ok s v f ip fl x off src e :
  open_file s v f ip fl x → f_off fl = Z.of_nat off → Z.of_nat off ≤ i_size x →
  Z.of_nat (off + length src) ≤ MAXFILE * BSIZE → (0 < length src)%nat → chunk_fits off (length src) →
  has_free sb v (spare (i_addrs x) + (nblk off (length src) + e)) →
  ∃ s' v' x' W, (∀ A (k : Z → K A), write_chunk f ip src k s = k (Z.of_nat (length src)) s') ∧
    open_file s' v' f ip (upd_f_off (λ o, u32 (o + Z.of_nat (length src))) fl) x' ∧ i_inum x' = i_inum x ∧
    k_disk s' = apply_writes W (k_disk s) ∧ contents v' x' = splice (contents v x) off src ∧
    has_free sb v' (spare (i_addrs x') + e) ∧
    crash_between (k_disk s) W x (λ l, l = contents v x ∨ l = splice (contents v x) off src).
Proof using L Hfit Hlay.
  intros Ho Eoff Hoff Hend Hpos Hfits Hfr.
  destruct (chunk_mid s v f ip fl x off src e Ho Eoff Hoff Hend Hpos Hfits Hfr)
    as (s1 & v1 & x1 & B & R & M & HB & K1 & F1 & X1 & I1 & Y1 & L1 & V1 & Rf1 & N1 & Fl1 & C1 & Low & Fr1).
  pose proof (layout_pos _ _ L) as Hpos'. pose proof (lo_log _ _ L) as Hlog. pose proof (lo_start _ _ L) as Hst. pose proof LOGSIZE_eq.
  destruct (end_txn start lsz s v s1 v1 B Hlay (of_idle _ _ _ _ _ _ Ho) (mid_mid_txn _ _ _ M) K1) as (s' & W & v' & R' & S' & K' & Hi' & Hv' & Hcr).
  { lia. }
  { intros b Hb. apply Low. unfold home in Hb. lia. }
  assert (agree sb v1 v') as Hag by (by eapply home_agree).
  destruct (inode_agree start sb L v1 v' x1 Hag I1) as [I' C'].
  exists s', v', x1, W. split; [intros A k; rewrite R; by mrun R'|]. split; [|split; [done|split; [done|split; [by rewrite C'|split]]]].
  - assert (k_files s' = k_files s1) as Ef by (by destruct S' as (? & ? & ? & ? & ->)).
    split; try done.
    + rewrite (log_step_sb _ _ S'). apply M.
    + apply (fs_ok_agree start sb L v1); [done| |done]. intros b. eapply cache_len, Hi'.
    + by rewrite (log_step_inodes _ _ S').
    + unfold synced. by rewrite (on_disk_agree start sb L v1) by (done || apply I1).
    + by rewrite Ef.
  - by eapply has_free_agree.
  - intros i d r Hrtc Hr. destruct (Hcr i d r Hrtc Hr) as (r' & Hr' & Hn & Hcase). exists r'. split; [done|]. split; [done|].
    destruct Hcase as [Hc|Hc]; [left|right].
    + apply (file_on_agree start sb L v); [by eapply home_agree|apply Ho|apply Ho].
    + rewrite <-C1. assert (file_on sb (disk_block (k_disk r')) x = file_on sb (disk_block (k_disk r')) x1) as ->.
      { unfold file_on, on_disk, contents. rewrite N1. done. }
      apply (file_on_agree start sb L v1); [by eapply home_agree|done|done].
Qed.

(** ** The chunks *)

Lemma splice_nil (l : list Z) off : splice l off [] = l.
Proof using. unfold splice. simpl. rewrite Nat.add_0_r. apply take_drop. Qed.

Lemma splice_app (l a b : list Z) off :
  (off ≤ length l)%nat → splice (splice l off a) (off + length a) b = splice l off (a ++ b).
Proof using.
  intros H. unfold splice. rewrite !(app_assoc (take off l) a).
  assert (length (take off l ++ a) = off + length a)%nat as E by (rewrite length_app, length_take; lia).
  rewrite take_app_length' by done. rewrite drop_app_ge by lia. rewrite drop_drop, E, length_app, <-!app_assoc. do 4 f_equal. lia.
Qed.

Lemma length_splice_max (l a : list Z) off : (off ≤ length l)%nat → length (splice l off a) = Nat.max (length l) (off + length a).
Proof using. intros H. unfold splice. rewrite !length_app, length_take, length_drop. lia. Qed.

Lemma file_on_inum v x y : i_inum x = i_inum y → file_on sb v x = file_on sb v y.
Proof using. intros E. unfold file_on, on_disk, contents. by rewrite E. Qed.

Lemma crash_between_app d W1 W2 x y (P : list Z → Prop) :
  i_inum x = i_inum y → crash_between d W1 x P → crash_between (apply_writes W1 d) W2 y P → crash_between d (W1 ++ W2) x P.
Proof using.
  intros E H1 H2 i d' r Hrtc Hr. rewrite take_app, apply_writes_app in Hrtc. destruct (decide (i ≤ length W1)%nat) as [Hi|Hi].
  - replace (i - length W1)%nat with 0%nat in Hrtc by lia. by apply (H1 i d' r).
  - rewrite (take_ge W1) in Hrtc by lia. destruct (H2 _ d' r Hrtc Hr) as (r' & Hr' & Hn & HP). exists r'. by rewrite (file_on_inum _ x y).
Qed.

Lemma crash_between_mono d W x (P Q : list Z → Prop) : (∀ l, P l → Q l) → crash_between d W x P → crash_between d W x Q.
Proof using. intros H H1 i d' r Hrtc Hr. destruct (H1 i d' r Hrtc Hr) as (r' & ? & ? & ?). eauto. Qed.

(** Nothing is written. *)
Lemma crash_between_nil s v f ip fl x :
  0 < lsz → open_file s v f ip fl x → crash_between (k_disk s) [] x (λ l, l = contents v x).
Proof using L Hfit Hlay.
  intros Hlsz Ho i d r. rewrite take_nil. intros Hrtc Hr. destruct Ho as [Hs _ _ _ O5 O6 _ _ _ _].
  destruct (begin_txn start lsz s v Hs) as [_ M].
  destruct (end_txn start lsz s v _ v [] Hlay Hs M eq_refl) as (s' & W & v' & _ & _ & _ & _ & _ & Hcr); [done|done|].
  destruct (Hcr 0%nat d r) as (r' & R & Hn & Hc); [by rewrite take_0|done|]. exists r'. split; [done|]. split; [done|].
  apply (file_on_agree start sb L v); [|done|done]. eapply home_agree; [done|]. by destruct Hc.
Qed.

(** [k] bytes of [src] are whole chunks or all of it. *)
Definition whole_chunks (n k : nat) : Prop := (k ≤ n)%nat ∧ (k = n ∨ k mod (13 * 512) = 0)%nat.

(** A file into which whole chunks of [src] have been written at [off]. *)
Definition partly (l : list Z) (off : nat) (src : list Z) (l' : list Z) : Prop :=
  ∃ k, whole_chunks (length src) k ∧ l' = splice l off (take k src).

Lemma partly_none l off src : partly l off src l.
Proof using. exists 0%nat. split; [split; [lia|by right]|]. by rewrite take_0, splice_nil. Qed.

Lemma partly_all l off src : partly l off src (splice l off src).
Proof using. exists (length src). split; [split; [lia|by left]|]. by rewrite take_ge. Qed.

(** After a first chunk. *)
Lemma partly_next l off a b l' :
  (off ≤ length l)%nat → (length a = 13 * 512 ∨ b = [])%nat → partly (splice l off a) (off + length a) b l' → partly l off (a ++ b) l'.
Proof using.
  intros Hoff Ha (k & [Hk Hk'] & ->). exists (length a + k)%nat. split.
  - rewrite length_app. split; [lia|]. destruct Ha as [Ha| ->]; [|simpl in *; left; lia]. destruct Hk' as [->|Hk']; [by left|right].
    rewrite Ha, Nat.Div0.add_mod, Hk'. done.
  - rewrite splice_app by done. rewrite take_app_add'; done.
Qed.

Lemma nblk_chunk off n : (n ≤ 13 * 512)%nat → (nblk off n ≤ 14)%nat.
Proof using.
  intros Hn. unfold nblk. pose proof (Nat.mod_upper_bound off 512 ltac:(lia)).
  apply Nat.lt_succ_r, Nat.Div0.div_lt_upper_bound. lia.
Qed.

(** A chunk of any request fits: 14 data blocks, the bitmap, an indirect block and the inode. *)
Definition log_fits : Prop := (nbitmap sb + 22 < bhead)%nat ∧ Z.of_nat (nbitmap sb + 22) < lsz.

Lemma filewrite_loop_ok fuel s v f ip fl x (off i : nat) src :
  open_file s v f ip fl x → f_off fl = Z.of_nat off → Z.of_nat off ≤ i_size x →
  Z.of_nat (off + length src) ≤ MAXFILE * BSIZE → log_fits → (length src ≤ fuel * (13 * 512))%nat →
  has_free sb v (spare (i_addrs x) + fuel * 14) →
  ∃ s' v' x' W, filewrite_loop fuel f ip (Z.of_nat i) (Z.of_nat (i + length src)) src s = Ret (Z.of_nat (i + length src)) s' ∧
    open_file s' v' f ip (upd_f_off (λ _, Z.of_nat (off + length src)) fl) x' ∧ i_inum x' = i_inum x ∧
    k_disk s' = apply_writes W (k_disk s) ∧ contents v' x' = splice (contents v x) off src ∧
    crash_between (k_disk s) W x (partly (contents v x) off src).
Proof using L Hfit Hlay.
  revert s v fl x off i src. induction fuel as [|fuel IH]; intros s v fl x off i src Ho Eoff Hoff Hend Hlog Hfuel Hfr; simpl.
  all: destruct (Z.ltb_spec (Z.of_nat i) (Z.of_nat (i + length src))) as [Hlt|Hge]; [|
    assert (src = []) as -> by (apply nil_length_inv; lia); exists s, v, x, []; simpl; rewrite !Nat.add_0_r, splice_nil, <-Eoff;
    split; [done|]; split; [by destruct fl|]; split; [done|]; split; [done|]; split; [done|];
    eapply crash_between_mono; [|apply (crash_between_nil s v f ip fl x); [unfold log_fits in Hlog; lia|done]];
    intros l ->; apply partly_none].
  { lia. }
  set (n1 := if write_max <? _ then _ else _). set (m := Nat.min (length src) (13 * 512)).
  assert (n1 = Z.of_nat m) as Em by (unfold n1, m; change write_max with (13 * 512);
    destruct (Z.ltb_spec (13 * 512) (Z.of_nat (i + length src) - Z.of_nat i)); lia).
  rewrite Em, Nat2Z.id. assert (length (take m src) = m) as Hm by (rewrite length_take; lia).
  pose proof (nblk_chunk off m ltac:(lia)) as Hblk.
  assert (length (contents v x) = Z.to_nat (i_size x)) as Hlen by apply length_content.
  destruct (chunk_ok s v f ip fl x off (take m src) (fuel * 14)) as (s1 & v1 & x1 & W1 & R1 & O1 & N1 & K1 & C1 & F1 & X1); try done; rewrite ?Hm; try lia.
  { unfold chunk_fits, log_fits in *. lia. }
  { eapply has_free_le; [|exact Hfr]. lia. }
  rewrite Hm in *.
  assert (i_size x1 = Z.max (i_size x) (Z.of_nat (off + m))) as Esz.
  { apply (f_equal length) in C1. rewrite length_splice_max, Hm, Hlen in C1 by lia. unfold contents in C1. rewrite length_content in C1.
    destruct (ik_size _ _ _ (of_ok _ _ _ _ _ _ O1)), (ik_size _ _ _ (of_ok _ _ _ _ _ _ Ho)). lia. }
  destruct (IH s1 v1 _ x1 (off + m)%nat (i + m)%nat (drop m src) O1) as (s' & v' & x' & W & R & O & N & K & C & X); rewrite ?length_drop.
  { simpl. rewrite Eoff, u32_small; [lia|]. change (MAXFILE * BSIZE) with 71680 in Hend. unfold two32. lia. }
  { lia. }
  { lia. }
  { done. }
  { lia. }
  { done. }
  rewrite length_drop in R, O. exists s', v', x', (W1 ++ W). split; [|split; [|split; [congruence|split; [|split]]]].
  - etrans; [exact (R1 _ _)|]. rewrite (proj2 (Z.ltb_ge _ _)) by lia. rewrite Z.eqb_refl. simpl. rewrite Nat2Z.id.
    replace (Z.of_nat i + Z.of_nat m) with (Z.of_nat (i + m)) by lia.
    replace (i + length src)%nat with (i + m + (length src - m))%nat by lia. exact R.
  - replace (off + length src)%nat with (off + m + (length src - m))%nat by lia. by destruct fl.
  - by rewrite apply_writes_app, <-K1.
  - rewrite C, C1. replace (off + m)%nat with (off + length (take m src))%nat by lia. rewrite splice_app by lia. by rewrite take_drop.
  - eapply (crash_between_app _ _ _ x x1); [done| |rewrite <-K1].
    + eapply crash_between_mono; [|exact X1]. intros l [->| ->]; [apply partly_none|].
      exists m. split; [split; [lia|]|done]. unfold m. destruct (decide (length src ≤ 13 * 512)%nat); [left; lia|right].
      by rewrite Nat.min_r by lia.
    + eapply crash_between_mono; [|exact X]. intros l Hl. rewrite C1 in Hl.
      pose proof (partly_next (contents v x) off (take m src) (drop m src) l) as Hp. rewrite take_drop, Hm in Hp.
      apply Hp; [lia| |done]. destruct (decide (length src ≤ 13 * 512)%nat); [right; apply drop_ge; lia|left; lia].
Qed.

(** C5.  Writing to a file, across crashes.  [filewrite] on an open file
    leaves it with the bytes written at the file's offset, moves the offset
    behind them and returns their number.  If the machine stops after any
    number of the disk writes that the call makes, and any number of times
    while recovering, then once [initlog] has run the file on the disk - read
    through its inode there - has the old content with a prefix of the bytes
    that is made of whole chunks. *)
Theorem filewrite_crash_safe s v f ip fl x off src :
  open_file s v f ip fl x → f_type fl = FD_INODE → f_writable fl = true → f_ip fl = Some ip → f_off fl = Z.of_nat off →
  Z.of_nat off ≤ i_size x → Z.of_nat (off + length src) ≤ MAXFILE * BSIZE → log_fits →
  has_free sb v (spare (i_addrs x) + (length src / (13 * 512) + 1) * 14) →
  ∃ s' v' x' W, filewrite f src s = Ret (Z.of_nat (length src)) s' ∧
    open_file s' v' f ip (upd_f_off (λ _, Z.of_nat (off + length src)) fl) x' ∧
    contents v' x' = splice (contents v x) off src ∧ k_disk s' = apply_writes W (k_disk s) ∧
    crash_between (k_disk s) W x (partly (contents v x) off src).
Proof using L Hfit Hlay.
  intros Ho Hty Hw Hip Eoff Hoff Hend Hlog Hfr. pose proof (Nat.div_mod (length src) (13 * 512) ltac:(lia)) as Hdm.
  pose proof (Nat.mod_upper_bound (length src) (13 * 512) ltac:(lia)) as Hmb.
  destruct (filewrite_loop_ok (length src / (13 * 512) + 1) s v f ip fl x off 0 src) as (s' & v' & x' & W & R & O & _ & K & C & X); try done.
  { lia. }
  exists s', v', x', W. split; [|done]. unfold filewrite, file_at. rewrite (bind_deref (λ s, k_files s !! f) _ s fl) by apply Ho.
  rewrite Hw, Hty, Hip. simpl. rewrite bind_ret. change write_max with (Z.of_nat (13 * 512)).
  rewrite <-(Nat2Z.inj_div (length src)). replace (Z.to_nat (Z.of_nat (length src / (13 * 512)) + 1)) with (length src / (13 * 512) + 1)%nat by lia.
  simpl in R. change (Z.of_nat 0) with 0 in R. mrun R. by rewrite Z.eqb_refl.
Qed.
End filewrite.

(** ** An instance *)

Module FilewriteExample.
Export FileExample.
Definition opened : file := MkFile FD_INODE 1 true true 0 (Some 0%nat) 0.
Definition between : kstate :=
  upd_k_files (λ _, [opened]) (upd_k_log (λ _, MkLog 2 30 0 false 1 (MkLogheader 0 (replicate 30 0))) state).

Lemma between_idle : fs_idle 2 30 between view.
Proof.
  destruct (started_cache image view_sized) as (_ & _ & Hc). split.
  - apply (cache_frame (started image)); [reflexivity..|exact Hc].
  - split; [split|split| | |]; reflexivity.
  - by vm_compute.
  - by vm_compute.
Qed.

Lemma between_open : open_file 2 30 sb between view 0 0 opened ino.
Proof.
  split; [exact between_idle|reflexivity|exact view_fs|reflexivity|exact view_inode|exact view_synced|reflexivity..|done|reflexivity].
Qed.

Lemma filewrite_crash_safe_witness :
  ∃ s' v' x' W, filewrite 0 [104; 105; 10] between = Ret (Z.of_nat 3) s' ∧
    open_file 2 30 sb s' v' 0 0 (upd_f_off (λ _, Z.of_nat (0 + 3)) opened) x' ∧
    contents v' x' = splice (contents view ino) 0 [104; 105; 10] ∧ k_disk s' = apply_writes W (k_disk between) ∧
    crash_between 2 sb (k_disk between) W ino (partly (contents view ino) 0 [104; 105; 10]).
Proof.
  apply (filewrite_crash_safe 2 30 sb sb_layout sb_fits TxnExample.demo_layout between view 0 0 opened ino 0 [104; 105; 10]).
  - exact between_open.
  - reflexivity.
  - reflexivity.
  - reflexivity.
  - reflexivity.
  - reflexivity.
  - vm_compute. discriminate.
  - split; [apply Nat.ltb_lt|]; reflexivity.
  - apply view_free. apply Nat.leb_le. reflexivity.
Defined.
End FilewriteExample.
