(* ===== verification/Proc.v ===== *)
(** Proc: processes, [proc.c] (with [getcallerpcs] of [spinlock.c]).

    A kernel stack is a page of [k_mem]: the trap frame and the context the
    code builds there are words at the offsets of [struct trapframe] (x86.h)
    and [struct context] (proc.h). *)

From S2P Require Import Prelude Layout State Mem Spinlock Console Kalloc Vm Sched Bytes CString Sleeplock Disk Bio Log Fs ConsoleDev Dir Pipe File.

(** ** [struct trapframe] *)

Definition tf_eax : Z := 28.
Definition tf_es : Z := 40.
Definition tf_ds : Z := 44.
Definition tf_trapno : Z := 48.
Definition tf_err : Z := 52.
Definition tf_eip : Z := 56.
Definition tf_cs : Z := 60.
Definition tf_eflags : Z := 64.
Definition tf_esp : Z := 68.
Definition tf_ss : Z := 72.
Definition sizeof_tf : Z := 76.
(** [struct context] *)
Definition ctx_ebp : Z := 12.
Definition ctx_eip : Z := 16.
Definition sizeof_ctx : Z := 20.

(** A store of a [ushort]. *)
Definition st16 (m : gmap Z Z) (a v : Z) : gmap Z Z := stb (stb m a (u8 v)) (a + 1) (u8 (v / 256)).

Section proc.
Context {KI : KernelImage} {ENV : Env} {DRV : DiskDriver}.

Definition write32 (a v : Z) : K unit := modify (upd_k_mem (λ m, st32 m a v)).
Definition write16 (a v : Z) : K unit := modify (upd_k_mem (λ m, st16 m a v)).

(** [for(p = ptable.proc; ...) if(p->state == UNUSED) goto found;] *)
Fixpoint proc_scan (f : proc → bool) (l : list proc) (i : nat) : option nat :=
  match l with
  | [] => None
  | p :: l => if f p then Some i else proc_scan f l (S i)
  end.

Definition is_state (st : procstate) (p : proc) : bool := bool_decide (p_state p = st).

Definition allocproc : K (option nat) :=
  acquire L_ptable;;
  r ← gets (λ s, proc_scan (is_state UNUSED) (k_procs s) 0);
  match r with
  | None =>
      release L_ptable;;
      mret None
  | Some p =>
      set_proc p (upd_p_state (λ _, EMBRYO));;
      pid ← gets (λ s, k_nextpid s);
      set_proc p (upd_p_pid (λ _, pid));;
      modify (upd_k_nextpid (Z.add 1));;
      release L_ptable;;
      (* Allocate kernel stack. *)
      kstack ← kalloc;
      set_proc p (upd_p_kstack (λ _, kstack));;
      if kstack =? 0 then
        set_proc p (upd_p_state (λ _, UNUSED));;
        mret None
      else
      let sp := kstack + KSTACKSIZE in
      (* Leave room for trap frame. *)
      let sp := sp - sizeof_tf in
      set_proc p (upd_p_tf (λ _, sp));;
      (* Set up new context to start executing at forkret, which returns to trapret. *)
      let sp := sp - 4 in
      write32 sp k_trapret;;
      let sp := sp - sizeof_ctx in
      set_proc p (upd_p_context (λ _, sp));;
      modify (upd_k_mem (λ m, memset m sp 0 sizeof_ctx));;
      write32 (sp + ctx_eip) k_forkret;;
      mret (Some p)
  end.

(** [initcode]: the linked image of [initcode.S] *)
Definition userinit (initcode : list Z) : K unit :=
  r ← allocproc;
  modify (upd_k_initproc (λ _, r));;
  p ← lift r;
  pgdir ← setupkvm;
  set_proc p (upd_p_pgdir (λ _, pgdir));;
  if pgdir =? 0 then panic "userinit: out of memory?" else
  inituvm pgdir initcode;;
  set_proc p (upd_p_sz (λ _, PGSIZE));;
  pr ← proc_at (Some p);
  let tf := p_tf pr in
  modify (upd_k_mem (λ m, memset m tf 0 sizeof_tf));;
  write16 (tf + tf_cs) (Z.lor (Z.shiftl SEG_UCODE 3) DPL_USER);;
  let ds := Z.lor (Z.shiftl SEG_UDATA 3) DPL_USER in
  write16 (tf + tf_ds) ds;;
  write16 (tf + tf_es) ds;;
  write16 (tf + tf_ss) ds;;
  write32 (tf + tf_eflags) FL_IF;;
  write32 (tf + tf_esp) PGSIZE;;
  write32 (tf + tf_eip) 0;;                              (* beginning of initcode.S *)
  name ← lift (safestrcpy (p_name pr) (chars "initcode" ++ [0]) 16);
  set_proc p (upd_p_name (λ _, name));;
  cwd ← namei (chars "/" ++ [0]);
  set_proc p (upd_p_cwd (λ _, cwd));;
  acquire L_ptable;;
  set_proc p (upd_p_state (λ _, RUNNABLE));;
  release L_ptable.

Definition growproc (n : Z) : K Z :=
  cur ← myproc;
  i ← lift cur;
  pr ← proc_at cur;
  let sz := p_sz pr in
  sz ← (if 0 <? n then
          sz ← allocuvm (p_pgdir pr) sz (u32 (sz + n));
          mret (if sz =? 0 then None else Some sz)
        else if n <? 0 then
          sz ← deallocuvm (p_pgdir pr) sz (u32 (sz + n));
          mret (if sz =? 0 then None else Some sz)
        else mret (Some sz));
  match sz with
  | None => mret (-1)
  | Some sz =>
      set_proc i (upd_p_sz (λ _, sz));;
      switchuvm cur;;
      mret 0
  end.

Definition fork : K Z :=
  cur ← myproc;
  r ← allocproc;
  match r with
  | None => mret (-1)
  | Some np =>
      pr ← proc_at cur;
      (* Copy process state from proc. *)
      pgdir ← copyuvm (p_pgdir pr) (p_sz pr);
      set_proc np (upd_p_pgdir (λ _, pgdir));;
      if pgdir =? 0 then
        n ← proc_at (Some np);
        kfree (p_kstack n);;
        set_proc np (upd_p_kstack (λ _, 0));;
        set_proc np (upd_p_state (λ _, UNUSED));;
        mret (-1)
      else
      pr ← proc_at cur;
      set_proc np (upd_p_sz (λ _, p_sz pr));;
      set_proc np (upd_p_stackSize (λ _, p_stackSize pr));;
      set_proc np (upd_p_parent (λ _, cur));;
      n ← proc_at (Some np);
      modify (upd_k_mem (λ m, memmove m (p_tf n) (p_tf pr) sizeof_tf));;
      (* Clear %eax so that fork returns 0 in the child. *)
      write32 (p_tf n + tf_eax) 0;;
      for_ (Z.to_nat NOFILE) 0 (λ i,
        c ← proc_at cur;
        f ← lift (p_ofile c !! Z.to_nat i);
        match f with
        | None => mret tt
        | Some f => f ← filedup f; set_proc np (upd_p_ofile <[Z.to_nat i := Some f]>)
        end);;
      pr ← proc_at cur;
      cwd ← lift (p_cwd pr);
      cwd ← idup cwd;
      set_proc np (upd_p_cwd (λ _, Some cwd));;
      n ← proc_at (Some np);
      name ← lift (safestrcpy (p_name n) (p_name pr) 16);
      set_proc np (upd_p_name (λ _, name));;
      let pid := p_pid n in
      acquire L_ptable;;
      set_proc np (upd_p_state (λ _, RUNNABLE));;
      release L_ptable;;
      mret pid
  end.

(** [exit] does not return: it ends in [sched], or panics. *)
Definition exit : K unit :=
  cur ← myproc;
  init ← gets (λ s, k_initproc s);
  if bool_decide (cur = init) then panic "init exiting" else
  i ← lift cur;
  (* Close all open files. *)
  for_ (Z.to_nat NOFILE) 0 (λ fd,
    c ← proc_at cur;
    f ← lift (p_ofile c !! Z.to_nat fd);
    match f with
    | None => mret tt
    | Some f => fileclose f;; set_proc i (upd_p_ofile <[Z.to_nat fd := None]>)
    end);;
  begin_op;;
  pr ← proc_at cur;
  cwd ← lift (p_cwd pr);
  iput cwd;;
  end_op;;
  set_proc i (upd_p_cwd (λ _, None));;
  acquire L_ptable;;
  (* Parent might be sleeping in wait(). *)
  pr ← proc_at cur;
  wakeup1 (Chan_proc <$> p_parent pr);;
  (* Pass abandoned children to init. *)
  for_ (Z.to_nat NPROC) 0 (λ k,
    c ← proc_at (Some (Z.to_nat k));
    whenb (bool_decide (p_parent c = cur))
      (init ← gets (λ s, k_initproc s);
       set_proc (Z.to_nat k) (upd_p_parent (λ _, init));;
       whenb (is_state ZOMBIE c) (wakeup1 (Chan_proc <$> init))));;
  (* Jump into the scheduler, never to return. *)
  set_proc i (upd_p_state (λ _, ZOMBIE));;
  sched;;
  panic "zombie exit".

(** One pass over the table: [inl pid] when a child was reaped, otherwise
    [inr havekids]. *)
Fixpoint wait_scan (n : nat) (k : nat) (cur : nat) (havekids : bool) : K (Z + bool) :=
  match n with
  | O => mret (inr havekids)
  | S n =>
      c ← proc_at (Some k);
      if negb (bool_decide (p_parent c = Some cur)) then wait_scan n (S k) cur havekids else
      if is_state ZOMBIE c then
        (* Found one. *)
        let pid := p_pid c in
        kfree (p_kstack c);;
        set_proc k (upd_p_kstack (λ _, 0));;
        freevm (p_pgdir c);;
        set_proc k (upd_p_pid (λ _, 0));;
        set_proc k (upd_p_parent (λ _, None));;
        set_proc k (upd_p_name <[0%nat := 0]>);;
        set_proc k (upd_p_killed (λ _, 0));;
        set_proc k (upd_p_state (λ _, UNUSED));;
        release L_ptable;;
        mret (inl pid)
      else wait_scan n (S k) cur true
  end.

(** [for(;;)] of [wait] *)
Fixpoint wait_loop (turns : nat) (cur : nat) : K Z :=
  r ← wait_scan (Z.to_nat NPROC) 0 cur false;
  match r with
  | inl pid => mret pid
  | inr havekids =>
      pr ← proc_at (Some cur);
      if negb havekids || negb (p_killed pr =? 0) then
        release L_ptable;;
        mret (-1)
      else
      match turns with
      | O => nofuel
      | S turns =>
          (* Wait for children to exit. *)
          sleep (Chan_proc cur) (Some L_ptable);;
          wait_loop turns cur
      end
  end.

Definition wait : K Z :=
  cur ← myproc;
  i ← lift cur;
  acquire L_ptable;;
  wait_loop env_turns i.

(** [swtch(&(c->scheduler), p->context)] *)
Definition swtch_to (p : nat) : K unit :=
  λ s, match env_run p s with Some s' => Ret tt s' | None => Sleep s end.

(** The body of the loop over the process table. *)
Definition scheduler_slot (p : nat) : K unit :=
  pr ← proc_at (Some p);
  whenb (is_state RUNNABLE pr)
    (modify (upd_k_cpu (upd_c_proc (λ _, Some p)));;
     switchuvm (Some p);;
     set_proc p (upd_p_state (λ _, RUNNING));;
     swtch_to p;;
     switchkvm;;
     (* Process is done running for now. *)
     modify (upd_k_cpu (upd_c_proc (λ _, None)))).

(** One turn of [for(;;)]. *)
Definition scheduler_round : K unit :=
  sti;;
  acquire L_ptable;;
  for_ (Z.to_nat NPROC) 0 (λ p, scheduler_slot (Z.to_nat p));;
  release L_ptable.

(** [scheduler], followed for [n] rounds. *)
Definition scheduler (n : nat) : K unit :=
  mycpu;;
  modify (upd_k_cpu (upd_c_proc (λ _, None)));;
  for_ n 0 (λ _, scheduler_round).

Definition forkret : K unit :=
  release L_ptable;;
  first ← gets (λ s, k_first s);
  whenb first
    (modify (upd_k_first (λ _, false));;
     iinit ROOTDEV;;
     initlog ROOTDEV).

Definition kill (pid : Z) : K Z :=
  acquire L_ptable;;
  r ← gets (λ s, proc_scan (λ p, p_pid p =? pid) (k_procs s) 0);
  match r with
  | Some p =>
      set_proc p (upd_p_killed (λ _, 1));;
      pr ← proc_at (Some p);
      (* Wake process from sleep if necessary. *)
      whenb (is_state SLEEPING pr) (set_proc p (upd_p_state (λ _, RUNNABLE)));;
      release L_ptable;;
      mret 0
  | None =>
      release L_ptable;;
      mret (-1)
  end.

(** [pcs[0..10)] filled by [getcallerpcs(v, pcs)] *)
Fixpoint caller_pcs (n : nat) (m : gmap Z Z) (ebp : Z) : list Z :=
  match n with
  | O => []
  | S n =>
      if (ebp =? 0) || (ebp <? KERNBASE) || (ebp =? 0xffffffff) then replicate (S n) 0
      else ld32 m (u32 (ebp + 4)) :: caller_pcs n m (ld32 m ebp)
  end.

Definition getcallerpcs (m : gmap Z Z) (v : Z) : list Z := caller_pcs 10 m (u32 (v - 8)).

Definition state_name (st : procstate) : string :=
  match st with
  | UNUSED => "unused" | EMBRYO => "embryo" | SLEEPING => "sleep "
  | RUNNABLE => "runble" | RUNNING => "run   " | ZOMBIE => "zombie"
  end.

(** [for(i=0; i<10 && pc[i] != 0; i++) cprintf(" %p", pc[i]);] *)
Fixpoint print_pcs (pcs : list Z) : K unit :=
  match pcs with
  | [] => mret tt
  | pc :: pcs => if pc =? 0 then mret tt else cprintf " %p" [AInt pc];; print_pcs pcs
  end.

Definition procdump : K unit :=
  for_ (Z.to_nat NPROC) 0 (λ i,
    p ← proc_at (Some (Z.to_nat i));
    if is_state UNUSED p then mret tt else
    cprintf "%d %s %s" [AInt (p_pid p); AStr (Some (chars (state_name (p_state p)))); AStr (Some (cstr (p_name p)))];;
    whenb (is_state SLEEPING p)
      (m ← gets (λ s, k_mem s);
       print_pcs (getcallerpcs m (u32 (ld32 m (p_context p + ctx_ebp) + 8))));;
    cprintf nl []).
End proc.
