(* ===== verification/Usermem.v ===== *)
(** Usermem: the kernel's accesses to user memory and the argument-fetching
    functions of [syscall.c].

    A user address is dereferenced through the page tables in CR3.  A
    page fault taken by the kernel itself on such an access is not followed:
    it is [Undef]. *)

From S2P Require Import Prelude Layout State Mem Spinlock Console Kalloc Sched Bytes CString Sleeplock Disk Bio Log Fs ConsoleDev Dir Pipe File Proc PageTable.

Section usermem.
Context {KI : KernelImage} {ENV : Env} {DRV : DiskDriver}.

(** The kernel address of a mapped user address; stores need PTE_W since
    the kernel runs with CR0.WP set. *)
Definition translate (s : kstate) (w : bool) (va : Z) : option Z :=
  let e := pte (k_mem s) (P2V (c_cr3 (k_cpu s))) (PDX va) (PTX va) in
  if pres e && (negb w || has_flag e PTE_W) then Some (frame_of e + u32 va mod PGSIZE) else None.

Definition uload (va : Z) : K Z := a ← deref (λ s, translate s false va); gets (λ s, ldb (k_mem s) a).

Fixpoint uloads (n : nat) (va : Z) : K (list Z) :=
  match n with
  | O => mret []
  | S n => b ← uload va; bs ← uloads n (u32 (va + 1)); mret (b :: bs)
  end.

Fixpoint ustores (va : Z) (bs : list Z) : K unit :=
  match bs with
  | [] => mret tt
  | b :: bs =>
      a ← deref (λ s, translate s true va);
      modify (upd_k_mem (λ m, stb m a b));;
      ustores (u32 (va + 1)) bs
  end.

(** ** Arguments; [None] is the return value -1 *)

Definition fetchint (addr : Z) : K (option Z) :=
  if (STACK_TOP <=? addr) || (STACK_TOP <? u32 (addr + 4)) then mret None else
  bs ← uloads 4 addr;
  mret (Some (s32 (of_le bs))).

(** [for(s = *pp; s < ep; s++)]: the string with its NUL *)
Fixpoint fetchstr_loop (fuel : nat) (s : Z) : K (option (list Z)) :=
  if s <? STACK_TOP then
    match fuel with
    | O => nofuel
    | S fuel =>
        c ← uload s;
        if c =? 0 then mret (Some [0]) else
        r ← fetchstr_loop fuel (s + 1);
        mret (cons c <$> r)
    end
  else mret None.

(** The bytes [*pp] points at; their number less one is the return value. *)
Definition fetchstr (addr : Z) : K (option (list Z)) :=
  if STACK_TOP <=? addr then mret None else
  fetchstr_loop (Z.to_nat (STACK_TOP - addr)) addr.

Definition argint (n : Z) : K (option Z) :=
  p ← myproc;
  pr ← proc_at p;
  esp ← gets (λ s, ld32 (k_mem s) (p_tf pr + tf_esp));
  fetchint (u32 (esp + 4 + 4 * n)).

Definition argptr (n size : Z) : K (option Z) :=
  i ← argint n;
  match i with
  | None => mret None
  | Some i =>
      if (size <? 0) || (STACK_TOP <=? u32 i) || (STACK_TOP <? u32 (u32 i + size)) then mret None
      else mret (Some (u32 i))
  end.

Definition argstr (n : Z) : K (option (list Z)) :=
  addr ← argint n;
  match addr with
  | None => mret None
  | Some addr => fetchstr (u32 addr)
  end.
End usermem.
