(* ===== verification/Exec.v ===== *)
(** Exec: [exec.c], and [loaduvm] of [vm.c].

    The path and the argument strings are passed as bytes; [argv] has no
    entry for the final NULL. *)

From S2P Require Import Prelude Layout State Mem Spinlock Console Kalloc Vm Sched Bytes CString Path Sleeplock Disk Bio Log Fs ConsoleDev Dir Pipe File Proc.

Definition ELF_MAGIC : Z := 0x464C457F.
Definition ELF_PROG_LOAD : Z := 1.
Definition sizeof_elfhdr : Z := 52.
Definition sizeof_proghdr : Z := 32.

Section exec.
Context {KI : KernelImage} {ENV : Env} {DRV : DiskDriver}.

(** [for(i = 0; i < sz; i += PGSIZE)] *)
Fixpoint loaduvm_loop (fuel : nat) (pgdir addr : Z) (ip : nat) (offset i sz : Z) : K Z :=
  if i <? sz then
    match fuel with
    | O => nofuel
    | S fuel =>
        pte ← walkpgdir pgdir (u32 (addr + i)) false;
        if pte =? 0 then panic "loaduvm: address should exist" else
        pa ← gets (λ s, PTE_ADDR (ld32 (k_mem s) pte));
        let n := if sz - i <? PGSIZE then sz - i else PGSIZE in
        '(r, bs) ← readi ip (u32 (offset + i)) n;
        modify (upd_k_mem (λ m, store_bytes m (P2V pa) bs));;
        if negb (r =? n) then mret (-1)
        else loaduvm_loop fuel pgdir addr ip offset (i + PGSIZE) sz
    end
  else mret 0.

Definition loaduvm (pgdir addr : Z) (ip : nat) (offset sz : Z) : K Z :=
  if negb (addr mod PGSIZE =? 0) then panic "loaduvm: addr must be page aligned" else
  loaduvm_loop (Z.to_nat (sz / PGSIZE + 1)) pgdir addr ip offset 0 sz.

(** The code after the label [bad]. *)
Definition exec_bad (pgdir : Z) (ip : option nat) : K Z :=
  whenb (negb (pgdir =? 0)) (freevm pgdir);;
  match ip with
  | Some ip => iunlockput ip;; end_op
  | None => mret tt
  end;;
  mret (-1).

(** Load program into memory: [None] is a jump to [bad]. *)
Fixpoint exec_load (n : nat) (pgdir : Z) (ip : nat) (off sz : Z) : K (option Z) :=
  match n with
  | O => mret (Some sz)
  | S n =>
      '(r, ph) ← readi ip (u32 off) sizeof_proghdr;
      if negb (r =? sizeof_proghdr) then mret None else
      if negb (rd32 ph 0 =? ELF_PROG_LOAD) then exec_load n pgdir ip (off + sizeof_proghdr) sz else
      let ph_off := rd32 ph 4 in
      let vaddr := rd32 ph 8 in
      let filesz := rd32 ph 16 in
      let memsz := rd32 ph 20 in
      if memsz <? filesz then mret None else
      if u32 (vaddr + memsz) <? vaddr then mret None else
      sz ← allocuvm pgdir sz (u32 (vaddr + memsz));
      if sz =? 0 then mret None else
      if negb (vaddr mod PGSIZE =? 0) then mret None else
      r ← loaduvm pgdir vaddr ip ph_off filesz;
      if r <? 0 then mret None else
      exec_load n pgdir ip (off + sizeof_proghdr) sz
  end.

(** Push argument strings: the stack pointer and [ustack[3..3+argc)]. *)
Fixpoint exec_args (argv : list (list Z)) (argc pgdir sp : Z) (ustack : list Z) : K (option (Z * list Z)) :=
  match argv with
  | [] => mret (Some (sp, ustack))
  | a :: argv =>
      if MAXARG <=? argc then mret None else
      len ← lift (strlen a);
      let sp := Z.land (u32 (sp - (len + 1))) (u32 (Z.lnot 3)) in
      r ← copyout pgdir sp (take (Z.to_nat (len + 1)) a);
      if r <? 0 then mret None else
      exec_args argv (argc + 1) pgdir sp (ustack ++ [sp])
  end.

(** [for(last=s=path; *s; s++) if( *s == '/') last = s+1;] *)
Fixpoint last_elem (s last : list Z) : option (list Z) :=
  match s with
  | [] => None
  | c :: s => if c =? 0 then Some last else last_elem s (if c =? slash then s else last)
  end.

(** From the stack on: everything after [ip = 0]. *)
Definition exec_stack (i : nat) (pgdir sz entry : Z) (path : list Z) (argv : list (list Z)) : K Z :=
  let sz := PGROUNDUP sz in
  r ← allocuvm pgdir (u32 (STACK_TOP - PGSIZE)) STACK_TOP;
  if r =? 0 then exec_bad pgdir None else
  r ← exec_args argv 0 pgdir STACK_TOP [];
  match r with
  | None => exec_bad pgdir None
  | Some (sp, us) =>
      let argc := Z.of_nat (length argv) in
      let ustack := [0xffffffff; argc; u32 (sp - (argc + 1) * 4)] ++ us ++ [0] in
      let sp := u32 (sp - (3 + argc + 1) * 4) in
      r ← copyout pgdir sp (mjoin (le32 <$> ustack));
      if r <? 0 then exec_bad pgdir None else
      (* Save program name for debugging. *)
      last ← lift (last_elem path path);
      pr ← proc_at (Some i);
      name ← lift (safestrcpy (p_name pr) last 16);
      set_proc i (upd_p_name (λ _, name));;
      (* Commit to the user image. *)
      let oldpgdir := p_pgdir pr in
      set_proc i (upd_p_pgdir (λ _, pgdir));;
      set_proc i (upd_p_sz (λ _, sz));;
      write32 (p_tf pr + tf_eip) entry;;
      write32 (p_tf pr + tf_esp) sp;;
      set_proc i (upd_p_stacktop (λ _, STACK_TOP));;
      set_proc i (upd_p_stackSize (λ _, 1));;
      switchuvm (Some i);;
      freevm oldpgdir;;
      mret 0
  end.

Definition exec (path : list Z) (argv : list (list Z)) : K Z :=
  cur ← myproc;
  begin_op;;
  ip ← namei path;
  match ip with
  | None =>
      end_op;;
      cprintf ("exec: fail" +:+ nl) [];;
      mret (-1)
  | Some ip =>
      ilock (Some ip);;
      (* Check ELF header *)
      '(r, elf) ← readi ip 0 sizeof_elfhdr;
      if negb (r =? sizeof_elfhdr) then exec_bad 0 (Some ip) else
      if negb (rd32 elf 0 =? ELF_MAGIC) then exec_bad 0 (Some ip) else
      pgdir ← setupkvm;
      if pgdir =? 0 then exec_bad 0 (Some ip) else
      r ← exec_load (Z.to_nat (rd16 elf 44)) pgdir ip (rd32 elf 28) 0;
      match r with
      | None => exec_bad pgdir (Some ip)
      | Some sz =>
          iunlockput ip;;
          end_op;;
          i ← lift cur;
          exec_stack i pgdir sz (rd32 elf 24) path argv
      end
  end.
End exec.
