(* ===== verification/Sysproc.v ===== *)
(** Sysproc: [sysproc.c] and [shm.c]. *)

From S2P Require Import Prelude Layout State Mem Spinlock Console Kalloc Vm Sched Bytes Sleeplock Disk Bio Log Fs ConsoleDev Dir Pipe File Proc Usermem.

Section sysproc.
Context {KI : KernelImage} {ENV : Env} {DRV : DiskDriver}.

(** ** [shm.c] *)

Definition shminit : K unit :=
  initlock L_shm;;
  acquire L_shm;;
  for_ 64 0 (λ i, modify (upd_k_shm <[Z.to_nat i := MkShmPage 0 0 0]>));;
  release L_shm.

Definition shm_open (id pointer : Z) : K Z := mret 0.
Definition shm_close (id : Z) : K Z := mret 0.

(** ** [sysproc.c] *)

Definition sys_shm_open : K Z :=
  id ← argint 0;
  match id with
  | None => mret (-1)
  | Some id =>
      pointer ← argptr 1 4;
      match pointer with
      | None => mret (-1)
      | Some pointer => shm_open id pointer
      end
  end.

Definition sys_shm_close : K Z :=
  id ← argint 0;
  match id with
  | None => mret (-1)
  | Some id => shm_close id
  end.

Definition sys_fork : K Z := fork.
Definition sys_exit : K Z := exit;; mret 0.
Definition sys_wait : K Z := wait.

Definition sys_kill : K Z :=
  pid ← argint 0;
  match pid with
  | None => mret (-1)
  | Some pid => kill pid
  end.

Definition sys_getpid : K Z :=
  p ← myproc;
  pr ← proc_at p;
  mret (p_pid pr).

Definition sys_sbrk : K Z :=
  n ← argint 0;
  match n with
  | None => mret (-1)
  | Some n =>
      p ← myproc;
      pr ← proc_at p;
      let addr := s32 (p_sz pr) in
      r ← growproc n;
      if r <? 0 then mret (-1) else mret addr
  end.

(** [while(ticks - ticks0 < n)], an unsigned comparison *)
Fixpoint sys_sleep_loop (turns : nat) (ticks0 n : Z) : K Z :=
  ticks ← gets (λ s, k_ticks s);
  if u32 (ticks - ticks0) <? u32 n then
    k ← killed;
    if (k : bool) then release L_ticks;; mret (-1) else
    match turns with
    | O => nofuel
    | S turns => sleep Chan_ticks (Some L_ticks);; sys_sleep_loop turns ticks0 n
    end
  else
    release L_ticks;;
    mret 0.

Definition sys_sleep : K Z :=
  n ← argint 0;
  match n with
  | None => mret (-1)
  | Some n =>
      acquire L_ticks;;
      ticks0 ← gets (λ s, k_ticks s);
      sys_sleep_loop env_turns ticks0 n
  end.

Definition sys_uptime : K Z :=
  acquire L_ticks;;
  xticks ← gets (λ s, k_ticks s);
  release L_ticks;;
  mret (s32 xticks).
End sysproc.
