(* ===== verification/Sysfile.v ===== *)
(** Sysfile: the file-system calls of [sysfile.c]. *)

From S2P Require Import Prelude Layout State Mem Spinlock Console Kalloc Vm Sched Bytes CString Sleeplock Disk Bio Log Fs ConsoleDev Dir Pipe File Proc Usermem Exec.

Section sysfile.
Context {KI : KernelImage} {ENV : Env} {DRV : DiskDriver}.

(** The descriptor and the file; [None] is the return value -1. *)
Definition argfd (n : Z) : K (option (nat * nat)) :=
  fd ← argint n;
  match fd with
  | None => mret None
  | Some fd =>
      if (fd <? 0) || (NOFILE <=? fd) then mret None else
      p ← myproc;
      pr ← proc_at p;
      f ← lift (p_ofile pr !! Z.to_nat fd);
      mret (match f with Some f => Some (Z.to_nat fd, f) | None => None end)
  end.

(** [for(fd = 0; fd < NOFILE; fd++) if(curproc->ofile[fd] == 0)] *)
Fixpoint fd_scan (l : list (option nat)) (fd : nat) : option nat :=
  match l with
  | [] => None
  | None :: _ => Some fd
  | Some _ :: l => fd_scan l (S fd)
  end.

Definition fdalloc (f : nat) : K (option nat) :=
  p ← myproc;
  i ← lift p;
  pr ← proc_at p;
  match fd_scan (p_ofile pr) 0 with
  | None => mret None
  | Some fd =>
      set_proc i (upd_p_ofile <[fd := Some f]>);;
      mret (Some fd)
  end.

Definition sys_dup : K Z :=
  r ← argfd 0;
  match r with
  | None => mret (-1)
  | Some (_, f) =>
      fd ← fdalloc f;
      match fd with
      | None => mret (-1)
      | Some fd => filedup f;; mret (Z.of_nat fd)
      end
  end.

(** The common argument check of [sys_read] and [sys_write]. *)
Definition rw_args : K (option (nat * Z * Z)) :=
  r ← argfd 0;
  match r with
  | None => mret None
  | Some (_, f) =>
      n ← argint 2;
      match n with
      | None => mret None
      | Some n =>
          p ← argptr 1 n;
          mret (match p with Some p => Some (f, p, n) | None => None end)
      end
  end.

Definition sys_read : K Z :=
  r ← rw_args;
  match r with
  | None => mret (-1)
  | Some (f, p, n) =>
      '(r, bs) ← fileread f n;
      ustores p bs;;
      mret r
  end.

Definition sys_write : K Z :=
  r ← rw_args;
  match r with
  | None => mret (-1)
  | Some (f, p, n) =>
      bs ← uloads (Z.to_nat n) p;
      filewrite f bs
  end.

Definition sys_close : K Z :=
  r ← argfd 0;
  match r with
  | None => mret (-1)
  | Some (fd, f) =>
      p ← myproc;
      i ← lift p;
      set_proc i (upd_p_ofile <[fd := None]>);;
      fileclose f;;
      mret 0
  end.

(** [struct stat]: type (2), dev at 4, ino at 8, nlink at 12 (2), size at 16; the
    padding keeps what user memory held. *)
Definition sizeof_stat : Z := 20.
Definition store_stat (p : Z) (st : stat) : K unit :=
  ustores p (le16 (st_type st));;
  ustores (p + 4) (le32 (st_dev st));;
  ustores (p + 8) (le32 (st_ino st));;
  ustores (p + 12) (le16 (st_nlink st));;
  ustores (p + 16) (le32 (st_size st)).

Definition sys_fstat : K Z :=
  r ← argfd 0;
  match r with
  | None => mret (-1)
  | Some (_, f) =>
      p ← argptr 1 sizeof_stat;
      match p with
      | None => mret (-1)
      | Some p =>
          '(r, st) ← filestat f;
          match st with Some st => store_stat p st | None => mret tt end;;
          mret r
      end
  end.

(** An uninitialised [char name[DIRSIZ]]. *)
Definition name0 : list Z := replicate (Z.to_nat DIRSIZ) 0.

(** The label [bad] of [sys_link]. *)
Definition sys_link_bad (ip : nat) : K Z :=
  ilock (Some ip);;
  set_inode ip (upd_i_nlink (λ n, s16 (n - 1)));;
  iupdate ip;;
  iunlockput ip;;
  end_op;;
  mret (-1).

Definition sys_link : K Z :=
  old ← argstr 0;
  match old with
  | None => mret (-1)
  | Some old =>
  new ← argstr 1;
  match new with
  | None => mret (-1)
  | Some new =>
      begin_op;;
      ip ← namei old;
      match ip with
      | None => end_op;; mret (-1)
      | Some ip =>
          ilock (Some ip);;
          x ← inode_at ip;
          if i_type x =? T_DIR then
            iunlockput ip;;
            end_op;;
            mret (-1)
          else
          set_inode ip (upd_i_nlink (λ n, s16 (n + 1)));;
          iupdate ip;;
          iunlock (Some ip);;
          '(dp, name) ← nameiparent new name0;
          match dp with
          | None => sys_link_bad ip
          | Some dp =>
              ilock (Some dp);;
              d ← inode_at dp;
              x ← inode_at ip;
              r ← (if negb (i_dev d =? i_dev x) then mret (-1) else dirlink dp name (i_inum x));
              iunlockput dp;;
              if r <? 0 then sys_link_bad ip else
              iput ip;;
              end_op;;
              mret 0
          end
      end
  end
  end.

(** [for(off=2*sizeof(de); off<dp->size; off+=sizeof(de))] *)
Fixpoint isdirempty_loop (fuel : nat) (dp : nat) (off : Z) : K bool :=
  x ← inode_at dp;
  if off <? i_size x then
    match fuel with
    | O => nofuel
    | S fuel =>
        '(r, de) ← readi dp off sizeof_dirent;
        if negb (r =? sizeof_dirent) then panic "isdirempty: readi" else
        if negb (de_inum de =? 0) then mret false
        else isdirempty_loop fuel dp (off + sizeof_dirent)
    end
  else mret true.

Definition isdirempty (dp : nat) : K bool :=
  x ← inode_at dp;
  isdirempty_loop (Z.to_nat (i_size x / sizeof_dirent + 1)) dp (2 * sizeof_dirent).

(** The label [bad] of [sys_unlink]. *)
Definition sys_unlink_bad (dp : nat) : K Z :=
  iunlockput dp;;
  end_op;;
  mret (-1).

Definition sys_unlink : K Z :=
  path ← argstr 0;
  match path with
  | None => mret (-1)
  | Some path =>
      begin_op;;
      '(dp, name) ← nameiparent path name0;
      match dp with
      | None => end_op;; mret (-1)
      | Some dp =>
          ilock (Some dp);;
          (* Cannot unlink "." or "..". *)
          c1 ← lift (namecmp name (chars "." ++ [0]));
          c2 ← lift (namecmp name (chars ".." ++ [0]));
          if (c1 =? 0) || (c2 =? 0) then sys_unlink_bad dp else
          r ← dirlookup dp name;
          match r with
          | None => sys_unlink_bad dp
          | Some (ip, off) =>
              ilock (Some ip);;
              x ← inode_at ip;
              if i_nlink x <? 1 then panic "unlink: nlink < 1" else
              e ← (if i_type x =? T_DIR then isdirempty ip else mret true);
              if negb e then
                iunlockput ip;;
                sys_unlink_bad dp
              else
              w ← writei dp (replicate (Z.to_nat sizeof_dirent) 0) off;
              if negb (w =? sizeof_dirent) then panic "unlink: writei" else
              x ← inode_at ip;
              whenb (i_type x =? T_DIR)
                (set_inode dp (upd_i_nlink (λ n, s16 (n - 1)));;
                 iupdate dp);;
              iunlockput dp;;
              set_inode ip (upd_i_nlink (λ n, s16 (n - 1)));;
              iupdate ip;;
              iunlockput ip;;
              end_op;;
              mret 0
          end
      end
  end.

Definition create (path : list Z) (type major minor : Z) : K (option nat) :=
  '(dp, name) ← nameiparent path name0;
  match dp with
  | None => mret None
  | Some dp =>
      ilock (Some dp);;
      r ← dirlookup dp name;
      match r with
      | Some (ip, _) =>
          iunlockput dp;;
          ilock (Some ip);;
          x ← inode_at ip;
          if (type =? T_FILE) && (i_type x =? T_FILE) then mret (Some ip) else
          iunlockput ip;;
          mret None
      | None =>
          d ← inode_at dp;
          ip ← ialloc (i_dev d) type;
          ilock (Some ip);;
          set_inode ip (upd_i_major (λ _, s16 major));;
          set_inode ip (upd_i_minor (λ _, s16 minor));;
          set_inode ip (upd_i_nlink (λ _, 1));;
          iupdate ip;;
          whenb (type =? T_DIR)                       (* Create . and .. entries. *)
            (set_inode dp (upd_i_nlink (λ n, s16 (n + 1)));;    (* for ".." *)
             iupdate dp;;
             x ← inode_at ip;
             r ← dirlink ip (chars "." ++ [0]) (i_inum x);
             if r <? 0 then panic "create dots" else
             d ← inode_at dp;
             r ← dirlink ip (chars ".." ++ [0]) (i_inum d);
             if r <? 0 then panic "create dots" else mret tt);;
          x ← inode_at ip;
          r ← dirlink dp name (i_inum x);
          if r <? 0 then panic "create: dirlink" else
          iunlockput dp;;
          mret (Some ip)
      end
  end.

(** The locked inode [sys_open] opens; [None] after [end_op]. *)
Definition open_inode (path : list Z) (omode : Z) : K (option nat) :=
  if has_flag omode O_CREATE then
    ip ← create path T_FILE 0 0;
    match ip with
    | None => end_op;; mret None
    | Some ip => mret (Some ip)
    end
  else
    ip ← namei path;
    match ip with
    | None => end_op;; mret None
    | Some ip =>
        ilock (Some ip);;
        x ← inode_at ip;
        if (i_type x =? T_DIR) && negb (omode =? O_RDONLY) then
          iunlockput ip;;
          end_op;;
          mret None
        else mret (Some ip)
    end.

Definition sys_open : K Z :=
  path ← argstr 0;
  match path with
  | None => mret (-1)
  | Some path =>
  omode ← argint 1;
  match omode with
  | None => mret (-1)
  | Some omode =>
      begin_op;;
      ip ← open_inode path omode;
      match ip with
      | None => mret (-1)
      | Some ip =>
          f ← filealloc;
          match f with
          | None => iunlockput ip;; end_op;; mret (-1)
          | Some f =>
              fd ← fdalloc f;
              match fd with
              | None =>
                  fileclose f;;
                  iunlockput ip;;
                  end_op;;
                  mret (-1)
              | Some fd =>
                  iunlock (Some ip);;
                  end_op;;
                  set_file f (upd_f_type (λ _, FD_INODE));;
                  set_file f (upd_f_ip (λ _, Some ip));;
                  set_file f (upd_f_off (λ _, 0));;
                  set_file f (upd_f_readable (λ _, negb (has_flag omode O_WRONLY)));;
                  set_file f (upd_f_writable (λ _, has_flag omode O_WRONLY || has_flag omode O_RDWR));;
                  mret (Z.of_nat fd)
              end
          end
      end
  end
  end.

Definition sys_mkdir : K Z :=
  begin_op;;
  path ← argstr 0;
  ip ← (match path with None => mret None | Some path => create path T_DIR 0 0 end);
  match ip with
  | None => end_op;; mret (-1)
  | Some ip =>
      iunlockput ip;;
      end_op;;
      mret 0
  end.

Definition sys_mknod : K Z :=
  begin_op;;
  path ← argstr 0;
  ip ← (match path with
        | None => mret None
        | Some path =>
            major ← argint 1;
            match major with
            | None => mret None
            | Some major =>
                minor ← argint 2;
                match minor with
                | None => mret None
                | Some minor => create path T_DEV major minor
                end
            end
        end);
  match ip with
  | None => end_op;; mret (-1)
  | Some ip =>
      iunlockput ip;;
      end_op;;
      mret 0
  end.

Definition sys_chdir : K Z :=
  cur ← myproc;
  i ← lift cur;
  begin_op;;
  path ← argstr 0;
  ip ← (match path with None => mret None | Some path => namei path end);
  match ip with
  | None => end_op;; mret (-1)
  | Some ip =>
      ilock (Some ip);;
      x ← inode_at ip;
      if negb (i_type x =? T_DIR) then
        iunlockput ip;;
        end_op;;
        mret (-1)
      else
      iunlock (Some ip);;
      pr ← proc_at cur;
      cwd ← lift (p_cwd pr);
      iput cwd;;
      end_op;;
      set_proc i (upd_p_cwd (λ _, Some ip));;
      mret 0
  end.

(** [for(i=0;; i++)]: the argument strings; [None] is the return value -1. *)
Fixpoint exec_argv (n : nat) (uargv : Z) : K (option (list (list Z))) :=
  match n with
  | O => mret None
  | S n =>
      uarg ← fetchint uargv;
      match uarg with
      | None => mret None
      | Some uarg =>
          if uarg =? 0 then mret (Some []) else
          a ← fetchstr (u32 uarg);
          match a with
          | None => mret None
          | Some a => r ← exec_argv n (u32 (uargv + 4)); mret (cons a <$> r)
          end
      end
  end.

Definition sys_exec : K Z :=
  path ← argstr 0;
  match path with
  | None => mret (-1)
  | Some path =>
      uargv ← argint 1;
      match uargv with
      | None => mret (-1)
      | Some uargv =>
          argv ← exec_argv (Z.to_nat MAXARG) (u32 uargv);
          match argv with
          | None => mret (-1)
          | Some argv => exec path argv
          end
      end
  end.

Definition sys_pipe : K Z :=
  fd ← argptr 0 8;
  match fd with
  | None => mret (-1)
  | Some fd =>
      r ← pipealloc;
      match r with
      | None => mret (-1)
      | Some (rf, wf) =>
          fd0 ← fdalloc rf;
          fd1 ← (match fd0 with None => mret None | Some _ => fdalloc wf end);
          match fd0, fd1 with
          | Some fd0, Some fd1 =>
              ustores fd (le32 (Z.of_nat fd0));;
              ustores (u32 (fd + 4)) (le32 (Z.of_nat fd1));;
              mret 0
          | _, _ =>
              match fd0 with
              | Some fd0 =>
                  p ← myproc;
                  i ← lift p;
                  set_proc i (upd_p_ofile <[fd0 := None]>)
              | None => mret tt
              end;;
              fileclose rf;;
              fileclose wf;;
              mret (-1)
          end
      end
  end.
End sysfile.
