(* ===== verification/Syscall.v ===== *)
(** Syscall: the dispatcher of [syscall.c]. *)

From S2P Require Import Prelude Layout State Mem Spinlock Console Kalloc Sched CString Disk Proc Usermem Sysproc Sysfile.

Section syscall.
Context {KI : KernelImage} {ENV : Env} {DRV : DiskDriver}.

(** The table [syscalls], indexed by the numbers of syscall.h. *)
Definition syscalls (num : Z) : option (K Z) :=
  match num with
  | 1 => Some sys_fork
  | 2 => Some sys_exit
  | 3 => Some sys_wait
  | 4 => Some sys_pipe
  | 5 => Some sys_read
  | 6 => Some sys_kill
  | 7 => Some sys_exec
  | 8 => Some sys_fstat
  | 9 => Some sys_chdir
  | 10 => Some sys_dup
  | 11 => Some sys_getpid
  | 12 => Some sys_sbrk
  | 13 => Some sys_sleep
  | 14 => Some sys_uptime
  | 15 => Some sys_open
  | 16 => Some sys_write
  | 17 => Some sys_mknod
  | 18 => Some sys_unlink
  | 19 => Some sys_link
  | 20 => Some sys_mkdir
  | 21 => Some sys_close
  | 22 => Some sys_shm_open
  | 23 => Some sys_shm_close
  | _ => None
  end.

Definition syscall : K unit :=
  cur ← myproc;
  pr ← proc_at cur;
  num ← gets (λ s, s32 (ld32 (k_mem s) (p_tf pr + tf_eax)));
  match syscalls num with
  | Some f =>
      r ← f;
      pr ← proc_at cur;
      write32 (p_tf pr + tf_eax) r
  | None =>
      cprintf ("%d %s: unknown sys call %d" +:+ nl) [AInt (p_pid pr); AStr (Some (cstr (p_name pr))); AInt num];;
      write32 (p_tf pr + tf_eax) (-1)
  end.
End syscall.
