(* ===== verification/Trap.v ===== *)
(** Trap: [trap] of [trap.c].

    [tf] is the address of the trap frame, [cr2] the faulting address the
    processor reports.  The disk's interrupt goes to the driver linked into
    the kernel, those of the keyboard and the serial line to [Kbd] and
    [Screen]. *)

From S2P Require Import Prelude Layout State Mem Spinlock Console Kalloc Vm Sched CString Ports Apic Disk ConsoleDev Kbd Screen Dir Proc Syscall.

Section trap.
Context {KI : KernelImage} {ENV : Env} {DRV : DiskDriver} {DEV : Device}.

Definition read32 (a : Z) : K Z := gets (λ s, ld32 (k_mem s) a).
(** [tf->cs], a [ushort] *)
Definition tf_get_cs (tf : Z) : K Z := gets (λ s, u16 (ld32 (k_mem s) (tf + tf_cs))).

(** [mycpu()-cpus] *)
Definition cpuid : K Z := c ← mycpu; mret (c_id c).

(** [case T_PGFLT] *)
Definition trap_pgflt (addr : Z) : K unit :=
  cur ← myproc;
  i ← lift cur;
  pr ← proc_at cur;
  let stack_addr := u32 (STACK_TOP - p_stackSize pr * PGSIZE) in
  if PGROUNDDOWN addr <=? stack_addr then
    r ← allocuvm (p_pgdir pr) (PGROUNDDOWN addr) stack_addr;
    if r =? 0 then panic "Messed Up" else
    set_proc i (upd_p_stackSize (λ n, u32 (n + 1)))
  else mret tt.

(** In kernel, it must be our mistake. *)
Definition trap_mistake (trapno cpu eip cr2 : Z) : K unit :=
  cprintf ("unexpected trap %d from cpu %d eip %x (cr2=0x%x)" +:+ nl) [AInt trapno; AInt cpu; AInt eip; AInt cr2];;
  panic "trap".

(** [default] *)
Definition trap_default (tf cr2 trapno : Z) : K unit :=
  cur ← myproc;
  cs ← tf_get_cs tf;
  eip ← read32 (tf + tf_eip);
  cpu ← cpuid;
  match cur with
  | Some i =>
      if Z.land cs 3 =? 0 then trap_mistake trapno cpu eip cr2 else
      (* In user space, assume process misbehaved. *)
      pr ← proc_at cur;
      err ← read32 (tf + tf_err);
      cprintf ("pid %d %s: trap %d err %d on cpu %d eip 0x%x addr 0x%x--kill proc" +:+ nl)
        [AInt (p_pid pr); AStr (Some (cstr (p_name pr))); AInt trapno; AInt err; AInt cpu; AInt eip; AInt cr2];;
      set_proc i (upd_p_killed (λ _, 1))
  | None => trap_mistake trapno cpu eip cr2
  end.

(** The [switch] on [tf->trapno]. *)
Definition trap_switch (tf cr2 : Z) (trapno : Z) : K unit :=
  if trapno =? T_IRQ0 + IRQ_TIMER then
    cpu ← cpuid;
    whenb (cpu =? 0)
      (acquire L_ticks;;
       modify (upd_k_ticks (λ t, u32 (t + 1)));;
       wakeup Chan_ticks;;
       release L_ticks);;
    Lapic.lapiceoi
  else if trapno =? T_IRQ0 + IRQ_IDE then ideintr;; Lapic.lapiceoi
  else if trapno =? T_IRQ0 + IRQ_IDE + 1 then mret tt
  else if trapno =? T_IRQ0 + IRQ_KBD then kbdintr procdump;; Lapic.lapiceoi
  else if trapno =? T_IRQ0 + IRQ_COM1 then Uart.uartintr procdump;; Lapic.lapiceoi
  else if (trapno =? T_IRQ0 + 7) || (trapno =? T_IRQ0 + IRQ_SPURIOUS) then
    cpu ← cpuid;
    cs ← tf_get_cs tf;
    eip ← read32 (tf + tf_eip);
    cprintf ("cpu%d: spurious interrupt at %x:%x" +:+ nl) [AInt cpu; AInt cs; AInt eip];;
    Lapic.lapiceoi
  else if trapno =? T_PGFLT then trap_pgflt cr2
  else trap_default tf cr2 trapno.

(** [if(myproc() && myproc()->killed && (tf->cs&3) == DPL_USER) exit();] *)
Definition exit_if_killed (tf : Z) : K unit :=
  cur ← myproc;
  match cur with
  | None => mret tt
  | Some _ =>
      k ← proc_at cur;
      cs ← tf_get_cs tf;
      whenb (negb (p_killed k =? 0) && (Z.land cs 3 =? DPL_USER)) exit
  end.

Definition trap (tf cr2 : Z) : K unit :=
  trapno ← read32 (tf + tf_trapno);
  if trapno =? T_SYSCALL then
    cur ← myproc;
    i ← lift cur;
    pr ← proc_at cur;
    whenb (negb (p_killed pr =? 0)) exit;;
    set_proc i (upd_p_tf (λ _, tf));;
    syscall;;
    cur ← myproc;
    pr ← proc_at cur;
    whenb (negb (p_killed pr =? 0)) exit
  else
  trap_switch tf cr2 trapno;;
  exit_if_killed tf;;
  (* Force process to give up CPU on clock tick. *)
  cur ← myproc;
  match cur with
  | None => mret tt
  | Some _ =>
      pr ← proc_at cur;
      whenb (is_state RUNNING pr && (trapno =? T_IRQ0 + IRQ_TIMER)) yield
  end;;
  (* Check if the process has been killed since we yielded *)
  exit_if_killed tf.
End trap.
