(* ===== verification/ProcSpec.v ===== *)
(** ProcSpec: a process is created.

    What [allocproc] leaves in the process table and on the new kernel stack,
    with the page allocator behind its interface. *)

From S2P Require Import Prelude Layout State Mem Spinlock Kalloc Sched Sleeplock Ready Disk Proc.

(** A critical section may be entered. *)
Definition quiet (s : kstate) : Prop := cpu_wf (k_cpu s) ∧ k_locks s = ∅.

Lemma quiet_same s s' : same_kernel s s' → quiet s → quiet s'.
Proof.
  intros (Hc & Hl & _)%same_kernel_inv [Hw Hq]. apply cpu_sync_inv in Hc as [_ Hc].
  split; [by apply Hc|by rewrite <- Hl].
Qed.

#[local] Arguments cpu_sync : simpl never.

Section allocproc.
Context {KI : KernelImage} {ENV : Env} {pages : kstate → list Z → Prop} {PA : PageAllocator pages}.

(** The new process, its stack page being [v]. *)
Definition new_tf (v : Z) : Z := v + KSTACKSIZE - sizeof_tf.
Definition new_context (v : Z) : Z := new_tf v - 4 - sizeof_ctx.
Definition embryo (v pid : Z) (p : proc) : proc :=
  upd_p_context (λ _, new_context v) (upd_p_tf (λ _, new_tf v) (upd_p_kstack (λ _, v)
    (upd_p_pid (λ _, pid) (upd_p_state (λ _, EMBRYO) p)))).
Definition new_stack (v : Z) (m : gmap Z Z) : gmap Z Z :=
  st32 (memset (st32 m (new_tf v - 4) k_trapret) (new_context v) 0 sizeof_ctx) (new_context v + ctx_eip) k_forkret.

Lemma new_stack_words v m a :
  page_ok v → a mod 4 = 0 →
  ld32 (new_stack v m) a =
    if decide (a = new_context v + ctx_eip) then u32 k_forkret
    else if decide (new_context v ≤ a < new_context v + sizeof_ctx) then 0
    else if decide (a = new_tf v - 4) then u32 k_trapret else ld32 m a.
Proof.
  intros Hv Ha. pose proof (page_ok_align v Hv) as [_ H4]. pose proof (page_ok_range v Hv).
  unfold new_stack. rewrite ld32_st32, ld32_memset_zero, ld32_st32; [|try done..].
  - repeat case_decide; try done; lia.
  - unfold new_context, new_tf, KSTACKSIZE, sizeof_tf, sizeof_ctx, KERNBASE, EXTMEM, PHYSTOP, PGSIZE, two32 in *. lia.
  - unfold new_context, new_tf, KSTACKSIZE, sizeof_tf, sizeof_ctx. 
    replace (v + 4096 - 76 - 4 - 20) with (v + 999 * 4) by lia. by rewrite Z.mod_add.
Qed.

Lemma new_stack_other v m a :
  page_ok v → a mod 4 = 0 → ¬ in_page v a → ld32 (new_stack v m) a = ld32 m a.
Proof.
  intros Hv Ha Hin. rewrite new_stack_words by done.
  unfold in_page, new_context, new_tf, KSTACKSIZE, PGSIZE, sizeof_tf, sizeof_ctx, ctx_eip in *.
  rewrite !decide_False by lia. done.
Qed.

Lemma allocproc_run s v l p :
  quiet s → pages s (v :: l) → proc_scan (is_state UNUSED) (k_procs s) 0 = Some p →
  ∃ s', allocproc s = Ret (Some p) s' ∧ k_procs s' = alter (embryo v (k_nextpid s)) p (k_procs s) ∧
    k_mem s' = new_stack v (k_mem s) ∧ k_nextpid s' = k_nextpid s + 1 ∧ 
    same_kernel (upd_k_nextpid (λ _, k_nextpid s') (upd_k_procs (λ _, k_procs s') s)) s' ∧ pages s' l.
Proof.
  intros [Hwf Hl] Hpg Hscan. unfold allocproc.
  erewrite bind_Ret; [|apply acquire_ok; rewrite Hl; done]. cbn beta.
  rewrite bind_gets. change (k_procs (locked L_ptable s)) with (k_procs s). rewrite Hscan.
  unfold set_proc. msteps. cbn beta.
  erewrite bind_Ret; [|apply (release_settles L_ptable s); [done|by rewrite Hl|done|done]]. cbn beta.
  match goal with |- context [settled s ?x] => set (s2 := settled s x) end.
  assert (Hp2 : pages s2 (v :: l)).
  { apply (pa_frame s); try done. cbn. by rewrite cpu_sync_idemp. }
  destruct (pa_alloc s2 v l Hp2) as (s3 & Hrun & Hp3 & Hm3 & Hs3).
  mrun Hrun. unfold set_proc, write32. msteps.
  pose proof (pa_pages s2 _ Hp2) as [Hnd Hok]. apply Forall_cons in Hok as [Hv Hok].
  pose proof (page_ok_nonzero v Hv) as Hv0%Z.eqb_neq. rewrite Hv0. unfold set_proc, write32. msteps.
  eexists. split; [done|].
  pose proof (f_equal k_procs Hs3) as Hpr. pose proof (f_equal k_nextpid Hs3) as Hid. cbn in Hpr, Hid.
  split. { cbn. rewrite <- Hpr. by rewrite !list_alter_alter_eq. }
  split. { cbn. by rewrite Hm3. }
  split. { cbn. rewrite <- Hid. lia. }
  split.
  { match goal with |- same_kernel _ ?x => set (s4 := x) end.
    change (erase (upd_k_nextpid (λ _, k_nextpid s4) (upd_k_procs (λ _, k_procs s4) s)) =
            upd_k_nextpid (λ _, k_nextpid s4) (upd_k_procs (λ _, k_procs s4) (erase s3))).
    unfold same_kernel in Hs3. rewrite <- Hs3.
    apply kstate_eq; try reflexivity. exact (eq_sym (cpu_sync_idemp (k_cpu s))). }
  match goal with |- pages ?x l => set (s4 := x) end.
  apply (pa_frame (upd_k_mem (λ _, new_stack v (k_mem s3)) s3)); [|done..].
  apply pa_write; [done|]. intros q a Hq Ha Ha4. apply new_stack_other; [done..|].
  intros Hin. rewrite Forall_forall in Hok. apply NoDup_cons in Hnd as [Hnd _].
  rewrite (in_page_eq v q a) in Hnd; try done; apply page_ok_align; auto.
Qed.
End allocproc.
