(* ===== verification/Fork.v ===== *)
(** Fork: [fork] as a whole.

    The child is a copy: of the address space ([CopyUvm]), of the trap frame
    with [eax] cleared, and of the open files and the directory, whose
    reference counts grow by the references the child has. *)

From S2P Require Import Prelude Layout State Mem Spinlock Kalloc Vm PageTable AddressSpace Unmap KernelMap CopyUvm CString Sched Bytes Sleeplock Ready Disk Bio Log Fs Dir File Proc ProcSpec.

#[local] Arguments cpu_sync : simpl never.

Lemma list_alter_here {A} (f : A → A) (l : list A) i x : l !! i = Some x → alter f i l = <[i := f x]> l.
Proof.
  intros Hx. rewrite list_insert_alter. apply list_alter_ext; [|done]. intros y Hy. congruence.
Qed.

Section fork.
#[local] Hint Resolve PDX_idx PTX_idx : kernel.
Context {KI : KernelImage} {ENV : Env} {DRV : DiskDriver}.

Lemma filedup_run s f x :
  quiet s → k_files s !! f = Some x → 1 ≤ f_ref x →
  filedup f s = Ret f (sync (upd_k_files (alter (upd_f_ref (Z.add 1)) f) s)).
Proof.
  intros [Hwf Hl] Hx Href. unfold filedup.
  erewrite bind_Ret; [|apply acquire_ok; by rewrite Hl]. cbn beta.
  unfold file_at. erewrite bind_deref by exact Hx.
  rewrite (proj2 (Z.ltb_ge _ _)) by done. unfold set_file. msteps.
  erewrite bind_Ret; [|apply (release_settles L_ftable s); [done|by rewrite Hl|done|done]].
  apply (f_equal (Ret f)). apply kstate_eq; reflexivity.
Qed.

Lemma idup_run s ip x :
  quiet s → k_inodes s !! ip = Some x →
  idup ip s = Ret ip (sync (upd_k_inodes (alter (upd_i_ref (Z.add 1)) ip) s)).
Proof.
  intros [Hwf Hl] Hx. unfold idup.
  erewrite bind_Ret; [|apply acquire_ok; by rewrite Hl]. cbn beta.
  unfold inode_at. erewrite bind_deref by exact Hx. unfold set_inode. msteps.
  erewrite bind_Ret; [|apply (release_settles L_icache s); [done|by rewrite Hl|done|done]].
  apply (f_equal (Ret ip)). apply kstate_eq; reflexivity.
Qed.

(** ** The open files *)

Definition dup_files (l : list (option nat)) (F : list file) : list file :=
  foldl (λ F o, match o with Some f => alter (upd_f_ref (Z.add 1)) f F | None => F end) F l.

(** How often [f] is open. *)
Definition opens (l : list (option nat)) (f : nat) : nat := length (List.filter (λ o, bool_decide (o = Some f)) l).

Lemma dup_files_lookup l F f x :
  F !! f = Some x → dup_files l F !! f = Some (upd_f_ref (Z.add (Z.of_nat (opens l f))) x).
Proof.
  revert F x. induction l as [|o l IH]; intros F x Hx; [by destruct x|]. unfold opens.
  cbn. destruct o as [g|]; [|rewrite bool_decide_eq_false_2 by done; by apply IH].
  destruct (decide (g = f)) as [->|Hne].
  - rewrite bool_decide_eq_true_2 by done. cbn [length].
    change (dup_files l (alter (upd_f_ref (Z.add 1)) f F) !! f = Some (upd_f_ref (Z.add (Z.of_nat (S (opens l f)))) x)).
    rewrite (IH _ (upd_f_ref (Z.add 1) x)) by (rewrite list_lookup_alter_eq, Hx; done).
    unfold upd_f_ref, opens. cbn. do 2 f_equal. lia.
  - rewrite bool_decide_eq_false_2 by congruence. apply IH. by rewrite list_lookup_alter_ne.
Qed.

Section files.
Context (i np : nat) (sb : kstate) (pr n : proc).
Context (Hq : quiet sb) (Hi : k_procs sb !! i = Some pr) (Hn : k_procs sb !! np = Some n) (Hne : np ≠ i).
Context (Hlen : length (p_ofile pr) = Z.to_nat NOFILE) (Hold : p_ofile n = replicate (Z.to_nat NOFILE) None).
Context (Hopen : ∀ f, Some f ∈ p_ofile pr → ∃ x, k_files sb !! f = Some x ∧ 1 ≤ f_ref x).

(** [ofile[0..k)] has been copied. *)
Definition dup_state (c : cpu) (k : nat) : kstate :=
  upd_k_cpu (λ _, c) (upd_k_files (λ _, dup_files (take k (p_ofile pr)) (k_files sb))
    (upd_k_procs (λ _, alter (upd_p_ofile (λ l, take k (p_ofile pr) ++ drop k l)) np (k_procs sb)) sb)).

Definition fork_file (fd : Z) : K unit :=
  c ← proc_at (Some i);
  f ← lift (p_ofile c !! Z.to_nat fd);
  match f with
  | None => mret tt
  | Some f => f ← filedup f; set_proc np (upd_p_ofile <[Z.to_nat fd := Some f]>)
  end.

Lemma child_list k o :
  p_ofile pr !! k = Some o →
  take (S k) (p_ofile pr) ++ drop (S k) (p_ofile n) = <[k := o]> (take k (p_ofile pr) ++ drop k (p_ofile n)).
Proof.
  intros Ho. pose proof (lookup_lt_Some _ _ _ Ho) as Hk. rewrite (take_S_r _ _ o) by done.
  rewrite insert_app_r_alt by (rewrite length_take; lia).
  rewrite length_take, Nat.min_l, Nat.sub_diag by lia. rewrite <- app_assoc. f_equal.
  rewrite (drop_S (p_ofile n) None k); [done|].
  rewrite Hold, lookup_replicate. split; [done|lia].
Qed.

Lemma fork_file_step c k :
  cpu_sync c = cpu_sync (k_cpu sb) → (k < Z.to_nat NOFILE)%nat →
  ∃ c', fork_file (Z.of_nat k) (dup_state c k) = Ret tt (dup_state c' (S k)) ∧ cpu_sync c' = cpu_sync (k_cpu sb).
Proof.
  intros Hc Hk. unfold fork_file, proc_at.
  erewrite bind_deref; [|cbn; by rewrite list_lookup_alter_ne].
  destruct (lookup_lt_is_Some_2 (p_ofile pr) k) as [o Ho]; [lia|].
  rewrite Nat2Z.id, Ho. unfold lift. rewrite bind_ret.
  assert (Hq' : quiet (dup_state c k)).
  { destruct Hq as [Hw Hl]. split; [|done]. by apply (cpu_sync_inv _ _ Hc). }
  assert (Hch : alter (upd_p_ofile (λ l, take (S k) (p_ofile pr) ++ drop (S k) l)) np (k_procs sb) =
    alter (upd_p_ofile <[k := o]>) np (alter (upd_p_ofile (λ l, take k (p_ofile pr) ++ drop k l)) np (k_procs sb))).
  { rewrite list_alter_alter_eq. apply list_alter_ext; [|done]. intros x Hx.
    rewrite Hn in Hx. injection Hx as <-. unfold upd_p_ofile. cbn. by rewrite child_list with (o := o). }
  destruct o as [f|].
  - destruct (Hopen f) as (x & Hx & Href); [by apply list_elem_of_lookup_2 in Ho|].
    erewrite bind_Ret; [|eapply filedup_run; [done|cbn; by apply dup_files_lookup|cbn; lia]].
    exists (cpu_sync c). split; [|by rewrite cpu_sync_idemp].
    unfold set_proc, modify. apply (f_equal (Ret tt)). apply kstate_eq; try reflexivity; cbn.
    + by rewrite Hch.
    + unfold dup_files. by rewrite (take_S_r _ _ (Some f)), foldl_app by done.
  - exists c. split; [|done]. apply (f_equal (Ret tt)). apply kstate_eq; try reflexivity; cbn.
    + rewrite Hch, list_alter_alter_eq. apply list_alter_ext; [|done]. intros x Hx.
      rewrite Hn in Hx. injection Hx as <-. unfold upd_p_ofile. cbn. f_equal. symmetry. apply list_insert_id.
      rewrite lookup_app_r by (rewrite length_take; lia).
      rewrite length_take, Nat.min_l, Nat.sub_diag, lookup_drop by lia.
      rewrite Hold, lookup_replicate. split; [done|lia].
    + unfold dup_files. by rewrite (take_S_r _ _ None), foldl_app by done.
Qed.

Lemma fork_files_run :
  ∃ c, for_ (Z.to_nat NOFILE) 0 fork_file sb = Ret tt (dup_state c (Z.to_nat NOFILE)) ∧
       cpu_sync c = cpu_sync (k_cpu sb).
Proof.
  destruct (for_inv (λ k s, ∃ c, s = dup_state c (Z.to_nat k) ∧ cpu_sync c = cpu_sync (k_cpu sb))
    fork_file (Z.to_nat NOFILE) 0) with (s := sb) as ([] & s' & Hrun & c & -> & Hc).
  - intros k Hk s (c & -> & Hc). destruct (fork_file_step c (Z.to_nat k)) as (c' & Hrun & Hc'); [done|lia|].
    rewrite Z2Nat.id in Hrun by lia. exists tt, (dup_state c' (S (Z.to_nat k))). split; [done|].
    exists c'. split; [|done]. f_equal. lia.
  - exists (k_cpu sb). split; [|done]. apply kstate_eq; try reflexivity. cbn.
    symmetry. apply list_alter_id. intros x. by destruct x.
  - exists c. split; [by rewrite Hrun|done].
Qed.
End files.

(** From the loop over the open files to the end of [fork]. *)
Definition fork_finish (i np : nat) : K Z :=
  for_ (Z.to_nat NOFILE) 0 (fork_file i np);;
  pr ← proc_at (Some i);
  cwd ← lift (p_cwd pr);
  cwd ← idup cwd;
  set_proc np (upd_p_cwd (λ _, Some cwd));;
  n ← proc_at (Some np);
  name ← lift (safestrcpy (p_name n) (p_name pr) 16);
  set_proc np (upd_p_name (λ _, name));;
  let pid := p_pid n in
  acquire L_ptable;;
  set_proc np (upd_p_state (λ _, RUNNABLE));;
  release L_ptable;;
  mret pid.

(** After [copyuvm] *)
Definition fork_copied (i np : nat) (pgdir : Z) : K Z :=
  set_proc np (upd_p_pgdir (λ _, pgdir));;
  if pgdir =? 0 then
    n ← proc_at (Some np);
    kfree (p_kstack n);;
    set_proc np (upd_p_kstack (λ _, 0));;
    set_proc np (upd_p_state (λ _, UNUSED));;
    mret (-1)
  else
  pr ← proc_at (Some i);
  set_proc np (upd_p_sz (λ _, p_sz pr));;
  set_proc np (upd_p_stackSize (λ _, p_stackSize pr));;
  set_proc np (upd_p_parent (λ _, Some i));;
  n ← proc_at (Some np);
  modify (upd_k_mem (λ m, memmove m (p_tf n) (p_tf pr) sizeof_tf));;
  write32 (p_tf n + tf_eax) 0;;
  fork_finish i np.

Lemma fork_eq i s :
  cpu_wf (k_cpu s) → c_proc (k_cpu s) = Some i →
  fork s = (r ← allocproc;
            match r with
            | None => mret (-1)
            | Some np => pr ← proc_at (Some i); pgdir ← copyuvm (p_pgdir pr) (p_sz pr); fork_copied i np pgdir
            end) (sync s).
Proof.
  intros Hwf Hc. unfold fork. erewrite bind_Ret; [|by apply myproc_ok]. rewrite Hc. reflexivity.
Qed.

(** The child [n] when [fork] returns. *)
Definition finished (pr : proc) (ip : nat) (name : list Z) (n : proc) : proc :=
  upd_p_state (λ _, RUNNABLE) (upd_p_name (λ _, name) (upd_p_cwd (λ _, Some ip) (upd_p_ofile (λ _, p_ofile pr) n))).

Lemma fork_finish_run i np s pr n ip :
  quiet s → k_procs s !! i = Some pr → k_procs s !! np = Some n → np ≠ i →
  length (p_ofile pr) = Z.to_nat NOFILE → p_ofile n = replicate (Z.to_nat NOFILE) None →
  (∀ f, Some f ∈ p_ofile pr → ∃ x, k_files s !! f = Some x ∧ 1 ≤ f_ref x) →
  p_cwd pr = Some ip → is_Some (k_inodes s !! ip) →
  length (p_name n) = 16%nat → length (p_name pr) = 16%nat → terminated (p_name pr) →
  ∃ c name, fork_finish i np s = Ret (p_pid n)
      (upd_k_cpu (λ _, c) (upd_k_inodes (alter (upd_i_ref (Z.add 1)) ip)
        (upd_k_files (dup_files (p_ofile pr)) (upd_k_procs (alter (finished pr ip name) np) s)))) ∧
    cpu_sync c = cpu_sync (k_cpu s) ∧ cstr name = cstr (p_name pr).
Proof.
  intros Hq Hi Hn Hne Hlen Hold Hopen Hcwd [x Hx] Hln Hlp Ht. unfold fork_finish.
  destruct (fork_files_run i np s pr n Hq Hi Hn Hne Hlen Hold Hopen) as (c & Hrun & Hc). mrun Hrun.
  assert (Hq1 : quiet (dup_state np s pr c (Z.to_nat NOFILE))).
  { destruct Hq as [Hw Hl]. split; [|done]. by apply (cpu_sync_inv _ _ Hc). }
  unfold proc_at. erewrite bind_deref; [|cbn; by rewrite list_lookup_alter_ne]. rewrite Hcwd.
  unfold lift. rewrite bind_ret. erewrite bind_Ret; [|by eapply idup_run].
  unfold set_proc, proc_at. msteps.
  erewrite bind_deref; [|cbn; rewrite !list_lookup_alter_eq, Hn; done].
  destruct (safestrcpy_loop_cstr 15 (p_name n) (p_name pr)) as (name & Hs & _ & Hcs & _); [done|lia|].
  unfold safestrcpy. cbn [Z.leb Z.compare]. change (Z.to_nat 16 - 1)%nat with 15%nat.
  cbn [p_name upd_p_cwd upd_p_ofile]. rewrite Hs. msteps.
  match goal with |- context [(_ ≫= _) ?st] => set (s5 := st) end.
  assert (Hq5 : cpu_wf (k_cpu s5) ∧ k_locks s5 = ∅) by (split; [apply cpu_sync_wf, Hq1|apply Hq1]).
  destruct Hq5 as [Hw5 Hl5].
  erewrite bind_Ret; [|apply acquire_ok; by rewrite Hl5]. cbn beta. rewrite bind_modify.
  erewrite bind_Ret; [|apply (release_settles L_ptable s5); [done|by rewrite Hl5|done|done]].
  exists (cpu_sync (cpu_sync c)), name. split; [|split].
  - apply (f_equal (Ret (p_pid n))). apply kstate_eq; try reflexivity; cbn.
    + rewrite !list_alter_alter_eq. apply list_alter_ext; [|done]. intros y Hy.
      rewrite Hn in Hy. injection Hy as <-. unfold finished. cbn.
      do 3 f_equal. unfold upd_p_ofile. f_equal.
      rewrite take_ge, Hold, drop_ge, app_nil_r; [done|by rewrite length_replicate|lia].
    + by rewrite take_ge by lia.
  - by rewrite !cpu_sync_idemp.
  - rewrite Hcs. apply take_ge. pose proof (cstr_terminated_length _ Ht). lia.
Qed.

(** ** The trap frame *)

Definition child_frame (tf tf' : Z) (m : gmap Z Z) : gmap Z Z :=
  st32 (memmove m tf' tf sizeof_tf) (tf' + tf_eax) 0.

Lemma new_tf_align v : page_ok v → new_tf v mod 4 = 0.
Proof.
  intros Hv. pose proof (page_ok_align v Hv) as [_ H4]. unfold new_tf, KSTACKSIZE, sizeof_tf.
  replace (v + 4096 - 76) with (v + 1005 * 4) by lia. by rewrite Z.mod_add.
Qed.

Lemma new_tf_in_page v k : 0 ≤ k < sizeof_tf → in_page v (new_tf v + k).
Proof. unfold in_page, new_tf, KSTACKSIZE, PGSIZE, sizeof_tf. lia. Qed.

Lemma child_frame_words v w m a :
  page_ok v → page_ok w → a mod 4 = 0 →
  ld32 (child_frame (new_tf w) (new_tf v) m) a =
    if decide (a = new_tf v + tf_eax) then 0
    else if decide (new_tf v ≤ a < new_tf v + sizeof_tf) then ld32 m (new_tf w + (a - new_tf v)) else ld32 m a.
Proof.
  intros Hv Hw Ha. pose proof (page_ok_range w Hw).
  unfold child_frame. rewrite ld32_st32, ld32_memmove; try done; try by apply new_tf_align.
  - repeat case_decide; try done; lia.
  - unfold new_tf, KSTACKSIZE, sizeof_tf, KERNBASE, EXTMEM in *. lia.
  - unfold new_tf, KSTACKSIZE, sizeof_tf, KERNBASE, PHYSTOP, PGSIZE, two32 in *. lia.
Qed.

Lemma child_frame_other v w m a :
  page_ok v → page_ok w → a mod 4 = 0 → ¬ in_page v a → ld32 (child_frame (new_tf w) (new_tf v) m) a = ld32 m a.
Proof.
  intros Hv Hw Ha Hin. rewrite child_frame_words by done.
  unfold in_page, new_tf, KSTACKSIZE, PGSIZE, sizeof_tf, tf_eax in *. by rewrite !decide_False by lia.
Qed.

(** ** The whole call *)

Section run.
Context {pages : kstate → list Z → Prop} {PA : PageAllocator pages}.

(** The process [pr], in slot [i], may fork: its tables and stack are among
    the pages [o]; [np] is the first unused slot; [v] and [l] are free. *)
Record forkable (s : kstate) (i : nat) (pr : proc) (np : nat) (n : proc) (ip : nat) (v : Z) (l o : list Z) : Prop := MkForkable {
  fk_quiet : quiet s;
  fk_cur : c_proc (k_cpu s) = Some i;
  fk_i : k_procs s !! i = Some pr;
  fk_np : k_procs s !! np = Some n;
  fk_ne : np ≠ i;
  fk_scan : proc_scan (is_state UNUSED) (k_procs s) 0 = Some np;
  fk_parent : parent (pages := pages) (p_pgdir pr) o s (v :: l);
  fk_kstack : page_ok (p_kstack pr) ∧ p_kstack pr ∈ o;
  fk_tf : p_tf pr = new_tf (p_kstack pr);
  fk_size : 0 ≤ p_sz pr ∧ 0 ≤ p_stackSize pr ∧ p_sz pr + p_stackSize pr * PGSIZE ≤ KERNBASE ∧
            p_stackSize pr * PGSIZE < KERNBASE;
  fk_mapped va : page_va va → va < KERNBASE → in_use (p_sz pr) (p_stackSize pr) va →
    pres (entry (k_mem s) (p_pgdir pr) va) = true;
  fk_ofile : length (p_ofile pr) = Z.to_nat NOFILE;
  fk_none : p_ofile n = replicate (Z.to_nat NOFILE) None;
  fk_open f : Some f ∈ p_ofile pr → ∃ x, k_files s !! f = Some x ∧ 1 ≤ f_ref x;
  fk_cwd : p_cwd pr = Some ip ∧ is_Some (k_inodes s !! ip);
  fk_name : length (p_name n) = 16%nat ∧ length (p_name pr) = 16%nat ∧ terminated (p_name pr);
}.

(** The child's kernel stack: the parent's trap frame with [eax] cleared, and
    a context that starts at [forkret] and returns to [trapret]. *)
Record child_stack (s : kstate) (pr : proc) (v : Z) (m : gmap Z Z) : Prop := MkChildStack {
  st_tf k : 0 ≤ k < sizeof_tf → k mod 4 = 0 →
    ld32 m (new_tf v + k) = if decide (k = tf_eax) then 0 else ld32 (k_mem s) (p_tf pr + k);
  st_ctx : ld32 m (new_context v + ctx_eip) = u32 k_forkret ∧ ld32 m (new_tf v - 4) = u32 k_trapret;
}.

(** The child's address space and kernel stack, [m] being the memory. *)
Record child_space (s : kstate) (pr : proc) (v : Z) (l o : list Z) (d : Z) (m : gmap Z Z) (l' : list Z) : Prop :=
MkChildSpace {
  sp_wf : as_wf m d (v :: o ++ l');
  sp_nodup : NoDup (v :: o ++ l');
  sp_kmap : Forall (maps_range m d) kmap;
  sp_user va : page_va va → va < KERNBASE → in_use (p_sz pr) (p_stackSize pr) va →
    pres (entry m d va) = true ∧ same_page (k_mem s) m (entry (k_mem s) (p_pgdir pr) va) (entry m d va);
  sp_none va : page_va va → va < KERNBASE → ¬ in_use (p_sz pr) (p_stackSize pr) va → pres (entry m d va) = false;
  sp_stack : child_stack s pr v m;
  sp_mem a : a mod 4 = 0 → (∀ p, p ∈ v :: l → ¬ in_page p a) → ld32 m a = ld32 (k_mem s) a;
}.

(** The child's entry of the process table. *)
Definition child (i : nat) (pr : proc) (ip : nat) (v d pid : Z) (name : list Z) (n : proc) : proc :=
  finished pr ip name (upd_p_parent (λ _, Some i) (upd_p_stackSize (λ _, p_stackSize pr) (upd_p_sz (λ _, p_sz pr)
    (upd_p_pgdir (λ _, d) (embryo v pid n))))).

(** [fork] succeeded: the process table has the child, in its own space. *)
Record forked (s : kstate) (i : nat) (pr : proc) (np : nat) (n : proc) (ip : nat) (v : Z) (l o : list Z)
    (s' : kstate) (d : Z) (name : list Z) (l' : list Z) : Prop := MkForked {
  fd_quiet : quiet s';
  fd_procs : k_procs s' = <[np := child i pr ip v d (k_nextpid s) name n]> (k_procs s);
  fd_name : cstr name = cstr (p_name pr);
  fd_files : k_files s' = dup_files (p_ofile pr) (k_files s);
  fd_inodes : k_inodes s' = alter (upd_i_ref (Z.add 1)) ip (k_inodes s);
  fd_pages : pages s' l';
  fd_space : child_space s pr v l o d (k_mem s') l';
}.

(** [fork] failed: the slot is unused again, and the pages are free again but
    for at most one; nothing else has changed. *)
Record fork_failed (s : kstate) (np : nat) (v : Z) (l : list Z) (s' : kstate) (l' : list Z) : Prop := MkForkFailed {
  ff_quiet : quiet s';
  ff_slot : ∃ c, k_procs s' = <[np := c]> (k_procs s) ∧ p_state c = UNUSED;
  ff_files : k_files s' = k_files s ∧ k_inodes s' = k_inodes s;
  ff_pages : pages s' l';
  ff_free : ∃ lk, (length lk ≤ 1)%nat ∧ ∀ p, p ∈ v :: l ↔ p ∈ l' ∨ p ∈ lk;
  ff_mem a : a mod 4 = 0 → (∀ p, p ∈ v :: l → ¬ in_page p a) → ld32 (k_mem s') a = ld32 (k_mem s) a;
}.

Section steps.
Context (s : kstate) (i : nat) (pr : proc) (np : nat) (n : proc) (ip : nat) (v : Z) (l o : list Z).
Context (Hf : forkable s i pr np n ip v l o).

Lemma fork_pages : page_ok v ∧ Forall page_ok l ∧ (v ∉ l) ∧ (∀ p, p ∈ o → p ≠ v ∧ (p ∉ l)).
Proof.
  destruct Hf. destruct fk_parent0 as [Hp _ Hnd _]. destruct (pa_pages _ _ Hp) as [Hnd' Hok].
  apply Forall_cons in Hok as [Hv Hok]. apply NoDup_cons in Hnd' as [Hvl _].
  split; [done|]. split; [done|]. split; [done|]. intros p Hpo.
  apply NoDup_app in Hnd as (_ & Hd & _). specialize (Hd p Hpo). by apply not_elem_of_cons in Hd.
Qed.

(** The stack page being taken, the parent is as it was. *)
Lemma fork_parent s1 :
  pages s1 l → k_mem s1 = new_stack v (k_mem s) →
  parent (pages := pages) (p_pgdir pr) (v :: o) s1 l ∧
  (∀ va, entry (k_mem s1) (p_pgdir pr) va = entry (k_mem s) (p_pgdir pr) va).
Proof.
  intros Hp1 Hm1. destruct fork_pages as (Hv & _ & Hvl & _). destruct Hf.
  destruct (parent_unchanged _ _ _ _ (k_mem s1) fk_parent0) as (E1 & E2 & _).
  { intros a Ha Hin. rewrite Hm1. apply new_stack_other; [done..|]. apply Hin. by left. }
  pose proof fk_parent0 as [Hp Hwf Hnd Ho]. split; [|intros va; by apply E2; auto with kernel].
  split; [done| | |].
  - eapply as_wf_ext; [exact Hwf| |done|done]. intros p Hpl. by right.
  - cbn. by rewrite Permutation_middle.
  - intros p Hpo. right. apply Ho. by apply (owned_ext (k_mem s) (k_mem s1)).
Qed.

(** From the copy to the child: its trap frame is written. *)
Lemma fork_memory s1 d s2 l' :
  pages s1 l → k_mem s1 = new_stack v (k_mem s) →
  copied (pages := pages) (p_pgdir pr) d (v :: o) s1 l (in_use (p_sz pr) (p_stackSize pr)) s2 l' [] →
  let m := child_frame (p_tf pr) (new_tf v) (k_mem s2) in
  pages (upd_k_mem (λ _, m) s2) l' ∧ child_space s pr v l o d m l'.
Proof.
  intros Hp1 Hm1 Hc m. destruct fork_pages as (Hv & Hokl & Hvl & Hol).
  destruct (fork_parent s1 Hp1 Hm1) as [Hpar E].
  pose proof Hf as []. destruct fk_kstack0 as [Hks Hko]. pose proof (Hol _ Hko) as [Hkv Hkl].
  assert (Hout : ∀ a, a mod 4 = 0 → ¬ in_page v a → ld32 m a = ld32 (k_mem s2) a).
  { intros a Ha Hin. unfold m. rewrite fk_tf0. by apply child_frame_other. }
  assert (Hlost : copied (pages := pages) (p_pgdir pr) d o s1 (v :: l) (in_use (p_sz pr) (p_stackSize pr)) s2 l' [v]).
  { destruct Hc as [? Hnd Hwf ? Ht ? ? ? Hm]. split; auto.
    - intros p. rewrite elem_of_cons, (Ht p), list_elem_of_singleton, elem_of_nil. tauto.
    - intros a Ha Hin. apply Hm; [done|]. intros p Hp. apply Hin. by right. }
  pose proof (copied_write _ _ _ _ _ _ _ _ _ m Hlost Hv Hout) as [Hp3 Hnd3 Hwf3 _ _ Hkm Hu Hno Hm3].
  split; [exact Hp3|].
  assert (Hstk : ∀ a, a mod 4 = 0 → in_page v a → ld32 (k_mem s2) a = ld32 (k_mem s1) a).
  { intros a Ha Hin. apply (cp_mem _ _ _ _ _ _ _ _ _ Hc); [done|]. intros p Hp.
    rewrite Forall_forall in Hokl. apply (pages_disjoint v); auto. intros ->. done. }
  split; [exact Hwf3|exact Hnd3|exact Hkm| |exact Hno|split|].
  - intros va Hva Hvk Huse. destruct (Hu va Hva Hvk Huse) as [Hpr [Hfl Hw]]. split; [exact Hpr|].
    rewrite E in Hfl, Hw. split; [exact Hfl|]. intros k Hk. specialize (Hw k Hk). cbn in Hw. rewrite Hw, Hm1.
    destruct (wf_frame _ _ _ (pr_wf _ _ _ _ fk_parent0) (PDX va) (PTX va)) as (Hfo & Hn & _); auto with kernel.
    { by apply user_PDX; [apply Hva|]. } { by apply fk_mapped0. }
    apply not_elem_of_cons in Hn as [? _]. fold (entry (k_mem s) (p_pgdir pr) va) in *.
    apply new_stack_other; [done|by apply idx_aligned|].
    apply (pages_disjoint (frame_of (entry (k_mem s) (p_pgdir pr) va))); auto. by apply idx_in_page.
  - intros k Hk Hk4. assert (Ha : (new_tf v + k) mod 4 = 0).
    { pose proof (new_tf_align v Hv). apply Z.mod_divide in Hk4 as [j ->]; [|done]. by rewrite Z.mod_add. }
    unfold m. rewrite fk_tf0, child_frame_words by done. rewrite (decide_ext _ (k = tf_eax)) by lia.
    case_decide; [done|]. rewrite decide_True by lia. replace (new_tf v + k - new_tf v) with k by lia.
    assert (Hin : in_page (p_kstack pr) (new_tf (p_kstack pr) + k)) by by apply new_tf_in_page.
    assert (Ha' : (new_tf (p_kstack pr) + k) mod 4 = 0).
    { pose proof (new_tf_align _ Hks). apply Z.mod_divide in Hk4 as [j ->]; [|done]. by rewrite Z.mod_add. }
    rewrite (cp_mem _ _ _ _ _ _ _ _ _ Hc), Hm1; [|done|].
    + apply new_stack_other; [done..|]. by apply (pages_disjoint (p_kstack pr)).
    + intros p Hp. rewrite Forall_forall in Hokl. apply (pages_disjoint (p_kstack pr)); auto. congruence.
  - assert (Hc4 : (new_context v + ctx_eip) mod 4 = 0 ∧ (new_tf v - 4) mod 4 = 0).
    { pose proof (new_tf_align v Hv). unfold new_context, sizeof_ctx, ctx_eip.
      split; [replace (new_tf v - 4 - 20 + 16) with (new_tf v + (-2) * 4) by lia|
              replace (new_tf v - 4) with (new_tf v + (-1) * 4) by lia]; by rewrite Z.mod_add. }
    assert (Hw : ∀ a, a mod 4 = 0 → in_page v a → a < new_tf v → ld32 m a = ld32 (new_stack v (k_mem s)) a).
    { intros a Ha Hin Hlt. unfold m. rewrite fk_tf0, child_frame_words by done.
      rewrite !decide_False by (unfold tf_eax; lia). by rewrite Hstk, Hm1. }
    rewrite !Hw, !new_stack_words; try apply Hc4; try done;
      try (unfold in_page, new_context, new_tf, sizeof_ctx, sizeof_tf, ctx_eip, KSTACKSIZE, PGSIZE; lia).
    unfold new_context, sizeof_ctx, ctx_eip. split; [by rewrite decide_True|].
    rewrite !decide_False, decide_True by lia. done.
  - intros a Ha Hin. pose proof (Hm3 a Ha Hin) as Hx. cbn in Hx. rewrite Hx, Hm1.
    apply new_stack_other; [done..|]. apply Hin. by left.
Qed.

(** The copy was made. *)
Lemma fork_ok s1 s2 d l' :
  k_procs s1 = alter (embryo v (k_nextpid s)) np (k_procs s) → k_mem s1 = new_stack v (k_mem s) →
  k_files s1 = k_files s → k_inodes s1 = k_inodes s → quiet s1 → pages s1 l → page_ok d →
  copied (pages := pages) (p_pgdir pr) d (v :: o) s1 l (in_use (p_sz pr) (p_stackSize pr)) s2 l' [] →
  ∃ s' name, fork_copied i np d s2 = Ret (k_nextpid s) s' ∧ forked s i pr np n ip v l o s' d name l'.
Proof.
  intros Hpr1 Hm1 Hfi1 Hin1 Hq1 Hp1 Hd Hc. pose proof (fork_memory s1 d s2 l' Hp1 Hm1 Hc) as [Hp2 Hsp].
  pose proof (cp_same _ _ _ _ _ _ _ _ _ Hc) as Hk. pose proof (quiet_same _ _ Hk Hq1) as Hq2.
  pose proof (f_equal k_procs Hk) as Hpr2. pose proof (f_equal k_files Hk) as Hfi2.
  pose proof (f_equal k_inodes Hk) as Hin2. cbn in Hpr2, Hfi2, Hin2.
  rewrite Hpr1 in Hpr2. rewrite Hfi1 in Hfi2. rewrite Hin1 in Hin2.
  pose proof Hf as []. destruct fk_cwd0 as [Hcwd Hip], fk_name0 as (Hln & Hlp & Ht).
  assert (Hn2 : k_procs s2 !! np = Some (embryo v (k_nextpid s) n))
    by (rewrite <- Hpr2, list_lookup_alter_eq; by rewrite fk_np0).
  assert (Hi2 : k_procs s2 !! i = Some pr) by (rewrite <- Hpr2, list_lookup_alter_ne; done).
  unfold fork_copied, set_proc, proc_at. rewrite bind_modify.
  rewrite (proj2 (Z.eqb_neq d 0)) by (by apply page_ok_nonzero).
  erewrite bind_deref; [|cbn; rewrite list_lookup_alter_ne; done]. msteps.
  erewrite bind_deref; [|cbn; rewrite !list_lookup_alter_eq, Hn2; done]. cbn beta.
  unfold write32. msteps. cbn [p_tf upd_p_parent upd_p_stackSize upd_p_sz upd_p_pgdir embryo].
  match goal with |- context [fork_finish i np ?x] => set (s3 := x) end.
  assert (Hn3 : k_procs s3 !! np = Some (upd_p_parent (λ _, Some i) (upd_p_stackSize (λ _, p_stackSize pr)
    (upd_p_sz (λ _, p_sz pr) (upd_p_pgdir (λ _, d) (embryo v (k_nextpid s) n))))))
    by (cbn; rewrite !list_lookup_alter_eq, Hn2; done).
  assert (Hi3 : k_procs s3 !! i = Some pr) by (cbn; rewrite !list_lookup_alter_ne; done).
  destruct (fork_finish_run i np s3 pr _ ip Hq2 Hi3 Hn3 fk_ne0 fk_ofile0 fk_none0) as (c & name & Hrun & Hcs & Hname);
    [by (cbn; rewrite <- Hfi2)|done|by (cbn; rewrite <- Hin2)|done..|].
  rewrite Hrun. eexists. exists name. split; [done|]. split; [| |done| | | |exact Hsp].
  - destruct Hq2 as [Hw Hl]. split; [by apply (cpu_sync_inv _ _ Hcs)|done].
  - cbn. rewrite <- Hpr2. rewrite !list_alter_alter_eq.
    by rewrite (list_alter_here _ _ _ _ fk_np0).
  - cbn. by rewrite <- Hfi2.
  - cbn. by rewrite <- Hin2.
  - apply (pa_frame _ _ _ Hp2); done.
Qed.

(** The copy failed. *)
Lemma fork_fails s1 s2 lk l' :
  k_procs s1 = alter (embryo v (k_nextpid s)) np (k_procs s) → k_mem s1 = new_stack v (k_mem s) →
  k_files s1 = k_files s → k_inodes s1 = k_inodes s → quiet s1 → pages s1 l →
  (length lk ≤ 1)%nat → copy_failed (pages := pages) s1 l s2 l' lk →
  ∃ s', fork_copied i np 0 s2 = Ret (-1) s' ∧ fork_failed s np v l s' (v :: l').
Proof.
  intros Hpr1 Hm1 Hfi1 Hin1 Hq1 Hp1 Hlk [Hp2 Hk Hfree Hmem].
  destruct fork_pages as (Hv & Hokl & Hvl & Hol). pose proof (quiet_same _ _ Hk Hq1) as Hq2.
  pose proof (f_equal k_procs Hk) as Hpr2. pose proof (f_equal k_files Hk) as Hfi2.
  pose proof (f_equal k_inodes Hk) as Hin2. cbn in Hpr2, Hfi2, Hin2.
  rewrite Hpr1 in Hpr2. rewrite Hfi1 in Hfi2. rewrite Hin1 in Hin2. pose proof Hf as [].
  assert (Hn2 : k_procs s2 !! np = Some (embryo v (k_nextpid s) n))
    by (rewrite <- Hpr2, list_lookup_alter_eq; by rewrite fk_np0).
  unfold fork_copied, set_proc, proc_at. rewrite bind_modify. cbn [Z.eqb].
  erewrite bind_deref; [|cbn; rewrite list_lookup_alter_eq, Hn2; done]. cbn beta.
  set (s3 := upd_k_procs _ s2).
  destruct (pa_free s3 v l') as (s4 & Hrun & Hp4 & Hk4 & Hm4).
  { by apply (pa_frame s2). } { done. } { intros Hin. apply Hvl, Hfree. by left. }
  change (p_kstack _) with v at 1. mrun Hrun. msteps.
  eexists. split; [done|].
  pose proof (f_equal k_procs Hk4) as Hpr4. pose proof (f_equal k_files Hk4) as Hfi4.
  pose proof (f_equal k_inodes Hk4) as Hin4. cbn in Hpr4, Hfi4, Hin4.
  split.
  - by apply (quiet_same _ _ Hk4).
  - exists (upd_p_state (λ _, UNUSED) (upd_p_kstack (λ _, 0) (upd_p_pgdir (λ _, 0) (embryo v (k_nextpid s) n)))).
    split; [|done]. cbn. rewrite <- Hpr4, <- Hpr2, !list_alter_alter_eq.
    by rewrite (list_alter_here _ _ _ _ fk_np0).
  - cbn. by rewrite <- Hfi4, <- Hfi2, <- Hin4, <- Hin2.
  - by apply (pa_frame s4).
  - exists lk. split; [done|]. intros p. rewrite !elem_of_cons, (Hfree p). tauto.
  - intros a Ha Hin. cbn. rewrite Hm4; [|done|apply Hin; by left]. cbn.
    rewrite Hmem, Hm1; [|done|intros p Hp; apply Hin; by right].
    apply new_stack_other; [done..|]. apply Hin. by left.
Qed.

Lemma fork_run :
  ∃ r s' l', fork s = Ret r s' ∧
    ((r = k_nextpid s ∧ ∃ d name, forked s i pr np n ip v l o s' d name l') ∨
     (r = -1 ∧ fork_failed s np v l s' l')).
Proof.
  pose proof Hf as []. destruct fk_quiet0 as [Hwf Hl], fk_size0 as (? & ? & ? & ?).
  rewrite (fork_eq i) by done.
  assert (Hqs : quiet (sync s)) by (split; [by apply cpu_sync_wf|done]).
  destruct (allocproc_run (sync s) v l np Hqs) as (s1 & Hrun1 & Hpr1 & Hm1 & _ & Hk1 & Hp1); [|done|].
  { apply (pa_frame s); [apply fk_parent0|done|done| |done]. by rewrite <- (cpu_sync_idemp (k_cpu s)). }
  mrun Hrun1. pose proof (quiet_same _ _ Hk1 Hqs) as Hq1.
  assert (Hi1 : k_procs s1 !! i = Some pr) by (rewrite Hpr1, list_lookup_alter_ne; done).
  unfold proc_at. erewrite bind_deref; [|exact Hi1].
  pose proof (f_equal k_files Hk1) as Hfi1. pose proof (f_equal k_inodes Hk1) as Hin1. cbn in Hfi1, Hin1.
  destruct (fork_parent s1 Hp1 Hm1) as [Hpar E].
  destruct (copyuvm_run s1 l (p_pgdir pr) (v :: o) (p_sz pr) pr) as (s2 & l' & d & Hrun2 & [[Hd Hc]|(-> & lk & Hlk & Hc)]);
    try done.
  { apply Hq1. }
  { apply same_kernel_curproc in Hk1 as (<- & _). unfold curproc. cbn.
    change (c_proc (cpu_sync (k_cpu s))) with (c_proc (k_cpu s)). by rewrite fk_cur0. }
  { intros va ???. rewrite E. by apply fk_mapped0. }
  - destruct (fork_ok s1 s2 d l') as (s' & name & Hrun3 & Hfd); try done.
    mrun Hrun2. exists (k_nextpid s), s', l'. split; [done|]. left. eauto.
  - destruct (fork_fails s1 s2 lk l') as (s' & Hrun3 & Hff); try done.
    mrun Hrun2. exists (-1), s', (v :: l'). split; [done|]. by right.
Qed.
End steps.
End run.
End fork.

(** ** Property *)


(** A process with one page of memory, one file open twice and a root
    directory, in a table with a free slot; one page is free. *)
Module ForkExample.
Import CopyExample.
Definition kstack : Z := 0x80204000.
Definition pr : proc :=
  MkProc 4096 0 0 pgdir kstack RUNNING 1 None (new_tf kstack) (new_context kstack) None 0
    (Some 0%nat :: Some 0%nat :: replicate 14 None) (Some 0%nat) (chars "sh" ++ replicate 14 0).
Definition state : kstate :=
  upd_k_mem (λ _, mem) (upd_k_kmem (λ _, MkKmem false free)
    (upd_k_files (alter (upd_f_ref (λ _, 2)) 0%nat)
      (upd_k_procs (λ _, [pr; proc0]) (upd_k_cpu (upd_c_proc (λ _, Some 0%nat)) bss)))).

#[local] Existing Instance kernel_sym.

Lemma fork_state_parent : parent (pages := allocator) pgdir [pgdir; table; frame; kstack] state [free].
Proof.
  destruct CopyExample.state_parent as [Hp Hwf _ Ho]. split; [|exact Hwf| |].
  - by apply (pa_frame _ _ _ Hp).
  - by apply (bool_decide_unpack _).
  - intros p Hpo. specialize (Ho p Hpo). change (p ∈ [pgdir; table; frame] ++ [kstack]). apply elem_of_app. by left.
Qed.

Lemma state_forkable : forkable (pages := allocator) state 0 pr 1 proc0 0 free [] [pgdir; table; frame; kstack].
Proof.
  assert (Hm : ∀ va, page_va va → va < KERNBASE → in_use 4096 0 va → pres (entry mem pgdir va) = true).
  { intros va [[H0 Hu] Ha] Hk [Hlt|Hge]; [|unfold KERNBASE in *; simpl in Hge; lia].
    assert (va = 0) as -> by (unfold PGSIZE in Ha; rewrite Z.mod_small in Ha; lia).
    unfold entry. simpl. by rewrite mem_pte. }
  apply (MkForkable (pages := allocator) state 0 pr 1 proc0 0 free [] [pgdir; table; frame; kstack]).
  - by split; [split|].
  - reflexivity.
  - reflexivity.
  - reflexivity.
  - done.
  - reflexivity.
  - exact fork_state_parent.
  - split; [by apply page_ok_kernel_sym|]. by apply (bool_decide_unpack _).
  - reflexivity.
  - done.
  - exact Hm.
  - reflexivity.
  - reflexivity.
  - intros f Hin. exists (MkFile FD_NONE 2 false false 0 None 0).
    assert (f = 0%nat) as ->; [|done].
    change (Some f ∈ Some 0%nat :: Some 0%nat :: replicate 14 None) in Hin.
    apply elem_of_cons in Hin as [[= ->]|Hin]; [done|]. apply elem_of_cons in Hin as [[= ->]|Hin]; [done|].
    by apply elem_of_replicate in Hin as [? _].
  - split; [done|]. eexists. reflexivity.
  - split; [done|]. split; [done|]. unfold terminated. by apply (bool_decide_unpack _).
Qed.
End ForkExample.

