(* ===== verification/Asm.v ===== *)
(** Asm: the assembly glue, [swtch.S], [trapasm.S], [vectors.S] and [usys.S].

    A small machine runs the instructions these files use: registers, segment
    registers, flags and the word memory of [Mem] (the stacks are 4-aligned).
    The theorems say that a context switch saves what resuming needs, that a
    trap from user mode builds the frame the C code reads and returns with
    every register as it was, and where a new process starts. *)

From S2P Require Import Prelude Layout State Mem Spinlock Kalloc Sched Disk Proc ProcSpec Fork.

Inductive reg := EAX | ECX | EDX | EBX | ESP | EBP | ESI | EDI.
Inductive sreg := CS | SS | DS | ES | FS | GS.

Definition reg_no (r : reg) : Z :=
  match r with EAX => 0 | ECX => 1 | EDX => 2 | EBX => 3 | ESP => 4 | EBP => 5 | ESI => 6 | EDI => 7 end.
Definition sreg_no (r : sreg) : Z :=
  match r with ES => 0 | CS => 1 | SS => 2 | DS => 3 | FS => 4 | GS => 5 end.

Record machine := MkMachine {
  regs : reg → Z;
  sregs : sreg → Z;
  eip : Z;
  eflags : Z;
  ram : gmap Z Z;
}.

(** The instructions of the files, in their operand order. *)
Inductive instr :=
| Pushl (r : reg)
| PushlS (r : sreg)
| PushlI (n : Z)
| Popl (r : reg)
| PoplS (r : sreg)
| Pushal
| Popal
| Movl (src dst : reg)
| MovlI (n : Z) (dst : reg)
| MovwI (n : Z) (dst : reg)            (** [movw $n, dst]: the low half *)
| Load (off : Z) (base dst : reg)      (** [movl off(base), dst] *)
| Store (src base : reg)               (** [movl src, (base)] *)
| MovwS (src : reg) (dst : sreg)       (** [movw src, dst] *)
| Addl (n : Z) (dst : reg)
| RetI
| Iret.

Definition set_reg (r : reg) (v : Z) (s : machine) : machine :=
  MkMachine (λ x, if reg_no x =? reg_no r then u32 v else regs s x) (sregs s) (eip s) (eflags s) (ram s).
Definition set_sreg (r : sreg) (v : Z) (s : machine) : machine :=
  MkMachine (regs s) (λ x, if sreg_no x =? sreg_no r then u16 v else sregs s x) (eip s) (eflags s) (ram s).
Definition set_eip (v : Z) (s : machine) : machine := MkMachine (regs s) (sregs s) (u32 v) (eflags s) (ram s).
Definition set_eflags (v : Z) (s : machine) : machine := MkMachine (regs s) (sregs s) (eip s) (u32 v) (ram s).
Definition set_ram (a v : Z) (s : machine) : machine :=
  MkMachine (regs s) (sregs s) (eip s) (eflags s) (st32 (ram s) a v).

Definition push (v : Z) (s : machine) : machine :=
  let esp := u32 (regs s ESP - 4) in set_ram esp v (set_reg ESP esp s).
Definition pop (s : machine) : Z * machine :=
  (ld32 (ram s) (regs s ESP), set_reg ESP (regs s ESP + 4) s).
Definition popr (r : reg) (s : machine) : machine := let '(v, s) := pop s in set_reg r v s.
Definition pops (r : sreg) (s : machine) : machine := let '(v, s) := pop s in set_sreg r v s.

(** [iret] to user mode takes the stack pointer from the frame as well. *)
Definition iret (s : machine) : machine :=
  let '(ip, s) := pop s in
  let '(cs, s) := pop s in
  let '(fl, s) := pop s in
  let s := set_eflags fl (set_sreg CS cs (set_eip ip s)) in
  if Z.land cs 3 =? 0 then s else
  let '(sp, s) := pop s in
  let '(ss, s) := pop s in
  set_sreg SS ss (set_reg ESP sp s).

Definition exec (i : instr) (s : machine) : machine :=
  match i with
  | Pushl r => push (regs s r) s
  | PushlS r => push (sregs s r) s
  | PushlI n => push n s
  | Popl r => popr r s
  | PoplS r => pops r s
  | Pushal =>
      let esp := regs s ESP in
      let s := push (regs s EBX) (push (regs s EDX) (push (regs s ECX) (push (regs s EAX) s))) in
      push (regs s EDI) (push (regs s ESI) (push (regs s EBP) (push esp s)))
  | Popal =>
      let s := popr EBP (popr ESI (popr EDI s)) in
      let s := (pop s).2 in
      popr EAX (popr ECX (popr EDX (popr EBX s)))
  | Movl src dst => set_reg dst (regs s src) s
  | MovlI n dst => set_reg dst n s
  | MovwI n dst => set_reg dst (Z.lor (Z.ldiff (regs s dst) 0xFFFF) (u16 n)) s
  | Load off base dst => set_reg dst (ld32 (ram s) (u32 (regs s base + off))) s
  | Store src base => set_ram (regs s base) (regs s src) s
  | MovwS src dst => set_sreg dst (regs s src) s
  | Addl n dst => set_reg dst (regs s dst + n) s
  | RetI => let '(ip, s) := pop s in set_eip ip s
  | Iret => iret s
  end.

Definition run (c : list instr) (s : machine) : machine := foldl (λ s i, exec i s) s c.

Lemma run_app c d s : run (c ++ d) s = run d (run c s).
Proof. apply foldl_app. Qed.

(** ** The code *)

(** [void swtch(struct context **old, struct context *new)] *)
Definition swtch_code : list instr :=
  [Load 4 ESP EAX; Load 8 ESP EDX;
   (* Save old callee-save registers *)
   Pushl EBP; Pushl EBX; Pushl ESI; Pushl EDI;
   (* Switch stacks *)
   Store ESP EAX; Movl EDX ESP;
   (* Load new callee-save registers *)
   Popl EDI; Popl ESI; Popl EBX; Popl EBP; RetI].

(** Entry point [i] of vectors.S, up to its jump to [alltraps]. *)
Definition vector (i : Z) : list instr := (if pushes_error i then [] else [PushlI 0]) ++ [PushlI i].

(** [alltraps] up to [call trap]: the trap frame is built, its address is
    pushed. *)
Definition alltraps : list instr :=
  [(* Build trap frame. *)
   PushlS DS; PushlS ES; PushlS FS; PushlS GS; Pushal;
   (* Set up data segments. *)
   MovwI (Z.shiftl SEG_KDATA 3) EAX; MovwS EAX DS; MovwS EAX ES;
   (* Call trap(tf), where tf=%esp *)
   Pushl ESP].

(** After [call trap] *)
Definition alltraps_return : list instr := [Addl 4 ESP].

Definition trapret : list instr :=
  [Popal; PoplS GS; PoplS FS; PoplS ES; PoplS DS;
   Addl 0x8 ESP; (* trapno and errcode *)
   Iret].

(** What the processor does on trap [i] in user mode: it takes the kernel
    stack from the TSS and pushes the user's state, and an error code for
    some traps; all gates but the system call's clear the interrupt flag. *)
Definition hardware_trap (esp0 i err : Z) (s : machine) : machine :=
  let s0 := set_sreg SS (Z.shiftl SEG_KDATA 3) (set_reg ESP esp0 s) in
  let s1 := push (eip s) (push (sregs s CS) (push (eflags s) (push (regs s ESP) (push (sregs s SS) s0)))) in
  let s2 := if pushes_error i then push err s1 else s1 in
  let fl := if i =? T_SYSCALL then eflags s else Z.ldiff (eflags s) FL_IF in
  set_eflags fl (set_sreg CS (Z.shiftl SEG_KCODE 3) s2).

(** The stub of system call [n] in usys.S: the code before its
    [int $T_SYSCALL], and the code after. *)
Definition usys (n : Z) : list instr := [MovlI n EAX].
Definition usys_return : list instr := [RetI].

(** syscall.h *)
Definition syscall_numbers : list (string * Z) :=
  [("fork", 1); ("exit", 2); ("wait", 3); ("pipe", 4); ("read", 5); ("kill", 6); ("exec", 7); ("fstat", 8);
   ("chdir", 9); ("dup", 10); ("getpid", 11); ("sbrk", 12); ("sleep", 13); ("uptime", 14); ("open", 15);
   ("write", 16); ("mknod", 17); ("unlink", 18); ("link", 19); ("mkdir", 20); ("close", 21); ("shm_open", 22);
   ("shm_close", 23)]%string.
Definition SYS (name : string) : Z :=
  from_option snd 0 (List.find (λ x, String.eqb x.1 name) syscall_numbers).

(** The stubs of usys.S, in its order. *)
Definition usys_stubs : list (string * list instr) :=
  (λ name, (name, usys (SYS name))) <$>
  ["fork"; "exit"; "wait"; "pipe"; "read"; "write"; "close"; "kill"; "exec"; "open"; "mknod"; "unlink"; "fstat";
   "link"; "mkdir"; "chdir"; "dup"; "getpid"; "sbrk"; "sleep"; "uptime"; "shm_open"; "shm_close"]%string.

(** initcode.S up to its first trap, [exec(init, argv)]; then [exit()], again
    and again. *)
Definition initcode_start (init argv : Z) : list instr :=
  [PushlI argv; PushlI init; PushlI 0 (* where caller pc would be *); MovlI (SYS "exec") EAX].
Definition initcode_exit : list instr := [MovlI (SYS "exit") EAX].

(** ** The stack *)

Definition pushes (vs : list Z) (s : machine) : machine := foldl (λ s v, push v s) s vs.

Lemma pushes_cons v vs s : pushes (v :: vs) s = pushes vs (push v s).
Proof. done. Qed.

Lemma push_esp v s : 4 ≤ regs s ESP < two32 → regs (push v s) ESP = regs s ESP - 4.
Proof. intros H. cbn. by rewrite u32_idemp, u32_small by lia. Qed.

Lemma pushes_regs vs s r : r ≠ ESP → regs (pushes vs s) r = regs s r.
Proof.
  intros Hr. revert s. induction vs as [|v vs IH]; intros s; [done|].
  rewrite pushes_cons, IH. cbn. by destruct r.
Qed.

Lemma pushes_rest vs s :
  sregs (pushes vs s) = sregs s ∧ eip (pushes vs s) = eip s ∧ eflags (pushes vs s) = eflags s.
Proof. revert s. induction vs as [|v vs IH]; intros s; [done|]. apply (IH (push v s)). Qed.

Lemma pushes_esp vs s :
  4 * Z.of_nat (length vs) ≤ regs s ESP < two32 →
  regs (pushes vs s) ESP = regs s ESP - 4 * Z.of_nat (length vs).
Proof.
  revert s. induction vs as [|v vs IH]; intros s H; [cbn in *; lia|].
  cbn [length] in H. rewrite pushes_cons, IH; rewrite push_esp by lia; cbn [length]; lia.
Qed.

(** Pushing changes the words below the stack pointer only. *)
Lemma pushes_frame vs s a :
  4 * Z.of_nat (length vs) ≤ regs s ESP < two32 →
  ¬ (regs s ESP - 4 * Z.of_nat (length vs) ≤ a < regs s ESP) →
  ld32 (ram (pushes vs s)) a = ld32 (ram s) a.
Proof.
  revert s. induction vs as [|v vs IH]; intros s H Ha; [done|]. cbn [length] in *.
  rewrite pushes_cons, IH; rewrite ?push_esp by lia; try lia.
  cbn. rewrite ld32_st32_ne; [done|]. rewrite u32_small by lia. lia.
Qed.

(** The [i]th word pushed lies [i + 1] words below. *)
Lemma pushes_lookup vs s i v :
  4 * Z.of_nat (length vs) ≤ regs s ESP < two32 → vs !! i = Some v →
  ld32 (ram (pushes vs s)) (regs s ESP - 4 * (Z.of_nat i + 1)) = u32 v.
Proof.
  revert s i. induction vs as [|w vs IH]; intros s i H Hi; [done|]. cbn [length] in *.
  rewrite pushes_cons. destruct i as [|i]; cbn in Hi.
  - injection Hi as ->. rewrite pushes_frame; rewrite ?push_esp by lia; try lia.
    cbn. rewrite u32_small by lia. replace (regs s ESP - 4 * (0 + 1)) with (regs s ESP - 4) by lia.
    apply ld32_st32_eq.
  - rewrite <- (IH (push w s) i); rewrite ?push_esp by lia; try lia; [|done]. f_equal. lia.
Qed.

(** The first process traps with the number of [exec] and, above the place of a
    return address, its arguments. *)
Lemma initcode_execs init argv s :
  regs s ESP = PGSIZE → 0 ≤ init < two32 → 0 ≤ argv < two32 →
  let s' := run (initcode_start init argv) s in
  regs s' EAX = 7 ∧ regs s' ESP = PGSIZE - 12 ∧
  ld32 (ram s') (regs s' ESP + 4) = init ∧ ld32 (ram s') (regs s' ESP + 8) = argv.
Proof.
  intros He Hi Ha s'. assert (Hp : s' = set_reg EAX 7 (pushes [argv; init; 0] s)) by reflexivity.
  assert (Hlen : 4 * Z.of_nat (length [argv; init; 0]) ≤ regs s ESP < two32) by (rewrite He; done).
  assert (Hsp : regs s' ESP = PGSIZE - 12).
  { rewrite Hp. cbn [regs set_reg reg_no Z.eqb]. rewrite pushes_esp by done. rewrite He. done. }
  rewrite Hsp, Hp. split; [done|]. split; [done|]. cbn [ram set_reg].
  pose proof (pushes_lookup [argv; init; 0] s 1 init Hlen eq_refl) as H1.
  pose proof (pushes_lookup [argv; init; 0] s 0 argv Hlen eq_refl) as H2.
  rewrite He in H1, H2. rewrite u32_small in H1, H2 by done. done.
Qed.

(** ** Leaving the kernel *)

(** [word e k s]: the word [k] bytes above [e]. *)
Definition word (s : machine) (e k : Z) : Z := ld32 (ram s) (e + k).

Lemma u32_ld32 m a : u32 (ld32 m a) = ld32 m a.
Proof. apply u32_small, ld32_range. Qed.

(** Stack addresses are [e] and a constant. *)
Ltac esp_norm :=
  repeat match goal with
  | |- context [u32 (u32 ?x + ?k)] => rewrite (u32_add_l x k)
  | |- context [?x + Zpos ?a + Zpos ?b] =>
      rewrite <- (Z.add_assoc x (Zpos a) (Zpos b));
      let c := eval cbv in (Zpos a + Zpos b) in change (Zpos a + Zpos b) with c
  end;
  repeat rewrite u32_small by (lia || apply ld32_range).

(** [popal], the segment registers and [addl $0x8, %esp] *)
Definition trapret_pops : list instr := [Popal; PoplS GS; PoplS FS; PoplS ES; PoplS DS; Addl 0x8 ESP].

Lemma trapret_pops_spec s e :
  regs s ESP = e → 0 ≤ e → e + tf_eip < two32 →
  let s' := run trapret_pops s in
  regs s' EDI = word s e 0 ∧ regs s' ESI = word s e 4 ∧ regs s' EBP = word s e 8 ∧
  regs s' EBX = word s e 16 ∧ regs s' EDX = word s e 20 ∧ regs s' ECX = word s e 24 ∧
  regs s' EAX = word s e tf_eax ∧ regs s' ESP = e + tf_eip ∧
  sregs s' GS = u16 (word s e 32) ∧ sregs s' FS = u16 (word s e 36) ∧
  sregs s' ES = u16 (word s e tf_es) ∧ sregs s' DS = u16 (word s e tf_ds) ∧ ram s' = ram s.
Proof.
  destruct s as [rg sg ip fl m]. intros He H0 H1. cbn in He.
  unfold tf_eip in H1. cbv -[u32 u16 ld32 Z.add two32]. rewrite He, Z.add_0_r. esp_norm.
  repeat split.
Qed.

Lemma iret_user s e :
  regs s ESP = e → 0 ≤ e → e + 20 < two32 → Z.land (word s e 4) 3 ≠ 0 →
  let s' := iret s in
  regs s' ESP = word s e 12 ∧ (∀ r, r ≠ ESP → regs s' r = regs s r) ∧
  (∀ r, sregs s' r = match r with CS => u16 (word s e 4) | SS => u16 (word s e 16) | _ => sregs s r end) ∧
  eip s' = word s e 0 ∧ eflags s' = word s e 8 ∧ ram s' = ram s.
Proof.
  destruct s as [rg sg ip fl m]. intros He H0 H1 Hc. cbn in He. unfold word in *. cbn [ram] in *.
  unfold iret, pop. cbn -[u32 u16 ld32 Z.add two32 Z.land]. rewrite He. esp_norm.
  apply Z.eqb_neq in Hc. rewrite Hc. cbv -[u32 u16 ld32 Z.add two32].
  rewrite ?He, Z.add_0_r. esp_norm. repeat split; intros []; done.
Qed.

(** [trapret] reloads the user's state from the frame at the stack pointer. *)
Lemma trapret_spec s e :
  regs s ESP = e → 0 ≤ e → e + sizeof_tf < two32 → Z.land (word s e tf_cs) 3 ≠ 0 →
  let s' := run trapret s in
  (∀ r, regs s' r = word s e match r with
     | EDI => 0 | ESI => 4 | EBP => 8 | EBX => 16 | EDX => 20 | ECX => 24 | EAX => tf_eax | ESP => tf_esp end) ∧
  (∀ r, sregs s' r = u16 (word s e match r with
     | GS => 32 | FS => 36 | ES => tf_es | DS => tf_ds | CS => tf_cs | SS => tf_ss end)) ∧
  eip s' = word s e tf_eip ∧ eflags s' = word s e tf_eflags ∧ ram s' = ram s.
Proof.
  intros He H0 H1 Hc. unfold sizeof_tf in H1.
  destruct (trapret_pops_spec s e He H0) as (?&?&?&?&?&?&?&Hsp&?&?&?&?&Hm); [unfold tf_eip; lia|].
  change (run trapret s) with (iret (run trapret_pops s)).
  set (s1 := run trapret_pops s) in *.
  assert (Hw : ∀ k, word s1 (e + tf_eip) k = word s e (tf_eip + k))
    by (intros k; unfold word; rewrite Hm; f_equal; lia).
  destruct (iret_user s1 (e + tf_eip)) as (Hesp & Hr & Hs & Hip & Hfl & Hm');
    [done|unfold tf_eip; lia|unfold tf_eip; lia|by rewrite Hw|].
  rewrite Hw in Hesp, Hip, Hfl. cbn zeta. rewrite Hm', Hip, Hfl.
  split; [intros []; rewrite ?Hr by done; done|]. split; [intros []; rewrite Hs, ?Hw; done|]. done.
Qed.

(** ** Entering the kernel *)

Definition trap_entry (esp0 i err : Z) (s : machine) : machine :=
  run (vector i ++ alltraps) (hardware_trap esp0 i err s).

(** The words of [struct trapframe], from the top. *)
Definition frame (i err oesp : Z) (s : machine) : list Z :=
  [sregs s SS; regs s ESP; eflags s; sregs s CS; eip s; if pushes_error i then err else 0; i;
   sregs s DS; sregs s ES; sregs s FS; sregs s GS;
   regs s EAX; regs s ECX; regs s EDX; regs s EBX; oesp; regs s EBP; regs s ESI; regs s EDI].

Lemma u16_low_half x n : u16 (u32 (Z.lor (Z.ldiff x 0xFFFF) (u16 n))) = u16 n.
Proof.
  unfold u16. change 65536 with (2 ^ 16). apply Z.bits_inj'. intros j Hj.
  destruct (Z.ltb_spec j 16) as [Hl|Hl]; [|rewrite !Z.mod_pow2_bits_high; [done|lia..]].
  rewrite !Z.mod_pow2_bits_low, u32_testbit, Z.lor_spec, Z.ldiff_spec by lia.
  rewrite Z.mod_pow2_bits_low by lia. change 0xFFFF with (Z.ones 16).
  rewrite Z.ones_spec_low by lia. rewrite andb_false_r, (proj2 (Z.ltb_lt j 32)) by lia. done.
Qed.

Lemma trap_entry_pushes esp0 i err s :
  sizeof_tf + 4 ≤ esp0 < two32 →
  let s' := trap_entry esp0 i err s in
  ram s' = ram (pushes (frame i err (esp0 - 44) s ++ [esp0 - sizeof_tf]) (set_reg ESP esp0 s)) ∧
  regs s' ESP = esp0 - sizeof_tf - 4 ∧ sregs s' DS = Z.shiftl SEG_KDATA 3 ∧
  sregs s' ES = Z.shiftl SEG_KDATA 3 ∧ sregs s' CS = Z.shiftl SEG_KCODE 3 ∧ sregs s' SS = Z.shiftl SEG_KDATA 3.
Proof.
  intros H. unfold sizeof_tf in *. set (s0 := set_reg ESP esp0 s).
  assert (He : regs s0 ESP = esp0) by (cbn; apply u32_small; lia).
  assert (H11 : regs (pushes (take 11 (frame i err 0 s)) s0) ESP = esp0 - 44)
    by (rewrite pushes_esp, He; cbn [length take frame]; lia).
  assert (H19 : regs (pushes (frame i err (esp0 - 44) s) s0) ESP = esp0 - 76)
    by (rewrite pushes_esp, He; cbn [length frame]; lia).
  assert (H20 : regs (pushes (frame i err (esp0 - 44) s ++ [esp0 - 76]) s0) ESP = esp0 - 76 - 4)
    by (rewrite pushes_esp, He; rewrite length_app; cbn [length frame]; lia).
  rewrite <- H20, <- H19 at 1. rewrite <- H11. unfold trap_entry, vector.
  destruct (pushes_error i) eqn:Hp; unfold frame, hardware_trap; rewrite Hp; clear;
    destruct s as [rg sg ip fl m];
    (split; [cbv -[u32 st32 Z.add Z.sub]; reflexivity|]);
    (split; [cbv -[u32 st32 Z.add Z.sub]; reflexivity|]);
    cbv -[u32 u16 st32 Z.add Z.sub Z.lor Z.ldiff]; rewrite !u16_low_half; done.
Qed.

(** Registers hold 32 bits, segment registers 16. *)
Definition machine_ok (s : machine) : Prop :=
  (∀ r, 0 ≤ regs s r < two32) ∧ (∀ r, 0 ≤ sregs s r < 65536) ∧ 0 ≤ eip s < two32 ∧ 0 ≤ eflags s < two32.

Lemma trap_entry_word esp0 i err s j v :
  sizeof_tf + 4 ≤ esp0 < two32 → frame i err (esp0 - 44) s !! j = Some v →
  word (trap_entry esp0 i err s) (esp0 - sizeof_tf) (72 - 4 * Z.of_nat j) = u32 v.
Proof.
  intros H Hj. destruct (trap_entry_pushes esp0 i err s H) as [Hm _]. unfold word. rewrite Hm.
  assert (He : regs (set_reg ESP esp0 s) ESP = esp0) by (cbn; apply u32_small; unfold sizeof_tf in H; lia).
  rewrite <- (pushes_lookup (frame i err (esp0 - 44) s ++ [esp0 - sizeof_tf]) (set_reg ESP esp0 s) j).
  - rewrite He. f_equal. unfold sizeof_tf. lia.
  - rewrite He, length_app. unfold sizeof_tf in H. cbn [length frame]. lia.
  - by apply lookup_app_l_Some.
Qed.

(** What [trap(tf)] is given: [tf] points to the frame, and its fields hold
    the state at the trap. *)
Lemma trap_entry_frame esp0 i err s :
  machine_ok s → sizeof_tf + 4 ≤ esp0 < two32 → 0 ≤ i < two32 → 0 ≤ err < two32 →
  let tf := esp0 - sizeof_tf in
  let s' := trap_entry esp0 i err s in
  word s' (regs s' ESP) 0 = tf ∧
  (∀ r, r ≠ ESP → word s' tf match r with
     | EDI => 0 | ESI => 4 | EBP => 8 | EBX => 16 | EDX => 20 | ECX => 24 | EAX => tf_eax | ESP => 12 end
     = regs s r) ∧
  (∀ r, word s' tf match r with
     | GS => 32 | FS => 36 | ES => tf_es | DS => tf_ds | CS => tf_cs | SS => tf_ss end = sregs s r) ∧
  word s' tf tf_trapno = i ∧ word s' tf tf_err = (if pushes_error i then err else 0) ∧
  word s' tf tf_eip = eip s ∧ word s' tf tf_eflags = eflags s ∧ word s' tf tf_esp = regs s ESP.
Proof.
  intros (Hr & Hs & Hip & Hfl) H Hi Herr tf s'.
  assert (Hw : ∀ j v, frame i err (esp0 - 44) s !! j = Some v → 0 ≤ v < two32 →
                      word s' tf (72 - 4 * Z.of_nat j) = v)
    by (intros j v Hj Hv; rewrite <- (u32_small v) by done; by apply trap_entry_word).
  assert (Hs' : ∀ r, 0 ≤ sregs s r < two32) by (intros r; specialize (Hs r); unfold two32; lia).
  split.
  { destruct (trap_entry_pushes esp0 i err s H) as (Hm & Hsp & _). unfold word, s'. rewrite Hsp, Hm.
    assert (He : regs (set_reg ESP esp0 s) ESP = esp0) by (cbn; apply u32_small; unfold sizeof_tf in H; lia).
    transitivity (u32 tf); [|apply u32_small; unfold tf, sizeof_tf in *; lia].
    rewrite <- (pushes_lookup (frame i err (esp0 - 44) s ++ [esp0 - sizeof_tf]) (set_reg ESP esp0 s) 19);
      [rewrite He; f_equal; unfold sizeof_tf; lia| |done].
    rewrite He, length_app. unfold sizeof_tf in H. cbn [length frame]. lia. }
  split. { intros [] ?; [apply (Hw 11%nat)|apply (Hw 12%nat)|apply (Hw 13%nat)|apply (Hw 14%nat)|done
    |apply (Hw 16%nat)|apply (Hw 17%nat)|apply (Hw 18%nat)]; done. }
  split. { intros []; [apply (Hw 3%nat)|apply (Hw 0%nat)|apply (Hw 7%nat)|apply (Hw 8%nat)
    |apply (Hw 9%nat)|apply (Hw 10%nat)]; done. }
  split; [by apply (Hw 6%nat)|]. split; [apply (Hw 5%nat); [done|destruct (pushes_error i); unfold two32 in *; lia]|].
  split; [by apply (Hw 4%nat)|]. split; [by apply (Hw 2%nat)|]. by apply (Hw 1%nat).
Qed.

(** ** The round trip *)

Lemma trap_returns esp0 i err s s1 :
  machine_ok s → Z.land (sregs s CS) 3 ≠ 0 →
  sizeof_tf + 4 ≤ esp0 < two32 → 0 ≤ i < two32 → 0 ≤ err < two32 →
  let tf := esp0 - sizeof_tf in
  let s0 := trap_entry esp0 i err s in
  regs s1 ESP = regs s0 ESP →
  (∀ k, 0 ≤ k < sizeof_tf → k ≠ tf_eax → word s1 tf k = word s0 tf k) →
  (word s0 (regs s0 ESP) 0 = tf ∧ word s0 tf tf_trapno = i ∧
   word s0 tf tf_err = (if pushes_error i then err else 0) ∧ word s0 tf tf_eip = eip s ∧
   word s0 tf tf_esp = regs s ESP ∧ word s0 tf tf_eax = regs s EAX) ∧
  let s' := run (alltraps_return ++ trapret) s1 in
  (∀ r, regs s' r = match r with EAX => word s1 tf tf_eax | _ => regs s r end) ∧
  (∀ r, sregs s' r = sregs s r) ∧ eip s' = eip s ∧ eflags s' = eflags s ∧ ram s' = ram s1.
Proof.
  intros Hok Hc H Hi Herr tf s0 Hsp Hfr.
  destruct (trap_entry_frame esp0 i err s Hok H Hi Herr) as (Harg & Hr & Hs & Hno & Her & Hip & Hfl & Hesp).
  destruct (trap_entry_pushes esp0 i err s H) as (_ & Hsp0 & _). fold s0 in Harg, Hr, Hs, Hno, Her, Hip, Hfl, Hesp, Hsp0. fold tf in Harg, Hr, Hs, Hno, Her, Hip, Hfl, Hesp.
  clearbody s0. split; [repeat split; try done; by apply (Hr EAX)|].
  cbn zeta. rewrite run_app. change (run alltraps_return s1) with (set_reg ESP (regs s1 ESP + 4) s1).
  set (s2 := set_reg ESP (regs s1 ESP + 4) s1). unfold sizeof_tf in *.
  assert (H2 : regs s2 ESP = tf) by (cbn; rewrite Hsp, Hsp0, u32_small; unfold tf; lia).
  assert (Hw : ∀ k, word s2 tf k = word s1 tf k) by done.
  assert (Hcs : word s1 tf tf_cs = sregs s CS) by (rewrite Hfr by done; apply (Hs CS)).
  destruct (trapret_spec s2 tf) as (Hr' & Hs' & Hip' & Hfl' & Hm');
    [done|unfold tf; lia|unfold tf, sizeof_tf; lia|by rewrite Hw, Hcs|].
  rewrite Hip', Hfl', Hm', !Hw.
  split; [|split; [|repeat split; rewrite Hfr; done]].
  - intros r. rewrite Hr', Hw. destruct r; try done; rewrite Hfr by done; try done;
      [apply (Hr ECX)|apply (Hr EDX)|apply (Hr EBX)|apply (Hr EBP)|apply (Hr ESI)|apply (Hr EDI)]; done.
  - intros r. rewrite Hs', Hw, Hfr by (destruct r; done). destruct Hok as (_ & Hok & _).
    transitivity (u16 (sregs s r)); [f_equal; exact (Hs r)|apply Z.mod_small, Hok].
Qed.


(** C23.  A system-call stub of usys.S, called by a user program with its return
    address [ra] on the stack: [trap] finds [T_SYSCALL] in the frame, the
    number [n] in its [eax] and the stack pointer of the call in its [esp];
    when it has set the frame's [eax] and returns, the program continues
    after its call, [eax] being the result, and every other register as it was
    at the call. *)
Theorem usys_calls esp0 n s s1 ra :
  machine_ok s → Z.land (sregs s CS) 3 ≠ 0 → regs s ESP + 4 < two32 →
  sizeof_tf + 4 ≤ esp0 < two32 → 0 ≤ n < two32 → word s (regs s ESP) 0 = ra →
  let tf := esp0 - sizeof_tf in
  let s0 := trap_entry esp0 T_SYSCALL 0 (run (usys n) s) in
  regs s1 ESP = regs s0 ESP →
  (∀ k, 0 ≤ k < sizeof_tf → k ≠ tf_eax → word s1 tf k = word s0 tf k) →
  word s1 (regs s ESP) 0 = ra →
  (word s0 tf tf_trapno = T_SYSCALL ∧ word s0 tf tf_eax = n ∧ word s0 tf tf_esp = regs s ESP) ∧
  let s' := run (alltraps_return ++ trapret ++ usys_return) s1 in
  eip s' = ra ∧
  ∀ r, regs s' r = match r with EAX => word s1 tf tf_eax | ESP => regs s ESP + 4 | _ => regs s r end.
Proof.
  intros Hok Hc Hsp Hb Hn Hra tf s0 Hs1 Hfr Hra1.
  assert (Hok' : machine_ok (run (usys n) s)).
  { destruct Hok as (Hr & Hs & Hi & Hf). split; [|done]. intros r. cbn. destruct (reg_no r =? 0); [apply u32_range|done]. }
  destruct (trap_returns esp0 T_SYSCALL 0 (run (usys n) s) s1 Hok') as [(_ & Hno & _ & _ & Hsp0 & Ha) (Hr & _ & _ & _ & Hm)];
    try done.
  fold tf s0 in Hno, Hsp0, Ha. clearbody s0. split.
  { split; [done|]. split; [rewrite Ha; cbn; by apply u32_small|]. rewrite Hsp0. done. }
  rewrite app_assoc, run_app. set (s2 := run (alltraps_return ++ trapret) s1) in *. clearbody s2.
  assert (He : regs s2 ESP = regs s ESP) by (rewrite Hr; done).
  cbn zeta. unfold word in *. rewrite Z.add_0_r in *. cbn. rewrite He, Hm, Hra1. split.
  - subst ra. apply u32_small, ld32_range.
  - intros r. destruct Hok as [Hreg _]. pose proof (Hreg ESP).
    destruct r; cbn; rewrite ?Hr, ?u32_small by lia; try done.
Qed.

(** ** Switching contexts *)

(** A call of [swtch]: the return address, [old] and [new] on the stack. *)
Lemma swtch_runs s e old new :
  regs s ESP = e → 16 ≤ e → e + 8 < two32 → word s e 4 = old → word s e 8 = new →
  0 ≤ new → new + sizeof_ctx < two32 →
  let m := ram (pushes [regs s EBP; regs s EBX; regs s ESI; regs s EDI] s) in
  let m' := st32 m old (e - 16) in
  let s' := run swtch_code s in
  ram s' = m' ∧ regs s' EDI = ld32 m' new ∧ regs s' ESI = ld32 m' (new + 4) ∧
  regs s' EBX = ld32 m' (new + 8) ∧ regs s' EBP = ld32 m' (new + ctx_ebp) ∧
  eip s' = ld32 m' (new + ctx_eip) ∧ regs s' ESP = new + sizeof_ctx.
Proof.
  intros He H0 H1 Hold Hnew Hn Hn'.
  assert (Hsp : regs (pushes [regs s EBP; regs s EBX; regs s ESI; regs s EDI] s) ESP = e - 16)
    by (rewrite pushes_esp, He; cbn [length]; lia).
  cbn zeta. rewrite <- Hsp. revert Hsp. destruct s as [rg sg ip fl m]. cbn in He. unfold word in *. cbn [ram] in *.
  unfold ctx_ebp, ctx_eip, sizeof_ctx in *. cbn zeta.
  cbv -[u32 u16 ld32 st32 Z.add Z.sub two32]. rewrite He. intros _.
  rewrite (u32_small (e + 4)), (u32_small (e + 8)), !u32_ld32, Hold, Hnew by lia.
  match goal with |- ?m' = _ ∧ _ => generalize m' end. intros m'. esp_norm. repeat split.
Qed.

(** Where [swtch] leaves memory alone. *)
Lemma swtch_frame s e old a :
  regs s ESP = e → 16 ≤ e < two32 → a ≠ old → ¬ (e - 16 ≤ a < e) →
  ld32 (st32 (ram (pushes [regs s EBP; regs s EBX; regs s ESI; regs s EDI] s)) old (e - 16)) a = ld32 (ram s) a.
Proof.
  intros He H Ha Hf. rewrite ld32_st32_ne by done. apply pushes_frame; rewrite He; cbn [length]; lia.
Qed.

(** C12.  A kernel thread that calls [swtch(&old, new)] is resumed by the
    [swtch] that is later given the saved context: if the words of its stack
    from the saved registers up are then as [swtch] left them, the thread
    continues at the return address of its own call with the callee-saved
    registers it had and its stack pointer past that address. *)
Theorem swtch_resumes s e old s1 e1 old1 :
  machine_ok s → regs s ESP = e → 16 ≤ e → e + 8 < two32 → word s e 4 = old → ¬ (e - 16 ≤ old < e + 4) →
  0 ≤ word s e 8 → word s e 8 + sizeof_ctx < two32 →
  let s' := run swtch_code s in
  (∀ a, e - 16 ≤ a < e + 4 → ld32 (ram s1) a = ld32 (ram s') a) →
  regs s1 ESP = e1 → 16 ≤ e1 → e1 + 8 < two32 →
  word s1 e1 4 = old1 → word s1 e1 8 = ld32 (ram s') old →
  ¬ (e - 16 ≤ old1 < e + 4) → (e + 4 ≤ e1 - 16 ∨ e1 ≤ e - 16) →
  let s2 := run swtch_code s1 in
  eip s2 = word s e 0 ∧ regs s2 ESP = e + 4 ∧ regs s2 EBP = regs s EBP ∧ regs s2 EBX = regs s EBX ∧
  regs s2 ESI = regs s ESI ∧ regs s2 EDI = regs s EDI.
Proof.
  intros (Hreg & _) He H0 H1 Hold Hd Hn0 Hn1 s' Hfr He1 H2 H3 Hold1 Hnew Hd1 Hdis s2.
  destruct (swtch_runs s e old (word s e 8)) as [Hm _]; try done. fold s' in Hm.
  set (vs := [regs s EBP; regs s EBX; regs s ESI; regs s EDI]) in *.
  assert (Hctx : ld32 (ram s') old = e - 16) by (rewrite Hm, ld32_st32_eq; apply u32_small; lia).
  rewrite Hctx in Hnew. clearbody s'.
  assert (Hsv : ∀ a, e - 16 ≤ a < e + 4 → ld32 (ram s1) a = ld32 (ram (pushes vs s)) a).
  { intros a Ha. rewrite Hfr, Hm by done. apply ld32_st32_ne. lia. }
  assert (Hlen : 4 * Z.of_nat (length vs) ≤ regs s ESP < two32) by (rewrite He; cbn [length vs]; lia).
  assert (Hwd : ∀ i v, vs !! i = Some v → 0 ≤ v < two32 →
     ld32 (ram s1) (e - 4 * (Z.of_nat i + 1)) = v).
  { intros i v Hi Hv. pose proof (lookup_lt_Some _ _ _ Hi). cbn [length vs] in *.
    rewrite Hsv by lia. rewrite <- He, (pushes_lookup vs s i v) by done. by apply u32_small. }
  destruct (swtch_runs s1 e1 old1 (e - 16)) as (_ & HEDI & HESI & HEBX & HEBP & Hip & Hsp);
    try done; try (unfold sizeof_ctx in *; lia).
  fold s2 in HEDI, HESI, HEBX, HEBP, Hip, Hsp. clearbody s2. unfold ctx_ebp, ctx_eip, sizeof_ctx in *.
  rewrite swtch_frame in HEDI, HESI, HEBX, HEBP, Hip by (first [done|lia]).
  split; [|split; [lia|]].
  - rewrite Hip, Hsv by lia. rewrite pushes_frame by (try done; cbn [length vs]; lia). unfold word. f_equal. lia.
  - rewrite HEDI, HESI, HEBX, HEBP.
    replace (e - 16 + 12) with (e - 4) by lia. replace (e - 16 + 8) with (e - 8) by lia.
    replace (e - 16 + 4) with (e - 12) by lia.
    split; [apply (Hwd 0%nat)|split; [apply (Hwd 1%nat)|split; [apply (Hwd 2%nat)|apply (Hwd 3%nat)]]];
      try done; apply Hreg.
Qed.

(** ** The first run of a child *)

Section child.
Context {KI : KernelImage}.

(** A switch to a new process starts at [forkret], on its own stack. *)
Lemma swtch_new s e old v m :
  regs s ESP = e → 16 ≤ e → e + 8 < two32 → word s e 4 = old → word s e 8 = new_context v →
  page_ok v → (∀ a, in_page v a → ld32 (ram s) a = ld32 m a) →
  ¬ in_page v old → (∀ a, e - 16 ≤ a < e → ¬ in_page v a) →
  let s' := run swtch_code s in
  eip s' = ld32 m (new_context v + ctx_eip) ∧ regs s' ESP = new_tf v - 4 ∧
  (∀ a, in_page v a → ld32 (ram s') a = ld32 m a).
Proof.
  intros He H0 H1 Hold Hnew Hv Hm Hold' Hst. pose proof (page_ok_range v Hv) as Hr.
  destruct (swtch_runs s e old (new_context v)) as (Hram & _ & _ & _ & _ & Hip & Hsp); try done.
  { unfold new_context, new_tf, KERNBASE, EXTMEM, KSTACKSIZE, sizeof_tf, sizeof_ctx in *. lia. }
  { unfold new_context, new_tf, KERNBASE, PHYSTOP, PGSIZE, KSTACKSIZE, sizeof_tf, sizeof_ctx, two32 in *. lia. }
  assert (Hin : ∀ a, in_page v a →
    ld32 (st32 (ram (pushes [regs s EBP; regs s EBX; regs s ESI; regs s EDI] s)) old (e - 16)) a = ld32 m a).
  { intros a Ha. rewrite (swtch_frame s e old); [by apply Hm|done|lia|by intros ->|]. intros Hx. by apply (Hst a). }
  cbn zeta. rewrite Hram, Hip, Hsp. split; [|split].
  - apply Hin. unfold in_page, new_context, new_tf, ctx_eip, KSTACKSIZE, PGSIZE, sizeof_tf, sizeof_ctx. lia.
  - unfold new_context, sizeof_ctx. lia.
  - exact Hin.
Qed.

End child.

(** ** Examples *)

Module AsmExample.
#[local] Existing Instance kernel_sym.

(** A user program at address 0x100. *)
Definition user : machine :=
  MkMachine (λ r, reg_no r + 16) (λ r, match r with CS => 0x1b | _ => 0x23 end) 0x100 0x202 ∅.

Lemma user_ok : machine_ok user.
Proof. split; [|split; [|done]]; intros []; done. Qed.

(** Two threads: the first, with stack pointer [e], switches to a context at
    0x80300000; later a thread on that page switches back. *)
Definition e : Z := 0x80200ff0.
Definition thread : machine :=
  MkMachine (λ r, match r with ESP => e | _ => reg_no r end) (λ _, 16) 0x80100000 0
    (st32 (st32 (st32 ∅ e 0x80104321) (e + 4) 0x80400000) (e + 8) 0x80300000).
Definition e1 : Z := 0x80300800.
Definition back : machine :=
  MkMachine (λ r, match r with ESP => e1 | _ => 0 end) (λ _, 16) 0x80100000 0
    (st32 (st32 (ram (run swtch_code thread)) (e1 + 4) 0x80400010) (e1 + 8) (e - 16)).

(** The stack of a child in page 0x80202000, its parent's being 0x80201000. *)
Definition kstack : Z := 0x80201000.
Definition stack : Z := 0x80202000.
Definition parent_proc : proc := upd_p_tf (λ _, new_tf kstack) (upd_p_kstack (λ _, kstack) proc0).
Definition parent_state : kstate :=
  upd_k_mem (λ _, ram (trap_entry (p_kstack parent_proc + KSTACKSIZE) 64 0 user)) bss.
Definition mem : gmap Z Z := child_frame (new_tf kstack) (new_tf stack) (new_stack stack (k_mem parent_state)).
Definition sched_thread : machine :=
  MkMachine (λ r, match r with ESP => e | _ => reg_no r end) (λ _, 16) 0x80100000 0
    (st32 (st32 mem (e + 4) 0x80400000) (e + 8) (new_context stack)).

Lemma stacks_ok : page_ok kstack ∧ page_ok stack.
Proof. split; by apply page_ok_kernel_sym. Qed.

Lemma mem_stack : child_stack parent_state parent_proc stack mem.
Proof.
  destruct stacks_ok as [Hk Hs]. split.
  - intros k Hk' Hk4. assert (Ha : (new_tf stack + k) mod 4 = 0).
    { apply Z.mod_divide in Hk4 as [j ->]; [|done]. by rewrite Z.mod_add. }
    unfold mem. rewrite child_frame_words by done. rewrite (decide_ext _ (k = tf_eax)) by lia.
    case_decide; [done|]. rewrite decide_True by lia. replace (new_tf stack + k - new_tf stack) with k by lia.
    rewrite new_stack_other; [done|done| |].
    + apply Z.mod_divide in Hk4 as [j ->]; [|done]. by rewrite Z.mod_add.
    + unfold in_page, new_tf, kstack, stack, KSTACKSIZE, PGSIZE, sizeof_tf in *. lia.
  - by vm_compute.
Qed.

Lemma parent_frame k :
  ld32 (k_mem parent_state) (p_tf parent_proc + k) =
  word (trap_entry (p_kstack parent_proc + KSTACKSIZE) 64 0 user) (p_tf parent_proc) k.
Proof. unfold word, parent_state. cbn [k_mem upd_k_mem]. reflexivity. Qed.

Lemma scheduler_args : word sched_thread e 4 = 0x80400000 ∧ word sched_thread e 8 = new_context stack.
Proof.
  unfold word. cbn [ram sched_thread]. rewrite (ld32_st32_ne _ (e + 8)), !ld32_st32_eq by done. done.
Qed.

Lemma scheduler_mem a : in_page stack a → ld32 (ram sched_thread) a = ld32 mem a.
Proof.
  intros Ha. cbn [ram sched_thread]. unfold in_page, e, stack, PGSIZE in *. by rewrite !ld32_st32_ne by lia.
Qed.
End AsmExample.


Lemma usys_calls_witness :
  let s0 := trap_entry 0x80205000 T_SYSCALL 0 (run (usys (SYS "getpid")) AsmExample.user) in
  word s0 (0x80205000 - sizeof_tf) tf_eax = 11 ∧
  regs (run (alltraps_return ++ trapret ++ usys_return) s0) ESP = 24.
Proof.
  destruct (usys_calls 0x80205000 (SYS "getpid") AsmExample.user
    (trap_entry 0x80205000 T_SYSCALL 0 (run (usys (SYS "getpid")) AsmExample.user)) 0 AsmExample.user_ok)
    as [(_ & Ha & _) (_ & Hr)]; [done|done|done|done|done|done|done| |].
  - by vm_compute.
  - split; [exact Ha|exact (Hr ESP)].
Defined.

Lemma swtch_resumes_witness :
  let s2 := run swtch_code AsmExample.back in
  eip s2 = 0x80104321 ∧ regs s2 ESP = AsmExample.e + 4 ∧ regs s2 EBX = 3.
Proof.
  destruct (swtch_resumes AsmExample.thread AsmExample.e 0x80400000 AsmExample.back AsmExample.e1 0x80400010)
    as (Hip & Hsp & _ & Hbx & _).
  1: { split; [|split; [|done]]; intros []; done. }
  8: { intros a Ha. cbn. unfold AsmExample.e, AsmExample.e1 in *. by rewrite !ld32_st32_ne by lia. }
  1-14: first [by vm_compute | unfold AsmExample.e, AsmExample.e1; lia].
  intros s2. unfold s2. rewrite Hip, Hsp, Hbx. split; [|split]; reflexivity.
Defined.

