(* ===== verification/Startup.v ===== *)
(** Startup: from the processor's first instruction to [main], and the start
    of the other processors: [entry.S], [entryother.S], [bootasm.S] and
    [main.c].

    The code that turns on protection and paging runs on a machine with the
    control registers; its memory is [k_mem], physical address [a] being the
    word at [P2V a].  The other processors are a parameter: [others] is what
    they do to the [started] flags between two reads of [startothers]. *)

From S2P Require Import Prelude Layout State Mem Spinlock Segments Console Kalloc Vm CString Sched Bytes Sleeplock Ports Apic Mp Disk Ide Bio Log Fs ConsoleDev Kbd Screen Dir Pipe File Proc Sysproc Trap Asm.

Definition CR0_PE : Z := 0x1.
Definition CR0_WP : Z := 0x10000.
Definition CR0_PG : Z := 0x80000000.
Definition CR4_PSE : Z := 0x10.

(** ** The boot page table *)

(** [pde_t entrypgdir[NPDENTRIES]] *)
Definition entrypgdir (i : Z) : Z :=
  if i =? 0 then Z.lor (Z.lor PTE_P PTE_W) PTE_PS
  else if i =? Z.shiftr KERNBASE 22 then Z.lor (Z.lor PTE_P PTE_W) PTE_PS
  else 0.

(** What the processor makes of an address when a directory has 4 MB pages
    only. *)
Definition translate_big (pd : Z → Z) (va : Z) : option Z :=
  let e := pd (PDX va) in
  if has_flag e PTE_P && has_flag e PTE_PS then Some (Z.lor (Z.land e 0xFFC00000) (Z.land va 0x3FFFFF)) else None.

(** ** The processor *)

Module Ctl.
Inductive cr := CR0 | CR3 | CR4.
Record ctl := MkCtl {
  eax : Z; esp : Z; cr0 : Z; cr3 : Z; cr4 : Z;
  seg : sreg → Z; gdtr : Z; eip : Z; ram : gmap Z Z;
}.

Inductive instr :=
| FromCr (c : cr)           (** [movl %cr, %eax] *)
| ToCr (c : cr)             (** [movl %eax, %cr] *)
| Orl (n : Z)               (** [orl $n, %eax] *)
| MovI (n : Z)              (** [movl $n, %eax] *)
| MovMem (a : Z)            (** [movl (a), %eax] *)
| MovwI (n : Z)             (** [movw $n, %ax] *)
| Xorw                      (** [xorw %ax, %ax] *)
| ToSeg (r : sreg)          (** [movw %ax, %seg] *)
| Lgdt (a : Z)
| Ljmp (sel a : Z)
| EspI (n : Z)              (** [movl $n, %esp] *)
| EspMem (a : Z)            (** [movl (a), %esp] *)
| JmpEax                    (** [jmp *%eax] *)
| CallMem (a ret : Z)       (** [call *(a)], [ret] being the next address *)
| Call (a ret : Z).

Definition set_eax v c := MkCtl (u32 v) (esp c) (cr0 c) (cr3 c) (cr4 c) (seg c) (gdtr c) (eip c) (ram c).
Definition set_esp v c := MkCtl (eax c) (u32 v) (cr0 c) (cr3 c) (cr4 c) (seg c) (gdtr c) (eip c) (ram c).
Definition set_eip v c := MkCtl (eax c) (esp c) (cr0 c) (cr3 c) (cr4 c) (seg c) (gdtr c) (u32 v) (ram c).
Definition set_seg r v c :=
  MkCtl (eax c) (esp c) (cr0 c) (cr3 c) (cr4 c) (λ x, if sreg_no x =? sreg_no r then u16 v else seg c x) (gdtr c) (eip c) (ram c).
Definition set_cr (r : cr) v c :=
  match r with
  | CR0 => MkCtl (eax c) (esp c) v (cr3 c) (cr4 c) (seg c) (gdtr c) (eip c) (ram c)
  | CR3 => MkCtl (eax c) (esp c) (cr0 c) v (cr4 c) (seg c) (gdtr c) (eip c) (ram c)
  | CR4 => MkCtl (eax c) (esp c) (cr0 c) (cr3 c) v (seg c) (gdtr c) (eip c) (ram c)
  end.
Definition get_cr (r : cr) c := match r with CR0 => cr0 c | CR3 => cr3 c | CR4 => cr4 c end.
Definition load c (a : Z) : Z := ld32 (ram c) (P2V a).
Definition call (a ret : Z) c :=
  let sp := u32 (esp c - 4) in
  set_eip a (MkCtl (eax c) sp (cr0 c) (cr3 c) (cr4 c) (seg c) (gdtr c) (eip c) (st32 (ram c) sp ret)).
Definition low_half (v n : Z) : Z := Z.lor (Z.ldiff v 0xFFFF) (u16 n).

Definition exec (i : instr) (c : ctl) : ctl :=
  match i with
  | FromCr r => set_eax (get_cr r c) c
  | ToCr r => set_cr r (eax c) c
  | Orl n => set_eax (Z.lor (eax c) n) c
  | MovI n => set_eax n c
  | MovMem a => set_eax (load c a) c
  | MovwI n => set_eax (low_half (eax c) n) c
  | Xorw => set_eax (low_half (eax c) 0) c
  | ToSeg r => set_seg r (eax c) c
  | Lgdt a => MkCtl (eax c) (esp c) (cr0 c) (cr3 c) (cr4 c) (seg c) a (eip c) (ram c)
  | Ljmp sel a => set_eip a (set_seg CS sel c)
  | EspI n => set_esp n c
  | EspMem a => set_esp (load c a) c
  | JmpEax => set_eip (eax c) c
  | CallMem a ret => call (load c a) ret c
  | Call a ret => call a ret c
  end.

Definition run (l : list instr) (c : ctl) : ctl := foldl (λ c i, exec i c) c l.

(** [entry] *)
Definition entry_code (pgdir stack main : Z) : list instr :=
  [(* Turn on page size extension for 4Mbyte pages *)
   FromCr CR4; Orl CR4_PSE; ToCr CR4;
   (* Set page directory *)
   MovI (V2P pgdir); ToCr CR3;
   (* Turn on paging. *)
   FromCr CR0; Orl (Z.lor CR0_PG CR0_WP); ToCr CR0;
   (* Set up the stack pointer. *)
   EspI (stack + KSTACKSIZE);
   (* Jump to main() *)
   MovI main; JmpEax].

(** Real mode to protected mode, common to bootasm.S and entryother.S *)
Definition protect_code (gdtdesc start32 : Z) : list instr :=
  [Lgdt gdtdesc; FromCr CR0; Orl CR0_PE; ToCr CR0; Ljmp (Z.shiftl SEG_KCODE 3) start32;
   (* Set up the protected-mode data segment registers *)
   MovwI (Z.shiftl SEG_KDATA 3); ToSeg DS; ToSeg ES; ToSeg SS;
   MovwI 0; ToSeg FS; ToSeg GS].
Definition zero_segs : list instr := [Xorw; ToSeg DS; ToSeg ES; ToSeg SS].

(** [start] of entryother.S, placed at the address [start] *)
Definition entryother_code (start gdtdesc start32 ret : Z) : list instr :=
  zero_segs ++ protect_code gdtdesc start32 ++
  [(* Turn on page size extension for 4Mbyte pages *)
   FromCr CR4; Orl CR4_PSE; ToCr CR4;
   (* Use entrypgdir as our initial page table *)
   MovMem (start - 12); ToCr CR3;
   (* Turn on paging. *)
   FromCr CR0; Orl (Z.lor (Z.lor CR0_PE CR0_PG) CR0_WP); ToCr CR0;
   (* Switch to the stack allocated by startothers() *)
   EspMem (start - 4);
   (* Call mpenter() *)
   CallMem (start - 8) ret].

(** [start] of bootasm.S: before and after the A20 gate is opened *)
Definition bootasm_code (start gdtdesc start32 bootmain ret : Z) : list instr :=
  protect_code gdtdesc start32 ++ [EspI start; Call bootmain ret].
End Ctl.

(** [SEG_ASM] of asm.h: the bytes of a descriptor *)
Definition SEG_ASM (type base lim : Z) : list Z :=
  let w1 := Z.land (Z.shiftr lim 12) 0xffff in
  let w2 := Z.land base 0xffff in
  [u8 w1; u8 (Z.shiftr w1 8); u8 w2; u8 (Z.shiftr w2 8); Z.land (Z.shiftr base 16) 0xff; Z.lor 0x90 type;
   Z.lor 0xC0 (Z.land (Z.shiftr lim 28) 0xf); Z.land (Z.shiftr base 24) 0xff].
Definition boot_gdt : list (list Z) :=
  [replicate 8 0; SEG_ASM (Z.lor STA_X STA_R) 0 0xffffffff; SEG_ASM STA_W 0 0xffffffff].

(** The other processors: the [started] flags when they have run for a while. *)
Class OtherCpus := { others : kstate → list Z; others_turns : nat }.

Section startup.
Context {KI : KernelImage} {ENV : Env} {DEV : Device} {OTH : OtherCpus}.

(** [seta20.1] and [seta20.2] of bootasm.S *)
Definition seta20 : K unit :=
  poll dev_turns 0x64 (λ v, negb (Z.land v 0x2 =? 0));; (* Wait for not busy *)
  outb 0x64 0xd1;;
  poll dev_turns 0x64 (λ v, negb (Z.land v 0x2 =? 0));; (* Wait for not busy *)
  outb 0x60 0xdf.

(** Common CPU setup code; [scheduler] is followed for [rounds] rounds. *)
Definition mpmain (rounds : nat) : K unit :=
  id ← cpuid;
  cprintf ("cpu%d: starting %d" +:+ nl) [AInt id; AInt id];;
  (* idtinit: load idt register *)
  c ← mycpu;
  modify (upd_k_started <[Z.to_nat (c_id c) := 1]>);; (* tell startothers() we're up *)
  scheduler rounds.

(** Other CPUs jump here from entryother.S. *)
Definition mpenter (rounds : nat) : K unit :=
  switchkvm;;
  seginit;;
  Lapic.lapicinit;;
  mpmain rounds.

(** [while(c->started == 0) ;] *)
Fixpoint wait_started (turns : nat) (c : nat) : K unit :=
  x ← deref (λ s, k_started s !! c);
  if x =? 0 then
    match turns with
    | O => nofuel
    | S turns =>
        l ← gets (λ s, others s);
        modify (upd_k_started (λ _, l));;
        wait_started turns c
    end
  else mret tt.

Definition ap_code : Z := P2V 0x7000.

(** The body of the loop, for [c = cpus + i] *)
Definition startother (mpenter_addr pgdir : Z) (i : nat) : K unit :=
  me ← mycpu;
  if c_id me =? Z.of_nat i then mret tt else (* We've started already. *)
  (* Tell entryother.S what stack to use, where to enter, and what pgdir to use. *)
  stack ← kalloc;
  write32 (ap_code - 4) (stack + KSTACKSIZE);;
  write32 (ap_code - 8) mpenter_addr;;
  write32 (ap_code - 12) (V2P pgdir);;
  apicid ← deref (λ s, k_apicids s !! i);
  Lapic.lapicstartap apicid (V2P ap_code);;
  (* wait for cpu to finish mpmain() *)
  wait_started others_turns i.

(** [entryother]: the linked image of entryother.S; [mpenter_addr] and
    [pgdir]: the addresses of [mpenter] and [entrypgdir] *)
Definition startothers (entryother : list Z) (mpenter_addr pgdir : Z) : K unit :=
  (* Write entry code to unused memory at 0x7000. *)
  modify (upd_k_mem (λ m, store_bytes m ap_code entryother));;
  ncpu ← gets (λ s, k_ncpu s);
  for_ (Z.to_nat ncpu) 0 (λ c, startother mpenter_addr pgdir (Z.to_nat c)).

Definition main (entryother initcode : list Z) (mpenter_addr pgdir : Z) (rounds : nat) : K unit :=
  kinit1 k_end (P2V (4 * 1024 * 1024));; (* phys page allocator *)
  kvmalloc;;                             (* kernel page table *)
  mpinit;;                               (* detect other processors *)
  Lapic.lapicinit;;                      (* interrupt controller *)
  seginit;;                              (* segment descriptors *)
  Pic.picinit;;                          (* disable pic *)
  Ioapic.ioapicinit;;                    (* another interrupt controller *)
  consoleinit;;                          (* console hardware *)
  Uart.uartinit;;                        (* serial port *)
  pinit;;                                (* process table *)
  shminit;;                              (* shared memory *)
  tvinit;;                               (* trap vectors *)
  binit;;                                (* buffer cache *)
  fileinit;;                             (* file table *)
  Ide.ideinit;;                          (* disk *)
  startothers entryother mpenter_addr pgdir;; (* start other processors *)
  kinit2 (P2V (4 * 1024 * 1024)) (P2V PHYSTOP);; (* must come after startothers() *)
  userinit (DRV := Ide.driver) initcode;; (* first user process *)
  mpmain rounds.                         (* finish this processor's setup *)
End startup.

(** ** The boot page table *)

(** Before and after the jump to high addresses, the first 4 MB are mapped. *)
Lemma entrypgdir_maps va :
  0 ≤ va < two32 →
  translate_big entrypgdir va =
    if va <? 0x400000 then Some va
    else if (KERNBASE <=? va) && (va <? KERNBASE + 0x400000) then Some (va - KERNBASE) else None.
Proof.
  intros Hva. unfold translate_big, entrypgdir. rewrite PDX_spec, u32_small by done.
  pose proof (Z.div_mod va 0x400000 ltac:(done)). pose proof (Z.mod_pos_bound va 0x400000 ltac:(done)).
  assert (Hlow : Z.land va 0x3FFFFF = va mod 0x400000) by (change 0x3FFFFF with (Z.ones 22); by rewrite Z.land_ones).
  rewrite Hlow. change (Z.shiftr KERNBASE 22) with 512. unfold KERNBASE, two32 in *.
  destruct (Z.eqb_spec (va / 4194304) 0) as [E|E]; [|destruct (Z.eqb_spec (va / 4194304) 512) as [E'|E']];
    change (Z.lor (Z.lor PTE_P PTE_W) PTE_PS) with 131; cbn iota beta.
  - change (has_flag 131 PTE_P && has_flag 131 PTE_PS) with true. change (Z.land 131 0xFFC00000) with 0.
    rewrite (proj2 (Z.ltb_lt _ _)) by lia. cbn iota. rewrite Z.lor_0_l. f_equal. lia.
  - change (has_flag 131 PTE_P && has_flag 131 PTE_PS) with true. change (Z.land 131 0xFFC00000) with 0.
    rewrite (proj2 (Z.ltb_ge _ _)), (proj2 (Z.leb_le _ _)), (proj2 (Z.ltb_lt _ _)) by lia.
    cbn [andb]. rewrite Z.lor_0_l. f_equal. lia.
  - change (has_flag 0 PTE_P && has_flag 0 PTE_PS) with false. rewrite (proj2 (Z.ltb_ge _ _)) by lia.
    destruct (Z.leb_spec 2147483648 va), (Z.ltb_spec va (2147483648 + 4194304)); cbn [andb]; try done. lia.
Qed.

(** ** Turning on paging *)

Definition paging (c : Ctl.ctl) : bool :=
  has_flag (Ctl.cr0 c) CR0_PG && has_flag (Ctl.cr0 c) CR0_WP && has_flag (Ctl.cr4 c) CR4_PSE.

Lemma has_flag_lor_bit a b f k :
  f = 2 ^ k → 0 ≤ k < 32 → Z.testbit b k = true → has_flag (u32 (Z.lor a b)) f = true.
Proof.
  intros -> Hk Hb. unfold has_flag. apply negb_true_iff, Z.eqb_neq. intros E.
  assert (Z.testbit (Z.land (u32 (Z.lor a b)) (2 ^ k)) k = false) as Hf by (rewrite E; apply Z.bits_0).
  rewrite Z.land_spec, u32_testbit, Z.lor_spec, Hb, orb_true_r, Z.pow2_bits_true, andb_true_r in Hf by lia.
  rewrite (proj2 (Z.ltb_lt k 32)) in Hf by lia. done.
Qed.

(** [entry] ends in [main], on the boot stack, with [entrypgdir] in use. *)
Lemma entry_code_ok pgdir stack main c :
  is_u32 main → is_u32 (V2P pgdir) → is_u32 (stack + KSTACKSIZE) →
  let c' := Ctl.run (Ctl.entry_code pgdir stack main) c in
  Ctl.eip c' = main ∧ Ctl.esp c' = stack + KSTACKSIZE ∧ Ctl.cr3 c' = V2P pgdir ∧ paging c' = true.
Proof.
  intros H1 H2 H3. cbn -[u32 V2P Z.add Z.lor has_flag].
  rewrite u32_idemp, (u32_small main), (u32_small (stack + _)), (u32_small (V2P pgdir)) by done. repeat split.
  unfold paging. cbn -[u32 Z.lor has_flag CR0_PG CR0_WP CR4_PSE].
  rewrite (has_flag_lor_bit _ _ CR0_PG 31), (has_flag_lor_bit _ _ CR0_WP 16), (has_flag_lor_bit _ _ CR4_PSE 4) by done. done.
Qed.

(** A new processor, started at [start]: it takes the page directory, the
    stack and the function to call from the words below [start]. *)
Lemma entryother_code_ok start gdtdesc start32 ret c pgdir stack f :
  Ctl.load c (start - 12) = pgdir → Ctl.load c (start - 4) = stack → Ctl.load c (start - 8) = f → 4 ≤ stack →
  let c' := Ctl.run (Ctl.entryother_code start gdtdesc start32 ret) c in
  Ctl.eip c' = f ∧ Ctl.esp c' = stack - 4 ∧ Ctl.cr3 c' = pgdir ∧ paging c' = true ∧
  has_flag (Ctl.cr0 c') CR0_PE = true ∧
  (∀ r, Ctl.seg c' r = match r with CS => Z.shiftl SEG_KCODE 3 | FS | GS => 0 | _ => Z.shiftl SEG_KDATA 3 end).
Proof.
  intros Hp Hs Hf H4. destruct c as [ax sp c0 c3 c4 sg gd ip m]. unfold Ctl.load in *. cbn [Ctl.ram] in *.
  assert (is_u32 stack ∧ is_u32 f ∧ is_u32 pgdir) as (U1 & U2 & U3) by (subst; split_and!; apply ld32_range).
  cbv -[u32 u16 ld32 st32 P2V Z.add Z.sub Z.lor Z.ldiff has_flag CR0_PG CR0_WP CR4_PSE CR0_PE two32 not].
  rewrite Hp, Hs, Hf. rewrite (u32_small f), (u32_small stack), (u32_small pgdir) by done.
  rewrite (has_flag_lor_bit _ _ CR0_PG 31), (has_flag_lor_bit _ _ CR0_WP 16), (has_flag_lor_bit _ _ CR4_PSE 4),
    (has_flag_lor_bit _ _ CR0_PE 0) by done.
  split; [done|]. split; [rewrite u32_small; [done|unfold is_u32 in U1; lia]|]. do 3 (split; [done|]).
  intros []; rewrite ?u16_low_half; done.
Qed.

(** ** Starting the other processors *)

(** The startup interrupts sent so far, as (APIC id, vector): the destination
    register holds the id when the command register is written. *)
Definition ipi_step (lapic : Z) (x : Z * list (Z * Z)) (e : io) : Z * list (Z * Z) :=
  match e with
  | Wr a v =>
      if a =? lapic + 4 * Lapic.ICRHI then (v, x.2)
      else if (a =? lapic + 4 * Lapic.ICRLO) && (Z.land v 0x700 =? Lapic.STARTUP)
      then (x.1, (Z.shiftr x.1 24, Z.land v 0xFF) :: x.2) else x
  | _ => x
  end.
Definition ipis (lapic : Z) (h : list io) : list (Z * Z) := (fold_left (ipi_step lapic) h (0, [])).2.

Section others.
Context {KI : KernelImage} {ENV : Env} {DEV : Device} {OTH : OtherCpus}.
Context {pages : kstate → list Z → Prop} {PA : PageAllocator pages}.

Lemma lapicw_at i v l s :
  ∃ x, Lapic.lapicw i v (logged l s) =
    Ret tt (logged (l ++ [Wr (k_lapic s + 4 * i) (u32 v); Rd (k_lapic s + 4 * Lapic.ID) x]) s).
Proof.
  exists (u32 (dev_rd ((k_io s ++ l) ++ [Wr (k_lapic s + 4 * i) (u32 v)]) (k_lapic s + 4 * Lapic.ID))).
  unfold Lapic.lapicw, Lapic.lapicr, mmio_write, mmio_read, log_io. msteps.
  apply (f_equal (Ret tt)). apply kstate_eq; try reflexivity. cbn. by rewrite <- !app_assoc.
Qed.

(** What [lapicstartap] sends: INIT, its end, and twice the startup. *)
Definition startap_log (lapic id : Z) (xs : list Z) : list io :=
  let cmd i v x := [Wr (lapic + 4 * i) (u32 v); Rd (lapic + 4 * Lapic.ID) x] in
  let x := λ k, nth k xs 0 in
  cmd Lapic.ICRHI (Z.shiftl id 24) (x 0%nat) ++
  cmd Lapic.ICRLO (Z.lor (Z.lor Lapic.INIT Lapic.LEVEL) Lapic.ASSERT) (x 1%nat) ++
  cmd Lapic.ICRLO (Z.lor Lapic.INIT Lapic.LEVEL) (x 2%nat) ++
  cmd Lapic.ICRHI (Z.shiftl id 24) (x 3%nat) ++ cmd Lapic.ICRLO (Z.lor Lapic.STARTUP 7) (x 4%nat) ++
  cmd Lapic.ICRHI (Z.shiftl id 24) (x 5%nat) ++ cmd Lapic.ICRLO (Z.lor Lapic.STARTUP 7) (x 6%nat).

Lemma ipi_hi lapic x v : ipi_step lapic x (Wr (lapic + 4 * Lapic.ICRHI) v) = (v, x.2).
Proof. unfold ipi_step. by rewrite Z.eqb_refl. Qed.

Lemma ipi_lo lapic x v :
  ipi_step lapic x (Wr (lapic + 4 * Lapic.ICRLO) v) =
  if Z.land v 0x700 =? Lapic.STARTUP then (x.1, (Z.shiftr x.1 24, Z.land v 0xFF) :: x.2) else x.
Proof.
  unfold ipi_step. rewrite Z.eqb_refl, (proj2 (Z.eqb_neq _ _)); [done|].
  change Lapic.ICRLO with 192. change Lapic.ICRHI with 196. lia.
Qed.

Lemma ipis_startap lapic id xs h :
  0 ≤ id < 256 → ipis lapic (h ++ startap_log lapic id xs) = (id, 7) :: (id, 7) :: ipis lapic h.
Proof.
  intros Hid. unfold ipis, startap_log. rewrite fold_left_app. generalize (fold_left (ipi_step lapic) h (0, [])).
  assert (Hs : Z.shiftr (u32 (Z.shiftl id 24)) 24 = id).
  { rewrite u32_small by (rewrite Z.shiftl_mul_pow2 by done; unfold two32; lia).
    rewrite Z.shiftr_shiftl_l by done. by rewrite Z.shiftl_0_r. }
  intros x. cbn [app fold_left].
  assert (Hrd : ∀ y a v, ipi_step lapic y (Rd a v) = y) by done.
  rewrite !Hrd, ipi_hi, !ipi_lo, !ipi_hi.
  change (Z.land (u32 (Z.lor (Z.lor Lapic.INIT Lapic.LEVEL) Lapic.ASSERT)) 0x700 =? Lapic.STARTUP) with false.
  change (Z.land (u32 (Z.lor Lapic.INIT Lapic.LEVEL)) 0x700 =? Lapic.STARTUP) with false.
  change (Z.land (u32 (Z.lor Lapic.STARTUP 7)) 0x700 =? Lapic.STARTUP) with true.
  cbn [fst snd]. by rewrite Hs.
Qed.

Lemma startap_sends id s :
  ∃ xs, (Lapic.lapicw Lapic.ICRHI (Z.shiftl id 24);;
         Lapic.lapicw Lapic.ICRLO (Z.lor (Z.lor Lapic.INIT Lapic.LEVEL) Lapic.ASSERT);;
         Lapic.microdelay 200;;
         Lapic.lapicw Lapic.ICRLO (Z.lor Lapic.INIT Lapic.LEVEL);;
         Lapic.microdelay 100;;
         Lapic.send_startup 2 id (V2P ap_code)) s = Ret tt (logged (startap_log (k_lapic s) id xs) s).
Proof.
  cbn [Lapic.send_startup]. unfold Lapic.microdelay.
  change (Z.lor Lapic.STARTUP (Z.shiftr (V2P ap_code) 12)) with (Z.lor Lapic.STARTUP 7).
  destruct (lapicw_at Lapic.ICRHI (Z.shiftl id 24) [] s) as [x0 H0]. rewrite logged_nil in H0. mrun H0. clear H0. msteps.
  edestruct lapicw_at as [x1 H1]. mrun H1. clear H1. msteps.
  edestruct lapicw_at as [x2 H2]. mrun H2. clear H2. msteps.
  edestruct lapicw_at as [x3 H3]. mrun H3. clear H3. msteps.
  edestruct lapicw_at as [x4 H4]. mrun H4. clear H4. msteps.
  edestruct lapicw_at as [x5 H5]. mrun H5. clear H5. msteps.
  edestruct lapicw_at as [x6 H6]. mrun H6. clear H6. msteps.
  exists [x0; x1; x2; x3; x4; x5; x6]. done.
Qed.

(** [lapicstartap] sends the interrupt; in memory it writes the warm reset
    vector only. *)
Lemma lapicstartap_ok id s :
  0 ≤ id < 256 →
  ∃ l m', Lapic.lapicstartap id (V2P ap_code) s = Ret tt (upd_k_mem (λ _, m') (logged l s)) ∧
    (id, 7) ∈ ipis (k_lapic s) (k_io s ++ l) ∧
    (∀ h x, x ∈ ipis (k_lapic s) h → x ∈ ipis (k_lapic s) (h ++ l)) ∧
    (∀ a, a mod 4 = 0 → ¬ (P2V 0x464 ≤ a < P2V 0x46c) → ld32 m' a = ld32 (k_mem s) a).
Proof.
  intros Hid. unfold Lapic.lapicstartap. do 2 (erewrite bind_Ret; [|apply outb_ok]; cbn beta).
  unfold Lapic.store16. cbn zeta. rewrite !bind_modify.
  match goal with |- context [(_ ≫= _) ?x] => set (s1 := x) end.
  destruct (startap_sends id s1) as [xs Hrun]. rewrite Hrun.
  exists ([Out Lapic.CMOS_PORT (u8 0xF); Out (Lapic.CMOS_PORT + 1) (u8 0x0A)] ++ startap_log (k_lapic s) id xs), (k_mem s1).
  split; [|split; [|split]].
  - apply (f_equal (Ret tt)). apply kstate_eq; try reflexivity. cbn -[startap_log]. by rewrite <- !app_assoc.
  - rewrite app_assoc, ipis_startap by done. by left.
  - intros h x Hx. rewrite app_assoc, ipis_startap by done. right. right.
    unfold ipis in *. by rewrite fold_left_app.
  - intros a Ha Hout. change (P2V 0x464) with (P2V 0x467 - 3) in Hout. change (P2V 0x46c) with (P2V 0x467 + 5) in Hout.
    change (k_mem s1) with (store_bytes (store_bytes (k_mem s) (P2V 0x467) [u8 0; u8 (Z.shiftr (u16 0) 8)])
      (P2V 0x467 + 2) [u8 (Z.shiftr (V2P ap_code) 4); u8 (Z.shiftr (u16 (Z.shiftr (V2P ap_code) 4)) 8)]).
    apply ld32_bytes; [exact Ha..|]. intros k Hk. rewrite !ldb_store_bytes. cbn [length].
    assert (a + 4 ≤ P2V 0x467 ∨ P2V 0x467 + 4 ≤ a) by (change (P2V 0x467) with 0x80000467 in *;
      apply Z.mod_divide in Ha as [q ->]; lia).
    rewrite !decide_False by lia. done.
Qed.

Definition running (s : kstate) (i : nat) : Prop := ∃ x, k_started s !! i = Some x ∧ x ≠ 0.
Definition others_step (s : kstate) : kstate := upd_k_started (λ _, others s) s.

(** [s'] differs from [s] in the flags of processors that have come up. *)
Definition came_up (s s' : kstate) : Prop :=
  s' = upd_k_started (λ _, k_started s') s ∧ length (k_started s') = length (k_started s) ∧
  ∀ i, running s i → running s' i.

#[local] Instance came_up_refl : Reflexive came_up.
Proof. intros s. split; [by destruct s|done]. Qed.
#[local] Instance came_up_trans : Transitive came_up.
Proof.
  intros s1 s2 s3 (E1 & L1 & R1) (E2 & L2 & R2). split; [|split; [congruence|auto]].
  rewrite E2 at 1. rewrite E1 at 1. done.
Qed.

(** The other processors keep to themselves, and never clear a flag. *)
Definition polite : Prop := ∀ s, came_up s (others_step s).

(** A processor that got a startup interrupt for page 7 while the words below
    0x7000 name its stack, [mpenter] and the page table comes up, before the
    boot processor has looked [others_turns] times. *)
Definition responsive (mpenter_addr pgdir : Z) : Prop :=
  ∀ s i id v, (i < length (k_started s))%nat → k_apicids s !! i = Some id → (id, 7) ∈ ipis (k_lapic s) (k_io s) → page_ok v →
    ld32 (k_mem s) (ap_code - 4) = v + KSTACKSIZE → ld32 (k_mem s) (ap_code - 8) = mpenter_addr →
    ld32 (k_mem s) (ap_code - 12) = V2P pgdir →
    ∃ n, (n ≤ others_turns)%nat ∧ running (Nat.iter n others_step s) i.

Lemma wait_started_ok turns : ∀ s i,
  polite → (i < length (k_started s))%nat → (∃ n, (n ≤ turns)%nat ∧ running (Nat.iter n others_step s) i) →
  ∃ s', wait_started turns i s = Ret tt s' ∧ came_up s s' ∧ running s' i.
Proof.
  induction turns as [|turns IH]; intros s i Hp Hi (n & Hn & Hr);
    destruct (lookup_lt_is_Some_2 _ _ Hi) as [x Hx]; cbn [wait_started];
    erewrite bind_deref by exact Hx; destruct (Z.eqb_spec x 0) as [->|Hx0].
  - exfalso. destruct n as [|n]; [|lia]. destruct Hr as (y & Hy & ?). cbn in Hy. rewrite Hx in Hy. congruence.
  - exists s. split; [done|]. split; [done|]. by exists x.
  - msteps. destruct n as [|n].
    { exfalso. destruct Hr as (y & Hy & ?). cbn in Hy. rewrite Hx in Hy. congruence. }
    destruct (IH (others_step s) i Hp) as (s' & Hrun & Hc & Hr').
    + destruct (Hp s) as (_ & -> & _). done.
    + exists n. split; [lia|]. by rewrite Nat.iter_succ_r in Hr.
    + exists s'. split; [exact Hrun|]. split; [|done]. etrans; [apply Hp|done].
  - exists s. split; [done|]. split; [done|]. by exists x.
Qed.

(** What the boot processor keeps while it starts the others. *)
Definition keeps (s s' : kstate) : Prop :=
  c_if (k_cpu s') = c_if (k_cpu s) ∧ c_id (k_cpu s') = c_id (k_cpu s) ∧ k_apicids s' = k_apicids s ∧
  length (k_started s') = length (k_started s) ∧ ∀ i, running s i → running s' i.

#[local] Instance keeps_refl : Reflexive keeps.
Proof. by intros s. Qed.
#[local] Instance keeps_trans : Transitive keeps.
Proof. intros s1 s2 s3 (?&?&?&?&?) (?&?&?&?&?). split_and!; try congruence; auto. Qed.

Lemma low_memory v a : page_ok v → a < P2V 0x8000 → ¬ in_page v a.
Proof.
  intros Hv%page_ok_range Ha [Hin _]. change (P2V 0x8000) with 0x80008000 in Ha. unfold KERNBASE, EXTMEM in *. lia.
Qed.

(** Memory below the kernel is nobody's page. *)
Lemma pages_low s l m :
  pages s l → (∀ a, a mod 4 = 0 → P2V 0x8000 ≤ a → ld32 m a = ld32 (k_mem s) a) → pages (upd_k_mem (λ _, m) s) l.
Proof.
  intros Hp Hm. apply pa_write; [done|]. intros p a Hin Ha H4. apply Hm; [done|].
  destruct (pa_pages s l Hp) as [_ Hok]. rewrite Forall_forall in Hok.
  destruct (Z.le_gt_cases (P2V 0x8000) a); [done|]. by destruct (low_memory p a (Hok p Hin)).
Qed.

Lemma startother_ok mp pd i s v l id :
  polite → responsive mp pd → is_u32 mp → is_u32 (V2P pd) → c_if (k_cpu s) = false → c_id (k_cpu s) ≠ Z.of_nat i →
  pages s (v :: l) → k_apicids s !! i = Some id → 0 ≤ id < 256 → (i < length (k_started s))%nat →
  ∃ s', startother mp pd i s = Ret tt s' ∧ keeps s s' ∧ pages s' l ∧ running s' i.
Proof.
  intros Hpol Hresp Hmp Hpd Hif Hid Hpg Hap Hid' Hi. unfold startother.
  mrun (mycpu_ok s Hif). rewrite (proj2 (Z.eqb_neq _ _)) by done.
  destruct (pa_alloc s v l Hpg) as (s1 & Hrun & Hp1 & Hm1 & Hk1). mrun Hrun.
  destruct (pa_pages _ _ Hpg) as [_ Hok]. apply Forall_cons in Hok as [Hv _]. pose proof (page_ok_range v Hv).
  unfold write32. msteps.
  match goal with |- context [(_ ≫= _) ?x] => set (s2 := x) end.
  assert (E1 : k_apicids s1 = k_apicids s) by (symmetry; exact (f_equal k_apicids Hk1)).
  assert (E2 : k_started s1 = k_started s) by (symmetry; exact (f_equal k_started Hk1)).
  pose proof (same_kernel_inv _ _ Hk1) as (Hcpu & _).
  assert (Ei : c_if (k_cpu s1) = c_if (k_cpu s)) by (symmetry; exact (f_equal c_if Hcpu)).
  assert (Ec : c_id (k_cpu s1) = c_id (k_cpu s)) by (symmetry; exact (f_equal c_id Hcpu)).
  erewrite (bind_deref _ _ s2 id); [|cbn; rewrite E1; exact Hap].
  destruct (lapicstartap_ok id s2 Hid') as (lg & m' & Hl & Hipi & _ & Hmem). mrun Hl.
  set (s3 := upd_k_mem (λ _, m') (logged lg s2)).
  assert (Hw : ∀ a, a mod 4 = 0 → P2V 0x46c ≤ a → ld32 (k_mem s3) a = ld32 (k_mem s2) a).
  { intros a Ha Hge. apply Hmem; [done|]. lia. }
  assert (Hc : ap_code = 0x80007000) by done.
  assert (Hst : is_u32 (v + KSTACKSIZE)).
  { unfold is_u32, KSTACKSIZE, two32, KERNBASE, PHYSTOP, EXTMEM, PGSIZE in *. lia. }
  assert (H4 : ld32 (k_mem s3) (ap_code - 4) = v + KSTACKSIZE ∧ ld32 (k_mem s3) (ap_code - 8) = mp ∧
               ld32 (k_mem s3) (ap_code - 12) = V2P pd).
  { rewrite !Hw by (rewrite Hc; done). unfold s2. cbn [k_mem upd_k_mem].
    rewrite !ld32_st32. rewrite Hc.
    repeat first [rewrite decide_False by lia|rewrite decide_True by lia]. 
    rewrite (u32_small (v + _)), (u32_small mp), (u32_small (V2P pd)) by assumption. split_and!; reflexivity. }
  destruct H4 as (W4 & W8 & W12).
  assert (Hp3 : pages s3 l).
  { apply (pa_frame (upd_k_mem (λ _, k_mem s3) s1)); [|reflexivity..]. apply pages_low; [exact Hp1|]. intros a Ha Hge.
    change (P2V 0x8000) with 0x80008000 in Hge. rewrite Hw by (change (P2V 0x46c) with 0x8000046c; lia || done).
    unfold s2. cbn [k_mem upd_k_mem]. rewrite !ld32_st32_ne by (rewrite Hc; lia). done. }
  destruct (wait_started_ok others_turns s3 i Hpol) as (s4 & Hrun4 & (Hs4 & Hl4 & Hr4) & Hr).
  - cbn. by rewrite E2.
  - apply (Hresp s3 i id v); [cbn; by rewrite E2|cbn; by rewrite E1|exact Hipi|exact Hv|exact W4|exact W8|exact W12].
  - assert (Ek : k_cpu s4 = k_cpu s1) by (rewrite Hs4; reflexivity).
    assert (Ea : k_apicids s4 = k_apicids s1) by (rewrite Hs4; reflexivity).
    assert (El : k_started s3 = k_started s1) by reflexivity.
    exists s4. split; [exact Hrun4|]. split; [|split; [|exact Hr]].
    + unfold keeps. rewrite Ek, Ea, Hl4, El, E2, E1, Ei, Ec. split_and!; try reflexivity.
      intros j (x & Hx & ?). apply Hr4. exists x. rewrite El, E2. split; assumption.
    + apply (pa_frame s3); [exact Hp3| | | |]; rewrite Hs4; reflexivity.
Qed.

(** The processors other than the boot one, from [i] on. *)
Definition aps (me : Z) (i n : nat) : list nat := List.filter (λ j, negb (me =? Z.of_nat j)) (seq i n).

Lemma startothers_loop mp pd n : ∀ i s vs l,
  polite → responsive mp pd → is_u32 mp → is_u32 (V2P pd) → c_if (k_cpu s) = false →
  length vs = length (aps (c_id (k_cpu s)) i n) → pages s (vs ++ l) →
  (∀ j, (j < i + n)%nat → ∃ id, k_apicids s !! j = Some id ∧ 0 ≤ id < 256) → (i + n ≤ length (k_started s))%nat →
  ∃ s', for_ n (Z.of_nat i) (λ c, startother mp pd (Z.to_nat c)) s = Ret tt s' ∧ keeps s s' ∧ pages s' l ∧
    ∀ j, j ∈ aps (c_id (k_cpu s)) i n → running s' j.
Proof.
  induction n as [|n IH]; intros i s vs l Hpol Hresp Hmp Hpd Hif Hlen Hpg Hids Hst; cbn [for_].
  - destruct vs; [|done]. exists s. split; [done|]. split; [done|]. split; [done|].
    intros j Hj. by apply elem_of_nil in Hj.
  - unfold aps in *. cbn [seq List.filter] in *. rewrite Nat2Z.id.
    replace (Z.of_nat i + 1) with (Z.of_nat (S i)) by lia.
    destruct (Z.eqb_spec (c_id (k_cpu s)) (Z.of_nat i)) as [E|E]; cbn [negb] in *.
    + assert (startother mp pd i s = Ret tt s) as Hsk.
      { unfold startother. mrun (mycpu_ok s Hif). by rewrite E, Z.eqb_refl. }
      mrun Hsk. destruct (IH (S i) s vs l) as (s' & Hrun & Hk & Hp & Hr); try assumption.
      { intros j Hj. apply Hids. lia. } { lia. }
      exists s'. split; [exact Hrun|]. split; [exact Hk|]. split; assumption.
    + destruct vs as [|v vs]; [done|]. cbn [length] in Hlen. cbn [app] in Hpg.
      destruct (Hids i) as (id & Hid & Hr); [lia|].
      destruct (startother_ok mp pd i s v (vs ++ l) id) as (s1 & Hrun1 & Hk1 & Hp1 & Hr1); try assumption; [lia|].
      mrun Hrun1. pose proof Hk1 as (Ei & Ec & Ea & El & _). rewrite <- Ec in Hlen.
      destruct (IH (S i) s1 vs l) as (s' & Hrun & Hk & Hp & Hr'); try assumption.
      { congruence. } { by injection Hlen. } { intros j Hj. rewrite Ea. apply Hids. lia. } { lia. }
      exists s'. split; [exact Hrun|]. split; [by etrans|]. split; [assumption|].
      intros j [->|Hj]%elem_of_cons; [by apply Hk|]. apply Hr'. by rewrite Ec.
Qed.

Lemma startothers_run entryother mp pd s vs l :
  polite → responsive mp pd → is_u32 mp → is_u32 (V2P pd) → c_if (k_cpu s) = false → 0 ≤ k_ncpu s →
  (length entryother ≤ 4096)%nat → length vs = length (aps (c_id (k_cpu s)) 0 (Z.to_nat (k_ncpu s))) →
  pages s (vs ++ l) → (∀ j, Z.of_nat j < k_ncpu s → ∃ id, k_apicids s !! j = Some id ∧ 0 ≤ id < 256) →
  k_ncpu s ≤ Z.of_nat (length (k_started s)) →
  ∃ s', startothers entryother mp pd s = Ret tt s' ∧ pages s' l ∧
    ∀ j, Z.of_nat j < k_ncpu s → Z.of_nat j ≠ c_id (k_cpu s) → running s' j.
Proof.
  intros Hpol Hresp Hmp Hpd Hif Hn He Hlen Hpg Hids Hst. unfold startothers. msteps.
  set (s1 := upd_k_mem _ s).
  assert (Hp1 : pages s1 (vs ++ l)).
  { apply pages_low; [exact Hpg|]. intros a Ha Hge. apply ld32_bytes; [exact Ha..|]. intros k Hk.
    rewrite ldb_store_bytes, decide_False; [done|]. change ap_code with 0x80007000.
    change (P2V 0x8000) with 0x80008000 in Hge. lia. }
  destruct (startothers_loop mp pd (Z.to_nat (k_ncpu s)) 0 s1 vs l) as (s' & Hrun & _ & Hp & Hr); try assumption.
  { intros j Hj. apply Hids. lia. } { change (k_started s1) with (k_started s). lia. }
  exists s'. split; [exact Hrun|]. split; [exact Hp|]. intros j Hj Hne. apply Hr. unfold aps.
  apply list_elem_of_In, filter_In. split; [apply in_seq; lia|]. apply negb_true_iff, Z.eqb_neq.
  change (c_id (k_cpu s1)) with (c_id (k_cpu s)). lia.
Qed.
End others.

(** ** Properties *)


(** C22.  A processor started at [start] by entryother.S, with the words below
    [start] as [startothers] leaves them: it calls [mpenter] on its stack in
    protected mode with flat kernel segments, with paging on, and the page
    table maps both the code it runs, in low memory, and the kernel's first
    4 MB at [KERNBASE]. *)
Theorem entryother_enters start gdtdesc start32 ret c pgdir stack f :
  Ctl.load c (start - 12) = pgdir → Ctl.load c (start - 4) = stack → Ctl.load c (start - 8) = f → 4 ≤ stack →
  let c' := Ctl.run (Ctl.entryother_code start gdtdesc start32 ret) c in
  Ctl.eip c' = f ∧ Ctl.esp c' = stack - 4 ∧ Ctl.cr3 c' = pgdir ∧ paging c' = true ∧
  has_flag (Ctl.cr0 c') CR0_PE = true ∧
  (∀ r, Ctl.seg c' r = match r with CS => Z.shiftl SEG_KCODE 3 | FS | GS => 0 | _ => Z.shiftl SEG_KDATA 3 end) ∧
  ∀ pa, 0 ≤ pa < 0x400000 → translate_big entrypgdir pa = Some pa ∧ translate_big entrypgdir (KERNBASE + pa) = Some pa.
Proof.
  intros Hp Hs Hf H4. destruct (entryother_code_ok start gdtdesc start32 ret c pgdir stack f Hp Hs Hf H4)
    as (? & ? & ? & ? & ? & ?). do 6 (split; [assumption|]).
  intros pa Hpa. rewrite !entrypgdir_maps by (unfold KERNBASE, two32; lia). unfold KERNBASE.
  rewrite (proj2 (Z.ltb_lt pa _)), (proj2 (Z.ltb_ge _ _)), (proj2 (Z.leb_le _ _)), (proj2 (Z.ltb_lt _ _)) by lia.
  split; [done|]. cbn [andb]. f_equal. lia.
Qed.

(** Two processors, of which the second comes up at once; one free page. *)
Module StartExample.
#[local] Existing Instance kernel_sym.
Definition device : Device := {| dev_in _ _ := 0; dev_ins _ _ _ := 0; dev_rd _ _ := 0; dev_turns := 0 |}.
#[local] Existing Instance device.
Definition prompt : OtherCpus := {| others s := replicate (length (k_started s)) 1; others_turns := 1 |}.
#[local] Existing Instance prompt.

Definition state : kstate :=
  upd_k_kmem (λ _, MkKmem false 0x80203000) (upd_k_ncpu (λ _, 2) (upd_k_apicids (λ _, [0; 1; 0; 0; 0; 0; 0; 0]) bss)).

Lemma prompt_polite : polite.
Proof.
  intros s. split; [done|]. split; [cbn; apply length_replicate|].
  intros i (x & Hx & _). exists 1. split; [|done]. cbn. apply lookup_replicate. split; [done|].
  by eapply lookup_lt_Some.
Qed.

Lemma prompt_responsive mp pd : responsive mp pd.
Proof.
  intros s i id v Hi _ _ _ _ _ _. exists 1%nat. split; [done|]. exists 1. split; [|done]. cbn.
  by apply lookup_replicate.
Qed.

Lemma state_pages : allocator state [0x80203000].
Proof.
  split; [split; [split|]; done|]. split; [by split; vm_compute|]. split; [by apply NoDup_singleton|].
  constructor; [by apply page_ok_kernel_sym|constructor].
Qed.

(** A processor in real mode that finds its words below 0x7000. *)
Definition ap : Ctl.ctl :=
  Ctl.MkCtl 0 0 0x10 0 0 (λ _, 0) 0 0x7000
    (st32 (st32 (st32 ∅ (P2V (0x7000 - 4)) 0x80204000) (P2V (0x7000 - 8)) 0x80103000) (P2V (0x7000 - 12)) 0x109000).
End StartExample.


Lemma entryother_enters_witness :
  let c' := Ctl.run (Ctl.entryother_code 0x7000 0x7060 0x7020 0x7050) StartExample.ap in
  Ctl.eip c' = 0x80103000 ∧ Ctl.cr3 c' = 0x109000 ∧ paging c' = true.
Proof.
  destruct (entryother_enters 0x7000 0x7060 0x7020 0x7050 StartExample.ap 0x109000 0x80204000 0x80103000)
    as (He & _ & Hc & Hp & _).
  - by vm_compute.
  - by vm_compute.
  - by vm_compute.
  - lia.
  - intros c'. unfold c'. split; [exact He|]. split; [exact Hc|exact Hp].
Defined.
