(* ===== verification/User.v ===== *)
(** User: user programs and the system calls they make.

    A program is a tree of system calls: [Call c k] makes the call [c] and
    goes on as [k r] on its result [r].  Buffers are passed by value, so
    [C_read] answers with the bytes the kernel stored and [C_write] carries the
    bytes the kernel reads.  [fork] answers twice, with 0 in the child.  Loops that end when the
    kernel says so take a bound on their number of turns; [Hung] is the bound
    running out. *)

From S2P Require Import Prelude Layout.

(** The system calls of [user.h]; [None] is a result of -1. *)
Inductive syscall : Type → Type :=
| C_fork : syscall Z
| C_exit : syscall Empty_set
| C_wait : syscall Z
| C_pipe : syscall (option (Z * Z))
| C_write (fd : Z) (bs : list Z) : syscall Z
| C_read (fd n : Z) : syscall (option (list Z))
| C_close (fd : Z) : syscall Z
| C_kill (pid : Z) : syscall Z
| C_exec (path : list Z) (argv : list (list Z)) : syscall Z
| C_open (path : list Z) (mode : Z) : syscall Z
| C_mknod (path : list Z) (major minor : Z) : syscall Z
| C_unlink (path : list Z) : syscall Z
| C_fstat (fd : Z) : syscall (option stat)
| C_link (old new : list Z) : syscall Z
| C_mkdir (path : list Z) : syscall Z
| C_chdir (path : list Z) : syscall Z
| C_dup (fd : Z) : syscall Z
| C_getpid : syscall Z
| C_sbrk (n : Z) : syscall Z
| C_sleep (n : Z) : syscall Z
| C_uptime : syscall Z.

Inductive prog (A : Type) : Type :=
| Done (a : A)
| Call {R : Type} (c : syscall R) (k : R → prog A)
| Fault
| Hung.
Arguments Done {A} a.
Arguments Call {A R} c k.
Arguments Fault {A}.
Arguments Hung {A}.

#[global] Instance prog_ret : MRet prog := @Done.
#[global] Instance prog_bind : MBind prog :=
  λ A B f, fix go (p : prog A) : prog B :=
    match p with
    | Done a => f a
    | Call c k => Call c (λ r, go (k r))
    | Fault => Fault
    | Hung => Hung
    end.

Definition call {R} (c : syscall R) : prog R := Call c Done.

(** [exit()] does not return. *)
Definition exit {A} : prog A := Call C_exit (λ r : Empty_set, match r with end).

(** A C function that reads or writes memory, [None] when it leaves the
    objects it was given. *)
Definition mem {A} (o : option A) : prog A := match o with Some a => Done a | None => Fault end.

Definition whenp (b : bool) (p : prog unit) : prog unit := if b then p else Done tt.

(** ** Reasoning

    A world says which results the kernel may give to a call; [wp p Q E w]
    says that for all of them [p] ends without a fault, with [Q] when it
    returns and [E] when it exits. *)
Class World (W : Type) := answers : ∀ R, syscall R → W → R → W → Prop.
Arguments answers {W _ R} c w r w'.

Definition is_exit {R} (c : syscall R) : bool := match c with C_exit => true | _ => false end.

Section wp.
Context {W : Type} {WW : World W}.

Fixpoint wp {A} (p : prog A) (Q : A → W → Prop) (E : W → Prop) (w : W) : Prop :=
  match p with
  | Done a => Q a w
  | Call c k =>
      if is_exit c then E w
      else (∃ r w', answers c w r w') ∧ ∀ r w', answers c w r w' → wp (k r) Q E w'
  | Fault | Hung => False
  end.

Lemma wp_bind {A B} (p : prog A) (f : A → prog B) Q E w :
  wp p (λ a, wp (f a) Q E) E w → wp (p ≫= f) Q E w.
Proof.
  revert w. induction p as [a|R c k IH| |]; simpl; auto. intros w. destruct (is_exit c); [done|].
  intros [? H]. split; [done|]. intros r w' Hr. by apply IH, H.
Qed.

Lemma wp_mono {A} (p : prog A) (Q Q' : A → W → Prop) (E E' : W → Prop) w :
  (∀ a w, Q a w → Q' a w) → (∀ w, E w → E' w) → wp p Q E w → wp p Q' E' w.
Proof.
  intros HQ HE. revert w. induction p as [a|R c k IH| |]; simpl; auto. intros w. destruct (is_exit c); [apply HE|].
  intros [? H]. split; [done|]. intros r w' Hr. by apply IH, H.
Qed.

Lemma wp_call {R} (c : syscall R) (Q : R → W → Prop) E w :
  is_exit c = false → (∃ r w', answers c w r w') → (∀ r w', answers c w r w' → Q r w') → wp (call c) Q E w.
Proof. intros Hc. simpl. rewrite Hc. auto. Qed.
End wp.

(** ** Files

    The world of a program that reads the descriptor [fd] and writes the
    standard output: what is left to read, and what was written.  A read of a
    regular file returns as many bytes as it can; with [short], as for a pipe
    or the console, it may return fewer, but none only at the end. *)
Record io := MkIo { io_in : list Z; io_out : list Z }.

Definition io_world (short : bool) (fd : Z) : World io := λ R c w,
  match c in syscall R return R → io → Prop with
  | C_read f n => λ r w', f = fd ∧ ∃ k : nat,
      Z.of_nat k ≤ n ∧ r = Some (take k (io_in w)) ∧ w' = MkIo (drop k (io_in w)) (io_out w) ∧
      if short then (0 < k)%nat ∨ io_in w = [] else Z.of_nat k = n
  | C_write f bs => λ r w', f = 1 ∧ r = Z.of_nat (length bs) ∧ w' = MkIo (io_in w) (io_out w ++ bs)
  | _ => λ _ _, False
  end.

Lemma wp_write {A} short fd bs (k : Z → prog A) Q E w :
  wp (WW := io_world short fd) (k (Z.of_nat (length bs))) Q E (MkIo (io_in w) (io_out w ++ bs)) →
  wp (WW := io_world short fd) (Call (C_write 1 bs) k) Q E w.
Proof.
  intros H. simpl. split; [by eexists _, _|]. by intros r w' (_ & -> & ->).
Qed.

(** A read of a regular file. *)
Lemma wp_read_file {A} fd n (k : option (list Z) → prog A) Q E w :
  0 ≤ n →
  wp (WW := io_world false fd) (k (Some (take (Z.to_nat n) (io_in w)))) Q E (MkIo (drop (Z.to_nat n) (io_in w)) (io_out w)) →
  wp (WW := io_world false fd) (Call (C_read fd n) k) Q E w.
Proof.
  intros Hn H. simpl. split.
  - eexists _, _. split; [done|]. exists (Z.to_nat n). split; [lia|]. split; [done|]. split; [done|lia].
  - intros r w' (_ & j & _ & -> & -> & Hj). by replace j with (Z.to_nat n) by lia.
Qed.

(** A read that may be short. *)
Lemma wp_read_short {A} fd n (k : option (list Z) → prog A) Q E w :
  0 < n →
  (∀ bs rest, io_in w = bs ++ rest → Z.of_nat (length bs) ≤ n → (bs = [] → rest = []) →
    wp (WW := io_world true fd) (k (Some bs)) Q E (MkIo rest (io_out w))) →
  wp (WW := io_world true fd) (Call (C_read fd n) k) Q E w.
Proof.
  intros Hn H. simpl. split.
  - eexists _, _. split; [done|]. exists 1%nat. split; [lia|]. split; [done|]. split; [done|]. left. lia.
  - intros r w' (_ & j & Hj & -> & -> & Hs). apply H; [by rewrite take_drop|rewrite length_take; lia|].
    destruct Hs as [Hs| ->]; [|by rewrite drop_nil]. destruct j; [lia|]. by destruct (io_in w).
Qed.
