(* ===== verification/Ulib.v ===== *)
(** Ulib: [ulib.c], the C library of user programs.

    As in [CString], a [char*] is the list of the bytes from the address to
    the end of the object it points into, and [None] is an access outside it. *)

From S2P Require Import Prelude Layout CString User.

(** [buf[i] = c] *)
Definition put (buf : list Z) (i : nat) (c : Z) : option (list Z) :=
  if (i <? length buf)%nat then Some (<[i := c]> buf) else None.

(** [while(( *s++ = *t++) != 0)]: the new contents of [s] *)
Fixpoint strcpy (s t : list Z) : option (list Z) :=
  match t, s with
  | c :: t, _ :: s => if c =? 0 then Some (c :: s) else cons c <$> strcpy s t
  | _, _ => None
  end.

Fixpoint strcmp (p q : list Z) : option Z :=
  match p, q with
  | a :: p, b :: q => if negb (a =? 0) && (a =? b) then strcmp p q else Some (u8 a - u8 b)
  | _, _ => None
  end.

Fixpoint strlen (s : list Z) : option Z :=
  match s with
  | [] => None
  | c :: s => if c =? 0 then Some 0 else Z.add 1 <$> strlen s
  end.

(** [stosb(dst, c, n)] *)
Definition memset (dst : list Z) (c : Z) (n : nat) : option (list Z) :=
  if (n <=? length dst)%nat then Some (replicate n (u8 c) ++ drop n dst) else None.

(** The inner option is the pointer, NULL being [None]. *)
Fixpoint strchr (s : list Z) (c : Z) : option (option (list Z)) :=
  match s with
  | [] => None
  | a :: s' => if a =? 0 then Some None else if a =? c then Some (Some s) else strchr s' c
  end.

(** [for(i=0; i+1 < max; )], with [n] turns left *)
Fixpoint gets_loop (n : nat) (i : nat) (buf : list Z) : prog (nat * list Z) :=
  match n with
  | O => mret (i, buf)
  | S n =>
      cc ← call (C_read 0 1);
      match cc with
      | Some [c] =>
          buf ← mem (put buf i c);
          if (c =? 10) || (c =? 13) then mret (S i, buf) else gets_loop n (S i) buf
      | _ => mret (i, buf)
      end
  end.

(** The new contents of [buf] *)
Definition gets (buf : list Z) (max : Z) : prog (list Z) :=
  '(i, buf) ← gets_loop (Z.to_nat (max - 1)) 0 buf;
  mem (put buf i 0).

Definition stat (n : list Z) : prog (option Layout.stat) :=
  fd ← call (C_open n O_RDONLY);
  if fd <? 0 then mret None else
  r ← call (C_fstat fd);
  call (C_close fd);;
  mret r.

(** [while('0' <= *s && *s <= '9') n = n*10 + *s++ - '0';] *)
Fixpoint atoi_loop (s : list Z) (n : Z) : option Z :=
  match s with
  | [] => None
  | c :: s => if (chr "0" <=? c) && (c <=? chr "9") then atoi_loop s (s32 (n * 10 + c - chr "0")) else Some n
  end.

Definition atoi (s : list Z) : option Z := atoi_loop s 0.

(** [while(n-- > 0) *dst++ = *src++;] inside one object [m], in which [dst]
    and [src] are offsets *)
Fixpoint memmove (m : list Z) (dst src n : nat) : option (list Z) :=
  match n with
  | O => Some m
  | S n => c ← m !! src; m ← put m dst c; memmove m (S dst) (S src) n
  end.
