(* ===== verification/Printf.v ===== *)
(** Printf: [printf.c], formatted output of user programs. *)

From S2P Require Import Prelude Layout User Ulib.

Definition putc (fd c : Z) : prog unit := call (C_write fd [u8 c]);; mret tt.

(** [while(--i >= 0) putc(fd, buf[i]);] and [while( *s != 0)], on the
    characters in the order of output *)
Fixpoint puts (fd : Z) (l : list Z) : prog unit :=
  match l with
  | [] => mret tt
  | c :: l => putc fd c;; puts fd l
  end.

(** [static char digits[] = "0123456789ABCDEF"] *)
Definition digits : list Z := chars "0123456789ABCDEF".

(** [do{ buf[i++] = digits[x % base]; }while((x /= base) != 0);]: [buf[0..i)] *)
Fixpoint printint_loop (fuel : nat) (x base : Z) : list Z :=
  match fuel with
  | O => []
  | S fuel =>
      nth (Z.to_nat (x mod base)) digits 0 ::
      (let x := x / base in if x =? 0 then [] else printint_loop fuel x base)
  end.

(** The characters in the order of output; 32 turns are enough for 32 bits. *)
Definition printint_chars (xx base : Z) (sgn : bool) : list Z :=
  let neg := sgn && (s32 xx <? 0) in
  let x := if neg then u32 (- s32 xx) else u32 xx in
  let buf := printint_loop 32 x base in
  let buf := if neg then buf ++ [chr "-"] else buf in
  rev buf.

Definition printint (fd xx base : Z) (sgn : bool) : prog unit := puts fd (printint_chars xx base sgn).

(** [for(i = 0; fmt[i]; i++)]; [state] is true after a ['%'] *)
Fixpoint printf_loop (fd : Z) (state : bool) (fmt : list Z) (ap : list arg) : prog unit :=
  match fmt with
  | [] => mret tt
  | c :: fmt =>
      if negb state then
        if c =? chr "%" then printf_loop fd true fmt ap
        else putc fd c;; printf_loop fd false fmt ap
      else if c =? chr "d" then
        match ap with
        | AInt z :: ap => printint fd z 10 true;; printf_loop fd false fmt ap
        | _ => Fault
        end
      else if (c =? chr "x") || (c =? chr "p") then
        match ap with
        | AInt z :: ap => printint fd z 16 false;; printf_loop fd false fmt ap
        | _ => Fault
        end
      else if c =? chr "s" then
        match ap with
        | AStr s :: ap => puts fd (default (chars "(null)") s);; printf_loop fd false fmt ap
        | _ => Fault
        end
      else if c =? chr "c" then
        match ap with
        | AInt z :: ap => putc fd z;; printf_loop fd false fmt ap
        | _ => Fault
        end
      else if c =? chr "%" then putc fd c;; printf_loop fd false fmt ap
      else (* Unknown % sequence.  Print it to draw attention. *)
        putc fd (chr "%");; putc fd c;; printf_loop fd false fmt ap
  end.

Definition printf (fd : Z) (fmt : string) (ap : list arg) : prog unit := printf_loop fd false (chars fmt) ap.

(** ** What is printed *)

(** The bytes written, when the arguments fit the format. *)
Fixpoint formatted (state : bool) (fmt : list Z) (ap : list arg) : option (list Z) :=
  match fmt with
  | [] => Some []
  | c :: fmt =>
      if negb state then
        if c =? chr "%" then formatted true fmt ap else app [u8 c] <$> formatted false fmt ap
      else if c =? chr "d" then
        match ap with
        | AInt z :: ap => app (u8 <$> printint_chars z 10 true) <$> formatted false fmt ap
        | _ => None
        end
      else if (c =? chr "x") || (c =? chr "p") then
        match ap with
        | AInt z :: ap => app (u8 <$> printint_chars z 16 false) <$> formatted false fmt ap
        | _ => None
        end
      else if c =? chr "s" then
        match ap with
        | AStr s :: ap => app (u8 <$> default (chars "(null)") s) <$> formatted false fmt ap
        | _ => None
        end
      else if c =? chr "c" then
        match ap with
        | AInt z :: ap => app [u8 z] <$> formatted false fmt ap
        | _ => None
        end
      else if c =? chr "%" then app [u8 c] <$> formatted false fmt ap
      else app [u8 (chr "%"); u8 c] <$> formatted false fmt ap
  end.

Section output.
Context {short : bool} {fd : Z}.
#[local] Instance out_world : World io := io_world short fd.

Lemma wp_puts l (Q : unit → io → Prop) E w :
  Q tt (MkIo (io_in w) (io_out w ++ (u8 <$> l))) → wp (puts 1 l) Q E w.
Proof.
  revert w. induction l as [|c l IH]; intros w HQ; cbn [puts].
  - rewrite fmap_nil, app_nil_r in HQ. by destruct w.
  - apply wp_bind, wp_bind, wp_write. cbn [wp]. apply IH. cbn [io_in io_out]. by rewrite <-app_assoc.
Qed.

Lemma wp_putc c (Q : unit → io → Prop) E w :
  Q tt (MkIo (io_in w) (io_out w ++ [u8 c])) → wp (putc 1 c) Q E w.
Proof. intros HQ. apply wp_bind, wp_write. done. Qed.

Lemma wp_printf_loop fmt : ∀ state ap out (Q : unit → io → Prop) E w,
  formatted state fmt ap = Some out → Q tt (MkIo (io_in w) (io_out w ++ out)) → wp (printf_loop 1 state fmt ap) Q E w.
Proof.
  assert (∀ (p q : prog unit) l r o (Q : unit → io → Prop) E w,
    (∀ (Q : unit → io → Prop) E w, Q tt (MkIo (io_in w) (io_out w ++ l)) → wp p Q E w) →
    (∀ out (Q : unit → io → Prop) E w, r = Some out → Q tt (MkIo (io_in w) (io_out w ++ out)) → wp q Q E w) →
    app l <$> r = Some o → Q tt (MkIo (io_in w) (io_out w ++ o)) → wp (p;; q) Q E w) as Hseq.
  { intros p q l r o Q E w Hp Hq (o' & -> & ->)%fmap_Some HQ. apply wp_bind, Hp. eapply Hq; [done|]. simpl.
    by rewrite <-app_assoc. }
  induction fmt as [|c fmt IH]; intros state ap out Q E w Hf HQ; cbn [printf_loop formatted] in *.
  - simplify_eq. rewrite app_nil_r in HQ. by destruct w.
  - repeat (case_match; try done; try (by eapply IH));
      try (eapply Hseq; [|intros; by eapply IH|exact Hf|exact HQ]; intros; first [by apply wp_putc|by apply wp_puts]).
    apply fmap_Some in Hf as (o' & Hr & ->). apply wp_bind, wp_putc, wp_bind, wp_putc. eapply IH; [done|].
    cbn [io_in io_out]. by rewrite <-!app_assoc.
Qed.

Lemma wp_printf fmt ap out (Q : unit → io → Prop) E w :
  formatted false (chars fmt) ap = Some out → Q tt (MkIo (io_in w) (io_out w ++ out)) → wp (printf 1 fmt ap) Q E w.
Proof. apply wp_printf_loop. Qed.
End output.

(** ** Decimal numerals *)

Lemma digit_char d : 0 ≤ d < 10 → nth (Z.to_nat d) digits 0 = chr "0" + d.
Proof.
  intros Hd. assert (d ∈ [0; 1; 2; 3; 4; 5; 6; 7; 8; 9]) as Hin by (rewrite !elem_of_cons; lia).
  repeat (apply elem_of_cons in Hin as [->|Hin]; [done|]). by apply elem_of_nil in Hin.
Qed.

Lemma atoi_digit d s acc :
  0 ≤ d < 10 → 0 ≤ acc → acc * 10 + d < 2147483648 →
  Ulib.atoi_loop (chr "0" + d :: s) acc = Ulib.atoi_loop s (acc * 10 + d).
Proof.
  intros Hd Ha Hb. simpl. change (chr "0") with 48. change (chr "9") with 57.
  destruct (Z.leb_spec 48 (48 + d)); [|lia]. destruct (Z.leb_spec (48 + d) 57); [|lia]. simpl.
  replace (acc * 10 + (48 + d) - 48) with (acc * 10 + d) by lia.
  rewrite <-(s32_u32 (acc * 10 + d)) at 2 by lia. by rewrite u32_small by (unfold two32; lia).
Qed.

Lemma atoi_printint_loop fuel : ∀ x acc rest,
  0 ≤ x < 10 ^ Z.of_nat fuel → 0 ≤ acc → (0 < fuel)%nat →
  acc * 10 ^ Z.of_nat (length (printint_loop fuel x 10)) + x < 2147483648 →
  Ulib.atoi_loop (rev (printint_loop fuel x 10) ++ rest) acc =
  Ulib.atoi_loop rest (acc * 10 ^ Z.of_nat (length (printint_loop fuel x 10)) + x).
Proof.
  induction fuel as [|fuel IH]; intros x acc rest Hx Ha Hf Hb; [lia|].
  cbn [printint_loop] in Hb |- *. cbv zeta in Hb |- *.
  pose proof (Z.div_mod x 10 ltac:(lia)) as Ex. pose proof (Z.mod_pos_bound x 10 ltac:(lia)) as Hm.
  rewrite digit_char in Hb |- * by lia. destruct (Z.eqb_spec (x / 10) 0) as [E|E].
  - cbn [rev app length] in Hb |- *. change (Z.of_nat 1) with 1 in *. rewrite Z.pow_1_r in Hb |- *. rewrite atoi_digit by lia. f_equal. lia.
  - cbn [length rev] in Hb |- *. rewrite Nat2Z.inj_succ, Z.pow_succ_r in Hb |- * by lia.
    set (q := x / 10) in *. set (k := 10 ^ Z.of_nat (length (printint_loop fuel q 10))) in *.
    assert (0 < fuel)%nat.
    { destruct fuel; [|lia]. exfalso. change (10 ^ Z.of_nat 1) with 10 in Hx. lia. }
    rewrite <-app_assoc. cbn [app]. rewrite IH; [|split; [lia|]|done|done|fold k; lia].
    2: { rewrite Nat2Z.inj_succ, Z.pow_succ_r in Hx by lia. lia. }
    fold k. rewrite atoi_digit by lia. f_equal. lia.
Qed.


