(* ===== verification/Grep.v ===== *)
(** Grep: [grep.c], the regular expression matcher and the line filter.

    The matcher reads strings only up to their NUL, so a string is the list of
    the characters before it and [[]] stands at the NUL. *)

From S2P Require Import Prelude Layout CString User Ulib Printf.

(** [c*re] at the beginning of [text]; [here] is [matchhere] of [re] *)
Fixpoint matchstar (c : Z) (here : list Z → bool) (text : list Z) : bool :=
  if here text then true else
  match text with
  | [] => false
  | t :: text => if (t =? c) || (c =? chr ".") then matchstar c here text else false
  end.

(** [re] at the beginning of [text] *)
Fixpoint matchhere (re : list Z) : list Z → bool :=
  match re with
  | [] => λ _, true
  | r :: re1 => λ text,
      let step :=
        if (r =? chr "$") && (match re1 with [] => true | _ => false end)
        then match text with [] => true | _ => false end
        else match text with
             | [] => false
             | t :: text => if (r =? chr ".") || (r =? t) then matchhere re1 text else false
             end in
      match re1 with
      | s :: re2 => if s =? chr "*" then matchstar r (matchhere re2) text else step
      | [] => step
      end
  end.

(** [do ... while( *text++ != '\0')] *)
Fixpoint match_loop (re text : list Z) : bool :=
  if matchhere re text then true else
  match text with
  | [] => false
  | _ :: text => match_loop re text
  end.

Definition match_ (re text : list Z) : bool :=
  match re with
  | r :: re1 => if r =? chr "^" then matchhere re1 text else match_loop re text
  | [] => match_loop re text
  end.

(** [while((q = strchr(p, '\n')) != 0)]: the matching lines are written to
    the standard output; the result is the new [p]. *)
Fixpoint grep_lines (fuel : nat) (pattern p : list Z) : prog (list Z) :=
  match strchr (p ++ [0]) (chr nl) with
  | Some (Some q) =>
      match fuel with
      | O => Hung
      | S fuel =>
          let len := (length p + 1 - length q)%nat in
          (if match_ pattern (take len p) then call (C_write 1 (take (len + 1) p));; mret tt else mret tt);;
          grep_lines fuel pattern (drop (len + 1) p)
      end
  | _ => mret p
  end.

(** [while((n = read(fd, buf+m, sizeof(buf)-m-1)) > 0)]; [data] is
    [buf[0..m)]. *)
Fixpoint grep_loop (fuel : nat) (pattern : list Z) (fd : Z) (data : list Z) : prog unit :=
  n ← call (C_read fd (u32 (1024 - Z.of_nat (length data) - 1)));
  match n with
  | None | Some [] => mret tt
  | Some bs =>
      match fuel with
      | O => Hung
      | S fuel =>
          let buf := data ++ bs in
          p ← grep_lines (length buf) pattern buf;
          let m := if (length p =? length buf)%nat then [] (* p == buf *) else p in
          grep_loop fuel pattern fd m
      end
  end.

Definition grep (turns : nat) (pattern : list Z) (fd : Z) : prog unit := grep_loop turns pattern fd [].

(** [for(i = 2; i < argc; i++)] *)
Fixpoint main_loop (turns : nat) (pattern : list Z) (argv : list (list Z)) : prog unit :=
  match argv with
  | [] => exit
  | file :: argv =>
      fd ← call (C_open file 0);
      if fd <? 0 then
        printf 1 ("grep: cannot open %s" +:+ nl) [AStr (Some file)];;
        exit
      else
        grep turns pattern fd;;
        call (C_close fd);;
        main_loop turns pattern argv
  end.

Definition main (turns : nat) (argv : list (list Z)) : prog unit :=
  match argv with
  | [] | [_] =>
      printf 2 ("usage: grep pattern [file ...]" +:+ nl) [];;
      exit
  | [_; pattern] =>
      grep turns pattern 0;;
      exit
  | _ :: pattern :: files => main_loop turns pattern files
  end.

(** ** The matcher against the language of a pattern *)

(** The characters a pattern character stands for. *)
Definition sat (c t : Z) : Prop := c = chr "." ∨ t = c.

(** [matches re text]: a prefix of [text] is in the language of [re], in
    which [c*] is any number of characters that [c] stands for, and a final
    [$] is the end of the text. *)
Inductive matches : list Z → list Z → Prop :=
| matches_nil text : matches [] text
| matches_end : matches [chr "$"] []
| matches_one c re t text :
    head re ≠ Some (chr "*") → ¬ (c = chr "$" ∧ re = []) →
    sat c t → matches re text → matches (c :: re) (t :: text)
| matches_star c re us text :
    Forall (sat c) us → matches re text → matches (c :: chr "*" :: re) (us ++ text).

(** A pattern is found in a line at the beginning when it starts with [^],
    and anywhere otherwise. *)
Definition found (re line : list Z) : Prop :=
  match re with
  | r :: re1 => if decide (r = chr "^") then matches re1 line else ∃ a b, line = a ++ b ∧ matches re b
  | [] => True
  end.

Lemma matchstar_spec c here text :
  matchstar c here text = true ↔ ∃ us v, text = us ++ v ∧ Forall (sat c) us ∧ here v = true.
Proof.
  induction text as [|t text IH]; simpl.
  - destruct (here []) eqn:E; split; try done; [by exists [], []|].
    intros (us & v & [-> ->]%symmetry%app_nil & _ & H). congruence.
  - destruct (here (t :: text)) eqn:E; [split; [by exists [], (t :: text)|done]|].
    assert ((t =? c) || (c =? chr ".") = true ↔ sat c t) as Hs.
    { unfold sat. rewrite orb_true_iff, !Z.eqb_eq. tauto. }
    destruct ((t =? c) || (c =? chr ".")).
    + rewrite IH. split.
      * intros (us & v & -> & Hu & Hv). exists (t :: us), v. split; [done|]. split; [|done]. constructor; [by apply Hs|done].
      * intros (us & v & Ht & Hu & Hv). destruct us as [|u us]; simpl in Ht; [subst v; congruence|].
        simplify_eq. inversion Hu; subst. eauto.
    + split; [done|]. intros (us & v & Ht & Hu & Hv). destruct us as [|u us]; simpl in Ht; [subst v; congruence|].
      simplify_eq. inversion Hu; subst. by apply Hs.
Qed.

Lemma matches_star_inv c re text :
  matches (c :: chr "*" :: re) text → ∃ us v, text = us ++ v ∧ Forall (sat c) us ∧ matches re v.
Proof. inversion 1; subst; [done|]. eauto 6. Qed.

Lemma matchhere_spec n : ∀ re text, (length re < n)%nat → matchhere re text = true ↔ matches re text.
Proof.
  induction n as [|n IH]; intros re text Hn; [lia|]. destruct re as [|r re1]; [split; [constructor|done]|].
  simpl in Hn. cbn [matchhere].
  assert (head re1 ≠ Some (chr "*") →
    (if (r =? chr "$") && (match re1 with [] => true | _ => false end)
     then match text with [] => true | _ => false end
     else match text with
          | [] => false
          | t :: text => if (r =? chr ".") || (r =? t) then matchhere re1 text else false
          end) = true ↔ matches (r :: re1) text) as Hstep.
  { intros Hh. destruct ((r =? chr "$") && _) eqn:Ee.
    - apply andb_true_iff in Ee as [->%Z.eqb_eq Ee]. destruct re1; [|done].
      destruct text as [|t text]; (split; [intros; done || constructor|]); [done|].
      inversion 1; subst. naive_solver.
    - assert (¬ (r = chr "$" ∧ re1 = [])) as Hne by (intros [-> ->]; by rewrite Z.eqb_refl in Ee).
      destruct text as [|t text].
      + split; [done|]. inversion 1; subst; [naive_solver|done].
      + assert ((r =? chr ".") || (r =? t) = true ↔ sat r t) as Hs.
        { unfold sat. rewrite orb_true_iff, !Z.eqb_eq. naive_solver. }
        destruct ((r =? chr ".") || (r =? t)).
        * rewrite IH by lia. split; [intros; constructor; try done; by apply Hs|].
          inversion 1; subst; [done|]. done.
        * split; [done|]. inversion 1; subst; [by apply Hs|done]. }
  destruct re1 as [|s re2]; [by apply Hstep|].
  destruct (Z.eqb_spec s (chr "*")) as [->|Hs]; [|apply Hstep; simpl; congruence].
  rewrite matchstar_spec. simpl in Hn. split.
  - intros (us & v & -> & Hu & Hv). constructor; [done|]. by apply IH; [lia|].
  - intros (us & v & -> & Hu & Hv)%matches_star_inv. exists us, v. split; [done|]. split; [done|]. by apply IH; [lia|].
Qed.

Lemma match_loop_spec re text : match_loop re text = true ↔ ∃ a b, text = a ++ b ∧ matches re b.
Proof.
  assert (∀ t, matchhere re t = true ↔ matches re t) as Hh by (intros t; by apply (matchhere_spec (S (length re))); lia).
  induction text as [|t text IH]; simpl; destruct (matchhere re _) eqn:E.
  1,3: split; [intros _; eexists [], _; split; [done|by apply Hh]|done].
  - split; [done|]. intros (a & b & [-> ->]%symmetry%app_nil & H%Hh). congruence.
  - rewrite IH. split; [intros (a & b & -> & H); by exists (t :: a), b|].
    intros (a & b & Ht & H). destruct a as [|u a]; simpl in Ht; [|simplify_eq; eauto].
    subst b. apply Hh in H. congruence.
Qed.

(** C36.  The matcher of [grep] decides the language of the pattern: it
    answers true exactly when the line contains a match of a pattern built from
    characters, [.], [*], a leading [^] and a final [$]. *)
Theorem match_decides_language re line : match_ re line = true ↔ found re line.
Proof.
  unfold match_, found. destruct re as [|r re].
  - rewrite match_loop_spec. split; [done|]. intros _. exists [], line. split; [done|constructor].
  - case_decide as E; [subst r; rewrite Z.eqb_refl; by apply (matchhere_spec (S (length re))); lia|].
    destruct (Z.eqb_spec r (chr "^")); [done|]. apply match_loop_spec.
Qed.

(** ** The filter *)

(** A text made of lines. *)
Definition unlines (ls : list (list Z)) : list Z := concat ((λ l, l ++ [chr nl]) <$> ls).

(** A line that fits the buffer of [grep] together with its newline. *)
Definition line_ok (l : list Z) : Prop := chr nl ∉ l ∧ 0 ∉ l ∧ (length l ≤ 1022)%nat.

Lemma unlines_cons l ls : unlines (l :: ls) = (l ++ [chr nl]) ++ unlines ls.
Proof. done. Qed.

Lemma unlines_app ls ls' : unlines (ls ++ ls') = unlines ls ++ unlines ls'.
Proof. unfold unlines. by rewrite fmap_app, concat_app. Qed.

Lemma strchr_line l q : (chr nl ∉ l) → (0 ∉ l) → strchr (l ++ chr nl :: q) (chr nl) = Some (Some (chr nl :: q)).
Proof.
  induction l as [|c l IH]; simpl; [done|]. rewrite !not_elem_of_cons. intros [H1 H2] [H3 H4].
  destruct (Z.eqb_spec c 0); [congruence|]. destruct (Z.eqb_spec c (chr nl)); [congruence|]. auto.
Qed.

Lemma strchr_partial l : (chr nl ∉ l) → strchr (l ++ [0]) (chr nl) = Some None.
Proof.
  induction l as [|c l IH]; simpl; [done|]. rewrite not_elem_of_cons. intros [H1 H2].
  destruct (Z.eqb_spec c 0); [done|]. destruct (Z.eqb_spec c (chr nl)); [congruence|]. auto.
Qed.

(** The complete lines among the first [n] bytes of a text. *)
Lemma take_unlines n ls :
  Forall line_ok ls →
  ∃ ls1 ls2 rest, ls = ls1 ++ ls2 ∧ take n (unlines ls) = unlines ls1 ++ rest ∧ (chr nl ∉ rest) ∧
    unlines ls2 = rest ++ drop n (unlines ls) ∧
    (∀ l ls', ls = l :: ls' → (length l < n)%nat → ls1 ≠ []).
Proof.
  revert n. induction ls as [|l ls IH]; intros n Hok.
  { exists [], [], []. unfold unlines. simpl. rewrite take_nil, drop_nil. split; [done|]. split; [done|]. split; [set_solver|]. done. }
  inversion Hok as [|? ? Hl Hls]; subst. rewrite unlines_cons.
  destruct (decide (length l < n)%nat) as [Hlt|Hge].
  - destruct (IH (n - (length l + 1))%nat Hls) as (ls1 & ls2 & rest & -> & Ht & Hr & Hd & _).
    exists (l :: ls1), ls2, rest. split; [done|].
    rewrite take_app, drop_app, !length_app, (take_ge (l ++ _)), (drop_ge (l ++ _)) by (rewrite length_app; simpl; lia).
    change (length [chr nl]) with 1%nat.
    split; [rewrite Ht; unfold unlines; simpl; by rewrite !app_assoc|]. split; [done|]. split; [by rewrite Hd|done].
  - exists [], (l :: ls), (take n l). split; [done|].
    assert (n ≤ length l)%nat as Hle by lia.
    rewrite <-app_assoc, take_app_le, drop_app_le by lia. split; [done|].
    split; [intros Hin; apply (proj1 Hl); by apply elem_of_take in Hin as (i & Hi & _); eapply list_elem_of_lookup_2|].
    split; [|intros ? ? [= <- <-]; lia].
    rewrite unlines_cons. by rewrite <-!app_assoc, (app_assoc (take n l)), take_drop.
Qed.

Section filter.
Context (pattern : list Z) (fd : Z).

#[local] Instance file : World io := io_world false fd.

Definition selected (ls : list (list Z)) : list Z := unlines (filter (λ l, match_ pattern l = true) ls).

Lemma grep_lines_ok ls : ∀ fuel rest Q E w,
  Forall line_ok ls → (chr nl ∉ rest) → (length ls ≤ fuel)%nat →
  Q rest (MkIo (io_in w) (io_out w ++ selected ls)) →
  wp (grep_lines fuel pattern (unlines ls ++ rest)) Q E w.
Proof.
  induction ls as [|l ls IH]; intros fuel rest Q E w Hok Hr Hf HQ.
  - change (unlines [] ++ rest) with rest. destruct fuel; cbn [grep_lines]; rewrite strchr_partial by done;
      simpl; unfold selected, unlines in HQ; simpl in HQ; rewrite app_nil_r in HQ; by destruct w.
  - inversion Hok as [|? ? (Hn & Hz & _) Hls]; subst. destruct fuel as [|fuel]; simpl in Hf; [lia|].
    assert (unlines (l :: ls) ++ rest = l ++ chr nl :: (unlines ls ++ rest)) as Eu.
    { unfold unlines. simpl. by rewrite <-!app_assoc. }
    cbn [grep_lines]. rewrite Eu. rewrite <-app_assoc. cbn [app].
    rewrite (strchr_line l ((unlines ls ++ rest) ++ [0])) by done. cbv zeta.
    assert (length (l ++ chr nl :: unlines ls ++ rest) + 1 - length (chr nl :: (unlines ls ++ rest) ++ [0%Z]) = length l)%nat as ->.
    { rewrite !length_app. simpl. rewrite !length_app. simpl. lia. }
    rewrite take_app_length. rewrite take_app_add, drop_app_add. cbn [take drop].
    rewrite (take_0 (unlines ls ++ rest)), drop_0.
    apply wp_bind. unfold selected in HQ. destruct (match_ pattern l) eqn:Em.
    + apply wp_bind, wp_write. cbn [wp]. apply IH; [done|done|lia|]. cbn [io_in io_out].
      rewrite filter_cons_True in HQ by done. rewrite unlines_cons in HQ. unfold selected. by rewrite <-app_assoc.
    + simpl. apply IH; [done|done|lia|]. rewrite filter_cons_False in HQ by congruence. done.
Qed.

Lemma grep_loop_ok turns : ∀ ls data w,
  Forall line_ok ls → data ++ io_in w = unlines ls → (chr nl ∉ data) → (length (unlines ls) < turns)%nat →
  wp (grep_loop turns pattern fd data) (λ _ w', w' = MkIo [] (io_out w ++ selected ls)) (λ _, False) w.
Proof.
  induction turns as [|turns IH]; intros ls data w Hok Hd Hn Ht; [lia|].
  assert (length data ≤ 1022)%nat as Hlen.
  { destruct ls as [|l ls]; [apply app_nil in Hd as [-> _]; simpl; lia|]. inversion Hok as [|? ? (_ & _ & Hl) _]; subst.
    destruct (decide (length data ≤ length l)%nat); [lia|]. exfalso. apply Hn.
    apply list_elem_of_lookup. exists (length l).
    rewrite <-(lookup_app_l data (io_in w)) by lia. rewrite Hd. unfold unlines. simpl. rewrite <-!app_assoc.
    by rewrite lookup_app_r, Nat.sub_diag by lia. }
  cbn [grep_loop]. rewrite u32_small by (unfold two32; lia). apply wp_bind, wp_read_file; [lia|].
  replace (Z.to_nat (1024 - Z.of_nat (length data) - 1)) with (1023 - length data)%nat by lia.
  set (k := (1023 - length data)%nat). simpl.
  destruct (take_unlines 1023 ls Hok) as (ls1 & ls2 & rest & Els & Etake & Hrest & Erest & Hfirst).
  assert (take 1023 (unlines ls) = data ++ take k (io_in w)) as Etk.
  { rewrite <-Hd, take_app, take_ge by lia. done. }
  assert (drop 1023 (unlines ls) = drop k (io_in w)) as Edk.
  { rewrite <-Hd, drop_app, (drop_ge data) by lia. done. }
  destruct ls as [|l ls]; [|].
  { apply app_nil in Hd as [-> Hin]. simpl. rewrite Hin, take_nil, drop_nil. simpl. unfold selected, unlines. simpl.
    by rewrite app_nil_r. }
  assert (ls1 ≠ []) as Hne.
  { eapply Hfirst; [done|]. inversion Hok as [|? ? (_ & _ & Hl) _]; subst. lia. }
  destruct (take k (io_in w)) as [|b bs] eqn:Eb.
  { exfalso. destruct ls1 as [|l1 ls1]; [done|]. rewrite app_nil_r in Etk. rewrite Etk in Etake.
    apply Hn. rewrite Etake. unfold unlines. simpl. set_solver. }
  rewrite Els in Hok. apply Forall_app in Hok as [Hok1 Hok2].
  assert (length ls1 ≤ length (unlines ls1))%nat as Hl1.
  { clear. induction ls1; [simpl; lia|]. rewrite unlines_cons, !length_app. simpl. lia. }
  apply wp_bind. rewrite <-Etk, Etake. apply grep_lines_ok; [done|done|rewrite length_app; lia|].
  cbn [io_in io_out].
  assert (0 < length (unlines ls1))%nat as Hpos.
  { destruct ls1 as [|l1 ls1]; [done|]. rewrite unlines_cons, !length_app. simpl. lia. }
  destruct (Nat.eqb_spec (length rest) (length (unlines ls1 ++ rest))) as [E|_]; [rewrite length_app in E; lia|].
  eapply wp_mono; [| |apply (IH ls2 rest)]; cbn [io_in io_out]; try done.
  - intros _ w' ->. rewrite Els. unfold selected. rewrite filter_app, unlines_app.
    by rewrite app_assoc.
  - by rewrite Erest, Edk.
  - rewrite Els, unlines_app, length_app in Ht. lia.
Qed.
End filter.

(** C37.  On a regular file of lines that fit its 1024-byte buffer, [grep]
    ends and writes exactly the lines that match, complete and in order,
    however the lines fall across the reads. *)
Theorem grep_filters_lines pattern fd ls out turns :
  Forall line_ok ls → (length (unlines ls) < turns)%nat →
  wp (WW := io_world false fd) (grep turns pattern fd)
    (λ _ w, w = MkIo [] (out ++ unlines (filter (λ l, match_ pattern l = true) ls))) (λ _, False)
    (MkIo (unlines ls) out).
Proof. intros Hok Ht. apply (grep_loop_ok pattern fd turns ls [] (MkIo (unlines ls) out)); [done|done|set_solver|done]. Qed.

Lemma grep_filters_lines_witness :
  wp (WW := io_world false 0) (grep 10 (chars "a*b") 0)
    (λ _ w, w = MkIo [] ([] ++ unlines (filter (λ l, match_ (chars "a*b") l = true) [chars "ab"; chars "c"]))) (λ _, False)
    (MkIo (unlines [chars "ab"; chars "c"]) []).
Proof.
  apply grep_filters_lines; [|vm_compute; lia].
  repeat constructor; apply (bool_decide_unpack _); vm_compute; done.
Defined.

(** A first read without a newline, as a pipe can give, is forgotten: the
    line it begins is matched without it. *)
Lemma grep_forgets_partial_line turns pattern fd bs :
  bs ≠ [] → (chr nl ∉ bs) →
  ∃ k, grep (S turns) pattern fd = Call (C_read fd 1023) k ∧ k (Some bs) = grep turns pattern fd.
Proof.
  intros Hb Hn. eexists. split; [done|]. simpl. destruct bs as [|b bs]; [done|].
  set (l := b :: bs) in *. assert (grep_lines (length l) pattern l = Done l) as ->.
  { destruct (length l); cbn [grep_lines]; by rewrite strchr_partial. }
  simpl. by rewrite Nat.eqb_refl.
Qed.
