(* ===== verification/Utils.v ===== *)
(** Utils: the small user programs, one module for each.  A program's [argv]
    is the list of its argument strings; [argc] is its length. *)

From S2P Require Import Prelude Layout CString User Ulib Printf.

Module Cat.
(** [while((n = read(fd, buf, sizeof(buf))) > 0)] *)
Fixpoint cat (turns : nat) (fd : Z) : prog unit :=
  n ← call (C_read fd 512);
  match n with
  | None => printf 1 ("cat: read error" +:+ nl) [];; exit
  | Some [] => mret tt
  | Some buf =>
      match turns with
      | O => Hung
      | S turns =>
          w ← call (C_write 1 buf);
          if negb (w =? Z.of_nat (length buf)) then printf 1 ("cat: write error" +:+ nl) [];; exit
          else cat turns fd
      end
  end.

(** [for(i = 1; i < argc; i++)] *)
Fixpoint main_loop (turns : nat) (argv : list (list Z)) : prog unit :=
  match argv with
  | [] => exit
  | a :: argv =>
      fd ← call (C_open a 0);
      if fd <? 0 then printf 1 ("cat: cannot open %s" +:+ nl) [AStr (Some a)];; exit
      else cat turns fd;; call (C_close fd);; main_loop turns argv
  end.

Definition main (turns : nat) (argv : list (list Z)) : prog unit :=
  if (length argv <=? 1)%nat then cat turns 0;; exit else main_loop turns (tail argv).
End Cat.

Module Echo.
Fixpoint main_loop (argv : list (list Z)) : prog unit :=
  match argv with
  | [] => exit
  | a :: argv =>
      printf 1 "%s%s" [AStr (Some a); AStr (Some (match argv with [] => chars nl | _ => chars " " end))];;
      main_loop argv
  end.

Definition main (argv : list (list Z)) : prog unit := main_loop (tail argv).
End Echo.

Module Wc.
(** The counters [l], [w], [c] and [inword]. *)
Record counts := MkCounts { c_l : Z; c_w : Z; c_c : Z; c_inword : bool }.

(** The body of [for(i=0; i<n; i++)] for the byte [b] *)
Definition count1 (k : counts) (b : Z) : counts :=
  let c := s32 (c_c k + 1) in
  let l := if b =? chr nl then s32 (c_l k + 1) else c_l k in
  match strchr [32; 13; 9; 10; 11; 0] b with
  | Some (Some _) => MkCounts l (c_w k) c false
  | _ => if c_inword k then MkCounts l (c_w k) c true else MkCounts l (s32 (c_w k + 1)) c true
  end.

(** [while((n = read(fd, buf, sizeof(buf))) > 0)] *)
Fixpoint wc_loop (turns : nat) (fd : Z) (k : counts) : prog counts :=
  n ← call (C_read fd 512);
  match n with
  | None => printf 1 ("wc: read error" +:+ nl) [];; exit
  | Some [] => mret k
  | Some buf =>
      match turns with
      | O => Hung
      | S turns => wc_loop turns fd (fold_left count1 buf k)
      end
  end.

Definition wc (turns : nat) (fd : Z) (name : list Z) : prog unit :=
  k ← wc_loop turns fd (MkCounts 0 0 0 false);
  printf 1 ("%d %d %d %s" +:+ nl) [AInt (c_l k); AInt (c_w k); AInt (c_c k); AStr (Some name)].

Fixpoint main_loop (turns : nat) (argv : list (list Z)) : prog unit :=
  match argv with
  | [] => exit
  | a :: argv =>
      fd ← call (C_open a 0);
      if fd <? 0 then printf 1 ("wc: cannot open %s" +:+ nl) [AStr (Some a)];; exit
      else wc turns fd a;; call (C_close fd);; main_loop turns argv
  end.

Definition main (turns : nat) (argv : list (list Z)) : prog unit :=
  if (length argv <=? 1)%nat then wc turns 0 [];; exit else main_loop turns (tail argv).
End Wc.

Module KillProg.
Fixpoint main_loop (argv : list (list Z)) : prog unit :=
  match argv with
  | [] => exit
  | a :: argv =>
      pid ← mem (atoi (a ++ [0]));
      call (C_kill pid);;
      main_loop argv
  end.

Definition main (argv : list (list Z)) : prog unit :=
  if (length argv <? 2)%nat then printf 2 ("usage: kill pid..." +:+ nl) [];; exit
  else main_loop (tail argv).
End KillProg.

Module Ln.
Definition main (argv : list (list Z)) : prog unit :=
  match argv with
  | [_; old; new] =>
      r ← call (C_link old new);
      whenp (r <? 0) (printf 2 ("link %s %s: failed" +:+ nl) [AStr (Some old); AStr (Some new)]);;
      exit
  | _ => printf 2 ("Usage: ln old new" +:+ nl) [];; exit
  end.
End Ln.

Module MkdirProg.
Fixpoint main_loop (argv : list (list Z)) : prog unit :=
  match argv with
  | [] => exit
  | a :: argv =>
      r ← call (C_mkdir a);
      if r <? 0 then printf 2 ("mkdir: %s failed to create" +:+ nl) [AStr (Some a)];; exit
      else main_loop argv
  end.

Definition main (argv : list (list Z)) : prog unit :=
  if (length argv <? 2)%nat then printf 2 ("Usage: mkdir files..." +:+ nl) [];; exit
  else main_loop (tail argv).
End MkdirProg.

Module Rm.
Fixpoint main_loop (argv : list (list Z)) : prog unit :=
  match argv with
  | [] => exit
  | a :: argv =>
      r ← call (C_unlink a);
      if r <? 0 then printf 2 ("rm: %s failed to delete" +:+ nl) [AStr (Some a)];; exit
      else main_loop argv
  end.

Definition main (argv : list (list Z)) : prog unit :=
  if (length argv <? 2)%nat then printf 2 ("Usage: rm files..." +:+ nl) [];; exit
  else main_loop (tail argv).
End Rm.

Module Init.
(** [while((wpid=wait()) >= 0 && wpid != pid)] *)
Fixpoint reap (turns : nat) (pid : Z) : prog unit :=
  wpid ← call C_wait;
  if (0 <=? wpid) && negb (wpid =? pid) then
    match turns with
    | O => Hung
    | S turns => printf 1 ("zombie!" +:+ nl) [];; reap turns pid
    end
  else mret tt.

(** [for(;;)], for [turns] shells *)
Fixpoint restart (turns : nat) : prog unit :=
  match turns with
  | O => Hung
  | S turns =>
      printf 1 ("init: starting sh" +:+ nl) [];;
      pid ← call C_fork;
      if pid <? 0 then printf 1 ("init: fork failed" +:+ nl) [];; exit
      else if pid =? 0 then
        call (C_exec (chars "sh") [chars "sh"]);;
        printf 1 ("init: exec sh failed" +:+ nl) [];;
        exit
      else reap turns pid;; restart turns
  end.

Definition main (turns : nat) : prog unit :=
  r ← call (C_open (chars "console") O_RDWR);
  whenp (r <? 0)
    (call (C_mknod (chars "console") 1 1);;
     call (C_open (chars "console") O_RDWR);;
     mret tt);;
  call (C_dup 0);;  (* stdout *)
  call (C_dup 0);;  (* stderr *)
  restart turns.
End Init.

Module Zombie.
Definition main : prog unit :=
  pid ← call C_fork;
  (if 0 <? pid then call (C_sleep 5);; mret tt else mret tt);;
  exit.
End Zombie.

Module ForkTest.
(** The program's own [printf], which only writes the format. *)
Definition printf (fd : Z) (s : string) : prog unit :=
  n ← mem (strlen (chars s ++ [0]));
  call (C_write fd (take (Z.to_nat n) (chars s)));;
  mret tt.

Definition N : nat := 1000.

(** [for(n=0; n<N; n++)]: the final [n] *)
Fixpoint fork_loop (turns : nat) (n : nat) : prog nat :=
  match turns with
  | O => mret n
  | S turns =>
      pid ← call C_fork;
      if pid <? 0 then mret n
      else if pid =? 0 then exit
      else fork_loop turns (S n)
  end.

(** [for(; n > 0; n--)] *)
Fixpoint wait_loop (n : nat) : prog unit :=
  match n with
  | O => mret tt
  | S n =>
      r ← call C_wait;
      if r <? 0 then printf 1 ("wait stopped early" +:+ nl);; exit
      else wait_loop n
  end.

Definition forktest : prog unit :=
  printf 1 ("fork test" +:+ nl);;
  n ← fork_loop N 0;
  if (n =? N)%nat then printf 1 ("fork claimed to work N times!" +:+ nl);; exit
  else
    wait_loop n;;
    r ← call C_wait;
    if negb (r =? -1) then printf 1 ("wait got too many" +:+ nl);; exit
    else printf 1 ("fork test OK" +:+ nl).

Definition main : prog unit := forktest;; exit.
End ForkTest.

Module StressFs.
(** [for(i = 0; i < 4; i++) if(fork() > 0) break;]: the final [i] *)
Fixpoint fork_loop (turns : nat) (i : Z) : prog Z :=
  match turns with
  | O => mret i
  | S turns =>
      pid ← call C_fork;
      if 0 <? pid then mret i else fork_loop turns (i + 1)
  end.

Fixpoint repeat_call {R} (n : nat) (c : syscall R) : prog unit :=
  match n with
  | O => mret tt
  | S n => call c;; repeat_call n c
  end.

Definition main : prog unit :=
  printf 1 ("stressfs starting" +:+ nl) [];;
  let data := replicate 512 (chr "a") in
  i ← fork_loop 4 0;
  printf 1 ("write %d" +:+ nl) [AInt i];;
  let path := chars "stressfs" ++ [u8 (chr "0" + i)] in
  fd ← call (C_open path (Z.lor O_CREATE O_RDWR));
  repeat_call 20 (C_write fd data);;
  call (C_close fd);;
  printf 1 ("read" +:+ nl) [];;
  fd ← call (C_open path O_RDONLY);
  repeat_call 20 (C_read fd 512);;
  call (C_close fd);;
  call C_wait;;
  exit.
End StressFs.

Module Ls.
(** [for(p=path+strlen(path); p >= path && *p != '/'; p--); p++;]: the
    characters after the last slash *)
Fixpoint basename (path : list Z) : list Z :=
  match path with
  | [] => []
  | c :: rest => if bool_decide (chr "/" ∈ rest) then basename rest else if c =? chr "/" then rest else path
  end.

(** The name padded with blanks to DIRSIZ; the static [buf] of DIRSIZ+1 bytes
    keeps its final NUL. *)
Definition fmtname (path : list Z) : list Z :=
  let p := basename path in
  if DIRSIZ <=? Z.of_nat (length p) then p
  else p ++ replicate (Z.to_nat DIRSIZ - length p) (chr " ").

Definition print_entry (path : list Z) (st : Layout.stat) : prog unit :=
  printf 1 ("%s %d %d %d" +:+ nl)
    [AStr (Some (fmtname path)); AInt (st_type st); AInt (st_ino st); AInt (st_size st)].

(** [while(read(fd, &de, sizeof(de)) == sizeof(de))] *)
Fixpoint ls_loop (turns : nat) (fd : Z) (path : list Z) : prog unit :=
  de ← call (C_read fd sizeof_dirent);
  match de with
  | Some (i0 :: i1 :: name) =>
      if negb (length name =? Z.to_nat DIRSIZ)%nat then mret tt else
      match turns with
      | O => Hung
      | S turns =>
          if i0 + 256 * i1 =? 0 then ls_loop turns fd path else
          let buf := path ++ [chr "/"] ++ cstr name in
          st ← stat buf;
          match st with
          | None => printf 1 ("ls: cannot stat %s" +:+ nl) [AStr (Some buf)];; ls_loop turns fd path
          | Some st => print_entry buf st;; ls_loop turns fd path
          end
      end
  | _ => mret tt
  end.

Definition ls (turns : nat) (path : list Z) : prog unit :=
  fd ← call (C_open path 0);
  if fd <? 0 then printf 2 ("ls: cannot open %s" +:+ nl) [AStr (Some path)] else
  st ← call (C_fstat fd);
  match st with
  | None =>
      printf 2 ("ls: cannot stat %s" +:+ nl) [AStr (Some path)];;
      call (C_close fd);;
      mret tt
  | Some st =>
      (if st_type st =? T_FILE then print_entry path st
       else if st_type st =? T_DIR then
         if 512 <? Z.of_nat (length path) + 1 + DIRSIZ + 1 then printf 1 ("ls: path too long" +:+ nl) []
         else ls_loop turns fd path
       else mret tt);;
      call (C_close fd);;
      mret tt
  end.

Fixpoint main_loop (turns : nat) (argv : list (list Z)) : prog unit :=
  match argv with
  | [] => exit
  | a :: argv => ls turns a;; main_loop turns argv
  end.

Definition main (turns : nat) (argv : list (list Z)) : prog unit :=
  if (length argv <? 2)%nat then ls turns (chars ".");; exit else main_loop turns (tail argv).
End Ls.

(** ** [cat] and [wc] *)

(** C40.  [cat] copies its input to the standard output unchanged, however the
    kernel splits the input into reads. *)
Theorem cat_copies fd input out turns :
  (length input < turns)%nat →
  wp (WW := io_world true fd) (Cat.cat turns fd) (λ _ w, w = MkIo [] (out ++ input)) (λ _, False) (MkIo input out).
Proof.
  revert input out. induction turns as [|turns IH]; intros input out Ht; [lia|].
  cbn [Cat.cat]. apply wp_bind, wp_read_short; [lia|]. cbn [io_in io_out wp]. intros bs rest -> Hlen Hnil.
  destruct bs as [|b bs]; [by rewrite Hnil, app_nil_r|].
  apply wp_bind, wp_write. cbn [wp io_in io_out]. rewrite Z.eqb_refl. cbn [negb].
  rewrite app_assoc. apply IH. rewrite length_app in Ht. simpl in Ht. lia.
Qed.

Lemma cat_copies_witness :
  wp (WW := io_world true 0) (Cat.cat 10 0) (λ _ w, w = MkIo [] ([] ++ chars "hello")) (λ _, False) (MkIo (chars "hello") []).
Proof. apply cat_copies. vm_compute. lia. Defined.

(** The white space of [wc]. *)
Definition is_space (b : Z) : bool := bool_decide (b ∈ [32; 13; 9; 10; 11]).

(** A text cut at its white space. *)
Fixpoint fields (l : list Z) : list (list Z) :=
  match l with
  | [] => [[]]
  | b :: l =>
      if is_space b then [] :: fields l
      else match fields l with
           | f :: fs => (b :: f) :: fs
           | [] => []
           end
  end.

(** The words of a text: its fields that are not empty. *)
Definition words (l : list Z) : list (list Z) := filter (.≠ []) (fields l).

Lemma strchr_space b :
  ∃ o, strchr [32; 13; 9; 10; 11; 0] b = Some o ∧ is_space b = bool_decide (is_Some o).
Proof.
  unfold is_space. cbn [strchr Z.eqb].
  repeat (match goal with |- context [?x =? b] => destruct (Z.eqb_spec x b) as [<-|?] end; [by eexists|]).
  exists None. split; [done|]. rewrite !bool_decide_false; [done|by intros [??]|]. rewrite !elem_of_cons, elem_of_nil. naive_solver.
Qed.

(** The words that start in [l], after a character that was in a word or not. *)
Definition starts (inword : bool) (l : list Z) : nat :=
  length (words l) - (if inword && negb (bool_decide (head (fields l) = Some [])) then 1 else 0).

Lemma fields_cons l : ∃ f fs, fields l = f :: fs.
Proof. induction l as [|b l (f & fs & IH)]; simpl; [eauto|]. destruct (is_space b); [eauto|]. rewrite IH. eauto. Qed.

Lemma starts_cons inword b l :
  starts inword (b :: l) =
  (if is_space b then starts false l else (if inword then 0 else 1) + starts true l)%nat.
Proof.
  unfold starts, words. cbn [fields]. destruct (fields_cons l) as (f & fs & E). rewrite E.
  destruct (is_space b).
  - rewrite (filter_cons_False _ []) by naive_solver. simpl. rewrite andb_false_r. done.
  - rewrite (filter_cons_True _ (b :: f)) by done. cbn [length head]. rewrite bool_decide_false by done.
    destruct (decide (f = [])) as [->|Hf].
    + rewrite (filter_cons_False _ []) by naive_solver. rewrite bool_decide_true by done. cbn [andb negb].
      destruct inword; simpl; lia.
    + rewrite (filter_cons_True _ f) by done. rewrite bool_decide_false by congruence. cbn [andb negb length].
      destruct inword; simpl; lia.
Qed.

Lemma s32_small n : 0 ≤ n < 2147483648 → s32 n = n.
Proof. intros Hn. rewrite <-(s32_u32 n) at 2 by lia. by rewrite u32_small by (unfold two32; lia). Qed.

(** The number of newlines. *)
Definition newlines (l : list Z) : nat := length (filter (.= chr nl) l).

Lemma count_ok l : ∀ k,
  0 ≤ Wc.c_l k → 0 ≤ Wc.c_w k → 0 ≤ Wc.c_c k →
  Wc.c_l k + Z.of_nat (length l) < 2147483648 → Wc.c_w k + Z.of_nat (length l) < 2147483648 →
  Wc.c_c k + Z.of_nat (length l) < 2147483648 →
  ∃ b, fold_left Wc.count1 l k =
    Wc.MkCounts (Wc.c_l k + Z.of_nat (newlines l)) (Wc.c_w k + Z.of_nat (starts (Wc.c_inword k) l)) (Wc.c_c k + Z.of_nat (length l)) b.
Proof.
  induction l as [|b l IH]; intros k H1 H2 H3 H4 H5 H6; simpl in H4, H5, H6.
  - exists (Wc.c_inword k). unfold newlines, starts. simpl. rewrite andb_false_r. destruct k; simpl. f_equal; lia.
  - cbn [fold_left length]. rewrite starts_cons. unfold newlines. rewrite filter_cons.
    assert (Wc.count1 k b = Wc.MkCounts (if decide (b = chr nl) then Wc.c_l k + 1 else Wc.c_l k)
      (if is_space b then Wc.c_w k else if Wc.c_inword k then Wc.c_w k else Wc.c_w k + 1) (Wc.c_c k + 1) (negb (is_space b))) as ->.
    { unfold Wc.count1. rewrite (s32_small (Wc.c_c k + 1)), (s32_small (Wc.c_w k + 1)), (s32_small (Wc.c_l k + 1)) by lia.
      assert ((if b =? chr nl then Wc.c_l k + 1 else Wc.c_l k) = if decide (b = chr nl) then Wc.c_l k + 1 else Wc.c_l k) as ->.
      { destruct (Z.eqb_spec b (chr nl)), (decide (b = chr nl)); congruence. }
      destruct (strchr_space b) as ([q|] & -> & ->); [by rewrite bool_decide_true by eauto|].
      rewrite bool_decide_false by (by intros [??]). by destruct (Wc.c_inword k). }
    edestruct IH as (b' & ->); cycle -1.
    { exists b'. cbn [Wc.c_l Wc.c_w Wc.c_c Wc.c_inword]. unfold newlines.
      destruct (decide (b = chr nl)), (is_space b), (Wc.c_inword k); cbn [negb length]; f_equal; lia. }
    all: cbn [Wc.c_l Wc.c_w Wc.c_c]; destruct (decide (b = chr nl)), (is_space b), (Wc.c_inword k); lia.
Qed.

Lemma wc_loop_ok fd turns : ∀ input k k' w (Q : Wc.counts → io → Prop) E,
  (length input < turns)%nat → io_in w = input → fold_left Wc.count1 input k = k' →
  Q k' (MkIo [] (io_out w)) → wp (WW := io_world true fd) (Wc.wc_loop turns fd k) Q E w.
Proof.
  induction turns as [|turns IH]; intros input k k' w Q E Ht Hin Hk HQ; [lia|].
  cbn [Wc.wc_loop]. apply wp_bind, wp_read_short; [lia|]. rewrite Hin. cbn [wp].
  intros bs rest -> Hlen Hnil. destruct bs as [|b bs].
  { rewrite Hnil in Hk |- * by done. simpl in Hk. by subst k'. }
  rewrite fold_left_app in Hk. rewrite length_app in Ht. simpl in Ht.
  apply (IH rest _ k'); [lia|done|exact Hk|done].
Qed.

(** C38.  [wc] prints the number of newlines, of words (maximal runs of
    characters other than white space) and of bytes of its input, however the kernel splits it. *)
Theorem wc_counts fd name input out turns :
  (length input < turns)%nat → Z.of_nat (length input) < 2147483648 →
  wp (WW := io_world true fd) (Wc.wc turns fd name)
    (λ _ w, ∃ text,
      formatted false (chars ("%d %d %d %s" +:+ nl))
        [AInt (Z.of_nat (newlines input)); AInt (Z.of_nat (length (words input)));
         AInt (Z.of_nat (length input)); AStr (Some name)] = Some text ∧
      w = MkIo [] (out ++ text)) (λ _, False) (MkIo input out).
Proof.
  intros Ht Hlen. apply wp_bind.
  destruct (count_ok input (Wc.MkCounts 0 0 0 false)) as (b & Hk); [done|done|done|cbn; lia..|].
  eapply wc_loop_ok; [done|done|exact Hk|]. cbn [Wc.c_l Wc.c_w Wc.c_c Wc.c_inword io_out].
  unfold starts. cbn [andb]. rewrite Nat.sub_0_r, !Z.add_0_l.
  eapply wp_printf; [reflexivity|]. eexists. split; [reflexivity|done].
Qed.

Lemma wc_counts_witness :
  wp (WW := io_world true 0) (Wc.wc 30 0 (chars "f"))
    (λ _ w, ∃ text,
      formatted false (chars ("%d %d %d %s" +:+ nl))
        [AInt (Z.of_nat (newlines (chars "two words"))); AInt (Z.of_nat (length (words (chars "two words"))));
         AInt (Z.of_nat (length (chars "two words"))); AStr (Some (chars "f"))] = Some text ∧
      w = MkIo [] ([] ++ text)) (λ _, False) (MkIo (chars "two words") []).
Proof. apply wc_counts; [vm_compute; lia|done]. Defined.
