(* ===== verification/Usertests.v ===== *)
(** Usertests: the tests of [usertests.c] as programs of system calls, one
    definition for each test.

    The global array [buf] is passed along: a test that uses it takes its
    content and returns the content it leaves.  [read_] is a read into [buf]
    and gives the count, -1 for an error.  The tests that use raw
    addresses ([sbrktest], [validatetest], [mem], [uio], [bsstest],
    [argptest]) and the shortest ones are not here.  [Hung] is an endless loop, or a loop that the kernel keeps going for
    more than [turns] turns. *)

From S2P Require Import Prelude Layout Bytes CString User Ulib Printf.

(** ** Loops and checks of C *)

(** [for(i = lo; i < lo + n; i++)] with the state [S] *)
Fixpoint for_p {S} (n : nat) (i : Z) (body : Z → S → prog S) (s : S) : prog S :=
  match n with
  | O => mret s
  | Datatypes.S n => s ← body i s; for_p n (i + 1) body s
  end.

(** The same with a [break] or [return]. *)
Fixpoint for_break {S R} (n : nat) (i : Z) (body : Z → S → prog (S + R)) (s : S) : prog (S + R) :=
  match n with
  | O => mret (inl s)
  | Datatypes.S n =>
      r ← body i s;
      match r with inl s => for_break n (i + 1) body s | inr r => mret (inr r) end
  end.

(** A loop that the results of its calls end. *)
Fixpoint loop_p {S R} (turns : nat) (body : S → prog (S + R)) (s : S) : prog R :=
  match turns with
  | O => Hung
  | Datatypes.S turns => r ← body s; match r with inl s => loop_p turns body s | inr r => mret r end
  end.

Definition times (n : nat) (p : prog unit) : prog unit := for_p n 0 (λ _ _, p) tt.

(** [{ printf(1, msg, ...); exit(); }] *)
Definition fail {A} (msg : string) (ap : list arg) : prog A := printf 1 msg ap;; exit.

(** [if(b){ printf(1, msg "\n"); exit(); }] *)
Definition check (b : bool) (msg : string) : prog unit := whenp b (fail (msg +:+ nl) []).

Definition open_ (path : string) (mode : Z) : prog Z := call (C_open (chars path) mode).
Definition unlink_ (path : string) : prog Z := call (C_unlink (chars path)).
Definition mkdir_ (path : string) : prog Z := call (C_mkdir (chars path)).
Definition chdir_ (path : string) : prog Z := call (C_chdir (chars path)).
Definition link_ (old new : string) : prog Z := call (C_link (chars old) (chars new)).

(** [read(fd, buf, n)] *)
Definition read_ (fd : Z) (buf : list Z) (n : Z) : prog (Z * list Z) :=
  r ← call (C_read fd n);
  mret match r with
       | None => (-1, buf)
       | Some bs => (Z.of_nat (length bs), bs ++ drop (length bs) buf)
       end.

(** [write(fd, buf, n)] *)
Definition write_ (fd : Z) (buf : list Z) (n : Z) : prog Z := call (C_write fd (take (Z.to_nat n) buf)).

(** [memset(buf, c, n)] *)
Definition memset_ (buf : list Z) (c n : Z) : list Z := replicate (Z.to_nat n) (u8 c) ++ drop (Z.to_nat n) buf.

(** A [char] as an [int] *)
Definition schar (c : Z) : Z := if c <? 128 then c else c - 256.

Definition sizeof_buf : Z := 8192.

Module Usertests.

(** ** Directories and reference counts *)

Definition iputtest : prog unit :=
  printf 1 ("iput test" +:+ nl) [];;
  r ← mkdir_ "iputdir"; check (r <? 0) "mkdir failed";;
  r ← chdir_ "iputdir"; check (r <? 0) "chdir iputdir failed";;
  r ← unlink_ "../iputdir"; check (r <? 0) "unlink ../iputdir failed";;
  r ← chdir_ "/"; check (r <? 0) "chdir / failed";;
  printf 1 ("iput test ok" +:+ nl) [].

Definition exitiputtest : prog unit :=
  printf 1 ("exitiput test" +:+ nl) [];;
  pid ← call C_fork;
  check (pid <? 0) "fork failed";;
  whenp (pid =? 0)
    (r ← mkdir_ "iputdir"; check (r <? 0) "mkdir failed";;
     r ← chdir_ "iputdir"; check (r <? 0) "child chdir failed";;
     r ← unlink_ "../iputdir"; check (r <? 0) "unlink ../iputdir failed";;
     exit);;
  call C_wait;;
  printf 1 ("exitiput test ok" +:+ nl) [].

Definition openiputtest : prog unit :=
  printf 1 ("openiput test" +:+ nl) [];;
  r ← mkdir_ "oidir"; check (r <? 0) "mkdir oidir failed";;
  pid ← call C_fork;
  check (pid <? 0) "fork failed";;
  whenp (pid =? 0)
    (fd ← open_ "oidir" O_RDWR;
     check (0 <=? fd) "open directory for write succeeded";;
     exit);;
  call (C_sleep 1);;
  r ← unlink_ "oidir"; check (negb (r =? 0)) "unlink failed";;
  call C_wait;;
  printf 1 ("openiput test ok" +:+ nl) [].

(** ** Simple file system tests *)

Definition writetest (buf : list Z) : prog (list Z) :=
  printf 1 ("small file test" +:+ nl) [];;
  fd ← open_ "small" (Z.lor O_CREATE O_RDWR);
  (if 0 <=? fd then printf 1 ("creat small succeeded; ok" +:+ nl) []
   else fail ("error: creat small failed!" +:+ nl) []);;
  for_p 100 0 (λ i _,
    r ← call (C_write fd (chars "aaaaaaaaaa"));
    whenp (negb (r =? 10)) (fail ("error: write aa %d new file failed" +:+ nl) [AInt i]);;
    r ← call (C_write fd (chars "bbbbbbbbbb"));
    whenp (negb (r =? 10)) (fail ("error: write bb %d new file failed" +:+ nl) [AInt i])) tt;;
  printf 1 ("writes ok" +:+ nl) [];;
  call (C_close fd);;
  fd ← open_ "small" O_RDONLY;
  (if 0 <=? fd then printf 1 ("open small succeeded ok" +:+ nl) []
   else fail ("error: open small failed!" +:+ nl) []);;
  '(i, buf) ← read_ fd buf 2000;
  (if i =? 2000 then printf 1 ("read succeeded ok" +:+ nl) []
   else fail ("read failed" +:+ nl) []);;
  call (C_close fd);;
  r ← unlink_ "small"; check (r <? 0) "unlink small failed";;
  printf 1 ("small file test ok" +:+ nl) [];;
  mret buf.

Definition writetest1 (turns : nat) (buf : list Z) : prog (list Z) :=
  printf 1 ("big files test" +:+ nl) [];;
  fd ← open_ "big" (Z.lor O_CREATE O_RDWR);
  check (fd <? 0) "error: creat big failed!";;
  buf ← for_p (Z.to_nat MAXFILE) 0 (λ i buf,
    let buf := wr32 buf 0 i in
    r ← write_ fd buf 512;
    whenp (negb (r =? 512)) (fail ("error: write big file failed" +:+ nl) [AInt i]);;
    mret buf) buf;
  call (C_close fd);;
  fd ← open_ "big" O_RDONLY;
  check (fd <? 0) "error: open big failed!";;
  buf ← loop_p turns (λ '(n, buf),
    '(i, buf) ← read_ fd buf 512;
    if i =? 0 then
      whenp (n =? MAXFILE - 1) (fail "read only %d blocks from big" [AInt n]);;
      mret (inr buf)
    else if negb (i =? 512) then fail ("read failed %d" +:+ nl) [AInt i]
    else if negb (s32 (rd32 buf 0) =? n) then
      fail ("read content of block %d is %d" +:+ nl) [AInt n; AInt (s32 (rd32 buf 0))]
    else mret (inl (n + 1, buf))) (0, buf);
  call (C_close fd);;
  r ← unlink_ "big"; check (r <? 0) "unlink big failed";;
  printf 1 ("big files ok" +:+ nl) [];;
  mret buf.

(** ** Pipes and processes *)

(** [counting seq n] are the bytes [seq++] gives; [seq] of the parent is
    [total], the number of bytes it has compared. *)
Definition pipe1 (turns : nat) (buf : list Z) : prog (list Z) :=
  let counting seq n := (λ i, u8 (seq + i)) <$> seqZ 0 n in
  r ← call C_pipe;
  match r with
  | None => fail ("pipe() failed" +:+ nl) []
  | Some (fds0, fds1) =>
      pid ← call C_fork;
      if pid =? 0 then
        call (C_close fds0);;
        for_p 5 0 (λ n buf,
          let buf := counting (1033 * n) 1033 ++ drop 1033 buf in
          r ← write_ fds1 buf 1033;
          check (negb (r =? 1033)) "pipe1 oops 1";;
          mret buf) buf;;
        exit
      else if 0 <? pid then
        call (C_close fds1);;
        r ← loop_p turns (λ '(total, cc, buf),
          '(n, buf) ← read_ fds0 buf cc;
          if 0 <? n then
            if negb (bool_decide (take (Z.to_nat n) buf = counting total n)) then
              printf 1 ("pipe1 oops 2" +:+ nl) [];;
              mret (inr (inr buf))
            else
              let cc := cc * 2 in
              let cc := if sizeof_buf <? cc then sizeof_buf else cc in
              mret (inl (total + n, cc, buf))
          else mret (inr (inl (total, buf)))) (0, 1, buf);
        match r with
        | inr buf => mret buf
        | inl (total, buf) =>
            whenp (negb (total =? 5 * 1033)) (fail ("pipe1 oops 3 total %d" +:+ nl) [AInt total]);;
            call (C_close fds0);;
            call C_wait;;
            printf 1 ("pipe1 ok" +:+ nl) [];;
            mret buf
        end
      else fail ("fork() failed" +:+ nl) []
  end.

Definition preempt (buf : list Z) : prog (list Z) :=
  printf 1 "preempt: " [];;
  pid1 ← call C_fork;
  if pid1 =? 0 then Hung else
  pid2 ← call C_fork;
  if pid2 =? 0 then Hung else
  fds ← call C_pipe;
  match fds with
  | None => Fault (* [pfds] is used uninitialized *)
  | Some (pfds0, pfds1) =>
      pid3 ← call C_fork;
      if pid3 =? 0 then
        call (C_close pfds0);;
        r ← call (C_write pfds1 (chars "x"));
        whenp (negb (r =? 1)) (printf 1 "preempt write error" []);;
        call (C_close pfds1);;
        Hung
      else
        call (C_close pfds1);;
        '(n, buf) ← read_ pfds0 buf sizeof_buf;
        if negb (n =? 1) then
          printf 1 "preempt read error" [];;
          mret buf
        else
          call (C_close pfds0);;
          printf 1 "kill... " [];;
          call (C_kill pid1);;
          call (C_kill pid2);;
          call (C_kill pid3);;
          printf 1 "wait... " [];;
          call C_wait;;
          call C_wait;;
          call C_wait;;
          printf 1 ("preempt ok" +:+ nl) [];;
          mret buf
  end.

(** ** More file system tests *)

Definition sharedfd (turns : nat) : prog unit :=
  printf 1 ("sharedfd test" +:+ nl) [];;
  unlink_ "sharedfd";;
  fd ← open_ "sharedfd" (Z.lor O_CREATE O_RDWR);
  if fd <? 0 then printf 1 "fstests: cannot open sharedfd for writing" [] else
  pid ← call C_fork;
  let buf := replicate 10 (if pid =? 0 then chr "c" else chr "p") in
  for_break 1000 0 (λ _ _,
    r ← write_ fd buf 10;
    if negb (r =? 10) then
      printf 1 ("fstests: write sharedfd failed" +:+ nl) [];;
      mret (inr tt)
    else mret (inl tt)) tt;;
  (if pid =? 0 then exit else call C_wait);;
  call (C_close fd);;
  fd ← open_ "sharedfd" 0;
  if fd <? 0 then printf 1 ("fstests: cannot open sharedfd for reading" +:+ nl) [] else
  '(nc, np) ← loop_p turns (λ '(nc, np, buf),
    '(n, buf) ← read_ fd buf 10;
    if 0 <? n then
      let count c := Z.of_nat (length (filter (λ x, x = c) buf)) in
      mret (inl (nc + count (chr "c"), np + count (chr "p"), buf))
    else mret (inr (nc, np))) (0, 0, buf);
  call (C_close fd);;
  unlink_ "sharedfd";;
  if (nc =? 10000) && (np =? 10000) then printf 1 ("sharedfd ok" +:+ nl) []
  else fail ("sharedfd oops %d %d" +:+ nl) [AInt nc; AInt np].

Definition fourfiles (turns : nat) (buf : list Z) : prog (list Z) :=
  let fname i := [chr "f"; chr "0" + i] in
  printf 1 ("fourfiles test" +:+ nl) [];;
  for_p 4 0 (λ pi _,
    call (C_unlink (fname pi));;
    pid ← call C_fork;
    check (pid <? 0) "fork failed";;
    whenp (pid =? 0)
      (fd ← call (C_open (fname pi) (Z.lor O_CREATE O_RDWR));
       check (fd <? 0) "create failed";;
       let buf := memset_ buf (chr "0" + pi) 512 in
       times 12
         (n ← write_ fd buf 500;
          whenp (negb (n =? 500)) (fail ("write failed %d" +:+ nl) [AInt n]));;
       exit)) tt;;
  times 4 (call C_wait;; mret tt);;
  buf ← for_p 2 0 (λ i buf,
    fd ← call (C_open (fname i) 0);
    '(total, buf) ← loop_p turns (λ '(total, buf),
      '(n, buf) ← read_ fd buf sizeof_buf;
      if 0 <? n then
        check (negb (bool_decide (Forall (λ c, c = chr "0" + i) (take (Z.to_nat n) buf)))) "wrong char";;
        mret (inl (total + n, buf))
      else mret (inr (total, buf))) (0, buf);
    call (C_close fd);;
    whenp (negb (total =? 12 * 500)) (fail ("wrong length %d" +:+ nl) [AInt total]);;
    call (C_unlink (fname i));;
    mret buf) buf;
  printf 1 ("fourfiles ok" +:+ nl) [];;
  mret buf.

Definition createdelete : prog unit :=
  let name pi i := [chr "p" + pi; chr "0" + i] in
  printf 1 ("createdelete test" +:+ nl) [];;
  for_p 4 0 (λ pi _,
    pid ← call C_fork;
    check (pid <? 0) "fork failed";;
    whenp (pid =? 0)
      (for_p 20 0 (λ i _,
         fd ← call (C_open (name pi i) (Z.lor O_CREATE O_RDWR));
         check (fd <? 0) "create failed";;
         call (C_close fd);;
         whenp ((0 <? i) && (i mod 2 =? 0))
           (r ← call (C_unlink (name pi (i / 2)));
            check (r <? 0) "unlink failed")) tt;;
       exit)) tt;;
  times 4 (call C_wait;; mret tt);;
  for_p 20 0 (λ i _,
    for_p 4 0 (λ pi _,
      fd ← call (C_open (name pi i) 0);
      (if ((i =? 0) || (20 / 2 <=? i)) && (fd <? 0) then
         fail ("oops createdelete %s didn't exist" +:+ nl) [AStr (Some (name pi i))]
       else if ((1 <=? i) && (i <? 20 / 2)) && (0 <=? fd) then
         fail ("oops createdelete %s did exist" +:+ nl) [AStr (Some (name pi i))]
       else mret tt);;
      whenp (0 <=? fd) (call (C_close fd);; mret tt)) tt) tt;;
  for_p 20 0 (λ i _,
    times 4 (call (C_unlink (name i i));; mret tt)) tt;;
  printf 1 ("createdelete ok" +:+ nl) [].

Definition unlinkread (buf : list Z) : prog (list Z) :=
  printf 1 ("unlinkread test" +:+ nl) [];;
  fd ← open_ "unlinkread" (Z.lor O_CREATE O_RDWR);
  check (fd <? 0) "create unlinkread failed";;
  call (C_write fd (chars "hello"));;
  call (C_close fd);;
  fd ← open_ "unlinkread" O_RDWR;
  check (fd <? 0) "open unlinkread failed";;
  r ← unlink_ "unlinkread"; check (negb (r =? 0)) "unlink unlinkread failed";;
  fd1 ← open_ "unlinkread" (Z.lor O_CREATE O_RDWR);
  call (C_write fd1 (chars "yyy"));;
  call (C_close fd1);;
  '(n, buf) ← read_ fd buf sizeof_buf;
  whenp (negb (n =? 5)) (fail "unlinkread read failed" []);;
  check (negb (nth 0 buf 0 =? chr "h")) "unlinkread wrong data";;
  r ← write_ fd buf 10; check (negb (r =? 10)) "unlinkread write failed";;
  call (C_close fd);;
  unlink_ "unlinkread";;
  printf 1 ("unlinkread ok" +:+ nl) [];;
  mret buf.

Definition linktest (buf : list Z) : prog (list Z) :=
  printf 1 ("linktest" +:+ nl) [];;
  unlink_ "lf1";;
  unlink_ "lf2";;
  fd ← open_ "lf1" (Z.lor O_CREATE O_RDWR);
  check (fd <? 0) "create lf1 failed";;
  r ← call (C_write fd (chars "hello")); check (negb (r =? 5)) "write lf1 failed";;
  call (C_close fd);;
  r ← link_ "lf1" "lf2"; check (r <? 0) "link lf1 lf2 failed";;
  unlink_ "lf1";;
  r ← open_ "lf1" 0; check (0 <=? r) "unlinked lf1 but it is still there!";;
  fd ← open_ "lf2" 0;
  check (fd <? 0) "open lf2 failed";;
  '(n, buf) ← read_ fd buf sizeof_buf;
  check (negb (n =? 5)) "read lf2 failed";;
  call (C_close fd);;
  r ← link_ "lf2" "lf2"; check (0 <=? r) "link lf2 lf2 succeeded! oops";;
  unlink_ "lf2";;
  r ← link_ "lf2" "lf1"; check (0 <=? r) "link non-existant succeeded! oops";;
  r ← link_ "." "lf1"; check (0 <=? r) "link . lf1 succeeded! oops";;
  printf 1 ("linktest ok" +:+ nl) [];;
  mret buf.

(** [de] is what the uninitialized entry holds. *)
Definition concreate (turns : nat) (de : list Z) : prog unit :=
  let file i := [chr "C"; chr "0" + i] in
  printf 1 ("concreate test" +:+ nl) [];;
  for_p 40 0 (λ i _,
    call (C_unlink (file i));;
    pid ← call C_fork;
    (if negb (pid =? 0) && (i mod 3 =? 1) then call (C_link (chars "C0") (file i));; mret tt
     else if (pid =? 0) && (i mod 5 =? 1) then call (C_link (chars "C0") (file i));; mret tt
     else
       fd ← call (C_open (file i) (Z.lor O_CREATE O_RDWR));
       whenp (fd <? 0) (fail ("concreate create %s failed" +:+ nl) [AStr (Some (file i))]);;
       call (C_close fd);; mret tt);;
    if pid =? 0 then exit else call C_wait;; mret tt) tt;;
  fd ← open_ "." 0;
  n ← loop_p turns (λ '(fa, n, de),
    '(r, de) ← read_ fd de 16;
    if 0 <? r then
      if rd16 de 0 =? 0 then mret (inl (fa, n, de)) else
      let name := drop 2 de in
      if (nth 0 name 0 =? chr "C") && (nth 2 name 0 =? 0) then
        let i := schar (nth 1 name 0) - chr "0" in
        if (i <? 0) || (40 <=? i) then fail ("concreate weird file %s" +:+ nl) [AStr (Some (cstr name))]
        else if negb (nth (Z.to_nat i) fa 0 =? 0) then
          fail ("concreate duplicate file %s" +:+ nl) [AStr (Some (cstr name))]
        else mret (inl (<[Z.to_nat i := 1]> fa, n + 1, de))
      else mret (inl (fa, n, de))
    else mret (inr n)) (replicate 40 0, 0, de);
  call (C_close fd);;
  check (negb (n =? 40)) "concreate not enough files in directory listing";;
  for_p 40 0 (λ i _,
    pid ← call C_fork;
    check (pid <? 0) "fork failed";;
    (if ((i mod 3 =? 0) && (pid =? 0)) || ((i mod 3 =? 1) && negb (pid =? 0)) then
       times 4 (fd ← call (C_open (file i) 0); call (C_close fd);; mret tt)
     else times 4 (call (C_unlink (file i));; mret tt));;
    if pid =? 0 then exit else call C_wait;; mret tt) tt;;
  printf 1 ("concreate ok" +:+ nl) [].

Definition linkunlink : prog unit :=
  printf 1 ("linkunlink test" +:+ nl) [];;
  unlink_ "x";;
  pid ← call C_fork;
  check (pid <? 0) "fork failed";;
  for_p 100 0 (λ _ x,
    let x := u32 (x * 1103515245 + 12345) in
    (if x mod 3 =? 0 then fd ← open_ "x" (Z.lor O_RDWR O_CREATE); call (C_close fd)
     else if x mod 3 =? 1 then link_ "cat" "x"
     else unlink_ "x");;
    mret x) (if pid =? 0 then 97 else 1);;
  (if pid =? 0 then exit else call C_wait);;
  printf 1 ("linkunlink ok" +:+ nl) [].

Definition bigdir : prog unit :=
  let name i := [chr "x"; chr "0" + i / 64; chr "0" + i mod 64] in
  printf 1 ("bigdir test" +:+ nl) [];;
  unlink_ "bd";;
  fd ← open_ "bd" O_CREATE;
  check (fd <? 0) "bigdir create failed";;
  call (C_close fd);;
  for_p 500 0 (λ i _,
    r ← call (C_link (chars "bd") (name i));
    check (negb (r =? 0)) "bigdir link failed") tt;;
  unlink_ "bd";;
  for_p 500 0 (λ i _,
    r ← call (C_unlink (name i));
    whenp (negb (r =? 0)) (fail "bigdir unlink failed" [])) tt;;
  printf 1 ("bigdir ok" +:+ nl) [].

Definition subdir (buf : list Z) : prog (list Z) :=
  printf 1 ("subdir test" +:+ nl) [];;
  unlink_ "ff";;
  r ← mkdir_ "dd"; check (negb (r =? 0)) "subdir mkdir dd failed";;
  fd ← open_ "dd/ff" (Z.lor O_CREATE O_RDWR);
  check (fd <? 0) "create dd/ff failed";;
  call (C_write fd (chars "ff"));;
  call (C_close fd);;
  r ← unlink_ "dd"; check (0 <=? r) "unlink dd (non-empty dir) succeeded!";;
  r ← mkdir_ "/dd/dd"; check (negb (r =? 0)) "subdir mkdir dd/dd failed";;
  fd ← open_ "dd/dd/ff" (Z.lor O_CREATE O_RDWR);
  check (fd <? 0) "create dd/dd/ff failed";;
  call (C_write fd (chars "FF"));;
  call (C_close fd);;
  fd ← open_ "dd/dd/../ff" 0;
  check (fd <? 0) "open dd/dd/../ff failed";;
  '(cc, buf) ← read_ fd buf sizeof_buf;
  check (negb (cc =? 2) || negb (nth 0 buf 0 =? chr "f")) "dd/dd/../ff wrong content";;
  call (C_close fd);;
  r ← link_ "dd/dd/ff" "dd/dd/ffff"; check (negb (r =? 0)) "link dd/dd/ff dd/dd/ffff failed";;
  r ← unlink_ "dd/dd/ff"; check (negb (r =? 0)) "unlink dd/dd/ff failed";;
  r ← open_ "dd/dd/ff" O_RDONLY; check (0 <=? r) "open (unlinked) dd/dd/ff succeeded";;
  r ← chdir_ "dd"; check (negb (r =? 0)) "chdir dd failed";;
  r ← chdir_ "dd/../../dd"; check (negb (r =? 0)) "chdir dd/../../dd failed";;
  r ← chdir_ "dd/../../../dd"; check (negb (r =? 0)) "chdir dd/../../dd failed";;
  r ← chdir_ "./.."; check (negb (r =? 0)) "chdir ./.. failed";;
  fd ← open_ "dd/dd/ffff" 0;
  check (fd <? 0) "open dd/dd/ffff failed";;
  '(cc, buf) ← read_ fd buf sizeof_buf;
  check (negb (cc =? 2)) "read dd/dd/ffff wrong len";;
  call (C_close fd);;
  r ← open_ "dd/dd/ff" O_RDONLY; check (0 <=? r) "open (unlinked) dd/dd/ff succeeded!";;
  r ← open_ "dd/ff/ff" (Z.lor O_CREATE O_RDWR); check (0 <=? r) "create dd/ff/ff succeeded!";;
  r ← open_ "dd/xx/ff" (Z.lor O_CREATE O_RDWR); check (0 <=? r) "create dd/xx/ff succeeded!";;
  r ← open_ "dd" O_CREATE; check (0 <=? r) "create dd succeeded!";;
  r ← open_ "dd" O_RDWR; check (0 <=? r) "open dd rdwr succeeded!";;
  r ← open_ "dd" O_WRONLY; check (0 <=? r) "open dd wronly succeeded!";;
  r ← link_ "dd/ff/ff" "dd/dd/xx"; check (r =? 0) "link dd/ff/ff dd/dd/xx succeeded!";;
  r ← link_ "dd/xx/ff" "dd/dd/xx"; check (r =? 0) "link dd/xx/ff dd/dd/xx succeeded!";;
  r ← link_ "dd/ff" "dd/dd/ffff"; check (r =? 0) "link dd/ff dd/dd/ffff succeeded!";;
  r ← mkdir_ "dd/ff/ff"; check (r =? 0) "mkdir dd/ff/ff succeeded!";;
  r ← mkdir_ "dd/xx/ff"; check (r =? 0) "mkdir dd/xx/ff succeeded!";;
  r ← mkdir_ "dd/dd/ffff"; check (r =? 0) "mkdir dd/dd/ffff succeeded!";;
  r ← unlink_ "dd/xx/ff"; check (r =? 0) "unlink dd/xx/ff succeeded!";;
  r ← unlink_ "dd/ff/ff"; check (r =? 0) "unlink dd/ff/ff succeeded!";;
  r ← chdir_ "dd/ff"; check (r =? 0) "chdir dd/ff succeeded!";;
  r ← chdir_ "dd/xx"; check (r =? 0) "chdir dd/xx succeeded!";;
  r ← unlink_ "dd/dd/ffff"; check (negb (r =? 0)) "unlink dd/dd/ff failed";;
  r ← unlink_ "dd/ff"; check (negb (r =? 0)) "unlink dd/ff failed";;
  r ← unlink_ "dd"; check (r =? 0) "unlink non-empty dd succeeded!";;
  r ← unlink_ "dd/dd"; check (r <? 0) "unlink dd/dd failed";;
  r ← unlink_ "dd"; check (r <? 0) "unlink dd failed";;
  printf 1 ("subdir ok" +:+ nl) [];;
  mret buf.

(** [for(sz = 499; sz < 12*512; sz += 471)] has 12 turns. *)
Definition bigwrite (buf : list Z) : prog unit :=
  printf 1 ("bigwrite test" +:+ nl) [];;
  unlink_ "bigwrite";;
  for_p 12 0 (λ k _,
    let sz := 499 + 471 * k in
    fd ← open_ "bigwrite" (Z.lor O_CREATE O_RDWR);
    check (fd <? 0) "cannot create bigwrite";;
    times 2
      (cc ← write_ fd buf sz;
       whenp (negb (cc =? sz)) (fail ("write(%d) ret %d" +:+ nl) [AInt sz; AInt cc]));;
    call (C_close fd);;
    unlink_ "bigwrite";;
    mret tt) tt;;
  printf 1 ("bigwrite ok" +:+ nl) [].

Definition bigfile (turns : nat) (buf : list Z) : prog (list Z) :=
  printf 1 ("bigfile test" +:+ nl) [];;
  unlink_ "bigfile";;
  fd ← open_ "bigfile" (Z.lor O_CREATE O_RDWR);
  whenp (fd <? 0) (fail "cannot create bigfile" []);;
  buf ← for_p 20 0 (λ i buf,
    let buf := memset_ buf i 600 in
    r ← write_ fd buf 600;
    check (negb (r =? 600)) "write bigfile failed";;
    mret buf) buf;
  call (C_close fd);;
  fd ← open_ "bigfile" 0;
  check (fd <? 0) "cannot open bigfile";;
  '(total, buf) ← loop_p turns (λ '(i, total, buf),
    '(cc, buf) ← read_ fd buf 300;
    check (cc <? 0) "read bigfile failed";;
    if cc =? 0 then mret (inr (total, buf)) else
    check (negb (cc =? 300)) "short read bigfile";;
    check (negb (schar (nth 0 buf 0) =? i / 2) || negb (schar (nth 299 buf 0) =? i / 2)) "read bigfile wrong data";;
    mret (inl (i + 1, total + cc, buf))) (0, 0, buf);
  call (C_close fd);;
  check (negb (total =? 20 * 600)) "read bigfile wrong total";;
  unlink_ "bigfile";;
  printf 1 ("bigfile test ok" +:+ nl) [];;
  mret buf.

Definition fourteen : prog unit :=
  printf 1 ("fourteen test" +:+ nl) [];;
  r ← mkdir_ "12345678901234"; check (negb (r =? 0)) "mkdir 12345678901234 failed";;
  r ← mkdir_ "12345678901234/123456789012345";
  check (negb (r =? 0)) "mkdir 12345678901234/123456789012345 failed";;
  fd ← open_ "123456789012345/123456789012345/123456789012345" O_CREATE;
  check (fd <? 0) "create 123456789012345/123456789012345/123456789012345 failed";;
  call (C_close fd);;
  fd ← open_ "12345678901234/12345678901234/12345678901234" 0;
  check (fd <? 0) "open 12345678901234/12345678901234/12345678901234 failed";;
  call (C_close fd);;
  r ← mkdir_ "12345678901234/12345678901234";
  check (r =? 0) "mkdir 12345678901234/12345678901234 succeeded!";;
  r ← mkdir_ "123456789012345/12345678901234";
  check (r =? 0) "mkdir 12345678901234/123456789012345 succeeded!";;
  printf 1 ("fourteen ok" +:+ nl) [].

Definition rmdot : prog unit :=
  printf 1 ("rmdot test" +:+ nl) [];;
  r ← mkdir_ "dots"; check (negb (r =? 0)) "mkdir dots failed";;
  r ← chdir_ "dots"; check (negb (r =? 0)) "chdir dots failed";;
  r ← unlink_ "."; check (r =? 0) "rm . worked!";;
  r ← unlink_ ".."; check (r =? 0) "rm .. worked!";;
  r ← chdir_ "/"; check (negb (r =? 0)) "chdir / failed";;
  r ← unlink_ "dots/."; check (r =? 0) "unlink dots/. worked!";;
  r ← unlink_ "dots/.."; check (r =? 0) "unlink dots/.. worked!";;
  r ← unlink_ "dots"; check (negb (r =? 0)) "unlink dots failed!";;
  printf 1 ("rmdot ok" +:+ nl) [].

Definition dirfile : prog unit :=
  printf 1 ("dir vs file" +:+ nl) [];;
  fd ← open_ "dirfile" O_CREATE;
  check (fd <? 0) "create dirfile failed";;
  call (C_close fd);;
  r ← chdir_ "dirfile"; check (r =? 0) "chdir dirfile succeeded!";;
  fd ← open_ "dirfile/xx" 0; check (0 <=? fd) "create dirfile/xx succeeded!";;
  fd ← open_ "dirfile/xx" O_CREATE; check (0 <=? fd) "create dirfile/xx succeeded!";;
  r ← mkdir_ "dirfile/xx"; check (r =? 0) "mkdir dirfile/xx succeeded!";;
  r ← unlink_ "dirfile/xx"; check (r =? 0) "unlink dirfile/xx succeeded!";;
  r ← link_ "README" "dirfile/xx"; check (r =? 0) "link to dirfile/xx succeeded!";;
  r ← unlink_ "dirfile"; check (negb (r =? 0)) "unlink dirfile failed!";;
  fd ← open_ "." O_RDWR; check (0 <=? fd) "open . for writing succeeded!";;
  fd ← open_ "." 0;
  r ← call (C_write fd (chars "x")); check (0 <? r) "write . succeeded!";;
  call (C_close fd);;
  printf 1 ("dir vs file OK" +:+ nl) [].

Definition iref : prog unit :=
  printf 1 ("empty file name" +:+ nl) [];;
  times (50 + 1)
    (r ← mkdir_ "irefd"; check (negb (r =? 0)) "mkdir irefd failed";;
     r ← chdir_ "irefd"; check (negb (r =? 0)) "chdir irefd failed";;
     call (C_mkdir []);;
     call (C_link (chars "README") []);;
     fd ← call (C_open [] O_CREATE);
     whenp (0 <=? fd) (call (C_close fd);; mret tt);;
     fd ← open_ "xx" O_CREATE;
     whenp (0 <=? fd) (call (C_close fd);; mret tt);;
     unlink_ "xx";;
     mret tt);;
  chdir_ "/";;
  printf 1 ("empty file name OK" +:+ nl) [].

(** ** Running out of resources *)

Definition forktest : prog unit :=
  printf 1 ("fork test" +:+ nl) [];;
  r ← for_break 1000 0 (λ n _,
    pid ← call C_fork;
    if pid <? 0 then mret (inr n)
    else if pid =? 0 then exit
    else mret (inl tt)) tt;
  match r with
  | inl _ => fail ("fork claimed to work 1000 times!" +:+ nl) []
  | inr n =>
      times (Z.to_nat n) (r ← call C_wait; check (r <? 0) "wait stopped early");;
      r ← call C_wait;
      check (negb (r =? -1)) "wait got too many";;
      printf 1 ("fork test OK" +:+ nl) []
  end.

Definition bigargtest : prog unit :=
  unlink_ "bigarg-ok";;
  pid ← call C_fork;
  (if pid =? 0 then
     let args := replicate (Z.to_nat MAXARG - 1) (chars ("bigargs test: failed" +:+ nl) ++ replicate 199 (chr " ")) in
     printf 1 ("bigarg test" +:+ nl) [];;
     call (C_exec (chars "echo") args);;
     printf 1 ("bigarg test ok" +:+ nl) [];;
     fd ← open_ "bigarg-ok" O_CREATE;
     call (C_close fd);;
     exit
   else check (pid <? 0) "bigargtest: fork failed");;
  call C_wait;;
  fd ← open_ "bigarg-ok" 0;
  check (fd <? 0) "bigarg test failed!";;
  call (C_close fd);;
  unlink_ "bigarg-ok";;
  mret tt.

Definition fsfull (turns : nat) (buf : list Z) : prog unit :=
  let name n := [chr "f"; chr "0" + n / 1000; chr "0" + n mod 1000 / 100; chr "0" + n mod 100 / 10; chr "0" + n mod 10] in
  printf 1 ("fsfull test" +:+ nl) [];;
  nfiles ← loop_p turns (λ nfiles,
    printf 1 ("writing %s" +:+ nl) [AStr (Some (name nfiles))];;
    fd ← call (C_open (name nfiles) (Z.lor O_CREATE O_RDWR));
    if fd <? 0 then
      printf 1 ("open %s failed" +:+ nl) [AStr (Some (name nfiles))];;
      mret (inr nfiles)
    else
      total ← loop_p turns (λ total,
        cc ← write_ fd buf 512;
        mret (if cc <? 512 then inr total else inl (total + cc))) 0;
      printf 1 ("wrote %d bytes" +:+ nl) [AInt total];;
      call (C_close fd);;
      mret (if total =? 0 then inr nfiles else inl (nfiles + 1))) 0;
  for_p (Z.to_nat (nfiles + 1)) 0 (λ k _, call (C_unlink (name (nfiles - k)));; mret tt) tt;;
  printf 1 ("fsfull test finished" +:+ nl) [].
End Usertests.
