(* ===== verification/Umalloc.v ===== *)
(** Umalloc: [umalloc.c], the storage allocator of user programs.

    Memory holds 32-bit words; a [Header] at [p] is the words [ptr] at [p]
    and [size] at [p + 4].  [base] is the address of the static header and
    [sbrk] the system call, which grows the process from [u_brk] when
    [grants] says so.  Loops around the ring of free blocks take a bound on
    their number of turns. *)

From S2P Require Import Prelude.

Record ustate := MkUstate { u_mem : gmap Z Z; u_freep : Z; u_brk : Z }.

Definition sizeof_Header : Z := 8.

Definition rd (m : gmap Z Z) (a : Z) : Z := default 0 (m !! a).
Definition ptr (m : gmap Z Z) (p : Z) : Z := rd m p.
Definition size (m : gmap Z Z) (p : Z) : Z := rd m (p + 4).

Section umalloc.
Context (base : Z) (grants : Z → Z → bool).

Notation U := (M ustate).

Definition get_ptr (p : Z) : U Z := gets (λ s, ptr (u_mem s) p).
Definition get_size (p : Z) : U Z := gets (λ s, size (u_mem s) p).
Definition set_word (a v : Z) : U unit :=
  modify (λ s, MkUstate (<[a := v]> (u_mem s)) (u_freep s) (u_brk s)).
Definition set_ptr (p v : Z) : U unit := set_word p v.
Definition set_size (p v : Z) : U unit := set_word (p + 4) v.
Definition set_freep (p : Z) : U unit := modify (λ s, MkUstate (u_mem s) p (u_brk s)).

(** [p + n] on [Header*] *)
Definition hplus (p n : Z) : Z := u32 (p + sizeof_Header * n).

(** [for(p = freep; !(bp > p && bp < p->s.ptr); p = p->s.ptr)] *)
Fixpoint free_search (turns : nat) (bp p : Z) : U Z :=
  q ← get_ptr p;
  if (p <? bp) && (bp <? q) then mret p
  else if (q <=? p) && ((p <? bp) || (bp <? q)) then mret p
  else match turns with
       | O => nofuel
       | S turns => free_search turns bp q
       end.

(** [if(bp + bp->s.size == p->s.ptr)], with [q] for [p->s.ptr]: join [bp] to the
    block above *)
Definition merge_up (bp q : Z) : U unit :=
  n ← get_size bp;
  if hplus bp n =? q then
    k ← get_size q;
    set_size bp (u32 (n + k));;
    r ← get_ptr q;
    set_ptr bp r
  else set_ptr bp q.

(** [if(p + p->s.size == bp)]: join [bp] to the block below *)
Definition merge_down (p bp : Z) : U unit :=
  k ← get_size p;
  if hplus p k =? bp then
    n ← get_size bp;
    set_size p (u32 (k + n));;
    r ← get_ptr bp;
    set_ptr p r
  else set_ptr p bp.

Definition free (turns : nat) (ap : Z) : U unit :=
  let bp := u32 (ap - sizeof_Header) in
  p ← gets u_freep;
  p ← free_search turns bp p;
  q ← get_ptr p;
  merge_up bp q;;
  merge_down p bp;;
  set_freep p.

Definition sbrk (n : Z) : U Z := λ s,
  if grants (u_brk s) n then Ret (u_brk s) (MkUstate (u_mem s) (u_freep s) (u_brk s + n))
  else Ret (-1) s.

Definition morecore (turns : nat) (nu : Z) : U Z :=
  let nu := if nu <? 4096 then 4096 else nu in
  p ← sbrk (s32 (nu * sizeof_Header));
  if p =? -1 then mret 0 else
  let hp := p in
  set_size hp nu;;
  free turns (hplus hp 1);;
  gets u_freep.

(** The body of [if(p->s.size >= nunits)], [n] being [p->s.size]: the tail of
    the block [p] *)
Definition take_block (nunits prevp p n : Z) : U Z :=
  p ← (if n =? nunits then
         q ← get_ptr p;
         set_ptr prevp q;;
         mret p
       else
         set_size p (u32 (n - nunits));;
         let p := hplus p (u32 (n - nunits)) in
         set_size p nunits;;
         mret p);
  set_freep prevp;;
  mret (hplus p 1).

(** [for(p = prevp->s.ptr; ; prevp = p, p = p->s.ptr)] *)
Fixpoint malloc_loop (turns : nat) (nunits prevp p : Z) : U Z :=
  n ← get_size p;
  if nunits <=? n then take_block nunits prevp p n
  else
    f ← gets u_freep;
    let next p :=
      match turns with
      | O => nofuel
      | S turns => q ← get_ptr p; malloc_loop turns nunits p q
      end in
    if p =? f then
      p ← morecore turns nunits;
      if p =? 0 then mret 0 else next p
    else next p.

Definition malloc (turns : nat) (nbytes : Z) : U Z :=
  let nunits := u32 (nbytes + sizeof_Header - 1) / sizeof_Header + 1 in
  f ← gets u_freep;
  prevp ← (if f =? 0 then
             set_freep base;;
             set_ptr base base;;
             set_size base 0;;
             mret base
           else mret f);
  p ← get_ptr prevp;
  malloc_loop turns nunits prevp p.

(** ** The ring of free blocks *)

(** A block is its address and its size in headers. *)
Notation block := (Z * Z)%type.

Definition disj (b b' : block) : Prop := b.1 + 8 * b.2 ≤ b'.1 ∨ b'.1 + 8 * b'.2 ≤ b.1.

(** From [p] the links lead through the blocks [l] to [q]. *)
Fixpoint chain (m : gmap Z Z) (p : Z) (l : list block) (q : Z) : Prop :=
  match l with
  | [] => ptr m p = q
  | (a, n) :: l => ptr m p = a ∧ size m a = n ∧ chain m a l q
  end.

(** Blocks in the order of their addresses, no two of them adjacent. *)
Fixpoint sorted (lo : Z) (l : list block) : Prop :=
  match l with
  | [] => True
  | (a, n) :: l => lo < a ∧ 1 ≤ n ∧ sorted (a + 8 * n) l
  end.

Fixpoint top (lo : Z) (l : list block) : Z :=
  match l with
  | [] => lo
  | (a, n) :: l => top (a + 8 * n) l
  end.

Fixpoint lst (p : Z) (l : list block) : Z :=
  match l with
  | [] => p
  | (a, _) :: l => lst a l
  end.

Definition hd_addr (q : Z) (l : list block) : Z := match l with [] => q | (a, _) :: _ => a end.

(** The words of the links and sizes from [p] through [l]. *)
Definition node_word (l : list block) (w : Z) : Prop := ∃ a n, (a, n) ∈ l ∧ (w = a ∨ w = a + 4).

Lemma chain_split m p l1 l2 q :
  chain m p (l1 ++ l2) q ↔ chain m p l1 (hd_addr q l2) ∧ chain m (lst p l1) l2 q.
Proof.
  revert p. induction l1 as [|[a n] l1 IH]; intros p; simpl; [|rewrite IH; tauto].
  destruct l2 as [|[a n] l2]; simpl; tauto.
Qed.

(** A link from [p] can be taken over by [p']. *)
Lemma chain_frame m m' p p' l q :
  chain m p l q → rd m' p' = rd m p → (∀ w, node_word l w → rd m' w = rd m w) → chain m' p' l q.
Proof.
  revert p p'. induction l as [|[a n] l IH]; intros p p'; simpl; unfold ptr, size; [congruence|].
  intros (Hp & Hs & Hc) E1 E2. rewrite E1. split; [done|].
  assert (node_word ((a, n) :: l) a ∧ node_word ((a, n) :: l) (a + 4)) as [H1 H2].
  { split; exists a, n; (split; [by left|auto]). }
  rewrite (E2 _ H2). split; [done|]. apply (IH a); [done|by apply E2|].
  intros w (b & k & Hb & Hw). apply E2. exists b, k. split; [by right|done].
Qed.

Lemma sorted_mono lo lo' l : lo' ≤ lo → sorted lo l → sorted lo' l.
Proof. destruct l as [|[a n] l]; simpl; [done|]. intros ? (? & ? & ?). split; [lia|done]. Qed.

Lemma top_mono lo l : sorted lo l → lo ≤ top lo l.
Proof.
  revert lo. induction l as [|[a n] l IH]; intros lo; simpl; [lia|]. intros (? & ? & H). apply IH in H. lia.
Qed.

Lemma sorted_app lo l1 l2 : sorted lo (l1 ++ l2) ↔ sorted lo l1 ∧ sorted (top lo l1) l2.
Proof. revert lo. induction l1 as [|[a n] l1 IH]; intros lo; simpl; [tauto|]. rewrite IH. tauto. Qed.

Lemma top_app lo l1 l2 : top lo (l1 ++ l2) = top (top lo l1) l2.
Proof. revert lo. induction l1 as [|[a n] l1 IH]; intros lo; simpl; [done|]. apply IH. Qed.

Lemma lst_app p l1 l2 : lst p (l1 ++ l2) = lst (lst p l1) l2.
Proof. revert p. induction l1 as [|[a n] l1 IH]; intros p; simpl; [done|]. apply IH. Qed.

Lemma sorted_elem lo l a n : sorted lo l → (a, n) ∈ l → lo < a ∧ 1 ≤ n ∧ a + 8 * n ≤ top lo l.
Proof.
  revert lo. induction l as [|[b k] l IH]; intros lo; simpl; [intros _ H; by apply elem_of_nil in H|].
  intros (Hb & Hk & Hs) [[= -> ->]|Hin]%elem_of_cons.
  - pose proof (top_mono _ _ Hs). lia.
  - destruct (IH _ Hs Hin) as (? & ? & ?). lia.
Qed.

(** The free blocks below and above an address that is in none of them. *)
Lemma sorted_partition lo l bp :
  sorted lo l → (∀ n, (bp, n) ∉ l) →
  ∃ l1 l2, l = l1 ++ l2 ∧ (∀ a n, (a, n) ∈ l1 → a < bp) ∧ (∀ a n, (a, n) ∈ l2 → bp < a).
Proof.
  revert lo. induction l as [|[b k] l IH]; intros lo Hs Hn; [by exists [], []; split; [|split; set_solver]|].
  pose proof Hs as (Hb & Hk & Hs'). destruct (decide (b < bp)) as [Hlt|Hge].
  - destruct (IH _ Hs') as (l1 & l2 & -> & H1 & H2); [set_solver|].
    exists ((b, k) :: l1), l2. split; [done|]. split; [|done].
    intros a n [[= -> ->]|?]%elem_of_cons; [done|by eapply H1].
  - exists [], ((b, k) :: l). split; [done|]. split; [intros a n H; by apply elem_of_nil in H|].
    assert (b ≠ bp) by (intros ->; apply (Hn k); by left).
    intros a n [[= -> ->]|Hin]%elem_of_cons; [lia|]. destruct (sorted_elem _ _ _ _ Hs' Hin). lia.
Qed.

(** ** The invariant

    [F] are the free blocks and [A] the allocated ones, by address.  [start] is where the
    heap began. *)
Record heap (start : Z) (s : ustate) (F : list block) (A : gmap Z Z) : Prop := MkHeap {
  hp_base : 0 < base ∧ base + 8 ≤ start;
  hp_chain : chain (u_mem s) base F base;
  hp_size0 : size (u_mem s) base = 0;
  hp_sorted : sorted (start - 1) F;
  hp_top : top (start - 1) F ≤ u_brk s;
  hp_brk : start ≤ u_brk s ∧ u_brk s < two32;
  hp_live a n : A !! a = Some n → size (u_mem s) a = n ∧ 1 ≤ n ∧ start ≤ a ∧ a + 8 * n ≤ u_brk s;
  hp_disj a n b : A !! a = Some n → b ∈ F → disj (a, n) b;
  hp_disj' a n a' n' : A !! a = Some n → A !! a' = Some n' → a ≠ a' → disj (a, n) (a', n');
  hp_freep : u_freep s = base ∨ ∃ n, (u_freep s, n) ∈ F;
}.

(** The words of the blocks of [A] keep their values. *)
Definition kept (A : gmap Z Z) (s s' : ustate) : Prop :=
  ∀ a n w, A !! a = Some n → a ≤ w → w + 4 ≤ a + 8 * n → rd (u_mem s') w = rd (u_mem s) w.

(** ** [free] *)

Lemma lst_elem p l : lst p l = p ∨ ∃ n, (lst p l, n) ∈ l.
Proof.
  revert p. induction l as [|[a n] l IH]; intros p; simpl; [by left|]. right.
  destruct (IH a) as [->|[k Hk]]; [exists n; by left|exists k; by right].
Qed.

Lemma chain_ptr m p l q : chain m p l q → ptr m p = hd_addr q l.
Proof. destruct l as [|[a n] l]; simpl; [done|]. tauto. Qed.

Lemma bind_get_ptr {B} p (k : Z → M ustate B) s : (get_ptr p ≫= k) s = k (ptr (u_mem s) p) s.
Proof. done. Qed.

Lemma search_low s bp lo G2 : ∀ turns G1 F2,
  chain (u_mem s) base (G1 ++ G2 ++ F2) base → sorted lo (G1 ++ G2 ++ F2) → base ≤ lo → base < bp →
  (∀ a n, (a, n) ∈ G1 ++ G2 → a < bp) → (∀ a n, (a, n) ∈ F2 → bp < a) → (length G2 ≤ turns)%nat →
  free_search turns bp (lst base G1) s = Ret (lst base (G1 ++ G2)) s.
Proof.
  induction G2 as [|[a n] G2 IH]; intros turns G1 F2 Hc Hs Hlo Hb H1 H2 Ht.
  all: pose proof Hc as [_ Hp]%chain_split; apply chain_ptr in Hp;
    assert (lst base G1 < bp) as Hl by
      (destruct (lst_elem base G1) as [->|[k Hk]]; [done|apply (H1 _ k), elem_of_app; by left]).
  - rewrite app_nil_r. destruct turns; cbn [free_search]; rewrite bind_get_ptr, Hp; destruct F2 as [|[x k] F2]; simpl.
    all: try (specialize (H2 x k ltac:(by left)); destruct (Z.ltb_spec (lst base G1) bp); [|lia];
      destruct (Z.ltb_spec bp x); [done|lia]).
    all: destruct (Z.ltb_spec (lst base G1) bp); [|lia]; destruct (Z.ltb_spec bp base); [lia|]; simpl;
      destruct (Z.leb_spec base (lst base G1)); [done|];
      destruct (lst_elem base G1) as [E|[k Hk]]; [lia|];
      apply sorted_app in Hs as [Hs _]; destruct (sorted_elem _ _ _ _ Hs Hk); lia.
  - destruct turns as [|turns]; [simpl in Ht; lia|]. cbn [free_search]. rewrite bind_get_ptr, Hp. cbn [app hd_addr].
    assert (a < bp) by (apply (H1 a n), elem_of_app; right; by left).
    assert (lst base G1 < a) as Hla.
    { apply sorted_app in Hs as [Hs1 Hs2]. simpl in Hs2. destruct Hs2 as (? & _).
      destruct (lst_elem base G1) as [->|[k Hk]]; [pose proof (top_mono _ _ Hs1); lia|].
      destruct (sorted_elem _ _ _ _ Hs1 Hk) as (? & ? & ?). lia. }
    destruct (Z.ltb_spec bp a); [lia|]. rewrite andb_false_r. destruct (Z.leb_spec a (lst base G1)); [lia|]. cbn [andb].
    specialize (IH turns (G1 ++ [(a, n)]) F2). rewrite lst_app, <-!app_assoc in IH. cbn [lst app] in IH.
    apply IH; [done|done|done|done| |done|simpl in Ht; lia].
    intros b k Hbk. by apply (H1 b k).
Qed.

Lemma search_high s bp lo H : ∀ turns F1 G p n,
  chain (u_mem s) base (F1 ++ G ++ (p, n) :: H) base → sorted lo (F1 ++ G ++ (p, n) :: H) → base ≤ lo → base < bp →
  (∀ a n, (a, n) ∈ F1 → a < bp) → (∀ a k, (a, k) ∈ G ++ (p, n) :: H → bp < a) →
  (length H + length F1 < turns)%nat →
  free_search turns bp p s = Ret (lst base F1) s.
Proof.
  induction H as [|[a k] H IH]; intros turns F1 G p n Hc Hs Hlo Hb H1 H2 Ht;
    (destruct turns as [|turns]; [simpl in Ht; lia|]).
  all: pose proof Hc as Hp; rewrite app_assoc, chain_split in Hp; destruct Hp as [_ (_ & _ & Hp)];
    apply chain_ptr in Hp; cbn [free_search]; rewrite bind_get_ptr, Hp; cbn [hd_addr];
    assert (bp < p) by (apply (H2 p n), elem_of_app; right; by left);
    (destruct (Z.ltb_spec p bp); [lia|]); cbn [andb orb].
  - destruct (Z.ltb_spec bp base); [lia|]. rewrite andb_false_r.
    apply (search_low s bp lo F1 turns [] (G ++ [(p, n)])); [exact Hc|exact Hs|done|done|exact H1|exact H2|simpl in Ht; lia].
  - assert (p < a).
    { rewrite app_assoc in Hs. apply sorted_app in Hs as [_ Hs]. simpl in Hs. lia. }
    destruct (Z.leb_spec a p); [lia|]. cbn [andb].
    apply (IH turns F1 (G ++ [(p, n)]) a k); rewrite <-?app_assoc; [exact Hc|exact Hs|done|done|exact H1|exact H2|simpl in Ht; lia].
Qed.

(** The search ends at the block, or [base], before [bp]. *)
Lemma search_ok start s F A bp turns :
  heap start s F A → base < bp → (∀ n, (bp, n) ∉ F) → (length F < turns)%nat →
  ∃ F1 F2, F = F1 ++ F2 ∧ (∀ a n, (a, n) ∈ F1 → a < bp) ∧ (∀ a n, (a, n) ∈ F2 → bp < a) ∧
    free_search turns bp (u_freep s) s = Ret (lst base F1) s.
Proof.
  intros [Hb Hc _ Hs _ _ _ _ _ Hf] Hbp Hn Ht.
  destruct (sorted_partition _ _ _ Hs Hn) as (F1 & F2 & -> & H1 & H2). exists F1, F2.
  split; [done|]. split; [done|]. split; [done|]. rewrite length_app in Ht.
  assert (∀ G1 G2, F1 = G1 ++ G2 → u_freep s = lst base G1 → free_search turns bp (u_freep s) s = Ret (lst base F1) s) as Hlow.
  { intros G1 G2 -> ->. rewrite <-app_assoc in Hc, Hs. rewrite length_app in Ht.
    apply (search_low s bp (start - 1) G2 turns G1 F2); [exact Hc|exact Hs|lia|done|exact H1|exact H2|lia]. }
  destruct Hf as [Hf|[n [Hin|Hin]%elem_of_app]].
  - by apply (Hlow [] F1).
  - apply list_elem_of_split in Hin as (G1 & G2 & E). apply (Hlow (G1 ++ [(u_freep s, n)]) G2); [by rewrite <-app_assoc|].
    by rewrite lst_app.
  - apply list_elem_of_split in Hin as (G & H & ->).
    apply (search_high s bp (start - 1) H turns F1 G _ n); [exact Hc|exact Hs|lia|done|exact H1|exact H2|].
    rewrite length_app in Ht. simpl in Ht. lia.
Qed.

Definition with_mem (m : gmap Z Z) (s : ustate) : ustate := MkUstate m (u_freep s) (u_brk s).

Fixpoint units (l : list block) : Z := match l with [] => 0 | (_, n) :: l => n + units l end.

Lemma units_app l1 l2 : units (l1 ++ l2) = units l1 + units l2.
Proof. induction l1 as [|[a n] l1 IH]; simpl; lia. Qed.

Lemma rd_insert m a v w : rd (<[a := v]> m) w = if decide (w = a) then v else rd m w.
Proof. unfold rd. case_decide; [subst; by rewrite lookup_insert_eq|by rewrite lookup_insert_ne]. Qed.

Lemma node_word_range lo l w : sorted lo l → node_word l w → lo < w ∧ w + 4 ≤ top lo l.
Proof. intros Hs (a & n & Hin & Hw). destruct (sorted_elem _ _ _ _ Hs Hin) as (? & ? & ?). lia. Qed.

Lemma merge_up_ok s p bp n F2 :
  chain (u_mem s) p F2 base → 0 < base → base < bp → 1 ≤ n → size (u_mem s) bp = n →
  sorted (bp + 8 * n - 1) F2 → top (bp + 8 * n - 1) F2 < two32 → bp + 8 * n < two32 →
  ∃ m1 n' G, merge_up bp (ptr (u_mem s) p) s = Ret tt (with_mem m1 s) ∧
    (∀ w, w ≠ bp → w ≠ bp + 4 → rd m1 w = rd (u_mem s) w) ∧
    size m1 bp = n' ∧ n ≤ n' ∧ chain m1 bp G base ∧ sorted (bp + 8 * n') G ∧
    (bp + 8 * n' ≤ Z.max (bp + 8 * n) (top (bp + 8 * n - 1) F2)) ∧
    top (bp + 8 * n') G ≤ Z.max (bp + 8 * n) (top (bp + 8 * n - 1) F2) ∧
    (∀ b, b ∈ G → b ∈ F2) ∧ n' + units G = n + units F2 ∧ (length G ≤ length F2)%nat ∧
    (∀ b, disj b (bp, n) → (∀ c, c ∈ F2 → disj b c) → 1 ≤ b.2 → disj b (bp, n')).
Proof.
  intros Hc Hb0 Hb Hn Hsz Hs Ht H32. rewrite (chain_ptr _ _ _ _ Hc). unfold merge_up, get_size, get_ptr, set_size, set_ptr, set_word.
  msteps. rewrite Hsz. unfold hplus, sizeof_Header.
  rewrite (u32_small (bp + 8 * n)) by (unfold two32 in *; lia).
  destruct F2 as [|[x k] F2]; cbn [hd_addr].
  - destruct (Z.eqb_spec (bp + 8 * n) base); [lia|]. eexists _, n, []. split; [done|].
    split; [intros w ? ?; rewrite rd_insert; by rewrite decide_False|]. unfold size in *. simpl.
    unfold ptr. rewrite !rd_insert, decide_False, decide_True by lia. simpl in *.
    repeat (split; [done || lia|]). done.
  - destruct Hc as (_ & Hk & Hc). destruct Hs as (Hx & Hk1 & Hs). cbn [top] in Ht |- *.
    pose proof (top_mono _ _ Hs) as Htop.
    destruct (Z.eqb_spec (bp + 8 * n) x) as [Ex|Ex].
    + eexists _, (n + k), F2. split; [reflexivity|]. unfold ptr, size in *. cbn [u_mem with_mem].
      split; [intros w ? ?; rewrite !rd_insert; by rewrite !decide_False|].
      rewrite !rd_insert, decide_False, decide_True, Hk by lia. split; [rewrite u32_small; [lia|unfold two32 in *; lia]|].
      split; [lia|]. split.
      { eapply chain_frame; [exact Hc|rewrite !rd_insert, decide_True, decide_False by lia; done|].
        intros w Hw. destruct (node_word_range _ _ _ Hs Hw). rewrite !rd_insert, !decide_False by lia. done. }
      replace (bp + 8 * (n + k)) with (x + 8 * k) by lia. split; [done|]. split; [lia|]. split; [lia|].
      split; [intros b ?; by right|]. split; [simpl; lia|]. split; [simpl; lia|].
      intros [b1 b2] Hd Hall Hb2. specialize (Hall (x, k) ltac:(by left)). unfold disj in *. simpl in *. lia.
    + eexists _, n, ((x, k) :: F2). split; [reflexivity|]. unfold ptr, size in *. cbn [u_mem with_mem].
      split; [intros w ? ?; rewrite !rd_insert; by rewrite !decide_False|].
      rewrite rd_insert, decide_False by lia. split; [done|]. split; [lia|]. split.
      { simpl. unfold ptr, size. rewrite !rd_insert, decide_True, decide_False by lia. split; [done|]. split; [done|].
        eapply chain_frame; [exact Hc|rewrite rd_insert, decide_False by lia; done|].
        intros w Hw. destruct (node_word_range _ _ _ Hs Hw). rewrite rd_insert, decide_False by lia. done. }
      split; [simpl; split; [lia|done]|]. split; [lia|]. split; [simpl; lia|].
      split; [done|]. split; [simpl; lia|]. split; [done|]. done.
Qed.

Lemma merge_down_ok s lo F1 bp n' G X :
  chain (u_mem s) base F1 X → size (u_mem s) base = 0 → 0 < base → base + 8 ≤ lo + 1 → base + 8 ≤ bp →
  sorted lo F1 → top lo F1 ≤ bp → lo < bp → 1 ≤ n' → size (u_mem s) bp = n' → chain (u_mem s) bp G base →
  sorted (bp + 8 * n') G → bp + 8 * n' < two32 →
  ∃ m2 F', merge_down (lst base F1) bp s = Ret tt (with_mem m2 s) ∧
    (∀ w, w ≠ lst base F1 → w ≠ lst base F1 + 4 → rd m2 w = rd (u_mem s) w) ∧
    chain m2 base F' base ∧ size m2 base = 0 ∧ sorted lo F' ∧ top lo F' = top (bp + 8 * n') G ∧
    units F' = units F1 + n' + units G ∧ (length F' ≤ length F1 + S (length G))%nat ∧
    (lst base F1 = base ∨ ∃ k, (lst base F1, k) ∈ F') ∧
    (∃ b, b ∈ F' ∧ b.1 ≤ bp ∧ bp + 8 * n' ≤ b.1 + 8 * b.2) ∧
    (∀ b, disj b (bp, n') → (∀ c, c ∈ F1 ++ G → disj b c) → 1 ≤ b.2 → ∀ c, c ∈ F' → disj b c).
Proof.
  intros Hc Hz Hb0 Hblo Hbb Hs Ht Hlb Hn Hsz HcG HsG H32.
  unfold merge_down, get_size, get_ptr, set_size, set_ptr, set_word. msteps. unfold hplus, sizeof_Header.
  destruct F1 as [|[pd k] F1 _] using rev_ind.
  - cbn [lst]. rewrite Hz, u32_small by (unfold two32 in *; lia). destruct (Z.eqb_spec (base + 8 * 0) bp); [lia|].
    eexists _, ((bp, n') :: G). split; [reflexivity|]. unfold ptr, size in *. cbn [u_mem with_mem].
    split; [intros w ? ?; by rewrite rd_insert, decide_False|]. simpl. unfold ptr, size.
    rewrite !rd_insert, decide_True, !decide_False by lia.
    split; [split; [done|]; split; [done|]; eapply chain_frame; [exact HcG|by rewrite rd_insert, decide_False by lia|]|].
    { intros w Hw. destruct (node_word_range _ _ _ HsG Hw). rewrite rd_insert, decide_False by lia. done. }
    split; [done|]. split; [done|]. split; [done|]. split; [lia|]. split; [lia|]. split; [by left|].
    split; [exists (bp, n'); split; [by left|simpl; lia]|].
    intros b Hd Hall _ c [->|Hin]%elem_of_cons; [done|by apply Hall].
  - rewrite lst_app. cbn [lst]. pose proof Hc as Hc'. rewrite chain_split in Hc. cbn [hd_addr] in Hc. destruct Hc as (Hc1 & Hp1 & Hk & Hp2).
    simpl in Hp2. rewrite sorted_app in Hs. destruct Hs as (Hs1 & Hs2). simpl in Hs2. destruct Hs2 as (Hpd & Hk1 & _).
    rewrite top_app in Ht. simpl in Ht. pose proof (top_mono _ _ Hs1) as Htop.
    rewrite Hk, u32_small by (unfold two32 in *; lia).
    assert (∀ m2, (∀ w, w ≠ pd → w ≠ pd + 4 → rd m2 w = rd (u_mem s) w) → chain m2 base F1 pd ∧ size m2 base = 0) as Hframe.
    { intros m2 Hm. split; [|unfold size; rewrite Hm by lia; done]. eapply chain_frame; [exact Hc1|apply Hm; lia|].
      intros w Hw. destruct (node_word_range _ _ _ Hs1 Hw). apply Hm; lia. }
    destruct (Z.eqb_spec (pd + 8 * k) bp) as [E|E].
    + eexists _, (F1 ++ (pd, k + n') :: G). split; [reflexivity|]. cbn [u_mem with_mem].
      match goal with |- (∀ w, _ → _ → rd ?m w = _) ∧ _ => set (m2 := m) end.
      assert (∀ w, w ≠ pd → w ≠ pd + 4 → rd m2 w = rd (u_mem s) w) as Hm.
      { intros w ? ?. unfold m2. by rewrite !rd_insert, !decide_False. }
      assert (rd m2 pd = rd (u_mem s) bp ∧ rd m2 (pd + 4) = k + n') as [Hr1 Hr2].
      { unfold m2, ptr, size in *. rewrite !rd_insert, Hsz.
        rewrite (decide_True (P := pd = pd)), (decide_False (P := bp = pd + 4)), (decide_False (P := pd + 4 = pd)), decide_True by lia.
        split; [done|]. apply u32_small. unfold two32 in *. lia. }
      destruct (Hframe m2 Hm) as [Hc2 Hz2].
      split; [done|]. split.
      { rewrite chain_split. cbn [hd_addr]. split; [done|]. simpl. split; [|split; [done|]].
        - apply (chain_frame (u_mem s) m2 (lst base F1) (lst base F1)) with (l := []) (q := pd); simpl; [by apply Hp1| |].
          + apply Hm; destruct (lst_elem base F1) as [->|[j Hj]]; try lia; destruct (sorted_elem _ _ _ _ Hs1 Hj); lia.
          + intros w (a & j & Hin & _). by apply elem_of_nil in Hin.
        - eapply chain_frame; [exact HcG|done|]. intros w Hw. destruct (node_word_range _ _ _ HsG Hw). apply Hm; lia. }
      split; [done|]. replace (bp + 8 * n') with (pd + 8 * (k + n')) in * by lia.
      split; [rewrite sorted_app; simpl; split; [done|]; split; [lia|]; split; [lia|done]|].
      split; [by rewrite top_app|]. split; [rewrite !units_app; simpl; lia|]. split; [rewrite !length_app; simpl; lia|].
      split; [right; exists (k + n'); apply elem_of_app; right; by left|].
      split; [exists (pd, k + n'); split; [apply elem_of_app; right; by left|simpl; lia]|].
      intros [b1 b2] Hd Hall Hb2 c [Hin|[->|Hin]%elem_of_cons]%elem_of_app.
      * apply Hall. rewrite !elem_of_app. auto.
      * specialize (Hall (pd, k)). rewrite !elem_of_app in Hall. specialize (Hall ltac:(left; right; by left)).
        unfold disj in *. simpl in *. lia.
      * apply Hall. rewrite !elem_of_app. auto.
    + eexists _, ((F1 ++ [(pd, k)]) ++ (bp, n') :: G). split; [reflexivity|]. cbn [u_mem with_mem].
      match goal with |- (∀ w, _ → _ → rd ?m w = _) ∧ _ => set (m2 := m) end.
      assert (∀ w, w ≠ pd → rd m2 w = rd (u_mem s) w) as Hm by (intros w ?; unfold m2; by rewrite rd_insert, decide_False).
      assert (rd m2 pd = bp) as Hr by (unfold m2; by rewrite rd_insert, decide_True).
      destruct (Hframe m2) as [Hc2 Hz2]; [auto|].
      split; [auto|]. split.
      { rewrite <-app_assoc. rewrite chain_split. cbn [hd_addr app]. split; [done|]. simpl. unfold ptr, size in *.
        split; [|split; [by rewrite Hm by lia|]; split; [done|]; split; [by rewrite Hm by lia|]].
        - rewrite Hm; [done|]. destruct (lst_elem base F1) as [->|[j Hj]]; [lia|]. destruct (sorted_elem _ _ _ _ Hs1 Hj); lia.
        - eapply chain_frame; [exact HcG|apply Hm; lia|]. intros w Hw. destruct (node_word_range _ _ _ HsG Hw). apply Hm; lia. }
      split; [done|].
      split; [rewrite !sorted_app, top_app; simpl; repeat (split; [done || lia|]); done|].
      split; [by rewrite !top_app|]. split; [rewrite !units_app; simpl; lia|]. split; [rewrite !length_app; simpl; lia|].
      split; [right; exists k; rewrite !elem_of_app; left; right; by left|].
      split; [exists (bp, n'); split; [rewrite !elem_of_app; right; by left|simpl; lia]|].
      intros b Hd Hall Hb2 c [Hin|[->|Hin]%elem_of_cons]%elem_of_app; [|done|]; apply Hall; rewrite elem_of_app; auto.
Qed.

(** The free blocks below [bp] end before it, those above start after it. *)
Lemma around start s F1 F2 A bp n :
  heap start s (F1 ++ F2) A → A !! bp = Some n →
  (∀ a k, (a, k) ∈ F1 → a < bp) → (∀ a k, (a, k) ∈ F2 → bp < a) →
  top (start - 1) F1 ≤ bp ∧ sorted (bp + 8 * n - 1) F2 ∧ top (bp + 8 * n - 1) F2 ≤ u_brk s.
Proof.
  intros [_ _ _ Hs Ht Hbrk Hl Hd _ _] HA H1 H2. destruct (Hl _ _ HA) as (_ & Hn & Hst & Hend).
  rewrite sorted_app in Hs. destruct Hs as [Hs1 Hs2]. rewrite top_app in Ht. split.
  - destruct F1 as [|[a k] F1 _] using rev_ind; [simpl; lia|]. rewrite top_app. simpl.
    specialize (Hd bp n (a, k) HA). rewrite !elem_of_app in Hd. specialize (Hd ltac:(left; right; by left)).
    specialize (H1 a k). rewrite elem_of_app in H1. specialize (H1 ltac:(right; by left)).
    rewrite sorted_app in Hs1. destruct Hs1 as (_ & _ & Hk & _). unfold disj in Hd. simpl in Hd. lia.
  - destruct F2 as [|[a k] F2]; [simpl; lia|]. simpl in Hs2, Ht |- *. destruct Hs2 as (_ & Hk & Hs2).
    specialize (Hd bp n (a, k) HA). rewrite elem_of_app in Hd. specialize (Hd ltac:(right; by left)).
    specialize (H2 a k ltac:(by left)). unfold disj in Hd. simpl in Hd.
    split; [split; [lia|done]|]. lia.
Qed.

Lemma free_ok start s F A bp n turns :
  heap start s F A → A !! bp = Some n → (length F < turns)%nat →
  ∃ s' F', free turns (bp + 8) s = Ret tt s' ∧ heap start s' F' (delete bp A) ∧ kept (delete bp A) s s' ∧
    u_brk s' = u_brk s ∧ units F' = units F + n ∧ (length F' ≤ S (length F))%nat ∧
    ∃ b, b ∈ F' ∧ n ≤ b.2.
Proof.
  intros Hh HA Ht. pose proof Hh as [[Hb0 Hb] Hc Hz Hs Htop Hbrk Hl Hd Hd' Hf].
  destruct (Hl _ _ HA) as (Hsz & Hn & Hst & Hend).
  destruct (search_ok start s F A bp turns Hh) as (F1 & F2 & -> & H1 & H2 & Hrun); [lia| |done|].
  { intros k Hin. specialize (Hd _ _ _ HA Hin). destruct (sorted_elem _ _ _ _ Hs Hin) as (_ & ? & _).
    unfold disj in Hd. simpl in Hd. lia. }
  destruct (around start s F1 F2 A bp n Hh HA H1 H2) as (Ht1 & Hs2 & Ht2).
  rewrite chain_split in Hc. destruct Hc as [Hc1 Hc2]. rewrite sorted_app in Hs. destruct Hs as [Hs1 _].
  destruct (merge_up_ok s (lst base F1) bp n F2) as (m1 & n' & G & Hrun1 & Hm1 & Hsz1 & Hnn & HcG & HsG & He & HtG & HG & Hu1 & Hlen1 & Hdj1);
    [done|done|lia|done|done|done|lia|lia|].
  assert (∀ w, node_word F1 w → w < bp) as Hw1.
  { intros w Hw. destruct (node_word_range _ _ _ Hs1 Hw). lia. }
  destruct (merge_down_ok (with_mem m1 s) (start - 1) F1 bp n' G (hd_addr base F2))
    as (m2 & F' & Hrun2 & Hm2 & Hc' & Hz' & Hs' & Ht' & Hu2 & Hlen2 & Hl' & Hbig & Hdj2); try done; cbn [u_mem with_mem]; try lia.
  { eapply chain_frame; [exact Hc1|apply Hm1; lia|]. intros w Hw. specialize (Hw1 w Hw). apply Hm1; lia. }
  { unfold size. rewrite Hm1 by lia. done. }
  assert (∀ a k w, delete bp A !! a = Some k → a ≤ w → w + 4 ≤ a + 8 * k → rd m2 w = rd (u_mem s) w) as Hkept.
  { intros a k w [Hne Hak]%lookup_delete_Some Hlo Hhi. destruct (Hl _ _ Hak) as (_ & Hk1 & Hsa & _).
    pose proof (Hd' _ _ _ _ Hak HA ltac:(congruence)) as Hd1. unfold disj in Hd1. simpl in Hd1.
    assert (w ≠ lst base F1 ∧ w ≠ lst base F1 + 4) as [Hw3 Hw4].
    { destruct (lst_elem base F1) as [E|[j Hj]]; [rewrite ?E; lia|].
      specialize (Hd _ _ (lst base F1, j) Hak ltac:(apply elem_of_app; by left)). unfold disj in Hd. simpl in Hd.
      destruct (sorted_elem _ _ _ _ Hs1 Hj) as (? & ? & ?). lia. }
    rewrite Hm2 by done. apply Hm1; lia. }
  eexists (MkUstate m2 (lst base F1) (u_brk s)), F'. split.
  { unfold free. replace (u32 (bp + 8 - sizeof_Header)) with bp by (unfold sizeof_Header; rewrite u32_small by (unfold two32 in *; lia); lia).
    rewrite bind_gets. mrun Hrun. rewrite bind_get_ptr. mrun Hrun1. mrun Hrun2. done. }
  split; [|split; [exact Hkept|split; [done|split; [rewrite units_app; lia|split; [rewrite length_app; lia|]]]]].
  2: { destruct Hbig as (b & Hb1 & Hb2 & Hb3). exists b. split; [done|]. lia. }
  split; cbn [u_mem u_freep u_brk]; try done.
  - lia.
  - intros a k Hak'. pose proof Hak' as [Hne Hak]%lookup_delete_Some. destruct (Hl _ _ Hak) as (Hk0 & Hk1 & ? & ?).
    split; [|done]. unfold size. rewrite (Hkept a k) by (done || lia). done.
  - intros a k b [Hne Hak]%lookup_delete_Some. destruct (Hl _ _ Hak) as (_ & ? & _).
    apply Hdj2; [|intros c Hin|done].
    + apply Hdj1; [by apply (Hd' _ _ _ _ Hak HA)|intros c Hin; apply (Hd _ _ _ Hak), elem_of_app; by right|done].
    + apply (Hd _ _ _ Hak). rewrite elem_of_app in Hin |- *. destruct Hin as [?|?]; [by left|right; by apply HG].
  - intros a k a' k' [? ?]%lookup_delete_Some [? ?]%lookup_delete_Some. by apply Hd'.
Qed.

(** ** [malloc] *)

Lemma chain_elem m p l q a n : chain m p l q → (a, n) ∈ l → size m a = n.
Proof.
  revert p. induction l as [|[b k] l IH]; intros p; simpl; [intros _ H; by apply elem_of_nil in H|].
  intros (? & ? & Hc) [[= -> ->]|Hin]%elem_of_cons; [done|by eapply IH].
Qed.

(** A block cut out of the free block [x]. *)
Lemma heap_take start s H1 H2 A x n m F' y k :
  heap start s (H1 ++ (x, n) :: H2) A → 1 ≤ k → x ≤ y → y + 8 * k ≤ x + 8 * n →
  chain m base F' base → size m base = 0 → sorted (start - 1) F' → top (start - 1) F' ≤ u_brk s →
  size m y = k → (∀ b, b ∈ F' → b ∈ H1 ∨ b ∈ H2 ∨ b.1 = x ∧ 1 ≤ b.2 ∧ x + 8 * b.2 ≤ y) →
  (lst base H1 = base ∨ ∃ j, (lst base H1, j) ∈ F') →
  (∀ w, ¬ (x ≤ w ∧ w + 4 ≤ x + 8 * n) → w ≠ lst base H1 → rd m w = rd (u_mem s) w) →
  heap start (MkUstate m (lst base H1) (u_brk s)) F' (<[y := k]> A) ∧ A !! y = None ∧
  kept A s (MkUstate m (lst base H1) (u_brk s)).
Proof.
  intros [Hb Hc Hz Hs Ht Hbrk Hl Hd Hd' Hf] Hk Hxy Hyx Hc' Hz' Hs' Ht' Hsz HF Hfp Hm.
  pose proof Hs as Hs0. rewrite sorted_app in Hs0. destruct Hs0 as (Hs1 & Hx1 & Hn & Hs2).
  rewrite top_app in Ht. simpl in Ht. pose proof (top_mono _ _ Hs1) as Ht1. pose proof (top_mono _ _ Hs2) as Ht2.
  assert (∀ a j, A !! a = Some j → disj (a, j) (x, n)) as Hax by (intros a j Ha; apply Hd; [done|apply elem_of_app; right; by left]).
  assert (∀ a j w, A !! a = Some j → a ≤ w → w + 4 ≤ a + 8 * j → rd m w = rd (u_mem s) w) as Hkept.
  { intros a j w Ha H3 H4. destruct (Hl _ _ Ha) as (_ & ? & ? & _). specialize (Hax _ _ Ha). unfold disj in Hax. simpl in Hax.
    apply Hm; [lia|]. destruct (lst_elem base H1) as [->|[i Hi]]; [lia|]. intros ->.
    specialize (Hd _ _ (lst base H1, i) Ha ltac:(apply elem_of_app; by left)). unfold disj in Hd. simpl in Hd.
    destruct (sorted_elem _ _ _ _ Hs1 Hi). lia. }
  assert (∀ a j, A !! a = Some j → disj (a, j) (y, k)) as Hay.
  { intros a j Ha. specialize (Hax _ _ Ha). unfold disj in *. simpl in *. lia. }
  assert (∀ b, b ∈ F' → disj (y, k) b) as Hby.
  { intros [b1 b2] Hin. unfold disj. simpl. destruct (HF _ Hin) as [Hi|[Hi|Hi]]; simpl in *; [| |lia].
    - destruct (sorted_elem _ _ _ _ Hs1 Hi). lia.
    - destruct (sorted_elem _ _ _ _ Hs2 Hi). lia. }
  assert (A !! y = None) as Hy.
  { destruct (A !! y) as [j|] eqn:E; [|done]. specialize (Hay _ _ E). destruct (Hl _ _ E) as (_ & ? & _).
    unfold disj in Hay. simpl in Hay. lia. }
  split; [|split; [done|exact Hkept]]. split; cbn [u_mem u_freep u_brk]; try done.
  - intros a j. rewrite lookup_insert_Some. intros [[<- <-]|[Hne Ha]]; [lia|].
    destruct (Hl _ _ Ha) as (E & H3 & ? & ?). split; [|done]. unfold size. rewrite (Hkept a j) by (done || lia). done.
  - intros a j b. rewrite lookup_insert_Some. intros [[<- <-]|[Hne Ha]] Hin; [by apply Hby|].
    destruct (HF _ Hin) as [Hi|[Hi|Hi]]; [apply Hd; [done|apply elem_of_app; by left]|..].
    + apply Hd; [done|]. apply elem_of_app. right. by right.
    + specialize (Hax _ _ Ha). destruct b as [b1 b2]. unfold disj in *. simpl in *. lia.
  - intros a j a' j'. rewrite !lookup_insert_Some. intros [[<- <-]|[Hne Ha]] [[<- <-]|[Hne' Ha']] Hneq; [done| | |by apply Hd'].
    + specialize (Hay _ _ Ha'). unfold disj in *. tauto.
    + by apply Hay.
Qed.

Lemma take_block_ok start s H1 H2 A x n nunits :
  heap start s (H1 ++ (x, n) :: H2) A → 1 ≤ nunits ≤ n →
  ∃ s' F' y, take_block nunits (lst base H1) x n s = Ret (y + 8) s' ∧
    heap start s' F' (<[y := nunits]> A) ∧ A !! y = None ∧ kept A s s' ∧ u_brk s' = u_brk s ∧
    units F' + nunits = units (H1 ++ (x, n) :: H2).
Proof.
  intros Hh Hn. pose proof Hh as [Hb Hc Hz Hs Ht Hbrk _ _ _ _].
  pose proof Hc as Hc0. rewrite chain_split in Hc0. cbn [hd_addr] in Hc0. destruct Hc0 as (Hc1 & Hp1 & Hsz & Hc2).
  pose proof Hs as Hs0. rewrite sorted_app in Hs0. destruct Hs0 as (Hs1 & Hx1 & Hn1 & Hs2).
  rewrite top_app in Ht. simpl in Ht. pose proof (top_mono _ _ Hs1) as Ht1. pose proof (top_mono _ _ Hs2) as Ht2.
  assert (lst base H1 < x) as Hlx.
  { destruct (lst_elem base H1) as [->|[i Hi]]; [lia|]. destruct (sorted_elem _ _ _ _ Hs1 Hi). lia. }
  assert (lst base H1 = base ∨ start ≤ lst base H1) as Hlb.
  { destruct (lst_elem base H1) as [->|[i Hi]]; [by left|]. destruct (sorted_elem _ _ _ _ Hs1 Hi). lia. }
  unfold take_block, get_ptr, set_ptr, set_size, set_word, set_freep, hplus, sizeof_Header.
  destruct (Z.eqb_spec n nunits) as [->|Hne]; msteps; cbn [u_mem u_brk u_freep].
  - eexists _, (H1 ++ H2), x. split; [rewrite u32_small by (unfold two32 in *; lia); by replace (x + 8 * 1) with (x + 8) by lia|].
    set (m := <[lst base H1 := ptr (u_mem s) x]> (u_mem s)).
    assert (∀ w, w ≠ lst base H1 → rd m w = rd (u_mem s) w) as Hm by (intros w ?; unfold m; by rewrite rd_insert, decide_False).
    assert (rd m (lst base H1) = rd (u_mem s) x) as Hml by (unfold m; by rewrite rd_insert, decide_True).
    destruct (heap_take start s H1 H2 A x nunits m (H1 ++ H2) x nunits Hh) as (Hh' & HA & Hk); try done; try lia.
    + destruct H1 as [|[pd k] H1 _] using rev_ind.
      { simpl in *. eapply chain_frame; [exact Hc2|exact Hml|].
        intros w Hw. destruct (node_word_range _ _ _ Hs2 Hw). apply Hm. lia. }
      rewrite lst_app in *. cbn [lst] in *. rewrite <-app_assoc, chain_split in Hc |- *. cbn [hd_addr app] in Hc |- *.
      destruct Hc as (Hc3 & Hp3 & Hk3 & _). rewrite sorted_app in Hs1. destruct Hs1 as (Hs1 & Hpd & Hk4 & _).
      pose proof (top_mono _ _ Hs1) as Ht3.
      split; [|split; [|split]].
      * eapply chain_frame; [exact Hc3|apply Hm; lia|]. intros w Hw. destruct (node_word_range _ _ _ Hs1 Hw). apply Hm. lia.
      * unfold ptr in *. rewrite Hm; [done|]. destruct (lst_elem base H1) as [->|[i Hi]]; [lia|].
        destruct (sorted_elem _ _ _ _ Hs1 Hi). lia.
      * unfold size in *. by rewrite Hm by lia.
      * eapply chain_frame; [exact Hc2|exact Hml|].
        intros w Hw. destruct (node_word_range _ _ _ Hs2 Hw). apply Hm. lia.
    + unfold size in *. rewrite Hm by lia. done.
    + rewrite sorted_app. split; [done|]. eapply sorted_mono; [|exact Hs2]. lia.
    + rewrite top_app. destruct H2 as [|[b k] H2]; simpl in *; lia.
    + unfold size in *. rewrite Hm by lia. done.
    + intros b [?|?]%elem_of_app; auto.
    + destruct (lst_elem base H1) as [?|[i Hi]]; [by left|right]. exists i. apply elem_of_app. by left.
    + intros w ? ?. by apply Hm.
    + split; [exact Hh'|]. split; [done|]. split; [exact Hk|]. split; [done|]. rewrite !units_app. simpl. lia.
  - rewrite (u32_small (n - nunits)), (u32_small (x + 8 * (n - nunits))), (u32_small (x + 8 * (n - nunits) + _))
      by (unfold two32 in *; lia).
    set (y := x + 8 * (n - nunits)) in *.
    eexists _, (H1 ++ (x, n - nunits) :: H2), y. split; [by replace (y + 8 * 1) with (y + 8) by lia|].
    set (m := <[y + 4 := nunits]> (<[x + 4 := n - nunits]> (u_mem s))).
    assert (∀ w, w ≠ y + 4 → w ≠ x + 4 → rd m w = rd (u_mem s) w) as Hm by (intros w ? ?; unfold m; by rewrite !rd_insert, !decide_False).
    destruct (heap_take start s H1 H2 A x n m (H1 ++ (x, n - nunits) :: H2) y nunits Hh) as (Hh' & HA & Hk); try done; try lia.
    + rewrite chain_split. cbn [hd_addr]. split; [|split; [|split]].
      * eapply chain_frame; [exact Hc1|apply Hm; lia|]. intros w Hw. destruct (node_word_range _ _ _ Hs1 Hw). apply Hm; lia.
      * unfold ptr in *. rewrite Hm by lia. done.
      * unfold size, m. rewrite rd_insert, decide_False by lia. by rewrite rd_insert, decide_True.
      * eapply chain_frame; [exact Hc2|apply Hm; lia|]. intros w Hw. destruct (node_word_range _ _ _ Hs2 Hw). apply Hm; lia.
    + unfold size in *. rewrite Hm by lia. done.
    + rewrite sorted_app. simpl. split; [done|]. split; [lia|]. split; [lia|]. eapply sorted_mono; [|exact Hs2]. lia.
    + rewrite top_app. simpl. destruct H2 as [|[b k] H2]; simpl in *; lia.
    + unfold size, m. by rewrite rd_insert, decide_True.
    + intros b [?|[->|?]%elem_of_cons]%elem_of_app; [auto| |auto]. right. right. simpl. lia.
    + destruct (lst_elem base H1) as [?|[i Hi]]; [by left|right]. exists i. apply elem_of_app. by left.
    + intros w ? ?. apply Hm; lia.
    + split; [exact Hh'|]. split; [done|]. split; [exact Hk|]. split; [done|]. rewrite !units_app. simpl. lia.
Qed.

(** ** Walking the ring *)

(** The nodes of the ring by number, [base] being number 0. *)
Definition node (F : list block) (i : nat) : Z := lst base (take i F).
Definition nxt (F : list block) (i : nat) : nat := if decide (i = length F) then 0 else S i.

(** The number of steps from node [i] to node [j]. *)
Definition dist (F : list block) (i j : nat) : nat := if decide (i ≤ j)%nat then j - i else S (length F) - i + j.

Lemma node_block F i a n : F !! i = Some (a, n) → node F (S i) = a.
Proof. intros H. unfold node. erewrite take_S_r by done. by rewrite lst_app. Qed.

Lemma ring_ptr m F i : chain m base F base → (i ≤ length F)%nat → ptr m (node F i) = node F (nxt F i).
Proof.
  intros Hc Hi. rewrite <-(take_drop i F), chain_split in Hc. destruct Hc as [_ Hc]. apply chain_ptr in Hc.
  unfold node at 1. rewrite Hc. unfold nxt. case_decide as E.
  - by rewrite drop_ge by lia.
  - destruct (lookup_lt_is_Some_2 F i) as [[a n] Ha]; [lia|]. rewrite (drop_S _ (a, n) i Ha). by rewrite (node_block F i a n).
Qed.

Lemma node_inj lo F i j : base ≤ lo → sorted lo F → (i ≤ length F)%nat → (j ≤ length F)%nat → node F i = node F j → i = j.
Proof.
  intros Hlo Hs. assert (∀ i j, (i < j)%nat → (j ≤ length F)%nat → node F i < node F j) as Hlt.
  { clear i j. intros i j Hij Hj. destruct j as [|j]; [lia|].
    destruct (lookup_lt_is_Some_2 F j) as [[a n] Ha]; [lia|]. rewrite (node_block F j a n) by done.
    rewrite <-(take_drop_middle F j (a, n)) in Hs by done. apply sorted_app in Hs as [Hs1 (Hs2 & _)].
    unfold node. assert (take i F = take i (take j F)) as -> by (rewrite take_take; f_equal; lia).
    rewrite <-(take_drop i (take j F)), sorted_app, top_app in *.
    destruct Hs1 as [Hs1 Hs3]. pose proof (top_mono _ _ Hs3).
    rewrite take_app_le, take_take, Nat.min_id by (rewrite length_take, length_take; lia).
    destruct (lst_elem base (take i (take j F))) as [->|[k Hk]]; [pose proof (top_mono _ _ Hs1); lia|].
    destruct (sorted_elem _ _ _ _ Hs1 Hk). lia. }
  intros Hi Hj E. destruct (Nat.lt_trichotomy i j) as [H|[?|H]]; [|done|]; specialize (Hlt _ _ H); lia.
Qed.

Lemma freep_node start s F A : heap start s F A → ∃ j, (j ≤ length F)%nat ∧ u_freep s = node F j.
Proof.
  intros [_ _ _ _ _ _ _ _ _ [->|[n Hin]]]; [by exists 0%nat; split; [lia|]|].
  apply list_elem_of_lookup in Hin as [i Hi]. exists (S i). split; [by apply lookup_lt_Some in Hi|].
  symmetry. by eapply node_block.
Qed.

Lemma bind_get_size {B} p (k : Z → M ustate B) s : (get_size p ≫= k) s = k (size (u_mem s) p) s.
Proof. done. Qed.

(** What [malloc] gives: a new block [y] of [nunits] headers. *)
Definition allocated (start : Z) (s : ustate) (A : gmap Z Z) (nunits : Z) (o : outcome ustate Z) : Prop :=
  ∃ s' F' y, o = Ret (y + 8) s' ∧ heap start s' F' (<[y := nunits]> A) ∧ A !! y = None ∧ kept A s s'.

Lemma loop_found start s F A nunits j b x n : ∀ d turns i,
  heap start s F A → 1 ≤ nunits → u_freep s = node F j → (j ≤ length F)%nat →
  F !! b = Some (x, n) → nunits ≤ n → (i ≤ length F)%nat →
  dist F (nxt F i) (S b) = d → (d ≤ dist F (nxt F i) j)%nat → (d ≤ turns)%nat →
  allocated start s A nunits (malloc_loop turns nunits (node F i) (node F (nxt F i)) s).
Proof.
  induction d as [d IH] using lt_wf_ind. intros turns i Hh Hn Hj Hjl Hb Hx Hi Hd Hdj Ht.
  pose proof Hh as [Hb0 Hc Hz Hs _ _ _ _ _ _]. set (k := nxt F i) in *.
  assert (k ≤ length F)%nat as Hk by (unfold k, nxt; case_decide; lia).
  assert (malloc_loop turns nunits (node F i) (node F k) s =
    if nunits <=? size (u_mem s) (node F k) then take_block nunits (node F i) (node F k) (size (u_mem s) (node F k)) s
    else (f ← gets u_freep;
      let next p := match turns with O => nofuel | S turns => q ← get_ptr p; malloc_loop turns nunits p q end in
      if node F k =? f then p ← morecore turns nunits; if p =? 0 then mret 0 else next p else next (node F k)) s) as ->.
  { destruct turns; cbn [malloc_loop]; rewrite bind_get_size; by destruct (nunits <=? _). }
  destruct (Z.leb_spec nunits (size (u_mem s) (node F k))) as [Hle|Hgt].
  - destruct k as [|k'] eqn:Ek; [unfold node in Hle; simpl in Hle; lia|].
    assert (i = k') as -> by (unfold k, nxt in Ek; case_decide; lia).
    destruct (lookup_lt_is_Some_2 F k') as [[a m] Ha]; [lia|]. rewrite (node_block F k' a m Ha) in Hle |- *.
    pose proof (take_drop_middle F k' (a, m) Ha) as EF.
    assert (size (u_mem s) a = m) as Em by (eapply chain_elem; [exact Hc|]; by eapply list_elem_of_lookup_2).
    rewrite Em in Hle |- *. unfold node.
    destruct (take_block_ok start s (take k' F) (drop (S k') F) A a m nunits) as (s' & F' & y & Hrun & Hh' & Hy & Hkept & _);
      [by rewrite EF|lia|]. exists s', F', y. done.
  - destruct (decide (k = S b)) as [E|Hkb].
    { exfalso. rewrite E in Hgt. rewrite (node_block F b x n Hb) in Hgt.
      rewrite (chain_elem _ _ _ _ x n Hc) in Hgt; [lia|]. by eapply list_elem_of_lookup_2. }
    apply lookup_lt_Some in Hb as Hbl.
    rewrite bind_gets. cbv zeta. destruct (Z.eqb_spec (node F k) (u_freep s)) as [E|_].
    { exfalso. rewrite Hj in E. apply (node_inj (start - 1)) in E; [|lia|done..]. subst j.
      unfold dist in Hd, Hdj. repeat case_decide; lia. }
    assert (k ≠ j) as Hkj by (intros ->; unfold dist in Hd, Hdj; repeat case_decide; lia).
    destruct turns as [|turns]; [unfold dist in Hd; repeat case_decide; lia|].
    rewrite bind_get_ptr, (ring_ptr _ F k) by done.
    apply (IH (dist F (nxt F k) (S b))); try done; unfold dist, nxt in *; repeat case_decide; lia.
Qed.

(** ** Growing the heap *)

(** The kernel does not grow a process into the addresses it keeps for itself. *)
Definition grants_ok : Prop := ∀ b n, grants b n = true → b + n < 0x80000000.

Lemma morecore_ok start s F A nunits turns :
  grants_ok → heap start s F A → 1 ≤ nunits → nunits * 8 < 2147483648 → (length F < turns)%nat →
  (morecore turns nunits s = Ret 0 s) ∨
  ∃ s' F' b, morecore turns nunits s = Ret (u_freep s') s' ∧ heap start s' F' A ∧ kept A s s' ∧ b ∈ F' ∧ nunits ≤ b.2 ∧
    (length F' ≤ S (length F))%nat.
Proof.
  intros Hg Hh Hn Hn8 Ht. pose proof Hh as [Hb Hc Hz Hs Htop Hbrk Hl Hd Hd' Hf]. unfold morecore.
  set (nu := if nunits <? 4096 then 4096 else nunits).
  assert (nunits ≤ nu ∧ 1 ≤ nu ∧ nu * 8 < 2147483648) as (Hnu & Hnu1 & Hnu8) by (unfold nu; destruct (Z.ltb_spec nunits 4096); lia).
  unfold sizeof_Header. assert (s32 (nu * 8) = nu * 8) as ->.
  { rewrite <-(s32_u32 (nu * 8)) at 2 by lia. by rewrite u32_small by (unfold two32; lia). }
  destruct (grants (u_brk s) (nu * 8)) eqn:Eg.
  2: { left. assert (sbrk (nu * 8) s = Ret (-1) s) as Hsb by (unfold sbrk; by rewrite Eg). by mrun Hsb. }
  right. specialize (Hg _ _ Eg).
  assert (sbrk (nu * 8) s = Ret (u_brk s) (MkUstate (u_mem s) (u_freep s) (u_brk s + nu * 8))) as Hsb by (unfold sbrk; by rewrite Eg).
  set (hp := u_brk s) in *.
  set (m1 := <[hp + 4 := nu]> (u_mem s)). set (s1 := MkUstate m1 (u_freep s) (hp + nu * 8)).
  assert (∀ w, w + 4 ≤ hp → rd m1 w = rd (u_mem s) w) as Hm.
  { intros w Hw. unfold m1. rewrite rd_insert, decide_False by lia. done. }
  assert (A !! hp = None) as HA.
  { destruct (A !! hp) as [k|] eqn:E; [|done]. destruct (Hl _ _ E) as (_ & ? & _ & ?). lia. }
  assert (heap start s1 F (<[hp := nu]> A)) as Hh1.
  { split; unfold s1; cbn [u_mem u_freep u_brk]; try done.
    - eapply chain_frame; [exact Hc|apply Hm; lia|]. intros w Hw. destruct (node_word_range _ _ _ Hs Hw). apply Hm. lia.
    - unfold size in *. rewrite (Hm (base + 4)) by lia. done.
    - lia.
    - unfold two32. lia.
    - intros a k. rewrite lookup_insert_Some. intros [[<- <-]|[Hne Ha]].
      + unfold size, m1. rewrite rd_insert, decide_True by done. lia.
      + destruct (Hl _ _ Ha) as (? & ? & ? & ?). unfold size in *. rewrite (Hm (a + 4)) by lia. lia.
    - intros a k [b1 b2]. rewrite lookup_insert_Some. intros [[<- <-]|[Hne Ha]] Hin; [|by apply Hd].
      destruct (sorted_elem _ _ _ _ Hs Hin). right. simpl. lia.
    - intros a k a' k'. rewrite !lookup_insert_Some. intros [[<- <-]|[Hne Ha]] [[<- <-]|[Hne' Ha']] Hneq; [done| | |by apply Hd'].
      + destruct (Hl _ _ Ha') as (_ & _ & _ & ?). right. simpl. lia.
      + destruct (Hl _ _ Ha) as (_ & _ & _ & ?). left. simpl. lia. }
  destruct (free_ok start s1 F _ hp nu turns Hh1) as (s2 & F' & Hrun & Hh2 & Hk2 & _ & _ & Hlen & b & Hb1 & Hb2);
    [by rewrite lookup_insert_eq|done|].
  rewrite delete_insert_id in Hh2, Hk2 by done.
  exists s2, F', b. split.
  { mrun Hsb. destruct (Z.eqb_spec hp (-1)); [lia|].
    unfold set_size, set_word. rewrite bind_modify. cbn [u_mem u_freep u_brk]. fold m1 s1. unfold hplus, sizeof_Header.
    rewrite u32_small by (unfold two32; lia). replace (hp + 8 * 1) with (hp + 8) by lia. mrun Hrun. done. }
  split; [done|]. split; [|split; [done|split; [lia|done]]].
  intros a k w Ha H1 H2. rewrite (Hk2 a k) by done. apply Hm. destruct (Hl _ _ Ha) as (_ & _ & _ & ?). lia.
Qed.

(** The result of [malloc]. *)
Definition malloc_result (start : Z) (s : ustate) (A : gmap Z Z) (nunits : Z) (o : outcome ustate Z) : Prop :=
  (∃ s' F', o = Ret 0 s' ∧ heap start s' F' A ∧ kept A s s') ∨ allocated start s A nunits o.

Lemma loop_grow start s F A nunits j : ∀ d turns i,
  grants_ok → heap start s F A → 1 ≤ nunits → nunits * 8 < 2147483648 → u_freep s = node F j → (j ≤ length F)%nat →
  (∀ a n, (a, n) ∈ F → n < nunits) → (i ≤ length F)%nat →
  dist F (nxt F i) j = d → (d + length F + 3 ≤ turns)%nat →
  malloc_result start s A nunits (malloc_loop turns nunits (node F i) (node F (nxt F i)) s).
Proof.
  induction d as [|d IH]; intros turns i Hg Hh Hn Hn8 Hj Hjl Hsmall Hi Hd Ht;
    (destruct turns as [|turns]; [lia|]); pose proof Hh as [Hb0 Hc Hz Hs _ _ _ _ _ _]; set (k := nxt F i) in *;
    assert (k ≤ length F)%nat as Hk by (unfold k, nxt; case_decide; lia); cbn [malloc_loop]; rewrite bind_get_size;
    assert (size (u_mem s) (node F k) < nunits) as Hlt by
      (destruct (lst_elem base (take k F)) as [E|[n Hin]]; [unfold node; rewrite E; lia|];
       pose proof (proj2 (elem_of_app (take k F) (drop k F) (node F k, n)) (or_introl Hin)) as Hin'; rewrite take_drop in Hin';
       rewrite (chain_elem _ _ _ _ _ _ Hc Hin'); by eapply Hsmall);
    (destruct (Z.leb_spec nunits (size (u_mem s) (node F k))); [lia|]); rewrite bind_gets; cbv zeta.
  - assert (k = j) as -> by (unfold dist in Hd; case_decide; lia). rewrite Hj, Z.eqb_refl.
    destruct (morecore_ok start s F A nunits (S turns)) as [Hrun|(s1 & F1 & b & Hrun & Hh1 & Hk1 & Hb1 & Hb2 & Hlen)]; try done; [lia|..].
    { mrun Hrun. left. exists s, F. done. }
    mrun Hrun. destruct (freep_node _ _ _ _ Hh1) as (j1 & Hj1 & Ej1).
    assert (u_freep s1 ≠ 0) as Hnz.
    { destruct Hh1 as [? _ _ Hs1 _ _ _ _ _ [->|[n Hin]]]; [lia|]. destruct (sorted_elem _ _ _ _ Hs1 Hin). lia. }
    destruct (Z.eqb_spec (u_freep s1) 0) as [?|_]; [done|]. rewrite bind_get_ptr, Ej1.
    rewrite (ring_ptr _ F1 j1) by (done || apply Hh1).
    destruct b as [x n]. apply list_elem_of_lookup in Hb1 as [i1 Hi1]. pose proof (lookup_lt_Some _ _ _ Hi1).
    destruct (loop_found start s1 F1 A nunits j1 i1 x n _ turns j1 Hh1 Hn Ej1 Hj1 Hi1 Hb2 Hj1 eq_refl)
      as (s2 & F2 & y & E & Hh2 & Hy & Hk2); [unfold dist, nxt; repeat case_decide; lia..|].
    right. exists s2, F2, y. split; [done|]. split; [done|]. split; [done|].
    intros a m w Ha H1 H2. rewrite (Hk2 a m) by done. by apply (Hk1 a m).
  - assert (k ≠ j) as Hkj by (intros E; rewrite E in Hd; unfold dist in Hd; case_decide; lia).
    destruct (Z.eqb_spec (node F k) (u_freep s)) as [E|_].
    { exfalso. rewrite Hj in E. apply (node_inj (start - 1)) in E; [done|lia|done..]. }
    rewrite bind_get_ptr, (ring_ptr _ F k) by done. apply IH; try done; [|lia].
    unfold dist, nxt in *; repeat case_decide; lia.
Qed.

(** The allocator is in use, or was not called yet. *)
Definition usable (start : Z) (s : ustate) (F : list block) (A : gmap Z Z) : Prop :=
  heap start s F A ∨
  (u_freep s = 0 ∧ F = [] ∧ A = ∅ ∧ (0 < base ∧ base + 8 ≤ start) ∧ start ≤ u_brk s ∧ u_brk s < two32).

Lemma malloc_init start s F A :
  usable start s F A →
  ∃ s1, (f ← gets u_freep;
    (if f =? 0 then set_freep base;; set_ptr base base;; set_size base 0;; mret base else mret f)) s = Ret (u_freep s1) s1 ∧
    heap start s1 F A ∧ kept A s s1.
Proof.
  intros [Hh|(Hf & -> & -> & Hb & Hbrk)].
  - exists s. rewrite bind_gets. split; [|by split].
    destruct (Z.eqb_spec (u_freep s) 0) as [E|_]; [|done]. exfalso.
    destruct Hh as [? _ _ Hs _ _ _ _ _ [H|[n Hin]]]; [lia|]. destruct (sorted_elem _ _ _ _ Hs Hin). lia.
  - exists (MkUstate (<[base + 4 := 0]> (<[base := base]> (u_mem s))) base (u_brk s)).
    rewrite bind_gets, Hf, Z.eqb_refl. split; [done|]. split.
    + split; cbn [u_mem u_freep u_brk]; try done; unfold ptr, size; simpl.
      * unfold ptr. rewrite !rd_insert, decide_False, decide_True by lia. done.
      * by rewrite rd_insert, decide_True.
      * lia.
      * by left.
    + by intros a n w.
Qed.

Lemma malloc_run start s F A nbytes turns :
  grants_ok → usable start s F A → 0 ≤ nbytes ≤ 2147483632 → (2 * length F + 4 ≤ turns)%nat →
  malloc_result start s A (nbytes / 8 + (if decide (nbytes mod 8 = 0) then 1 else 2)) (malloc turns nbytes s).
Proof.
  intros Hg Hu Hnb Ht. unfold malloc, sizeof_Header.
  pose proof (Z.div_mod nbytes 8 ltac:(lia)) as Ed. pose proof (Z.mod_pos_bound nbytes 8 ltac:(lia)) as Em.
  assert (u32 (nbytes + 8 - 1) / 8 + 1 = nbytes / 8 + (if decide (nbytes mod 8 = 0) then 1 else 2)) as ->.
  { rewrite u32_small by (unfold two32; lia). rewrite Ed at 1. case_decide as E.
    - rewrite E. replace (8 * (nbytes / 8) + 0 + 8 - 1) with (7 + nbytes / 8 * 8) by lia. rewrite Z.div_add by lia. change (7 / 8) with 0. lia.
    - replace (8 * (nbytes / 8) + nbytes mod 8 + 8 - 1) with (nbytes mod 8 - 1 + (nbytes / 8 + 1) * 8) by lia.
      rewrite Z.div_add, Z.div_small by lia. lia. }
  set (nunits := nbytes / 8 + _). assert (1 ≤ nunits ∧ nunits * 8 < 2147483648) as [Hn Hn8].
  { unfold nunits. pose proof (Z.div_pos nbytes 8 ltac:(lia) ltac:(lia)). case_decide; lia. }
  destruct (malloc_init start s F A Hu) as (s1 & Hrun & Hh & Hk). cbv zeta. rewrite <-bind_bind. mrun Hrun.
  destruct (freep_node _ _ _ _ Hh) as (j & Hj & Ej). rewrite bind_get_ptr, Ej, (ring_ptr _ F j) by (done || apply Hh).
  assert (malloc_result start s1 A nunits (malloc_loop turns nunits (node F j) (node F (nxt F j)) s1)) as [(s2 & F2 & E & Hh2 & Hk2)|(s2 & F2 & y & E & Hh2 & Hy & Hk2)].
  { destruct (decide (Exists (λ b, nunits ≤ b.2) F)) as [Hex|Hno].
    - right. apply Exists_exists in Hex as ([x n] & Hin & Hle). apply list_elem_of_lookup in Hin as [i Hi].
      pose proof (lookup_lt_Some _ _ _ Hi). eapply loop_found; try done; unfold dist, nxt; repeat case_decide; lia.
    - eapply loop_grow; try done; [|unfold dist, nxt; repeat case_decide; lia].
      intros a n Hin. apply not_Exists_Forall in Hno; [|apply _]. rewrite Forall_forall in Hno.
      specialize (Hno _ Hin). simpl in Hno. lia. }
  - left. exists s2, F2. split; [done|]. split; [done|]. intros a m w Ha H1 H2. rewrite (Hk2 a m) by done. by apply (Hk a m).
  - right. exists s2, F2, y. split; [done|]. split; [done|]. split; [done|].
    intros a m w Ha H1 H2. rewrite (Hk2 a m) by done. by apply (Hk a m).
Qed.
End umalloc.

(** ** Properties *)


(** C35.  [free] of an allocated block always returns, with the block's units
    joined to the free ones: its neighbours are merged, so the ring stays sorted with no two
    adjacent blocks, no unit is lost and the other blocks' contents are unchanged. *)
Theorem free_returns_block base start s F A bp n turns :
  heap base start s F A → A !! bp = Some n → (length F < turns)%nat →
  ∃ s' F', free turns (bp + 8) s = Ret tt s' ∧ heap base start s' F' (delete bp A) ∧ kept (delete bp A) s s' ∧
    units F' = units F + n.
Proof.
  intros Hh HA Ht. destruct (free_ok base (λ _ _, false) start s F A bp n turns Hh HA Ht) as (s' & F' & H1 & H2 & H3 & _ & H4 & _).
  by exists s', F'.
Qed.

Module MallocExample.
Definition grants (b n : Z) : bool := b + n <? 0x80000000.

Lemma grants_fine : grants_ok grants.
Proof. intros b n H. by apply Z.ltb_lt in H. Qed.

Definition fresh : ustate := MkUstate ∅ 0 8192.

Lemma fresh_usable : usable 1024 8192 fresh [] ∅.
Proof. right. by repeat split. Qed.

(** One free block, followed after a gap by an allocated one. *)
Definition used : ustate :=
  MkUstate (list_to_map [(1024, 8192); (1028, 0); (8192, 1024); (8196, 2); (8220, 3)]) 1024 40960.

Lemma used_heap : heap 1024 8192 used [(8192, 2)] {[8216 := 3]}.
Proof.
  split; try done.
  - intros a n [<- <-]%lookup_singleton_Some. by repeat split.
  - intros a n b [<- <-]%lookup_singleton_Some ->%list_elem_of_singleton. by right.
  - intros a n a' n' [<- <-]%lookup_singleton_Some [<- <-]%lookup_singleton_Some. done.
  - by left.
Qed.
End MallocExample.


Lemma free_returns_block_witness :
  ∃ s' F', free 5 (8216 + 8) MallocExample.used = Ret tt s' ∧ heap 1024 8192 s' F' (delete 8216 {[8216 := 3]}) ∧
    kept (delete 8216 {[8216 := 3]}) MallocExample.used s' ∧ units F' = units [(8192, 2)] + 3.
Proof.
  apply (free_returns_block 1024 8192 MallocExample.used [(8192, 2)] {[8216 := 3]} 8216 3 5).
  - apply MallocExample.used_heap.
  - by rewrite lookup_singleton_eq.
  - simpl. lia.
Defined.

(** The number of units is computed modulo 2^32: a request of 4294967295 bytes is
    answered with a block that holds none. *)
Lemma malloc_overflow :
  ∃ r s', malloc 1024 MallocExample.grants 10 4294967295 MallocExample.fresh = Ret r s' ∧ r ≠ 0 ∧
    size (u_mem s') (r - 8) = 1.
Proof. eexists _, _. split; [vm_compute; reflexivity|]. split; [done|]. by vm_compute. Qed.
