(* ===== verification/Sh.v ===== *)
(** Sh: the shell, [sh.c].

    A [char*] into the command line is an offset into the buffer [buf].  The
    parser's state is [*ps]; [es] is the offset of the NUL.  Its [panic]s are
    outcomes, which [parsecmd] turns into the message and the [exit] of the
    shell's [panic].  The parse functions call each other, so they share
    a bound on the depth of the calls. *)

From S2P Require Import Prelude Layout CString User Ulib Printf.

(** ** Parsed commands *)

Definition MAXARGS : Z := 10.

(** [struct cmd] and its variants; the pairs are [argv[i]] and [eargv[i]] *)
Inductive cmd :=
| ExecCmd (argv : list (nat * nat))
| RedirCmd (c : cmd) (file efile : nat) (mode fd : Z)
| PipeCmd (left right : cmd)
| ListCmd (left right : cmd)
| BackCmd (c : cmd).

(** The constructors; their [malloc] is taken to succeed. *)
Definition execcmd : cmd := ExecCmd [].
Definition redircmd (subcmd : cmd) (file efile : nat) (mode fd : Z) : cmd := RedirCmd subcmd file efile mode fd.
Definition pipecmd (l r : cmd) : cmd := PipeCmd l r.
Definition listcmd (l r : cmd) : cmd := ListCmd l r.
Definition backcmd (subcmd : cmd) : cmd := BackCmd subcmd.

(** ** Tokens *)

(** [char whitespace[] = " \t\r\n\v"] *)
Definition whitespace : list Z := [32; 9; 13; 10; 11; 0].
(** [char symbols[] = "<|>&;()"] *)
Definition symbols : list Z := chars "<|>&;()" ++ [0].

(** [strchr(s, c) != 0] *)
Definition has (s : list Z) (c : Z) : bool := match strchr s c with Some (Some _) => true | _ => false end.

Section parser.
Context (buf : list Z) (es : nat).

Notation P := (M nat).

Definition at_ (s : nat) : P Z := deref (λ _, buf !! s).

(** [while(s < es && p( *s)) s++;], [n] being [es - s] *)
Fixpoint scan (p : Z → bool) (n : nat) (s : nat) : P nat :=
  match n with
  | O => mret s
  | S n => c ← at_ s; if p c then scan p n (S s) else mret s
  end.

(** [while(s < es && strchr(whitespace, *s)) s++;] *)
Definition skip (s : nat) : P nat := scan (has whitespace) (es - s) s.

(** The token, [*q] and [*eq] *)
Definition gettoken : P (Z * nat * nat) :=
  s ← Prelude.gets id;
  s ← skip s;
  let q := s in
  c ← at_ s;
  '(ret, s) ←
    (if c =? 0 then mret (0, s)
     else if has (chars "|();&<" ++ [0]) c then mret (c, S s)
     else if c =? chr ">" then
       d ← at_ (S s);
       if d =? chr ">" then mret (chr "+", S (S s)) else mret (c, S s)
     else
       s ← scan (λ c, negb (has whitespace c) && negb (has symbols c)) (es - s) s;
       mret (chr "a", s));
  let eq := s in
  s ← skip s;
  modify (λ _, s);;
  mret (ret, q, eq).

Definition peek (toks : string) : P bool :=
  s ← Prelude.gets id;
  s ← skip s;
  modify (λ _, s);;
  c ← at_ s;
  mret (negb (c =? 0) && has (chars toks ++ [0]) c).

(** ** The grammar *)

(** [while(peek(ps, es, "<>"))] *)
Fixpoint parseredirs (turns : nat) (c : cmd) : P cmd :=
  b ← peek "<>";
  if negb b then mret c else
  match turns with
  | O => nofuel
  | S turns =>
      '(tok, _, _) ← gettoken;
      '(t, q, eq) ← gettoken;
      if negb (t =? chr "a") then panic "missing file for redirection" else
      parseredirs turns
        (if tok =? chr "<" then redircmd c q eq O_RDONLY 0
         else if tok =? chr ">" then redircmd c q eq (Z.lor O_WRONLY O_CREATE) 1
         else if tok =? chr "+" then redircmd c q eq (Z.lor O_WRONLY O_CREATE) 1
         else c)
  end.

(** [cmd->argv[argc] = q; cmd->eargv[argc] = eq;], where [cmd] is the [execcmd]
    below the redirections of [ret] *)
Fixpoint add_arg (ret : cmd) (q eq : nat) : cmd :=
  match ret with
  | ExecCmd argv => ExecCmd (argv ++ [(q, eq)])
  | RedirCmd c file efile mode fd => RedirCmd (add_arg c q eq) file efile mode fd
  | c => c
  end.

(** [while(!peek(ps, es, "|)&;"))] *)
Fixpoint parseargs (turns : nat) (ret : cmd) (argc : Z) : P cmd :=
  b ← peek "|)&;";
  if (b : bool) then mret ret else
  '(tok, q, eq) ← gettoken;
  if tok =? 0 then mret ret
  else if negb (tok =? chr "a") then panic "syntax" else
  match turns with
  | O => nofuel
  | S turns =>
      let ret := add_arg ret q eq in
      let argc := argc + 1 in
      if MAXARGS <=? argc then panic "too many args" else
      ret ← parseredirs turns ret;
      parseargs turns ret argc
  end.

(** [while(peek(ps, es, "&"))] *)
Fixpoint parseback (turns : nat) (c : cmd) : P cmd :=
  b ← peek "&";
  if negb b then mret c else
  match turns with
  | O => nofuel
  | S turns => gettoken;; parseback turns (backcmd c)
  end.

Fixpoint parseline (fuel : nat) : P cmd :=
  match fuel with
  | O => nofuel
  | S fuel =>
      c ← parsepipe fuel;
      c ← parseback (length buf) c;
      b ← peek ";";
      if (b : bool) then
        gettoken;;
        r ← parseline fuel;
        mret (listcmd c r)
      else mret c
  end
with parsepipe (fuel : nat) : P cmd :=
  match fuel with
  | O => nofuel
  | S fuel =>
      c ← parseexec fuel;
      b ← peek "|";
      if (b : bool) then
        gettoken;;
        r ← parsepipe fuel;
        mret (pipecmd c r)
      else mret c
  end
with parseexec (fuel : nat) : P cmd :=
  match fuel with
  | O => nofuel
  | S fuel =>
      b ← peek "(";
      if (b : bool) then parseblock fuel else
      ret ← parseredirs (length buf) execcmd;
      parseargs (length buf) ret 0
  end
with parseblock (fuel : nat) : P cmd :=
  match fuel with
  | O => nofuel
  | S fuel =>
      b ← peek "(";
      if negb b then panic "parseblock" else
      gettoken;;
      c ← parseline fuel;
      b ← peek ")";
      if negb b then panic "syntax - missing )" else
      gettoken;;
      parseredirs (length buf) c
  end.
End parser.

(** NUL-terminate all the counted strings: the new contents of [buf] *)
Fixpoint nulterminate (c : cmd) (buf : list Z) : option (list Z) :=
  match c with
  | ExecCmd argv => foldl (λ b a, b ← b; put b a.2 0) (Some buf) argv
  | RedirCmd c _ efile _ _ => buf ← nulterminate c buf; put buf efile 0
  | PipeCmd l r | ListCmd l r => buf ← nulterminate l buf; nulterminate r buf
  | BackCmd c => nulterminate c buf
  end.

(** [es = s + strlen(s); cmd = parseline(&s, es); peek(&s, es, "");]; four
    calls of the grammar for each character are enough. *)
Definition parse (buf : list Z) (es : nat) : outcome nat cmd :=
  (c ← parseline buf es (4 * es + 4); peek buf es "";; mret c) 0%nat.

(** ** Running commands *)

Definition panic {A} (s : list Z) : prog A :=
  printf 2 ("%s" +:+ nl) [AStr (Some s)];;
  exit.

Definition fork1 : prog Z :=
  pid ← call C_fork;
  if pid =? -1 then panic (chars "fork") else mret pid.

(** The string at an offset. *)
Definition str (buf : list Z) (s : nat) : list Z := cstr (drop s buf).

Definition parsecmd (buf : list Z) : prog (cmd * list Z) :=
  n ← mem (strlen buf);
  let es := Z.to_nat n in
  match parse buf es with
  | Ret c s =>
      if negb (s =? es)%nat then
        printf 2 ("leftovers: %s" +:+ nl) [AStr (Some (str buf s))];;
        panic (chars "syntax")
      else
        buf ← mem (nulterminate c buf);
        mret (c, buf)
  | Panic msg => panic (chars msg)
  | _ => Fault
  end.

Fixpoint runcmd (buf : list Z) (c : cmd) : prog unit :=
  match c with
  | ExecCmd [] => exit
  | ExecCmd (((q, _) :: _) as argv) =>
      call (C_exec (str buf q) ((λ a, str buf a.1) <$> argv));;
      printf 2 ("exec %s failed" +:+ nl) [AStr (Some (str buf q))];;
      exit
  | RedirCmd c file _ mode fd =>
      call (C_close fd);;
      r ← call (C_open (str buf file) mode);
      if r <? 0 then
        printf 2 ("open %s failed" +:+ nl) [AStr (Some (str buf file))];;
        exit
      else
        runcmd buf c;;
        exit
  | ListCmd l r =>
      pid ← fork1;
      whenp (pid =? 0) (runcmd buf l);;
      call C_wait;;
      runcmd buf r;;
      exit
  | PipeCmd l r =>
      p ← call C_pipe;
      match p with
      | None => panic (chars "pipe")
      | Some (p0, p1) =>
          pid ← fork1;
          whenp (pid =? 0)
            (call (C_close 1);;
             call (C_dup p1);;
             call (C_close p0);;
             call (C_close p1);;
             runcmd buf l);;
          pid ← fork1;
          whenp (pid =? 0)
            (call (C_close 0);;
             call (C_dup p0);;
             call (C_close p0);;
             call (C_close p1);;
             runcmd buf r);;
          call (C_close p0);;
          call (C_close p1);;
          call C_wait;;
          call C_wait;;
          exit
      end
  | BackCmd c =>
      pid ← fork1;
      whenp (pid =? 0) (runcmd buf c);;
      exit
  end.

(** [buf] and the result *)
Definition getcmd (buf : list Z) (nbuf : Z) : prog (list Z * Z) :=
  printf 2 "$ " [];;
  buf ← mem (memset buf 0 (Z.to_nat nbuf));
  buf ← gets buf nbuf;
  c ← mem (buf !! 0%nat);
  mret (buf, if c =? 0 then -1 else 0).

(** [while((fd = open("console", O_RDWR)) >= 0)] *)
Fixpoint open_console (turns : nat) : prog unit :=
  fd ← call (C_open (chars "console") O_RDWR);
  if fd <? 0 then mret tt
  else if 3 <=? fd then call (C_close fd);; mret tt
  else match turns with
       | O => Hung
       | S turns => open_console turns
       end.

(** [while(getcmd(buf, sizeof(buf)) >= 0)] *)
Fixpoint main_loop (turns : nat) (buf : list Z) : prog unit :=
  '(buf, r) ← getcmd buf 100;
  if r <? 0 then exit else
  match turns with
  | O => Hung
  | S turns =>
      b0 ← mem (buf !! 0%nat);
      b1 ← mem (buf !! 1%nat);
      b2 ← mem (buf !! 2%nat);
      if (b0 =? chr "c") && (b1 =? chr "d") && (b2 =? chr " ") then
        n ← mem (strlen buf);
        buf ← mem (put buf (Z.to_nat (n - 1)) 0);  (* chop \n *)
        r ← call (C_chdir (str buf 3));
        whenp (r <? 0) (printf 2 ("cannot cd %s" +:+ nl) [AStr (Some (str buf 3))]);;
        main_loop turns buf
      else
        pid ← fork1;
        whenp (pid =? 0) ('(c, buf) ← parsecmd buf; runcmd buf c);;
        call C_wait;;
        main_loop turns buf
  end.

Definition main (turns : nat) : prog unit :=
  open_console turns;;
  main_loop turns (replicate 100 0).
