(* ===== verification/ShRun.v ===== *)
(** ShRun: the descriptors with which the shell starts programs.

    [execs] follows [runcmd] through every process it forks, with the
    kernel's rule that a new descriptor is the lowest free one, and collects
    the programs that are started with their descriptor tables.  System calls
    are taken to succeed. *)

From S2P Require Import Prelude Layout CString User Ulib Printf Sh.

(** What a descriptor refers to. *)
Inductive fobj := Inherited (n : Z) | FileAt (path : list Z) (mode : Z) | PipeRead (id : nat) | PipeWrite (id : nat).

Notation fds := (gmap Z fobj).

(** A started program: its path, arguments and descriptors. *)
Record started := MkStarted { s_path : list Z; s_argv : list (list Z); s_fds : fds }.

(** The lowest free descriptor from [k], among the NOFILE = 16. *)
Fixpoint lowest_from (n : nat) (k : Z) (t : fds) : Z :=
  match n with
  | O => -1
  | S n => match t !! k with None => k | Some _ => lowest_from n (k + 1) t end
  end.
Definition lowest (t : fds) : Z := lowest_from 16 0 t.

(** The next pipe number and the programs started by [p] and its children. *)
Fixpoint execs (p : prog unit) (t : fds) (id : nat) : nat * list started :=
  match p with
  | Done _ | Fault | Hung => (id, [])
  | Call c k =>
      match c in syscall R return (R → prog unit) → nat * list started with
      | C_fork => λ k,
          let '(id, es) := execs (k 0) t id in
          let '(id, es') := execs (k 1) t id in
          (id, es ++ es')
      | C_exec path argv => λ _, (id, [MkStarted path argv t])
      | C_close fd => λ k, execs (k 0) (delete fd t) id
      | C_dup fd => λ k,
          match t !! fd with
          | Some o => execs (k (lowest t)) (<[lowest t := o]> t) id
          | None => execs (k (-1)) t id
          end
      | C_open path mode => λ k, execs (k (lowest t)) (<[lowest t := FileAt path mode]> t) id
      | C_pipe => λ k,
          let r := lowest t in
          let t := <[r := PipeRead id]> t in
          let w := lowest t in
          execs (k (Some (r, w))) (<[w := PipeWrite id]> t) (S id)
      | C_wait => λ k, execs (k 1) t id
      | C_write _ bs => λ k, execs (k (Z.of_nat (length bs))) t id
      | _ => λ _, (id, [])
      end k
  end.

(** What a command means: a pipe joins the standard output of its left side to
    the standard input of its right side, a redirection replaces its
    descriptor, and nothing else changes. *)
Fixpoint wiring (buf : list Z) (c : cmd) (t : fds) (id : nat) : nat * list started :=
  match c with
  | ExecCmd [] => (id, [])
  | ExecCmd (((q, _) :: _) as argv) => (id, [MkStarted (str buf q) ((λ a, str buf a.1) <$> argv) t])
  | RedirCmd c file _ mode fd => wiring buf c (<[fd := FileAt (str buf file) mode]> t) id
  | PipeCmd l r =>
      let '(id', es) := wiring buf l (<[1 := PipeWrite id]> t) (S id) in
      let '(id', es') := wiring buf r (<[0 := PipeRead id]> t) id' in
      (id', es ++ es')
  | ListCmd l r =>
      let '(id, es) := wiring buf l t id in
      let '(id, es') := wiring buf r t id in
      (id, es ++ es')
  | BackCmd c => wiring buf c t id
  end.

(** Redirections of a parsed command are of the standard input or output. *)
Fixpoint redirs_ok (c : cmd) : Prop :=
  match c with
  | ExecCmd _ => True
  | RedirCmd c _ _ _ fd => (fd = 0 ∨ fd = 1) ∧ redirs_ok c
  | PipeCmd l r | ListCmd l r => redirs_ok l ∧ redirs_ok r
  | BackCmd c => redirs_ok c
  end.

(** Exactly the three standard descriptors are open. *)
Definition std (t : fds) : Prop := ∀ k, is_Some (t !! k) ↔ 0 ≤ k < 3.

(** ** Programs that do not return *)

Fixpoint ends {A} (p : prog A) : Prop :=
  match p with
  | Done _ => False
  | Call c k => ∀ r, ends (k r)
  | Fault | Hung => True
  end.

Lemma ends_bind {A B} (p : prog A) (f : A → prog B) : (∀ a, ends (f a)) → ends (p ≫= f).
Proof. intros Hf. induction p as [a|R c k IH| |]; simpl; auto. Qed.

Lemma ends_exit {A} : ends (@exit A).
Proof. by intros []. Qed.

Lemma ends_call {A B} (c : syscall A) (f : A → prog B) : (∀ r, ends (f r)) → ends (call c ≫= f).
Proof. auto using ends_bind. Qed.

Lemma ends_runcmd buf c : ends (runcmd buf c).
Proof.
  assert (∀ A s, ends (@panic A s)) as Hp by (intros; apply ends_bind; intros; apply ends_exit).
  induction c as [[|[q e] argv]|c IH file efile mode fd|l IHl r IHr|l IHl r IHr|c IH]; cbn [runcmd].
  - apply ends_exit.
  - apply ends_call. intros _. apply ends_bind. intros _. apply ends_exit.
  - apply ends_call. intros _. apply ends_call. intros r. destruct (r <? 0); apply ends_bind; intros _; apply ends_exit.
  - apply ends_call. intros [[p0 p1]|]; [|apply Hp].
    apply ends_bind. intros pid. apply ends_bind. intros _. apply ends_bind. intros pid'. apply ends_bind. intros _.
    do 4 (apply ends_call; intros _). apply ends_exit.
  - apply ends_bind. intros pid. apply ends_bind. intros _. apply ends_call. intros _. apply ends_bind. intros _. apply ends_exit.
  - apply ends_bind. intros pid. apply ends_bind. intros _. apply ends_exit.
Qed.

Lemma bind_call {A B R} (c : syscall R) (k : R → prog A) (f : A → prog B) : (Call c k ≫= f) = Call c (λ r, k r ≫= f).
Proof. done. Qed.

Lemma execs_ends (p : prog unit) (f : unit → prog unit) : ends p → ∀ t id, execs (p ≫= f) t id = execs p t id.
Proof.
  induction p as [a|R c k IH| |]; [done| |done|done]. cbn [ends]. intros He t id. rewrite bind_call.
  destruct c; cbn [execs]; rewrite ?IH by apply He; try done.
  - destruct (execs (k 0) t id) as [id' es]. by rewrite IH by apply He.
  - destruct (t !! fd); [by rewrite IH by apply He|done].
Qed.

(** ** The lowest descriptors *)

Lemma std_lookup t k : std t → t !! k = None ↔ ¬ 0 ≤ k < 3.
Proof. intros H. rewrite <-(H k). destruct (t !! k); split; intros; try done; naive_solver. Qed.

Lemma std_insert t k o : std t → 0 ≤ k < 3 → std (<[k := o]> t).
Proof.
  intros H Hk j. destruct (decide (j = k)) as [->|Hne]; [rewrite lookup_insert_eq|rewrite lookup_insert_ne by done; apply H].
  split; [done|]. intros _. eauto.
Qed.

Lemma lowest_skip t n k : is_Some (t !! k) → lowest_from (S n) k t = lowest_from n (k + 1) t.
Proof. intros [o H]. cbn [lowest_from]. by rewrite H. Qed.

Lemma lowest_here t n k : t !! k = None → lowest_from (S n) k t = k.
Proof. intros H. cbn [lowest_from]. by rewrite H. Qed.

(** A closed descriptor is the next to be given out. *)
Lemma lowest_closed t fd : (fd = 0 ∨ (fd = 1 ∧ is_Some (t !! 0))) → lowest (delete fd t) = fd.
Proof.
  unfold lowest. intros [->|[-> H]]; [by apply lowest_here; rewrite lookup_delete_eq|].
  rewrite lowest_skip by (by rewrite lookup_delete_ne). by apply lowest_here; rewrite lookup_delete_eq.
Qed.

Section pipe.
Context (t : fds) (id : nat) (Ht : std t).

(** The table after [pipe]. *)
Definition piped : fds := <[4 := PipeWrite id]> (<[3 := PipeRead id]> t).

Lemma pipe_lowest : lowest t = 3 ∧ lowest (<[3 := PipeRead id]> t) = 4.
Proof.
  unfold lowest. assert (is_Some (t !! 0) ∧ is_Some (t !! 1) ∧ is_Some (t !! 2)) as (H0 & H1 & H2) by (rewrite !(Ht _); lia).
  assert (t !! 3 = None ∧ t !! 4 = None) as [H3 H4] by (rewrite !(std_lookup t) by done; lia). split.
  - do 3 (rewrite lowest_skip by done). by apply lowest_here.
  - do 3 (rewrite lowest_skip by (by rewrite lookup_insert_ne)). rewrite lowest_skip by (rewrite lookup_insert_eq; eauto).
    apply lowest_here. by rewrite lookup_insert_ne.
Qed.

(** [close(fd); dup(e); close(p[0]); close(p[1]);] with [e] an end of the pipe *)
Lemma pipe_child fd e o : (fd = 0 ∨ fd = 1) → piped !! e = Some o → e ≠ fd → (e = 3 ∨ e = 4) →
  delete fd piped !! e = Some o ∧ lowest (delete fd piped) = fd ∧
  delete 4 (delete 3 (<[fd := o]> (delete fd piped))) = <[fd := o]> t.
Proof.
  intros Hfd He Hne Hee. split; [by rewrite lookup_delete_ne|]. split.
  { apply lowest_closed. destruct Hfd as [-> | ->]; [by left|right]. split; [done|]. unfold piped.
    rewrite !lookup_insert_ne by done. apply Ht. lia. }
  assert (t !! 3 = None ∧ t !! 4 = None) as [H3 H4] by (rewrite !(std_lookup t) by done; lia).
  apply map_eq. intros k. unfold piped.
  destruct (decide (k = 4)) as [->|]; [rewrite lookup_delete_eq, lookup_insert_ne by lia; by rewrite H4|].
  rewrite lookup_delete_ne by done.
  destruct (decide (k = 3)) as [->|]; [rewrite lookup_delete_eq, lookup_insert_ne by lia; by rewrite H3|].
  rewrite lookup_delete_ne by done.
  destruct (decide (k = fd)) as [->|]; [by rewrite !lookup_insert_eq|].
  rewrite !(lookup_insert_ne _ fd) by done. rewrite lookup_delete_ne, !lookup_insert_ne by done. done.
Qed.
End pipe.

Lemma wiring_ok buf c : ∀ t id, redirs_ok c → std t → execs (runcmd buf c) t id = wiring buf c t id.
Proof.
  induction c as [[|[q e] argv]|c IH file efile mode fd|l IHl r IHr|l IHl r IHr|c IH]; intros t id Hok Ht.
  - done.
  - done.
  - destruct Hok as [Hfd Hok]. cbn [runcmd wiring]. simpl.
    rewrite lowest_closed by (destruct Hfd as [-> | ->]; [by left|right; split; [done|apply Ht; lia]]).
    rewrite insert_delete_eq. destruct (Z.ltb_spec fd 0); [lia|]. rewrite execs_ends by apply ends_runcmd.
    apply IH; [done|]. apply std_insert; [done|lia].
  - destruct Hok as [Hl Hr]. cbn [runcmd wiring]. simpl. destruct (pipe_lowest t id Ht) as [-> ->]. fold (piped t id). simpl.
    destruct (pipe_child t id Ht 1 4 (PipeWrite id)) as (E1 & E2 & E3); [by right|unfold piped; by rewrite lookup_insert_eq|done|by right|].
    destruct (pipe_child t id Ht 0 3 (PipeRead id)) as (E4 & E5 & E6);
      [by left|unfold piped; by rewrite lookup_insert_ne, lookup_insert_eq|done|by left|].
    rewrite E1, E2, E3. rewrite execs_ends by apply ends_runcmd.
    rewrite IHl by (done || (apply std_insert; [done|lia])). destruct (wiring buf l _ _) as [id1 es1].
    rewrite E4, E5, E6. rewrite execs_ends by apply ends_runcmd.
    rewrite IHr by (done || (apply std_insert; [done|lia])). destruct (wiring buf r _ _) as [id2 es2].
    by rewrite app_nil_r.
  - destruct Hok as [Hl Hr]. cbn [runcmd wiring]. simpl. rewrite execs_ends by apply ends_runcmd.
    rewrite IHl by done. destruct (wiring buf l t id) as [id1 es1]. rewrite execs_ends by apply ends_runcmd.
    by rewrite IHr.
  - cbn [runcmd wiring]. simpl. rewrite execs_ends by apply ends_runcmd. rewrite IH by done.
    destruct (wiring buf c t id) as [id1 es1]. by rewrite app_nil_r.
Qed.
