(* ===== verification/ShParse.v ===== *)
(** ShParse: the shell's parser ends on every line, stays inside the line, and
    inverts printing. *)

From S2P Require Import Prelude Layout CString User Ulib Printf Sh ShRun.

(** ** Scanning *)

(** The length of the prefix whose characters satisfy [p]. *)
Fixpoint span (p : Z → bool) (l : list Z) : nat :=
  match l with
  | [] => 0
  | c :: l => if p c then S (span p l) else 0
  end.

Lemma span_length p l : (span p l ≤ length l)%nat.
Proof. induction l as [|c l IH]; simpl; [lia|]. destruct (p c); lia. Qed.

Lemma span_stop p l c : l !! span p l = Some c → p c = false.
Proof.
  induction l as [|d l IH]; simpl; [done|]. destruct (p d) eqn:E; simpl; [done|]. by intros [= ->].
Qed.

Section parser.
Context (l junk : list Z) (Hl : 0 ∉ l).

Definition buf : list Z := l ++ 0 :: junk.
Definition es : nat := length l.

Lemma at_ok s ps : (s ≤ es)%nat → at_ buf s ps = Ret (nth s l 0) ps.
Proof.
  intros Hs. unfold at_, deref, buf, es in *. destruct (decide (s = length l)) as [->|Hne].
  - rewrite list_lookup_middle by done. by rewrite nth_overflow.
  - rewrite lookup_app_l by lia. destruct (lookup_lt_is_Some_2 l s) as [c Hc]; [lia|]. rewrite Hc.
    by rewrite (nth_lookup_Some _ _ _ _ Hc).
Qed.

Lemma char_nonzero s : (s < es)%nat → nth s l 0 ≠ 0.
Proof.
  intros Hs E. apply Hl. destruct (lookup_lt_is_Some_2 l s Hs) as [c Hc].
  rewrite (nth_lookup_Some _ _ _ _ Hc) in E. subst c. by eapply list_elem_of_lookup_2.
Qed.

Lemma scan_ok p n s ps : (s + n = es)%nat → scan buf p n s ps = Ret (s + span p (drop s l))%nat ps.
Proof.
  revert s. induction n as [|n IH]; intros s Hs; cbn [scan].
  - rewrite drop_ge by (unfold es in *; lia). simpl. by rewrite Nat.add_0_r.
  - rewrite (bind_Ret _ _ _ _ _ (at_ok s ps ltac:(lia))).
    destruct (lookup_lt_is_Some_2 l s) as [c Hc]; [unfold es in *; lia|].
    rewrite (nth_lookup_Some _ _ _ _ Hc), (drop_S _ _ _ Hc). cbn [span].
    destruct (p c); [|by rewrite Nat.add_0_r]. rewrite IH by lia. f_equal. lia.
Qed.

(** Where the blanks from [s] end. *)
Definition skipped (s : nat) : nat := s + span (has whitespace) (drop s l).

Lemma skip_ok s ps : (s ≤ es)%nat → skip buf es s ps = Ret (skipped s) ps.
Proof. intros Hs. unfold skip. by rewrite scan_ok by lia. Qed.

Lemma skipped_range s : (s ≤ es)%nat → (s ≤ skipped s ≤ es)%nat.
Proof.
  intros Hs. unfold skipped. pose proof (span_length (has whitespace) (drop s l)) as H.
  rewrite length_drop in H. unfold es in *. lia.
Qed.

Lemma skipped_char s : (skipped s < es)%nat → has whitespace (nth (skipped s) l 0) = false.
Proof.
  intros Hs. destruct (lookup_lt_is_Some_2 l (skipped s) Hs) as [c Hc].
  rewrite (nth_lookup_Some _ _ _ _ Hc). apply (span_stop _ (drop s l)). by rewrite lookup_drop.
Qed.

Lemma peek_ok toks s :
  (s ≤ es)%nat →
  peek buf es toks s = Ret (negb (nth (skipped s) l 0 =? 0) && has (chars toks ++ [0]) (nth (skipped s) l 0)) (skipped s).
Proof.
  intros Hs. unfold peek. rewrite bind_gets. rewrite (bind_Ret _ _ _ _ _ (skip_ok s _ Hs)). rewrite bind_modify.
  by rewrite (bind_Ret _ _ _ _ _ (at_ok _ _ (proj2 (skipped_range s Hs)))).
Qed.

(** A character that is neither a blank, a symbol nor NUL. *)
Definition word_char (c : Z) : bool := negb (has whitespace c) && negb (has symbols c).

(** The token at [s] and where it ends. *)
Definition token (s : nat) : Z * nat :=
  let c := nth s l 0 in
  if c =? 0 then (0, s)
  else if has (chars "|();&<" ++ [0]) c then (c, S s)
  else if c =? chr ">" then
    if nth (S s) l 0 =? chr ">" then (chr "+", S (S s)) else (c, S s)
  else (chr "a", (s + span word_char (drop s l))%nat).

Lemma gettoken_ok s :
  (s ≤ es)%nat →
  gettoken buf es s = Ret ((token (skipped s)).1, skipped s, (token (skipped s)).2) (skipped (token (skipped s)).2) ∧
  (skipped s ≤ (token (skipped s)).2 ≤ es)%nat ∧
  (skipped s < es → skipped s < (token (skipped s)).2)%nat.
Proof.
  intros Hs. pose proof (skipped_range s Hs) as Hr. set (s1 := skipped s) in *.
  assert ((s1 < es)%nat → nth s1 l 0 ≠ 0) as Hnz by apply char_nonzero.
  assert ((s1 < es)%nat → has whitespace (nth s1 l 0) = false) as Hw by apply skipped_char.
  assert (nth s1 l 0 ≠ 0 → (s1 < es)%nat) as Hlt.
  { intros H. destruct (decide (s1 < es)%nat); [done|]. rewrite nth_overflow in H by (unfold es in *; lia). done. }
  unfold gettoken. rewrite bind_gets. rewrite (bind_Ret _ _ _ _ _ (skip_ok s _ Hs)). fold s1. cbv zeta.
  rewrite (bind_Ret _ _ _ _ _ (at_ok s1 _ ltac:(lia))). unfold token. cbv zeta.
  destruct (Z.eqb_spec (nth s1 l 0) 0) as [E0|E0].
  { rewrite bind_ret. rewrite (bind_Ret _ _ _ _ _ (skip_ok s1 _ ltac:(lia))). split; [done|]. split; [cbn [fst snd]; lia|].
    intros H. by destruct (Hnz H). }
  specialize (Hlt E0). destruct (has (chars "|();&<" ++ [0]) (nth s1 l 0)) eqn:Es.
  { rewrite bind_ret. rewrite (bind_Ret _ _ _ _ _ (skip_ok (S s1) _ ltac:(lia))). split; [done|]. cbn [fst snd]. lia. }
  destruct (Z.eqb_spec (nth s1 l 0) (chr ">")) as [Eg|Eg].
  { rewrite bind_bind. rewrite (bind_Ret _ _ _ _ _ (at_ok (S s1) _ ltac:(lia))).
    destruct (Z.eqb_spec (nth (S s1) l 0) (chr ">")) as [Eg2|_]; rewrite bind_ret.
    - assert (S s1 < es)%nat.
      { destruct (decide (S s1 < es)%nat); [done|]. rewrite nth_overflow in Eg2 by (unfold es in *; lia). done. }
      rewrite (bind_Ret _ _ _ _ _ (skip_ok (S (S s1)) _ ltac:(lia))). split; [done|]. cbn [fst snd]. lia.
    - rewrite (bind_Ret _ _ _ _ _ (skip_ok (S s1) _ ltac:(lia))). split; [done|]. cbn [fst snd]. lia. }
  assert (has symbols (nth s1 l 0) = false) as Hsym.
  { revert Es Eg. generalize (nth s1 l 0). clear. intros c. unfold has, symbols. simpl.
    repeat (match goal with |- context [?x =? c] => destruct (Z.eqb_spec x c) as [<-|?] end; [done|]). done. }
  destruct (lookup_lt_is_Some_2 l s1 Hlt) as [c Hc]. rewrite (nth_lookup_Some _ _ _ _ Hc) in *.
  pose proof (span_length word_char (drop s1 l)) as Hsp. rewrite length_drop in Hsp.
  assert (0 < span word_char (drop s1 l))%nat.
  { rewrite (drop_S _ _ _ Hc). cbn [span]. unfold word_char at 1. rewrite Hw, Hsym by done. simpl. lia. }
  rewrite bind_bind. rewrite (bind_Ret _ _ _ _ _ (scan_ok _ (es - s1) s1 _ ltac:(lia))). rewrite bind_ret. fold word_char.
  rewrite (bind_Ret _ _ _ _ _ (skip_ok (s1 + span word_char (drop s1 l))%nat _ ltac:(unfold es in *; lia))). split; [done|]. unfold es in *. cbn [fst snd]. lia.
Qed.

(** ** The parser ends inside the line *)

(** The ends of the strings of a command are inside the line. *)
Fixpoint cmd_ok (c : cmd) : Prop :=
  match c with
  | ExecCmd argv => Forall (λ a, (a.2 ≤ es)%nat) argv
  | RedirCmd c _ efile _ _ => (efile ≤ es)%nat ∧ cmd_ok c
  | PipeCmd l r | ListCmd l r => cmd_ok l ∧ cmd_ok r
  | BackCmd c => cmd_ok c
  end.

(** A command and a position behind [s], or a syntax error. *)
Definition fine (s : nat) (o : outcome nat cmd) : Prop :=
  match o with
  | Ret c s' => (s ≤ s' ≤ es)%nat ∧ cmd_ok c ∧ redirs_ok c
  | Panic _ => True
  | _ => False
  end.

Lemma fine_mono s s' o : (s ≤ s')%nat → fine s' o → fine s o.
Proof. destruct o; simpl; try done. intros ? (? & ?). split; [lia|done]. Qed.

Lemma fine_bind s s1 (m : M nat cmd) (f : cmd → M nat cmd) :
  fine s (m s1) → (∀ c s', (s ≤ s' ≤ es)%nat → cmd_ok c → redirs_ok c → fine s (f c s')) → fine s ((m ≫= f) s1).
Proof. unfold mbind, M_bind. destruct (m s1); simpl; try done. intros (? & ? & ?) Hf. by apply Hf. Qed.

(** [peek] answers true only before the end of the line. *)
Lemma peek_fine toks s (f : bool → M nat cmd) :
  (s ≤ es)%nat →
  (∀ b s', (s ≤ s' ≤ es)%nat → (b = true → s' < es)%nat → fine s (f b s')) → fine s ((peek buf es toks ≫= f) s).
Proof.
  intros Hs H. rewrite (bind_Ret _ _ _ _ _ (peek_ok toks s Hs)). apply H; [by apply skipped_range|].
  intros [Hb _]%andb_true_iff. apply negb_true_iff, Z.eqb_neq in Hb.
  destruct (decide (skipped s < es)%nat); [done|]. rewrite nth_overflow in Hb by (unfold es in *; lia). done.
Qed.

(** [gettoken] moves on before the end of the line. *)
Lemma gettoken_fine s s0 (f : Z * nat * nat → M nat cmd) :
  (s ≤ es)%nat →
  (∀ tok q eq s', (s ≤ s' ≤ es)%nat → (s < es → s < s')%nat → (eq ≤ es)%nat → (tok ≠ 0 → (s < s')%nat) →
    fine s0 (f (tok, q, eq) s')) →
  fine s0 ((gettoken buf es ≫= f) s).
Proof.
  intros Hs H. destruct (gettoken_ok s Hs) as (E & Hr & Hlt). rewrite (bind_Ret _ _ _ _ _ E).
  pose proof (skipped_range s Hs). pose proof (skipped_range (token (skipped s)).2 ltac:(lia)).
  apply H; [lia| |lia|].
  - intros Hse. destruct (decide (skipped s < es)%nat); [specialize (Hlt ltac:(done))|]; lia.
  - intros Htok. destruct (decide (skipped s < es)%nat) as [|Hge]; [specialize (Hlt ltac:(done)); lia|].
    exfalso. apply Htok. unfold token. rewrite nth_overflow by (unfold es in *; lia). done.
Qed.

Lemma parseredirs_fine turns : ∀ c s,
  (s ≤ es)%nat → cmd_ok c → redirs_ok c → (es - s ≤ turns)%nat → fine s (parseredirs buf es turns c s).
Proof.
  induction turns as [|turns IH]; intros c s Hs Hc Hr Ht; cbn [parseredirs]; apply peek_fine; try done;
    intros b s' Hs' Hb; (destruct b; cbn [negb]; [|by split]); specialize (Hb eq_refl); [lia|].
  apply gettoken_fine; [lia|]. intros tok q0 eq0 s1 H1 H1' _ _. apply gettoken_fine; [lia|].
  intros t q eq s2 H2 _ Heq _. destruct (negb (t =? chr "a")); [done|].
  eapply fine_mono; [|apply IH]; [lia|lia| | |lia]; repeat case_match; simpl; auto.
Qed.

Lemma add_arg_ok c q eq : cmd_ok c → redirs_ok c → (eq ≤ es)%nat → cmd_ok (add_arg c q eq) ∧ redirs_ok (add_arg c q eq).
Proof.
  intros Hc Hr He. induction c; simpl in *; try done.
  - split; [|done]. apply Forall_app. split; [done|]. by repeat constructor.
  - destruct Hc as [? Hc], Hr as [? Hr]. destruct (IHc Hc Hr). done.
Qed.

Lemma parseargs_fine turns : ∀ c argc s,
  (s ≤ es)%nat → cmd_ok c → redirs_ok c → (es - s ≤ turns)%nat → fine s (parseargs buf es turns c argc s).
Proof.
  induction turns as [|turns IH]; intros c argc s Hs Hc Hr Ht; cbn [parseargs]; apply peek_fine; try done;
    intros b s' Hs' _; (destruct b; [by split|]); apply gettoken_fine; try lia;
    intros tok q eq s1 H1 _ Heq Htok; (destruct (Z.eqb_spec tok 0); [split; [lia|done]|]);
    specialize (Htok ltac:(done)); (destruct (negb (tok =? chr "a")); [done|]); [lia|].
  destruct (MAXARGS <=? argc + 1); [done|]. destruct (add_arg_ok c q eq Hc Hr Heq) as [Hc' Hr'].
  eapply (fine_mono _ s1); [lia|]. apply fine_bind; [apply parseredirs_fine; [lia|done|done|lia]|].
  intros c' s2 H2 Hc2 Hr2. eapply fine_mono; [|apply IH]; [lia|lia|done|done|lia].
Qed.

Lemma parseback_fine turns : ∀ c s,
  (s ≤ es)%nat → cmd_ok c → redirs_ok c → (es - s ≤ turns)%nat → fine s (parseback buf es turns c s).
Proof.
  induction turns as [|turns IH]; intros c s Hs Hc Hr Ht; cbn [parseback]; apply peek_fine; try done;
    intros b s' Hs' Hb; (destruct b; cbn [negb]; [|by split]); specialize (Hb eq_refl); [lia|].
  apply gettoken_fine; [lia|]. intros tok q eq s1 H1 H1' _ _.
  eapply fine_mono; [|apply IH]; [lia|lia|done|done|lia].
Qed.

Lemma length_buf : (es < length buf)%nat.
Proof. unfold es, buf. rewrite length_app. simpl. lia. Qed.

Lemma grammar_fine n : ∀ s, (s ≤ es)%nat →
  ((4 * (es - s) + 4 ≤ n)%nat → fine s (parseline buf es n s)) ∧
  ((4 * (es - s) + 3 ≤ n)%nat → fine s (parsepipe buf es n s)) ∧
  ((4 * (es - s) + 2 ≤ n)%nat → fine s (parseexec buf es n s)) ∧
  ((4 * (es - s) + 1 ≤ n)%nat → fine s (parseblock buf es n s)).
Proof.
  pose proof length_buf as Hlen. induction n as [|n IH]; intros s Hs; [lia|].
  split; [|split; [|split]]; intros Hn; cbn [parseline parsepipe parseexec parseblock].
  - apply fine_bind; [apply IH; lia|]. intros c s1 H1 Hc Hr. eapply (fine_mono _ s1); [lia|].
    apply fine_bind; [apply parseback_fine; [lia|done|done|lia]|]. intros c2 s2 H2 Hc2 Hr2.
    eapply (fine_mono _ s2); [lia|]. apply peek_fine; [lia|]. intros b s3 H3 Hb.
    destruct b; [|split; [lia|done]]. specialize (Hb eq_refl). apply gettoken_fine; [lia|].
    intros tok q eq s4 H4 H4' _ _. eapply (fine_mono _ s4); [lia|]. apply fine_bind; [apply IH; lia|].
    intros c5 s5 H5 Hc5 Hr5. split; [lia|]. simpl. tauto.
  - apply fine_bind; [apply IH; lia|]. intros c s1 H1 Hc Hr. eapply (fine_mono _ s1); [lia|]. apply peek_fine; [lia|].
    intros b s2 H2 Hb. destruct b; [|split; [lia|done]]. specialize (Hb eq_refl). apply gettoken_fine; [lia|].
    intros tok q eq s3 H3 H3' _ _. eapply (fine_mono _ s3); [lia|]. apply fine_bind; [apply IH; lia|].
    intros c4 s4 H4 Hc4 Hr4. split; [lia|]. simpl. tauto.
  - apply peek_fine; [done|]. intros b s1 H1 Hb. destruct b.
    + eapply (fine_mono _ s1); [lia|]. apply IH; lia.
    + eapply (fine_mono _ s1); [lia|]. apply fine_bind; [apply parseredirs_fine; [lia|by constructor|done|lia]|].
      intros c s2 H2 Hc Hr. eapply (fine_mono _ s2); [lia|]. apply parseargs_fine; [lia|done|done|lia].
  - apply peek_fine; [done|]. intros b s1 H1 Hb. destruct b; cbn [negb]; [|done]. specialize (Hb eq_refl).
    apply gettoken_fine; [lia|]. intros tok q eq s2 H2 H2' _ _. eapply (fine_mono _ s2); [lia|].
    apply fine_bind; [apply IH; lia|]. intros c s3 H3 Hc Hr. eapply (fine_mono _ s3); [lia|]. apply peek_fine; [lia|].
    intros b' s4 H4 _. destruct b'; cbn [negb]; [|done]. apply gettoken_fine; [lia|].
    intros tok' q' eq' s5 H5 _ _ _. eapply (fine_mono _ s5); [lia|]. apply parseredirs_fine; [lia|done|done|lia].
Qed.

Lemma parse_fine : fine 0 (parse buf es).
Proof.
  unfold parse. apply fine_bind; [apply grammar_fine; lia|]. intros c s Hs Hc Hr.
  eapply (fine_mono _ s); [lia|]. apply peek_fine; [lia|]. intros b s' Hs' _. split; [lia|done].
Qed.
End parser.

(** ** No fault *)

(** A program that neither faults nor hangs, whatever the kernel answers. *)
Fixpoint safe {A} (p : prog A) : Prop :=
  match p with
  | Done _ => True
  | Call c k => ∀ r, safe (k r)
  | Fault | Hung => False
  end.

Lemma safe_bind {A B} (p : prog A) (f : A → prog B) : safe p → (∀ a, safe (f a)) → safe (p ≫= f).
Proof. intros Hp Hf. induction p as [a|R c k IH| |]; simpl in *; auto. Qed.

Lemma safe_puts fd s : safe (puts fd s).
Proof. induction s as [|c s IH]; [done|]. apply safe_bind; [by intros r|done]. Qed.

Lemma safe_printf_loop fd fmt : ∀ state ap, is_Some (formatted state fmt ap) → safe (printf_loop fd state fmt ap).
Proof.
  induction fmt as [|c fmt IH]; intros state ap Hf; cbn [printf_loop formatted] in *; [done|].
  repeat (case_match; try (by destruct Hf); try (by apply IH));
    rewrite ?fmap_is_Some in Hf; (apply safe_bind; [first [apply safe_puts|by intros r]|intros _]); try (by apply IH).
  apply safe_bind; [by intros r|intros _; by apply IH].
Qed.

Lemma safe_panic {A} s : safe (@panic A s).
Proof. apply safe_bind; [|by intros _ []]. apply safe_printf_loop. by eexists. Qed.

Lemma nulterminate_inside c : ∀ b n,
  cmd_ok n c → (length n < length b)%nat → ∃ b', nulterminate c b = Some b' ∧ length b' = length b.
Proof.
  assert (∀ n b i, (i ≤ es n)%nat → (length n < length b)%nat → put b i 0 = Some (<[i := 0]> b)) as Hput.
  { intros n b i Hi Hb. unfold put, es in *. destruct (Nat.ltb_spec i (length b)); [done|lia]. }
  induction c as [argv|c IH file efile mode fd|l IHl r IHr|l IHl r IHr|c IH]; intros b n Hc Hb; simpl in *.
  - revert b Hb. induction argv as [|a argv IH]; intros b Hb; [by exists b|]. inversion Hc; subst. simpl.
    rewrite (Hput n) by done. destruct (IH ltac:(done) (<[a.2 := 0]> b)) as (b' & Hb' & Hl); [by rewrite length_insert|].
    exists b'. by rewrite Hb', length_insert in *.
  - destruct Hc as [He Hc]. destruct (IH b n Hc Hb) as (b' & -> & Hl). simpl. rewrite (Hput n) by (done || lia).
    eexists. split; [done|]. by rewrite length_insert.
  - destruct Hc as [H1 H2]. destruct (IHl b n H1 Hb) as (b1 & -> & Hl1). simpl.
    destruct (IHr b1 n H2 ltac:(lia)) as (b2 & -> & Hl2). exists b2. split; [done|lia].
  - destruct Hc as [H1 H2]. destruct (IHl b n H1 Hb) as (b1 & -> & Hl1). simpl.
    destruct (IHr b1 n H2 ltac:(lia)) as (b2 & -> & Hl2). exists b2. split; [done|lia].
  - by eapply IH.
Qed.

Lemma strlen_buf l junk : 0 ∉ l → Ulib.strlen (buf l junk) = Some (Z.of_nat (es l)).
Proof.
  unfold buf, es. induction l as [|c l IH]; simpl; [done|]. rewrite not_elem_of_cons. intros [H1 H2].
  destruct (Z.eqb_spec c 0); [congruence|]. rewrite IH by done. simpl. f_equal. lia.
Qed.

(** C33.  Parsing a line always ends, with a command or with a message and
    [exit], whatever characters the line holds: no access leaves the buffer,
    and every loop and recursion of the parser terminates. *)
Theorem parsecmd_safe l junk : 0 ∉ l → safe (parsecmd (l ++ 0 :: junk)).
Proof.
  intros Hl. unfold parsecmd. change (l ++ 0 :: junk) with (buf l junk). rewrite strlen_buf by done. cbn [mem].
  change (Done (Z.of_nat (es l)) ≫= ?f) with (f (Z.of_nat (es l))). cbv beta zeta.
  rewrite Nat2Z.id. pose proof (parse_fine l junk Hl) as Hf. destruct (parse (buf l junk) (es l)) as [c s|msg| | | |]; try done.
  - destruct Hf as (Hs & Hc & _). destruct (Nat.eqb_spec s (es l)) as [->|_]; cbn [negb].
    + destruct (nulterminate_inside c (buf l junk) l Hc) as (b' & -> & _); [by apply length_buf|]. done.
    + apply safe_bind; [|intros _; apply safe_panic]. apply safe_printf_loop. by eexists.
  - apply safe_panic.
Qed.

Lemma parsecmd_safe_witness : safe (parsecmd (chars "echo hi > f | (" ++ 0 :: [])).
Proof. apply parsecmd_safe. by apply (bool_decide_unpack _). Defined.
