(* ===== verification/ShPrint.v ===== *)
(** ShPrint: printing a command and parsing it back.

    A [tree] is a command with its strings.  [ptoks] prints it as tokens with
    the parentheses that the grammar needs, [render] writes the tokens with a
    blank after each word. *)

From S2P Require Import Prelude Layout CString User Ulib Printf Sh ShRun ShParse.

Inductive tree :=
| TExec (args : list (list Z))
| TRedir (t : tree) (out : bool) (file : list Z)
| TPipe (l r : tree)
| TList (l r : tree)
| TBack (t : tree).

Inductive tok := Word (w : list Z) | Sym (c : Z).

Definition render1 (t : tok) : list Z := match t with Word w => w ++ [32] | Sym c => [c] end.
Definition render (ts : list tok) : list Z := concat (render1 <$> ts).

Definition paren (b : bool) (ts : list tok) : list tok := if b then Sym (chr "(") :: ts ++ [Sym (chr ")")] else ts.

(** The four levels of the grammar: 0 for [parseexec], 1 for [parsepipe], 2
    for a pipe line with its [&]s and 3 for [parseline] *)
Fixpoint ptoks (level : nat) (t : tree) : list tok :=
  match t with
  | TExec args => Word <$> args
  | TRedir t out w => ptoks 0 t ++ [Sym (if out then chr ">" else chr "<"); Word w]
  | TPipe l r => paren (level <? 1)%nat (ptoks 0 l ++ Sym (chr "|") :: ptoks 1 r)
  | TBack t => paren (level <? 2)%nat (ptoks 2 t ++ [Sym (chr "&")])
  | TList l r => paren (level <? 3)%nat (ptoks 2 l ++ Sym (chr ";") :: ptoks 3 r)
  end.

Definition print (t : tree) : list Z := render (ptoks 3 t).

(** Words are not empty and hold no blanks, symbols or NULs; a command has
    fewer than MAXARGS arguments. *)
Definition word_ok (w : list Z) : Prop := w ≠ [] ∧ Forall (λ c, word_char c = true ∧ c ≠ 0) w.

#[global] Instance word_ok_dec w : Decision (word_ok w).
Proof. unfold word_ok. apply _. Defined.

Fixpoint tree_ok (t : tree) : Prop :=
  match t with
  | TExec args => Forall word_ok args ∧ Z.of_nat (length args) < MAXARGS
  | TRedir t _ w => word_ok w ∧ tree_ok t
  | TPipe l r | TList l r => tree_ok l ∧ tree_ok r
  | TBack t => tree_ok t
  end.

(** ** Reading tokens *)

Definition is_symbol (c : Z) : Prop := c ∈ chars "<|>&;()".
#[global] Instance is_symbol_dec c : Decision (is_symbol c).
Proof. unfold is_symbol. apply _. Defined.
Definition tok_ok (t : tok) : Prop := match t with Word w => word_ok w | Sym c => is_symbol c end.

(** No [>] is directly followed by another one. *)
Fixpoint toks_ok (ts : list tok) : Prop :=
  match ts with
  | [] => True
  | t :: ts => tok_ok t ∧ (t = Sym (chr ">") → head ts ≠ Some (Sym (chr ">"))) ∧ toks_ok ts
  end.

Lemma symbol_props c : is_symbol c → has symbols c = true ∧ has whitespace c = false ∧ c ≠ 0.
Proof.
  unfold is_symbol. simpl. intros H. repeat (apply elem_of_cons in H as [->|H]; [done|]). by apply elem_of_nil in H.
Qed.

Lemma word_char_props c : word_char c = true → c ≠ 0 → ¬ is_symbol c ∧ has whitespace c = false.
Proof.
  unfold word_char. intros [H1 H2]%andb_true_iff Hc. rewrite negb_true_iff in H1, H2. split; [|done].
  intros (H & _)%symbol_props. congruence.
Qed.

Lemma has_symbols set c : Forall is_symbol (chars set) → has (chars set ++ [0]) c = true → is_symbol c.
Proof.
  intros Hs Hh. rewrite Forall_forall in Hs. apply Hs. clear Hs. revert Hh. unfold has. induction (chars set) as [|x xs IH]; simpl.
  - by destruct (0 =? c).
  - destruct (Z.eqb_spec x 0); [done|]. destruct (Z.eqb_spec x c) as [->|]; [by left|]. intros H. right. by apply IH.
Qed.

Lemma span_app_stop p w c r : Forall (λ x, p x = true) w → p c = false → span p (w ++ c :: r) = length w.
Proof. intros Hw Hc. induction Hw as [|x w Hx Hw IH]; simpl; [by rewrite Hc|]. by rewrite Hx, IH. Qed.

Lemma toks_ok_app_r ts ts' : toks_ok (ts ++ ts') → toks_ok ts'.
Proof. induction ts as [|t ts IH]; simpl; [done|]. intros (_ & _ & H). by apply IH. Qed.

Lemma sym_ok c ts : is_symbol c → c ≠ chr ">" → toks_ok ts → toks_ok (Sym c :: ts).
Proof. intros H1 H2 H3. split; [done|]. split; [|done]. by intros [= ->]. Qed.

Ltac solve_symbol := by apply (bool_decide_unpack _).

Lemma ptoks_ok t : ∀ level rest, tree_ok t → toks_ok rest → toks_ok (ptoks level t ++ rest).
Proof.
  assert (∀ b ts rest, (∀ rest, toks_ok rest → toks_ok (ts ++ rest)) → toks_ok rest → toks_ok (paren b ts ++ rest)) as Hparen.
  { intros [] ts rest Hts Hr; simpl; [|by apply Hts]. rewrite <-app_assoc. apply sym_ok; [solve_symbol|done|].
    apply Hts. apply sym_ok; [solve_symbol|done|done]. }
  induction t as [args|t IH out w|l IHl r IHr|l IHl r IHr|t IH]; intros level rest Hok Hr; cbn [ptoks tree_ok] in *.
  - destruct Hok as [Hw _]. induction Hw as [|w args Hw _ IH]; simpl; [done|]. by split.
  - destruct Hok as [Hw Hok]. rewrite <-app_assoc. apply IH; [done|]. simpl. split; [destruct out; solve_symbol|].
    split; [done|]. by split.
  - apply Hparen; [|done]. intros rest' Hr'. rewrite <-app_assoc. apply IHl; [tauto|].
    apply sym_ok; [solve_symbol|done|]. apply IHr; tauto.
  - apply Hparen; [|done]. intros rest' Hr'. rewrite <-app_assoc. apply IHl; [tauto|].
    apply sym_ok; [solve_symbol|done|]. apply IHr; tauto.
  - apply Hparen; [|done]. intros rest' Hr'. rewrite <-app_assoc. apply IH; [tauto|].
    apply sym_ok; [solve_symbol|done|done].
Qed.

(** What [peek] sees. *)
Definition peeked (set : string) (ts : list tok) : bool :=
  match ts with Sym c :: _ => has (chars set ++ [0]) c | _ => false end.

(** The tokens are over, or the next one is in [set]. *)
Definition follows (set : string) (ts : list tok) : Prop := ts = [] ∨ peeked set ts = true.

Lemma has_elem xs c : 0 ∉ xs → has (xs ++ [0]) c = true ↔ c ∈ xs.
Proof.
  unfold has. induction xs as [|x xs IH]; simpl; [intros _; split; [by destruct (0 =? c)|by intros ?%elem_of_nil]|].
  rewrite not_elem_of_cons. intros [Hx Hxs]. destruct (Z.eqb_spec x 0); [congruence|].
  destruct (Z.eqb_spec x c) as [->|Hne]; [split; [by left|done]|]. rewrite (IH Hxs), elem_of_cons. naive_solver.
Qed.

(** The sets of a grammar level exclude each other. *)
Lemma follows_not set set' ts :
  follows set ts → 0 ∉ chars set → 0 ∉ chars set' → Forall (λ c, c ∉ chars set') (chars set) → peeked set' ts = false.
Proof.
  intros [->|Hp] H0 H0' Hd; [done|]. destruct ts as [|[w|c] ts]; simpl in *; [done..|].
  apply has_elem in Hp; [|done]. rewrite Forall_forall in Hd. destruct (has _ c) eqn:E; [|done].
  apply has_elem in E; [|done]. by destruct (Hd c).
Qed.

Lemma follows_weaken set set' ts :
  follows set ts → 0 ∉ chars set → 0 ∉ chars set' → Forall (λ c, c ∈ chars set') (chars set) → follows set' ts.
Proof.
  intros [->|Hp] H0 H0' Hd; [by left|]. destruct ts as [|[w|c] ts]; simpl in *; [done..|]. right. simpl.
  apply has_elem in Hp; [|done]. rewrite Forall_forall in Hd. apply has_elem; [done|]. by apply Hd.
Qed.

Ltac solve_sets := by apply (bool_decide_unpack _).

(** ** Redirections *)

Definition redir_toks (rs : list (bool * list Z)) : list tok :=
  rs ≫= λ r, [Sym (if r.1 : bool then chr ">" else chr "<"); Word r.2].

Definition wrap (b : tree) (rs : list (bool * list Z)) : tree := foldl (λ t r, TRedir t r.1 r.2) b rs.

Lemma wrap_snoc b rs r : wrap b (rs ++ [r]) = TRedir (wrap b rs) r.1 r.2.
Proof. unfold wrap. by rewrite foldl_app. Qed.

Lemma ptoks_wrap b rs : ptoks 0 (wrap b rs) = ptoks 0 b ++ redir_toks rs.
Proof.
  induction rs as [|r rs IH] using rev_ind; [by rewrite app_nil_r|]. rewrite wrap_snoc. cbn [ptoks].
  rewrite IH, <-app_assoc. unfold redir_toks. by rewrite bind_app.
Qed.

Lemma unwrap t : ∃ b rs, t = wrap b rs ∧ ∀ t' o w, b ≠ TRedir t' o w.
Proof.
  induction t as [args|t IH out w|l _ r _|l _ r _|t _].
  2: { destruct IH as (b & rs & -> & Hb). exists b, (rs ++ [(out, w)]). by rewrite wrap_snoc. }
  all: eexists _, []; by split.
Qed.

Section reader.
Context (l junk : list Z) (Hl : 0 ∉ l).
Notation buf := (buf l junk).
Notation es := (es l).
Notation skipped := (skipped l).

(** The tokens [ts] are left at [s]. *)
Definition pos (s : nat) (ts : list tok) : Prop := (s ≤ es)%nat ∧ drop s l = render ts.

Lemma pos_char s ts : pos s ts → nth s l 0 = default 0 (head (render ts)).
Proof.
  intros [Hs E]. rewrite <-E. destruct (decide (s = es)) as [->|Hne].
  - rewrite drop_ge, nth_overflow by (unfold ShParse.es; lia). done.
  - destruct (lookup_lt_is_Some_2 l s) as [c Hc]; [unfold ShParse.es in *; lia|].
    by rewrite (drop_S _ _ _ Hc), (nth_lookup_Some _ _ _ _ Hc).
Qed.

Lemma pos_skipped s ts : pos s ts → toks_ok ts → skipped s = s.
Proof.
  intros [_ E] Hok. unfold ShParse.skipped. rewrite E. destruct ts as [|[[|c w]|c] ts]; simpl in *; [lia| | |].
  - by destruct Hok as [[? _] _].
  - destruct Hok as [[_ Hw] _]. inversion Hw as [|? ? [H1 H2] _]; subst.
    destruct (word_char_props _ H1 H2) as [_ ->]. lia.
  - destruct Hok as [(_ & -> & _)%symbol_props _]. lia.
Qed.

Lemma pos_next s n ts t : pos s (t :: ts) → length (render1 t) = n → pos (s + n) ts.
Proof.
  intros [Hs E] <-. change (render (t :: ts)) with (render1 t ++ render ts) in E. split.
  - apply (f_equal length) in E. rewrite length_drop, length_app in E. unfold ShParse.es in *. lia.
  - by rewrite <-drop_drop, E, drop_app_length.
Qed.

Lemma peek_pos set s ts :
  pos s ts → toks_ok ts → Forall is_symbol (chars set) → peek buf es set s = Ret (peeked set ts) s.
Proof.
  intros Hp Hok Hset. rewrite peek_ok by (done || apply Hp). rewrite (pos_skipped s ts Hp Hok), (pos_char s ts Hp).
  f_equal. destruct ts as [|[[|c w]|c] ts]; simpl in *; [done|by destruct Hok as [[? _] _]| |].
  - destruct Hok as [[_ Hw] _]. inversion Hw as [|? ? [H1 H2] _]; subst. destruct (word_char_props _ H1 H2) as [Hns _].
    destruct (has _ c) eqn:E; [|apply andb_false_r]. by apply has_symbols in E.
  - destruct Hok as [(_ & _ & Hc)%symbol_props _]. destruct (Z.eqb_spec c 0); [done|]. done.
Qed.

(** The word [w] is at the offsets [q] to [eq], and a blank follows it. *)
Definition word_at (w : list Z) (q eq : nat) : Prop :=
  eq = (q + length w)%nat ∧ take (length w) (drop q l) = w ∧ l !! eq = Some 32.

Lemma gettoken_word s w ts :
  pos s (Word w :: ts) → toks_ok (Word w :: ts) →
  ∃ q eq s', gettoken buf es s = Ret (chr "a", q, eq) s' ∧ pos s' ts ∧ word_at w q eq ∧ (s < s')%nat.
Proof.
  intros Hp Hok. pose proof (pos_skipped _ _ Hp Hok) as Esk. pose proof (pos_char _ _ Hp) as Ec.
  pose proof Hp as [Hs Ed]. destruct (gettoken_ok l junk Hl s Hs) as (E & _ & _). rewrite Esk in E.
  pose proof (pos_next _ _ _ _ Hp eq_refl) as Hp1. simpl in Hp1. rewrite length_app in Hp1. simpl in Hp1.
  pose proof Hok as [[Hne Hw] [_ Hok1]]. pose proof (pos_skipped _ _ Hp1 Hok1) as Esk1.
  change (render (Word w :: ts)) with ((w ++ [32]) ++ render ts) in Ed, Ec. rewrite <-app_assoc in Ed, Ec. cbn [app] in Ed, Ec.
  assert (token l s = (chr "a", (s + length w)%nat)) as Et.
  { unfold token. rewrite Ec, Ed. clear -Hne Hw. destruct w as [|c w]; [done|]. simpl in *. inversion Hw as [|? ? [H1 H2] Hw']; subst.
    destruct (word_char_props _ H1 H2) as [Hns _]. destruct (Z.eqb_spec c 0); [done|].
    destruct (has _ c) eqn:Eh.
    { exfalso. apply Hns. apply (has_symbols "|();&<"); [|exact Eh]. by apply (bool_decide_unpack _). }
    destruct (Z.eqb_spec c (chr ">")) as [->|]; [exfalso; apply Hns; by apply (bool_decide_unpack _)|].
    rewrite H1. rewrite span_app_stop; [done| |done]. eapply Forall_impl; [exact Hw'|]. by intros ? []. }
  rewrite Et in E. cbn [fst snd] in E.
  assert (skipped (s + length w) = (s + (length w + 1))%nat) as Es.
  { unfold ShParse.skipped. rewrite <-drop_drop, Ed, drop_app_length. cbn [span]. change (has whitespace 32) with true. cbv iota.
    unfold ShParse.skipped in Esk1. destruct Hp1 as [_ Ed1]. rewrite Ed1 in Esk1. lia. }
  rewrite Es in E. exists s, (s + length w)%nat, (s + (length w + 1))%nat. split; [done|]. split; [done|]. split; [|lia].
  split; [done|]. rewrite Ed, take_app_length. split; [done|].
  rewrite <-lookup_drop, Ed, lookup_app_r, Nat.sub_diag by lia. done.
Qed.

Lemma gettoken_sym s c ts :
  pos s (Sym c :: ts) → toks_ok (Sym c :: ts) →
  ∃ q eq s', gettoken buf es s = Ret (c, q, eq) s' ∧ pos s' ts ∧ (s < s')%nat.
Proof.
  intros Hp Hok. pose proof (pos_skipped _ _ Hp Hok) as Esk. pose proof (pos_char _ _ Hp) as Ec. simpl in Ec.
  pose proof Hp as [Hs Ed]. destruct (gettoken_ok l junk Hl s Hs) as (E & _ & _). rewrite Esk in E.
  pose proof (pos_next _ 1 _ _ Hp eq_refl) as Hp1. pose proof Hok as [Hc [Hgt Hok1]]. pose proof (pos_skipped _ _ Hp1 Hok1) as Esk1.
  pose proof (pos_char _ _ Hp1) as Ec1. replace (s + 1)%nat with (S s) in * by lia.
  assert (token l s = (c, S s)) as Et.
  { unfold token. rewrite Ec, Ec1. destruct (symbol_props c Hc) as (_ & _ & Hnz). destruct (Z.eqb_spec c 0); [done|].
    destruct (has (chars "|();&<" ++ [0]) c) eqn:Eh; [done|].
    assert (c = chr ">") as ->.
    { revert Eh. unfold tok_ok, is_symbol in Hc. simpl in Hc.
      repeat (apply elem_of_cons in Hc as [->|Hc]; [done|]). by apply elem_of_nil in Hc. }
    rewrite Z.eqb_refl. destruct (Z.eqb_spec (default 0 (head (render ts))) (chr ">")) as [Eg|]; [|done].
    exfalso. destruct ts as [|[[|d w]|d] ts]; simpl in *; [done|by destruct Hok1 as [[? _] _]| |].
    - destruct Hok1 as [[_ Hw] _]. inversion Hw as [|? ? [H1 H2] _]. rewrite Eg in H1. by vm_compute in H1.
    - rewrite Eg in Hgt. exfalso. by apply Hgt. }
  rewrite Et in E. cbn [fst snd] in E. rewrite Esk1 in E. exists s, (S s), (S s). split; [done|]. split; [done|lia].
Qed.

Lemma gettoken_end s : pos s [] → ∃ q eq s', gettoken buf es s = Ret (0, q, eq) s' ∧ pos s' [].
Proof.
  intros Hp. pose proof (pos_skipped _ _ Hp I) as Esk. pose proof Hp as [Hs _]. pose proof (pos_char _ _ Hp) as Ec. simpl in Ec.
  destruct (gettoken_ok l junk Hl s Hs) as (E & _ & _). rewrite Esk in E.
  assert (token l s = (0, s)) as Et by (unfold token; by rewrite Ec). rewrite Et in E. cbn [fst snd] in E. rewrite Esk in E.
  by exists s, s, s.
Qed.

(** ** The command that was read *)

(** The modes of [<] and [>]. *)
Definition redir_mode (out : bool) : Z := if out then Z.lor O_WRONLY O_CREATE else O_RDONLY.

Fixpoint denotes (c : cmd) (t : tree) : Prop :=
  match c, t with
  | ExecCmd argv, TExec args => Forall2 (λ a w, word_at w a.1 a.2) argv args
  | RedirCmd c q eq mode fd, TRedir t out w =>
      word_at w q eq ∧ mode = redir_mode out ∧ fd = (if out then 1 else 0) ∧ denotes c t
  | PipeCmd l r, TPipe l' r' | ListCmd l r, TList l' r' => denotes l l' ∧ denotes r r'
  | BackCmd c, TBack t => denotes c t
  | _, _ => False
  end.

Lemma parseredirs_pos rs : ∀ turns c b s rest,
  pos s (redir_toks rs ++ rest) → toks_ok (redir_toks rs ++ rest) → peeked "<>" rest = false →
  denotes c b → (es - s ≤ turns)%nat →
  ∃ c' s', parseredirs buf es turns c s = Ret c' s' ∧ pos s' rest ∧ denotes c' (wrap b rs) ∧ (s ≤ s')%nat.
Proof.
  induction rs as [|[out w] rs IH]; intros turns c b s rest Hp Hok Hr Hd Ht.
  - exists c, s. simpl in *. split; [|by split]. destruct turns; cbn [parseredirs];
      rewrite (bind_Ret _ _ _ _ _ (peek_pos "<>" s rest Hp Hok ltac:(solve_sets))), Hr; done.
  - change (redir_toks ((out, w) :: rs) ++ rest) with (Sym (if out then chr ">" else chr "<") :: Word w :: redir_toks rs ++ rest) in Hp, Hok.
    destruct (gettoken_sym _ _ _ Hp Hok) as (q0 & e0 & s1 & E1 & Hp1 & Hlt1). pose proof Hok as (_ & _ & Hok1).
    destruct (gettoken_word _ _ _ Hp1 Hok1) as (q & e & s2 & E2 & Hp2 & Hw & Hlt2). pose proof Hok1 as (_ & _ & Hok2).
    pose proof (proj1 Hp2). destruct turns as [|turns]; [lia|].
    cbn [parseredirs]. rewrite (bind_Ret _ _ _ _ _ (peek_pos "<>" s _ Hp Hok ltac:(solve_sets))).
    assert (peeked "<>" (Sym (if out then chr ">" else chr "<") :: Word w :: redir_toks rs ++ rest) = true) as -> by by destruct out.
    cbn [negb]. rewrite (bind_Ret _ _ _ _ _ E1), (bind_Ret _ _ _ _ _ E2). rewrite Z.eqb_refl. cbn [negb].
    match goal with |- context [parseredirs _ _ turns ?x] => destruct (IH turns x (TRedir b out w) s2 rest) as (c' & s' & E & Hp' & Hd' & Hle) end;
      [done|done|done|by destruct out|lia|].
    exists c', s'. split; [done|]. split; [done|]. split; [done|lia].
Qed.

(** [peek] at the tokens [ts]. *)
Lemma bind_peek {B} set s ts (f : bool → M nat B) :
  pos s ts → toks_ok ts → Forall is_symbol (chars set) → (peek buf es set ≫= f) s = f (peeked set ts) s.
Proof. intros Hp Hok Hs. by rewrite (bind_Ret _ _ _ _ _ (peek_pos set s ts Hp Hok Hs)). Qed.

(** The end of the arguments. *)
Lemma parseargs_end turns c argc s rest :
  pos s rest → toks_ok rest → follows "|)&;" rest →
  ∃ s', parseargs buf es turns c argc s = Ret c s' ∧ pos s' rest ∧ (s ≤ s')%nat.
Proof.
  intros Hp Hok Hf.
  assert (parseargs buf es turns c argc s = (b ← peek buf es "|)&;"; if (b : bool) then mret c else
    '(tok, q, eq) ← gettoken buf es; if tok =? 0 then mret c else if negb (tok =? chr "a") then Prelude.panic "syntax" else
    match turns with O => nofuel | S turns =>
      if MAXARGS <=? argc + 1 then Prelude.panic "too many args" else
      ret ← parseredirs buf es turns (add_arg c q eq); parseargs buf es turns ret (argc + 1) end) s) as -> by by destruct turns.
  rewrite (bind_peek "|)&;" s rest) by (done || solve_sets). destruct Hf as [->| ->]; [|by exists s].
  destruct (gettoken_end s Hp) as (q & e & s' & E & Hp'). cbn [peeked]. rewrite (bind_Ret _ _ _ _ _ E). exists s'.
  split; [done|]. split; [done|]. destruct Hp as [H3 H1], Hp' as [H4 H2].
  apply (f_equal length) in H1, H2. rewrite length_drop in H1, H2. simpl in *. unfold ShParse.es in *. lia.
Qed.

Lemma parseargs_pos args : ∀ turns argv pre rs s rest,
  args ≠ [] → pos s ((Word <$> args) ++ redir_toks rs ++ rest) → toks_ok ((Word <$> args) ++ redir_toks rs ++ rest) →
  follows "|)&;" rest → denotes (ExecCmd argv) (TExec pre) →
  Z.of_nat (length pre) + Z.of_nat (length args) < MAXARGS → (es - s ≤ turns)%nat →
  ∃ c' s', parseargs buf es turns (ExecCmd argv) (Z.of_nat (length pre)) s = Ret c' s' ∧ pos s' rest ∧
    denotes c' (wrap (TExec (pre ++ args)) rs) ∧ (s ≤ s')%nat.
Proof.
  induction args as [|w args IH]; intros turns argv pre rs s rest Hne Hp Hok Hf Hd Hm Ht; [done|]. cbn [fmap list_fmap app] in Hp, Hok.
  destruct (gettoken_word _ _ _ Hp Hok) as (q & e & s1 & E1 & Hp1 & Hw & Hlt). pose proof Hok as (_ & _ & Hok1).
  pose proof (proj1 Hp1). destruct turns as [|turns]; [lia|]. cbn [parseargs].
  rewrite (bind_peek "|)&;" s _ _ Hp Hok ltac:(solve_sets)). cbn [peeked]. rewrite (bind_Ret _ _ _ _ _ E1).
  change (chr "a" =? 0) with false. rewrite Z.eqb_refl. cbn [negb add_arg]. simpl in Hm.
  destruct (Z.leb_spec MAXARGS (Z.of_nat (length pre) + 1)); [lia|].
  assert (denotes (ExecCmd (argv ++ [(q, e)])) (TExec (pre ++ [w]))) as Hd1.
  { simpl in *. apply Forall2_app; [done|]. apply Forall2_cons. split; [exact Hw|done]. }
  replace (Z.of_nat (length pre) + 1) with (Z.of_nat (length (pre ++ [w]))) by (rewrite length_app; simpl; lia).
  destruct args as [|w' args].
  - simpl in Hp1, Hok1. destruct (parseredirs_pos rs turns (ExecCmd (argv ++ [(q, e)])) (TExec (pre ++ [w])) s1 rest Hp1 Hok1) as (c2 & s2 & E2 & Hp2 & Hd2 & Hle2);
      [eapply follows_not; [exact Hf|solve_sets..]|exact Hd1|lia|].
    rewrite (bind_Ret _ _ _ _ _ E2). pose proof (toks_ok_app_r _ _ Hok1) as Hok2.
    destruct (parseargs_end turns c2 (Z.of_nat (length (pre ++ [w]))) s2 rest Hp2 Hok2 Hf) as (s3 & E3 & Hp3 & Hle3).
    exists c2, s3. split; [done|]. split; [done|]. split; [done|lia].
  - destruct (parseredirs_pos [] turns (ExecCmd (argv ++ [(q, e)])) (TExec (pre ++ [w])) s1 _ Hp1 Hok1 eq_refl Hd1)
      as (c2 & s2 & E2 & Hp2 & Hd2 & Hle2); [lia|]. rewrite (bind_Ret _ _ _ _ _ E2).
    simpl in Hd2. destruct c2 as [argv2| | | |]; try done.
    destruct (IH turns argv2 (pre ++ [w]) rs s2 rest) as (c3 & s3 & E3 & Hp3 & Hd3 & Hle3); try done.
    { rewrite length_app. simpl in *. lia. } { lia. }
    exists c3, s3. split; [done|]. split; [done|]. rewrite <-app_assoc in Hd3. split; [done|lia].
Qed.

(** Simple commands: the arguments, then the redirections. *)
Lemma simple_pos args rs s rest :
  pos s (ptoks 0 (wrap (TExec args) rs) ++ rest) → toks_ok (ptoks 0 (wrap (TExec args) rs) ++ rest) →
  follows "|)&;" rest → Z.of_nat (length args) < MAXARGS →
  ∃ c s', (ret ← parseredirs buf es (length buf) (ExecCmd []); parseargs buf es (length buf) ret 0) s = Ret c s' ∧
    pos s' rest ∧ denotes c (wrap (TExec args) rs) ∧ (s ≤ s')%nat.
Proof.
  intros Hp Hok Hf Hm. rewrite ptoks_wrap, <-app_assoc in Hp, Hok. cbn [ptoks] in Hp, Hok. pose proof (length_buf l junk) as Hlen.
  assert (denotes (ExecCmd []) (TExec [])) as Hd0 by constructor.
  destruct args as [|w args].
  - destruct (parseredirs_pos rs (length buf) (ExecCmd []) (TExec []) s rest Hp Hok) as (c1 & s1 & E1 & Hp1 & Hd1 & Hle1);
      [eapply follows_not; [exact Hf|solve_sets..]|exact Hd0|lia|].
    rewrite (bind_Ret _ _ _ _ _ E1).
    destruct (parseargs_end (length buf) c1 0 s1 rest Hp1 (toks_ok_app_r (redir_toks rs) rest Hok) Hf) as (s2 & E2 & Hp2 & Hle2).
    exists c1, s2. split; [done|]. split; [done|]. split; [done|lia].
  - destruct (parseredirs_pos [] (length buf) (ExecCmd []) (TExec []) s _ Hp Hok eq_refl Hd0) as (c1 & s1 & E1 & Hp1 & Hd1 & Hle1); [lia|].
    rewrite (bind_Ret _ _ _ _ _ E1). simpl in Hd1. destruct c1 as [argv| | | |]; try done.
    destruct (parseargs_pos (w :: args) (length buf) argv [] rs s1 rest) as (c2 & s2 & E2 & Hp2 & Hd2 & Hle2); try done; [lia|].
    exists c2, s2. split; [done|]. split; [done|]. split; [done|lia].
Qed.

(** The [&]s after a pipe line. *)
Lemma parseback_pos k : ∀ turns c t s rest,
  pos s (replicate k (Sym (chr "&")) ++ rest) → toks_ok (replicate k (Sym (chr "&")) ++ rest) → peeked "&" rest = false →
  denotes c t → (es - s ≤ turns)%nat →
  ∃ c' s', parseback buf es turns c s = Ret c' s' ∧ pos s' rest ∧ denotes c' (Nat.iter k TBack t) ∧ (s ≤ s')%nat.
Proof.
  induction k as [|k IH]; intros turns c t s rest Hp Hok Hr Hd Ht.
  - exists c, s. split; [|by split]. simpl in Hp, Hok. destruct turns; cbn [parseback];
      rewrite (bind_peek "&" s rest _ Hp Hok ltac:(solve_sets)), Hr; done.
  - cbn [replicate app] in Hp, Hok. destruct (gettoken_sym _ _ _ Hp Hok) as (q0 & e0 & s1 & E1 & Hp1 & Hlt1).
    pose proof Hok as (_ & _ & Hok1). pose proof (proj1 Hp1). destruct turns as [|turns]; [lia|]. cbn [parseback].
    rewrite (bind_peek "&" s _ _ Hp Hok ltac:(solve_sets)). change (peeked "&" _) with true. cbn [negb].
    rewrite (bind_Ret _ _ _ _ _ E1).
    destruct (IH turns (BackCmd c) (TBack t) s1 rest) as (c' & s' & E & Hp' & Hd' & Hle); try done; [lia|].
    exists c', s'. split; [done|]. split; [done|]. split; [by rewrite Nat.iter_succ_r|lia].
Qed.

Lemma unback t : ∃ k p, t = Nat.iter k TBack p ∧ (∀ p', p ≠ TBack p').
Proof.
  induction t as [args|t _ out w|l' _ r _|l' _ r _|t (k & p & -> & Hp)].
  5: { by exists (S k), p. }
  all: by eexists 0%nat, _.
Qed.

Lemma ptoks_back k p : (∀ p', p ≠ TBack p') → ptoks 2 (Nat.iter k TBack p) = ptoks 1 p ++ replicate k (Sym (chr "&")).
Proof.
  intros Hp. induction k as [|k IH]; simpl.
  - rewrite app_nil_r. destruct p; try done. by destruct (Hp p).
  - rewrite IH, <-app_assoc. f_equal. change [Sym _] with (replicate 1 (Sym (chr "&"))).
    by rewrite <-replicate_add, Nat.add_comm.
Qed.

Lemma tree_ok_iter k p : tree_ok (Nat.iter k TBack p) → tree_ok p.
Proof. by induction k. Qed.

(** [p] reads [t] at [s] and stops at the tokens [rest]. *)
Definition parses (p : M nat cmd) (s : nat) (t : tree) (rest : list tok) : Prop :=
  ∃ c s', p s = Ret c s' ∧ pos s' rest ∧ denotes c t ∧ (s ≤ s')%nat.

(** The printed tree at [s] is read by the entry points of the grammar when
    the bound [n] is large enough for what is left of the line. *)
Definition line_reads (n : nat) : Prop := ∀ s t rest,
  tree_ok t → toks_ok (ptoks 3 t ++ rest) → pos s (ptoks 3 t ++ rest) → (4 * (es - s) + 4 ≤ n)%nat → follows ")" rest →
  parses (parseline buf es n) s t rest.
Definition pipe_reads (n : nat) : Prop := ∀ s t rest,
  tree_ok t → toks_ok (ptoks 1 t ++ rest) → pos s (ptoks 1 t ++ rest) → (4 * (es - s) + 3 ≤ n)%nat → follows ")&;" rest →
  parses (parsepipe buf es n) s t rest.
Definition exec_reads (n : nat) : Prop := ∀ s t rest,
  tree_ok t → toks_ok (ptoks 0 t ++ rest) → pos s (ptoks 0 t ++ rest) → (4 * (es - s) + 2 ≤ n)%nat → follows "|)&;" rest →
  parses (parseexec buf es n) s t rest.
Definition block_reads (n : nat) : Prop := ∀ s t rs rest,
  let ts := Sym (chr "(") :: ptoks 3 t ++ Sym (chr ")") :: redir_toks rs ++ rest in
  tree_ok t → toks_ok ts → pos s ts → (4 * (es - s) + 1 ≤ n)%nat → follows "|)&;" rest →
  parses (parseblock buf es n) s (wrap t rs) rest.

(** A pipe line with its [&]s. *)
Lemma back_reads n s t rest :
  pipe_reads n → tree_ok t → toks_ok (ptoks 2 t ++ rest) → pos s (ptoks 2 t ++ rest) → (4 * (es - s) + 3 ≤ n)%nat →
  follows ");" rest → parses (c ← parsepipe buf es n; parseback buf es (length buf) c) s t rest.
Proof.
  intros IH Ht Hok Hp Hn Hf. pose proof (length_buf l junk) as Hlen. destruct (unback t) as (k & p & -> & Hnb).
  rewrite ptoks_back, <-app_assoc in Hok, Hp by done. apply tree_ok_iter in Ht.
  destruct (IH s p (replicate k (Sym (chr "&")) ++ rest) Ht Hok Hp Hn) as (c1 & s1 & E1 & Hp1 & Hd1 & Hle1).
  { destruct k; [eapply follows_weaken; [exact Hf|solve_sets..]|by right]. }
  destruct (parseback_pos k (length buf) c1 p s1 rest Hp1) as (c2 & s2 & E2 & Hp2 & Hd2 & Hle2);
    [by eapply toks_ok_app_r|eapply follows_not; [exact Hf|solve_sets..]|done|lia|].
  exists c2, s2. rewrite (bind_Ret _ _ _ _ _ E1). split; [done|]. split; [done|]. split; [done|lia].
Qed.

Lemma line_step n : pipe_reads n → line_reads n → line_reads (S n).
Proof.
  intros IHp IHl s t rest Ht Hok Hp Hn Hf. unfold parses. cbn [parseline]. rewrite <-bind_bind.
  assert ((∃ a b, t = TList a b) ∨ ptoks 3 t = ptoks 2 t) as [(a & b & ->)|Et] by (destruct t; eauto).
  - change (ptoks 3 (TList a b)) with (ptoks 2 a ++ Sym (chr ";") :: ptoks 3 b) in Hok, Hp. rewrite <-app_assoc in Hok, Hp.
    destruct Ht as [Ha Hb]. destruct (back_reads n s a _ IHp Ha Hok Hp ltac:(lia)) as (c1 & s1 & E1 & Hp1 & Hd1 & Hle1); [by right|].
    apply toks_ok_app_r in Hok. cbn [app] in Hok, Hp1. rewrite (bind_Ret _ _ _ _ _ E1), (bind_peek ";" s1 _ _ Hp1 Hok ltac:(solve_sets)).
    change (peeked ";" _) with true. cbv iota.
    destruct (gettoken_sym _ _ _ Hp1 Hok) as (q & e & s2 & E2 & Hp2 & Hlt2). rewrite (bind_Ret _ _ _ _ _ E2).
    pose proof (proj1 Hp2). pose proof Hok as (_ & _ & Hok2).
    destruct (IHl s2 b rest Hb Hok2 Hp2 ltac:(lia) Hf) as (c3 & s3 & E3 & Hp3 & Hd3 & Hle3). rewrite (bind_Ret _ _ _ _ _ E3).
    exists (ListCmd c1 c3), s3. split; [done|]. split; [done|]. split; [by split|lia].
  - rewrite Et in Hok, Hp.
    destruct (back_reads n s t rest IHp Ht Hok Hp ltac:(lia)) as (c1 & s1 & E1 & Hp1 & Hd1 & Hle1);
      [eapply follows_weaken; [exact Hf|solve_sets..]|].
    rewrite (bind_Ret _ _ _ _ _ E1), (bind_peek ";" s1 rest _ Hp1 (toks_ok_app_r _ _ Hok) ltac:(solve_sets)).
    rewrite (follows_not ")" ";" rest Hf) by solve_sets. by exists c1, s1.
Qed.

Lemma pipe_step n : exec_reads n → pipe_reads n → pipe_reads (S n).
Proof.
  intros IHe IHp s t rest Ht Hok Hp Hn Hf. unfold parses. cbn [parsepipe].
  assert ((∃ a b, t = TPipe a b) ∨ ptoks 1 t = ptoks 0 t) as [(a & b & ->)|Et] by (destruct t; eauto).
  - change (ptoks 1 (TPipe a b)) with (ptoks 0 a ++ Sym (chr "|") :: ptoks 1 b) in Hok, Hp. rewrite <-app_assoc in Hok, Hp.
    destruct Ht as [Ha Hb]. destruct (IHe s a _ Ha Hok Hp ltac:(lia)) as (c1 & s1 & E1 & Hp1 & Hd1 & Hle1); [by right|].
    rewrite (bind_Ret _ _ _ _ _ E1).
    apply toks_ok_app_r in Hok. cbn [app] in Hok, Hp1. rewrite (bind_peek "|" s1 _ _ Hp1 Hok ltac:(solve_sets)).
    change (peeked "|" _) with true. cbv iota.
    destruct (gettoken_sym _ _ _ Hp1 Hok) as (q & e & s2 & E2 & Hp2 & Hlt2). rewrite (bind_Ret _ _ _ _ _ E2).
    pose proof (proj1 Hp2). pose proof Hok as (_ & _ & Hok2).
    destruct (IHp s2 b rest Hb Hok2 Hp2 ltac:(lia) Hf) as (c3 & s3 & E3 & Hp3 & Hd3 & Hle3). rewrite (bind_Ret _ _ _ _ _ E3).
    exists (PipeCmd c1 c3), s3. split; [done|]. split; [done|]. split; [by split|lia].
  - rewrite Et in Hok, Hp.
    destruct (IHe s t rest Ht Hok Hp ltac:(lia)) as (c1 & s1 & E1 & Hp1 & Hd1 & Hle1); [eapply follows_weaken; [exact Hf|solve_sets..]|].
    rewrite (bind_Ret _ _ _ _ _ E1), (bind_peek "|" s1 rest _ Hp1 (toks_ok_app_r _ _ Hok) ltac:(solve_sets)).
    rewrite (follows_not ")&;" "|" rest Hf) by solve_sets. by exists c1, s1.
Qed.

Lemma tree_ok_wrap b rs : tree_ok (wrap b rs) → tree_ok b.
Proof. induction rs as [|r rs IH] using rev_ind; [done|]. rewrite wrap_snoc. intros [_ H]. by apply IH. Qed.

Lemma exec_step n : block_reads n → exec_reads (S n).
Proof.
  intros IHb s t rest Ht Hok Hp Hn Hf. unfold parses. destruct (unwrap t) as (b & rs & -> & Hnr). cbn [parseexec].
  apply tree_ok_wrap in Ht.
  assert ((∃ args, b = TExec args) ∨ ptoks 0 b = Sym (chr "(") :: ptoks 3 b ++ [Sym (chr ")")]) as [(args & ->)|Hb].
  { destruct b; [left; by eexists|by destruct (Hnr b out file)|by right..]. }
  - assert (peeked "(" (ptoks 0 (wrap (TExec args) rs) ++ rest) = false) as Hpk.
    { rewrite ptoks_wrap, <-app_assoc. destruct args as [|w args]; [|done]. destruct rs as [|[[] w] rs]; [|done..].
      simpl. eapply follows_not; [exact Hf|solve_sets..]. }
    rewrite (bind_peek "(" s _ _ Hp Hok ltac:(solve_sets)), Hpk. cbv iota. apply simple_pos; try done. apply Ht.
  - rewrite ptoks_wrap, Hb in Hok, Hp. cbn [app] in Hok, Hp. rewrite <-!app_assoc in Hok, Hp. cbn [app] in Hok, Hp.
    rewrite (bind_peek "(" s _ _ Hp Hok ltac:(solve_sets)). change (peeked "(" _) with true. cbv iota.
    apply (IHb s b rs rest); try done. lia.
Qed.

Lemma block_step n : line_reads n → block_reads (S n).
Proof.
  intros IHl s t rs rest ts Ht Hok Hp Hn Hf. unfold parses, ts in *. cbn [parseblock]. pose proof (length_buf l junk) as Hlen.
  rewrite (bind_peek "(" s _ _ Hp Hok ltac:(solve_sets)). change (peeked "(" _) with true. cbn [negb].
  destruct (gettoken_sym _ _ _ Hp Hok) as (q & e & s1 & E1 & Hp1 & Hlt1). rewrite (bind_Ret _ _ _ _ _ E1). pose proof (proj1 Hp1).
  pose proof Hok as (_ & _ & Hok1). destruct (IHl s1 t _ Ht Hok1 Hp1 ltac:(lia)) as (c2 & s2 & E2 & Hp2 & Hd2 & Hle2); [by right|].
  rewrite (bind_Ret _ _ _ _ _ E2). apply toks_ok_app_r in Hok1.
  rewrite (bind_peek ")" s2 _ _ Hp2 Hok1 ltac:(solve_sets)). change (peeked ")" _) with true. cbn [negb].
  destruct (gettoken_sym _ _ _ Hp2 Hok1) as (q3 & e3 & s3 & E3 & Hp3 & Hlt3). rewrite (bind_Ret _ _ _ _ _ E3). pose proof (proj1 Hp3).
  pose proof Hok1 as (_ & _ & Hok3).
  destruct (parseredirs_pos rs (length buf) c2 t s3 rest Hp3 Hok3) as (c4 & s4 & E4 & Hp4 & Hd4 & Hle4);
    [eapply follows_not; [exact Hf|solve_sets..]|done|lia|].
  exists c4, s4. split; [done|]. split; [done|]. split; [done|lia].
Qed.

Lemma grammar_reads n : line_reads n ∧ pipe_reads n ∧ exec_reads n ∧ block_reads n.
Proof.
  induction n as [|n (IHl & IHp & IHe & IHb)].
  - repeat split; intros s t; [intros rest ? ? ? ?|intros rest ? ? ? ?|intros rest ? ? ? ?|intros rs rest ts ? ? ? ?]; lia.
  - split; [by apply line_step|]. split; [by apply pipe_step|]. split; [by apply exec_step|by apply block_step].
Qed.
End reader.

(** ** The strings after [nulterminate] *)

(** [b] is [b0] with NULs in the place of some blanks. *)
Definition blanked (b0 b : list Z) : Prop := ∀ i, b !! i = b0 !! i ∨ (b0 !! i = Some 32 ∧ b !! i = Some 0).

(** The strings of [c] in the buffer [b] make the tree [t]. *)
Fixpoint reads (b : list Z) (c : cmd) (t : tree) : Prop :=
  match c, t with
  | ExecCmd argv, TExec args => (λ a, str b a.1) <$> argv = args
  | RedirCmd c q _ mode fd, TRedir t out w =>
      str b q = w ∧ mode = redir_mode out ∧ fd = (if out then 1 else 0) ∧ reads b c t
  | PipeCmd l r, TPipe l' r' | ListCmd l r, TList l' r' => reads b l l' ∧ reads b r r'
  | BackCmd c, TBack t => reads b c t
  | _, _ => False
  end.

Fixpoint ends_zero (b : list Z) (c : cmd) : Prop :=
  match c with
  | ExecCmd argv => Forall (λ a, b !! a.2 = Some 0) argv
  | RedirCmd c _ eq _ _ => b !! eq = Some 0 ∧ ends_zero b c
  | PipeCmd l r | ListCmd l r => ends_zero b l ∧ ends_zero b r
  | BackCmd c => ends_zero b c
  end.

Definition keeps_zeros (b b' : list Z) : Prop := ∀ i : nat, b !! i = Some 0 → b' !! i = Some 0.

Lemma ends_zero_mono b b' c : keeps_zeros b b' → ends_zero b c → ends_zero b' c.
Proof.
  intros Hk. induction c; simpl; try tauto.
  - intros H. eapply Forall_impl; [exact H|]. intros a. apply Hk.
  - intros [H1 H2]. split; [by apply Hk|tauto].
Qed.

Section terminate.
Context (l junk : list Z).
Notation buf := (buf l junk).

Lemma put_blank b eq : blanked buf b → l !! eq = Some 32 →
  ∃ b', put b eq 0 = Some b' ∧ blanked buf b' ∧ b' !! eq = Some 0 ∧ keeps_zeros b b'.
Proof.
  intros Hb He. assert (buf !! eq = Some 32) as Hbe.
  { unfold ShParse.buf. rewrite lookup_app_l; [done|by eapply lookup_lt_Some]. }
  assert (eq < length b)%nat as Hlt.
  { apply lookup_lt_is_Some. destruct (Hb eq) as [->|[_ ->]]; [rewrite Hbe|]; eauto. }
  exists (<[eq := 0]> b). unfold put. destruct (Nat.ltb_spec eq (length b)); [|lia]. split; [done|].
  split; [|split; [by apply list_lookup_insert_eq|]]; intros i; rewrite list_insert_lookup_iff by done.
  - case_decide as E; [subst i; by right|]. apply Hb.
  - by case_decide.
Qed.

Lemma terminate_ok c : ∀ t b, denotes l c t → blanked buf b →
  ∃ b', nulterminate c b = Some b' ∧ blanked buf b' ∧ ends_zero b' c ∧ keeps_zeros b b'.
Proof.
  assert (∀ (m : list Z → option (list Z)) (n : list Z → option (list Z)) (P Q : list Z → Prop) b, blanked buf b →
    (∀ b b', keeps_zeros b b' → P b → P b') →
    (∀ b, blanked buf b → ∃ b', m b = Some b' ∧ blanked buf b' ∧ P b' ∧ keeps_zeros b b') →
    (∀ b, blanked buf b → ∃ b', n b = Some b' ∧ blanked buf b' ∧ Q b' ∧ keeps_zeros b b') →
    ∃ b', (m b ≫= n) = Some b' ∧ blanked buf b' ∧ (P b' ∧ Q b') ∧ keeps_zeros b b') as Hseq.
  { intros m n P Q b Hb Hmono Hm Hn. destruct (Hm b Hb) as (b1 & -> & Hb1 & HP & Hk1). simpl.
    destruct (Hn b1 Hb1) as (b2 & -> & Hb2 & HQ & Hk2). exists b2. split; [done|]. split; [done|].
    split; [split; [by eapply Hmono|done]|]. intros i Hi. by apply Hk2, Hk1. }
  induction c as [argv|c IH q eq mode fd|x IHx y IHy|x IHx y IHy|c IH]; intros t b Hd Hb; destruct t; simpl in Hd; try done.
  - simpl. revert b Hb. induction Hd as [|[q e] w argv args Hw _ IH]; intros b Hb.
    { exists b. split; [done|]. split; [done|]. split; [constructor|by intros i]. }
    cbn [foldl snd]. destruct (put_blank b e Hb) as (b1 & E1 & Hb1 & Hz & Hk1); [apply Hw|]. simpl. rewrite E1.
    destruct (IH b1 Hb1) as (b2 & E2 & Hb2 & Hz2 & Hk2). exists b2. split; [done|]. split; [done|].
    split; [constructor; [by apply Hk2|done]|]. intros i Hi. by apply Hk2, Hk1.
  - destruct Hd as (Hw & _ & _ & Hd). simpl.
    destruct (Hseq (nulterminate c) (λ b, put b eq 0) (λ b, ends_zero b c) (λ b, b !! eq = Some 0) b Hb)
      as (b' & E & Hb' & [H1 H2] & Hk); [intros ? ?; apply ends_zero_mono|by eauto|intros; apply put_blank; [done|apply Hw]|].
    by exists b'.
  - destruct Hd as [H1 H2]. simpl. by eapply (Hseq (nulterminate x) (nulterminate y) (λ b, ends_zero b x) (λ b, ends_zero b y));
      eauto using ends_zero_mono.
  - destruct Hd as [H1 H2]. simpl. by eapply (Hseq (nulterminate x) (nulterminate y) (λ b, ends_zero b x) (λ b, ends_zero b y));
      eauto using ends_zero_mono.
  - by eapply IH.
Qed.

Lemma cstr_prefix d w : (∀ i, (i < length w)%nat → d !! i = w !! i) → d !! length w = Some 0 → 0 ∉ w → cstr d = w.
Proof.
  revert d. induction w as [|c w IH]; intros d Hd Hz Hn.
  - destruct d as [|x d]; [done|]. simpl in *. by simplify_eq.
  - destruct d as [|x d]; [done|]. pose proof (Hd 0%nat ltac:(simpl; lia)) as Hx. simpl in Hx. simplify_eq.
    apply not_elem_of_cons in Hn as [Hc Hn]. simpl. destruct (Z.eqb_spec c 0); [congruence|]. f_equal.
    apply IH; [|done|done]. intros i Hi. apply (Hd (S i)). simpl. lia.
Qed.

Lemma word_str b w q e : blanked buf b → word_ok w → word_at l w q e → b !! e = Some 0 → str b q = w.
Proof.
  intros Hb [_ Hw] (-> & Ht & _) Hz. unfold str. rewrite Forall_forall in Hw. apply cstr_prefix.
  - intros i Hi. rewrite lookup_drop. destruct (lookup_lt_is_Some_2 w i Hi) as [c Hc].
    assert (l !! (q + i)%nat = Some c) as Hlc by (rewrite <-lookup_drop, <-(lookup_take_lt _ (length w)) by done; by rewrite Ht).
    assert (buf !! (q + i)%nat = Some c) as Hbc.
    { unfold ShParse.buf. rewrite lookup_app_l; [done|by eapply lookup_lt_Some]. }
    destruct (Hb (q + i)%nat) as [->|[H _]]; [congruence|]. exfalso. rewrite Hbc in H. injection H as ->.
    destruct (Hw 32) as [Hc' _]; [by eapply list_elem_of_lookup_2|]. by vm_compute in Hc'.
  - by rewrite lookup_drop.
  - intros Hin. by destruct (Hw _ Hin) as [_ ?].
Qed.

Lemma denotes_reads b c : ∀ t, blanked buf b → tree_ok t → denotes l c t → ends_zero b c → reads b c t.
Proof.
  intros t Hb. revert t. induction c as [argv|c IH q eq mode fd|x IHx y IHy|x IHx y IHy|c IH]; intros t Ht Hd Hz;
    destruct t; simpl in *; try done.
  - destruct Ht as [Ht _]. induction Hd as [|[q e] w argv args Hw _ IH]; [done|]. inversion Ht; inversion Hz; subst.
    rewrite fmap_cons. f_equal; [by apply (word_str b w q e)|by apply IH].
  - destruct Hd as (Hw & -> & -> & Hd), Hz as [Hz1 Hz2], Ht as [Hwo Ht]. split; [by eapply word_str|]. split; [done|]. split; [done|].
    by apply IH.
  - destruct Hd, Hz, Ht. auto.
  - destruct Hd, Hz, Ht. auto.
  - auto.
Qed.
End terminate.

(** ** Round trip *)

Lemma print_no_nul t : tree_ok t → 0 ∉ print t.
Proof.
  intros Ht. assert (∀ ts, toks_ok ts → 0 ∉ render ts) as Hr.
  { induction ts as [|k ts IH]; [intros _; apply not_elem_of_nil|]. intros (Hk & _ & Hts).
    change (render (k :: ts)) with (render1 k ++ render ts). apply not_elem_of_app. split; [|by apply IH]. destruct k as [w|c]; simpl.
    - destruct Hk as [_ Hw]. rewrite Forall_forall in Hw. rewrite not_elem_of_app, not_elem_of_cons. split; [|set_solver].
      intros Hin. by destruct (Hw _ Hin).
    - destruct (symbol_props c Hk) as (_ & _ & Hc). set_solver. }
  apply Hr. rewrite <-(app_nil_r (ptoks 3 t)). by apply ptoks_ok.
Qed.

Lemma parsecmd_print t junk :
  tree_ok t → ∃ c b, parsecmd (print t ++ 0 :: junk) = Done (c, b) ∧ reads b c t.
Proof.
  intros Ht. pose proof (print_no_nul t Ht) as Hz. set (l := print t) in *.
  assert (toks_ok (ptoks 3 t ++ [])) as Hok by by apply ptoks_ok.
  assert (pos l 0 (ptoks 3 t ++ [])) as Hp by (split; [lia|by rewrite app_nil_r]).
  destruct (grammar_reads l junk Hz (4 * es l + 4)) as (Hline & _).
  destruct (Hline 0%nat t [] Ht Hok Hp ltac:(lia) ltac:(by left)) as (c & s' & E & Hp' & Hd & _).
  assert (s' = es l) as ->.
  { destruct Hp' as [H1 H2]. apply (f_equal length) in H2. rewrite length_drop in H2. simpl in H2. unfold es in *. lia. }
  assert (parse (buf l junk) (es l) = Ret c (es l)) as Eparse.
  { unfold parse. rewrite (bind_Ret _ _ _ _ _ E). by rewrite (bind_peek l junk "" (es l) [] _ Hp' I ltac:(constructor)). }
  destruct (terminate_ok l junk c t (buf l junk) Hd) as (b & Eb & Hb & Hez & _); [by left|].
  exists c, b. split; [|by eapply denotes_reads].
  unfold parsecmd. change (l ++ 0 :: junk) with (buf l junk). rewrite strlen_buf by done. cbn [mem].
  change (Done (Z.of_nat (es l)) ≫= ?f) with (f (Z.of_nat (es l))). cbv beta zeta. rewrite Nat2Z.id, Eparse, Nat.eqb_refl.
  cbn [negb]. by rewrite Eb.
Qed.

(** C32.  Parsing inverts printing: for every command tree (arguments,
    redirections, pipes, lists, background commands, with parentheses where the grammar
    needs them) the parser reads the printed tree back, and in the NUL-terminated buffer every
    string of the result is the tree's. *)
Theorem parse_print_roundtrip t junk :
  tree_ok t → ∃ c b, parsecmd (print t ++ 0 :: junk) = Done (c, b) ∧ reads b c t.
Proof. apply parsecmd_print. Qed.

(** The descriptors of the programs of a tree. *)
Fixpoint tree_wiring (t : tree) (f : fds) (id : nat) : nat * list started :=
  match t with
  | TExec [] => (id, [])
  | TExec (a :: args) => (id, [MkStarted a (a :: args) f])
  | TRedir t out w => tree_wiring t (<[if out then 1 else 0 := FileAt w (redir_mode out)]> f) id
  | TPipe l r =>
      let '(id', es) := tree_wiring l (<[1 := PipeWrite id]> f) (S id) in
      let '(id', es') := tree_wiring r (<[0 := PipeRead id]> f) id' in
      (id', es ++ es')
  | TList l r =>
      let '(id, es) := tree_wiring l f id in
      let '(id, es') := tree_wiring r f id in
      (id, es ++ es')
  | TBack t => tree_wiring t f id
  end.

Lemma reads_wiring b c : ∀ t f id, reads b c t → redirs_ok c ∧ wiring b c f id = tree_wiring t f id.
Proof.
  induction c as [argv|c IH q eq mode fd|x IHx y IHy|x IHx y IHy|c IH]; intros t f id Hr; destruct t; simpl in Hr; try done.
  - split; [done|]. subst args. destruct argv as [|[q e] argv]; reflexivity.
  - destruct Hr as (Hw & -> & -> & Hr). simpl. destruct (IH t (<[if out then 1 else 0 := FileAt file (redir_mode out)]> f) id Hr) as [H1 H2].
    rewrite Hw. split; [|done]. split; [destruct out; auto|done].
  - destruct Hr as [H1 H2]. simpl. destruct (IHx t1 (<[1 := PipeWrite id]> f) (S id) H1) as [Hx ->]. destruct (tree_wiring t1 _ _) as [id' es'].
    by destruct (IHy t2 (<[0 := PipeRead id]> f) id' H2) as [Hy ->].
  - destruct Hr as [H1 H2]. simpl. destruct (IHx t1 f id H1) as [Hx ->]. destruct (tree_wiring t1 _ _) as [id' es'].
    by destruct (IHy t2 f id' H2) as [Hy ->].
  - simpl. by apply IH.
Qed.

(** C31.  What the shell does for a line: the processes it forks for a printed
    command start exactly the programs of the tree, in order, each with the
    standard descriptors that its pipes and redirections give it and no
    other descriptor left open. *)
Theorem shell_starts_tree t junk f id :
  tree_ok t → std f →
  execs ('(c, b) ← parsecmd (print t ++ 0 :: junk); runcmd b c) f id = tree_wiring t f id.
Proof.
  intros Ht Hf. destruct (parsecmd_print t junk Ht) as (c & b & -> & Hr). destruct (reads_wiring b c t f id Hr) as [Hok E].
  rewrite <-E. by apply wiring_ok.
Qed.

Module ShExample.
(** [ls -l | (wc ; cat > out) &] *)
Definition t : tree :=
  TBack (TPipe (TExec [chars "ls"; chars "-l"]) (TList (TExec [chars "wc"]) (TRedir (TExec [chars "cat"]) true (chars "out")))).
Definition f : fds := list_to_map ((λ n, (n, Inherited n)) <$> [0; 1; 2]).

Lemma ok : tree_ok t.
Proof. unfold t. cbn [tree_ok]. by apply (bool_decide_unpack _). Qed.

Lemma std_f : std f.
Proof.
  intros k. split.
  - intros [o Ho]. unfold f in Ho. simpl in Ho. rewrite !lookup_insert_Some in Ho.
    destruct Ho as [[<- _]|[_ [[<- _]|[_ [[<- _]|[_ Ho]]]]]]; [lia..|done].
  - intros Hk. assert (k = 0 ∨ k = 1 ∨ k = 2) as [->|[->| ->]] by lia; by eexists.
Qed.
End ShExample.

Lemma parse_print_roundtrip_witness :
  ∃ c b, parsecmd (print ShExample.t ++ 0 :: []) = Done (c, b) ∧ reads b c ShExample.t.
Proof. apply parse_print_roundtrip. apply ShExample.ok. Defined.

Lemma shell_starts_tree_witness :
  execs ('(c, b) ← parsecmd (print ShExample.t ++ 0 :: []); runcmd b c) ShExample.f 0 = tree_wiring ShExample.t ShExample.f 0.
Proof. apply shell_starts_tree; [apply ShExample.ok|apply ShExample.std_f]. Defined.
